(* ===== verification/_CoqProject ===== *)
-Q . S2P
Prelude.v
Framework.v
Queue.v
Memory.v
Mmu.v
UserBytes.v
KernelBrk.v
BootMemory.v
State.v
Process.v
Ipc.v
Exit.v
Tty.v
Loader.v
Syscalls.v
Trap.v
KernelStart.v
Machine.v
UserMemory.v
Scheduler.v
Waiting.v
Locks.v
Exiting.v
Traps.v
Pipes.v
Terminals.v
Copying.v
Delays.v
Cloning.v
Receiving.v
Reaping.v
ExecStack.v
