(* ===== verification/Prelude.v ===== *)
(** * The Yalnix kernel, verified

    Yalnix is a small teaching kernel: processes with their own address space, fork, exec
    and wait, round-robin scheduling, pipes, locks, condition variables, and terminals.
    This library is a model of the kernel in [src/src/], statement by statement,
    and the theorems that make it correct.

    ** The program and its model

    The kernel runs when a trap of the machine calls one of its handlers ([trap.c]), or at
    boot ([kernelstart.c]).  A handler saves the user's context, runs system calls
    ([syscalls.c], [ipc.c], [tty.c]) on the current process, may give the processor away
    ([process.c]) and returns to user mode.  All of it works on linked queues ([Queue.c]), on
    frames and page tables ([memory.c], [kernelbrk.c]) and on the kernel heap.

    The state is one record per level: [mem] (frames, page tables, registers, physical memory,
    heap blocks in use, the log of external calls), [qheap] (the cells of all queues with
    their pointers), and [kst], all globals of the kernel, which contains the two.  Code is
    a function in the monad [M S J A]: it returns ([Ok]), ends the machine ([Stop]: a panic,
    [Halt], or a fault, which is C undefined behaviour or an access the hardware
    refuses), or leaves for another kernel thread ([Jump]).  A kernel thread that waits in
    [ProcessSchedule] or in [ProcessCloneKernelContext] is a value of [KernelContext], one
    constructor per place it can wait in, with the local variables still needed; what
    the C code does after the wait is a definition of its own, named [_woken],
    [_resumed] or [_cloned], and [resume] (KernelStart.v) is the table of them.
    Pointers are addresses (Z), 0 is null; objects live in maps from addresses, so that they
    are shared and can dangle.  [int]s that can overflow are computed by [int_op], which
    faults where C is undefined; [unsigned] values wrap by [to_uint].

    Files, in the order of dependency, and the code they model:
    - Prelude.v: outcomes, the monad, its loops ([for_range], [for_range_ret], [for_down]),
      the weakest preconditions [wp] and [returns] with their rules, the tactic [run_step]
      with the hint databases [yalnix] and [yalnix_run], lemmas on lists indexed by Z;
    - Framework.v: what is not in the repository (ykernel.h, hardware.h, libkernel.a, the C
      library): the class [Framework] of constants and functions, the class [FrameworkLaws]
      of their documented behaviour, and concrete instances for the witnesses;
    - Queue.v: Queue.c at the level of pointers, and its specification by lists;
    - Memory.v, KernelBrk.v, BootMemory.v: memory.c and kernelbrk.c; [kmalloc] and [kfree] are
      the allocator, which calls the kernel's [SetKernelBrk];
    - Mmu.v, UserBytes.v: loads, stores and [memcpy] through the address translation, a
      parameter with documented laws;
    - State.v: process.h and the types and globals of ipc.c and tty.c; the record [kst];
    - Process.v, Exit.v: process.c; Ipc.v: ipc.c; Tty.v: tty.c; Loader.v: template.c;
      Syscalls.v: syscalls.c; Trap.v: trap.c; KernelStart.v: kernelstart.c;
    - Machine.v: the machine that alternates user programs and traps; scripts of traps run on
      a small machine give the concrete states of the witnesses;
    - UserMemory.v, Scheduler.v, Waiting.v, Locks.v, Exiting.v, Traps.v, Pipes.v, Terminals.v,
      Copying.v, Delays.v, Cloning.v, Receiving.v, Reaping.v,
      ExecStack.v: the theorems about the definitions of the files before them.

    ** What is proved

    - Queues: every sequence of operations that respects the contract of the C interface
      computes what lists do, without touching an entry it should not (C1); first in, first
      out on the pointer code itself (C38).
    - Memory: allocation and release of frames (C36), guarded mapping with the TLB flush (C37),
      release of a table (C35); the accounts at boot (C5) and the panic guard (C40);
      [SetKernelBrk] on every branch (C6) and the off-by-one that gives the scratch page to
      the heap (C39); [SysBrk] (C7) and stack growth (C8) on every branch.  The
      invariant throughout is [accounted]: the frames in use are those of one table and those
      of everybody else, each with one owner.
    - Scheduling: [ProcessSchedule] refines an abstract scheduler on lists (C2), of which
      round robin (C24), the waking of delayed processes (C28) and a defect, the loss of a
      process that runs alone (C27), are consequences; preemption is transparent (C17).
      A delay lasts until its tick (C29), unless the tick wraps around (C34).
    - Processes: fork copies memory or fails for want of frames (C3) and copies the kernel
      stack (C12); exec puts the arguments on the new stack (C13); exit leaves a zombie, no
      locks, and a parent that is ready (C4, C23); wait reaps a zombie and gives back all it
      held (C11).
    - Locks and condition variables: success means ownership (C14, C22), release hands over
      (C15), waiting is atomic (C16), signal and broadcast (C30), reclaim (C31).
    - Pipes: first in, first out (C9, C10), and the size that overflows (C33).
    - Terminals: a typed line is delivered once (C21); a write is transmitted whole and in
      order (C18) and then hands the terminal over (C19); a read takes a line or a part of it (C20); a leftover can be lost (C32).
    - Traps and dispatch: the vector table (C25), one function per system call (C26).

    A theorem with hypotheses has a witness, at a state computed by running the model with a
    small framework ([tiny] or [demo] in Framework.v; Machine.v boots it).

    ** Bounds and fuel

    C loops that are counted are [for_range]; the others have a bound, and the theorems about
    them prove that the code returns: [double_cap] 32 turns (an [int] doubles at most 31
    times before it overflows), [while_queued] the length of the queue (each turn takes an
    entry off), [find_zombie] the number of children, [TtyStartWrite_n] two turns more than
    the writers queued.  Two bounds are those of the code and of the address space, and no
    theorem is about them: the 64 arguments of [count_args], and for [user_string] the bytes
    up to the end of Region 1, behind which the hardware refuses the access.  [run_kernel] has
    explicit fuel, one unit per context switch: it appears only in Machine.v and in the
    computed states.

    ** What the model assumes and leaves out

    - [kmalloc] asks for at most one new break per allocation and none on [free].  What the
      allocator and the other external functions answer is a function of the log of all
      external calls, so that it may differ at each call.
    - [memcpy] within one block is [memcpy_within], of which only the case of disjoint ranges is
      known ([memcpy_disjoint]); the rest is undefined in C and no theorem depends on it.
    - The [length] of a queue is an unbounded integer (in C an [int], which would need 2^31
      entries to overflow).  The union in an IPC object is a record of all members.
    - Translation is by the page walk: stale TLB entries are not modelled, the flushes are in
      the log.  The kernel's own code, data and stack bytes are not in the model: copying a
      kernel stack copies its frames, and the thread on it is the [KernelContext].
    - Trace output is left out.  idle.c is a user-mode loop, re0sp.c and re1sp.c are stubs that
      nothing calls, src/user/ are test programs; none of them is modelled.

    ** What modelling showed

    Besides C27, C32, C33, C34 and C39: [ProcessCopyRegion1] leaves the scratch page mapped to a
    freed frame when it fails (in C3); [SysPipeRead] uses [memcpy] on overlapping ranges
    when fewer bytes are taken than stay; orphans that die are never destroyed; pointers of
    user programs are dereferenced unchecked, so a bad one faults in the kernel. *)

From Stdlib Require Export ZArith Lia.
From stdpp Require Export base tactics option numbers strings gmap list.
Export list_relations list_monad list_basics list_misc.

#[global] Open Scope Z_scope.

(** ** How a piece of kernel code ends

    [Stop] is the end of the machine: [Panic] is [KernelPanic]/[helper_abort],
    [Halted] is [Halt()], [Fault] is C undefined behaviour or a kernel-mode
    access the hardware refuses.  [Jump j] is a transfer of control that does
    not return to the caller (a kernel context switch): [j] says where control
    continues. *)
Inductive stop :=
| Panic (msg : string)
| Halted
| Fault (why : string).

Inductive outcome (S J A : Type) :=
| Ok (a : A) (s : S)
| Jump (j : J) (s : S)
| Stop (r : stop) (s : S).
Arguments Ok {S J A} a s.
Arguments Jump {S J A} j s.
Arguments Stop {S J A} r s.

Definition M (S J A : Type) : Type := S -> outcome S J A.

#[export] Instance M_ret S J : MRet (M S J) := fun A a s => Ok a s.
#[export] Instance M_bind S J : MBind (M S J) := fun A B f m s =>
  match m s with
  | Ok a s' => f a s'
  | Jump j s' => Jump j s'
  | Stop r s' => Stop r s'
  end.

Declare Scope yalnix_scope.
Delimit Scope yalnix_scope with yalnix.
#[global] Open Scope yalnix_scope.

Section Primitives.
Context {S J : Type}.

Definition gets {A} (f : S -> A) : M S J A := fun s => Ok (f s) s.
Definition modify (f : S -> S) : M S J unit := fun s => Ok tt (f s).
Definition stop_with {A} (r : stop) : M S J A := fun s => Stop r s.
Definition fault {A} (why : string) : M S J A := stop_with (Fault why).
Definition jump {A} (j : J) : M S J A := fun s => Jump j s.
Definition skip : M S J unit := mret tt.

(** Dereference of a pointer: [None] is an address with no object behind it. *)
Definition deref {A} (why : string) (o : option A) : M S J A :=
  match o with
  | Some a => mret a
  | None => fault why
  end.

(** C's signed [int] addition, multiplication: an overflow is undefined. *)
Definition INT_MAX : Z := 2 ^ 31 - 1.
Definition INT_MIN : Z := - 2 ^ 31.
Definition int_op (v : Z) : M S J Z :=
  if (INT_MIN <=? v) && (v <=? INT_MAX) then mret v else fault "signed overflow".

(** [for (i = lo; i < hi; i++) body(i)] where [body] never leaves the loop. *)
Fixpoint for_n {A} (n : nat) (i : Z) (body : Z -> M S J A) : M S J unit :=
  match n with
  | O => skip
  | Datatypes.S n' => body i ;; for_n n' (i + 1) body
  end.
Definition for_range {A} (lo hi : Z) (body : Z -> M S J A) : M S J unit :=
  for_n (Z.to_nat (hi - lo)) lo body.

(** The same loop when the body may [return]: [Some r] leaves the function. *)
Fixpoint for_n_ret {A} (n : nat) (i : Z) (body : Z -> M S J (option A))
  : M S J (option A) :=
  match n with
  | O => mret None
  | Datatypes.S n' =>
      r ← body i;
      match r with
      | Some a => mret (Some a)
      | None => for_n_ret n' (i + 1) body
      end
  end.
Definition for_range_ret {A} (lo hi : Z) (body : Z -> M S J (option A))
  : M S J (option A) :=
  for_n_ret (Z.to_nat (hi - lo)) lo body.

(** [for (page = hi; page >= lo; page--)], the descending loops. *)
Fixpoint for_down_ret {A} (n : nat) (i : Z) (body : Z -> M S J (option A))
  : M S J (option A) :=
  match n with
  | O => mret None
  | Datatypes.S n' =>
      r ← body i;
      match r with
      | Some a => mret (Some a)
      | None => for_down_ret n' (i - 1) body
      end
  end.
Fixpoint for_down {A} (n : nat) (i : Z) (body : Z -> M S J A) : M S J unit :=
  match n with
  | O => skip
  | Datatypes.S n' => body i ;; for_down n' (i - 1) body
  end.
End Primitives.

(** Running code of a component on the component's part of a larger state. *)
Definition zoom {S T J A} (get : T -> S) (put : S -> T -> T)
    (m : M S Empty_set A) : M T J A := fun t =>
  match m (get t) with
  | Ok a s => Ok a (put s t)
  | Jump j _ => match j with end
  | Stop r s => Stop r (put s t)
  end.

(** For concrete runs: did the code return, and in which state. *)
Definition returned {S J A} (o : outcome S J A) : bool :=
  match o with Ok _ _ => true | _ => false end.
Definition result {S J A} (o : outcome S J A) : option A :=
  match o with Ok a _ => Some a | _ => None end.
Definition final {S J A} (o : outcome S J A) : S :=
  match o with Ok _ s | Jump _ s | Stop _ s => s end.

(** ** Weakest preconditions

    [wp m Q E X s]: run from [s], [m] returns in [Q], transfers control in [E],
    or stops the machine in [X]. *)
Definition wp {S J A} (m : M S J A) (Q : A -> S -> Prop) (E : J -> S -> Prop)
    (X : stop -> S -> Prop) (s : S) : Prop :=
  match m s with
  | Ok a s' => Q a s'
  | Jump j s' => E j s'
  | Stop r s' => X r s'
  end.




(** [returns m Q s]: the code returns normally from [s], in [Q]. *)
Abbreviation returns m Q s := (wp m Q (fun _ _ => False) (fun _ _ => False) s).

Section WpLemmas.
Context {S J : Type}.
Implicit Types s : S.

Lemma bind_ok {A B} (m : M S J A) (f : A -> M S J B) s a s' :
  m s = Ok a s' -> mbind f m s = f a s'.
Proof. intros H. unfold mbind, M_bind. by rewrite H. Qed.

Lemma bind_gets {A B} (g : S -> A) (f : A -> M S J B) s :
  mbind f (gets g) s = f (g s) s.
Proof. reflexivity. Qed.

Lemma bind_ret {A B} (a : A) (f : A -> M S J B) s :
  mbind f (mret a) s = f a s.
Proof. reflexivity. Qed.

Lemma bind_modify {B} (g : S -> S) (f : unit -> M S J B) s :
  mbind f (modify g) s = f tt (g s).
Proof. reflexivity. Qed.

Lemma bind_bind {A B C} (m : M S J A) (f : A -> M S J B) (g : B -> M S J C) s :
  mbind g (mbind f m) s = mbind (fun a => mbind g (f a)) m s.
Proof. unfold mbind, M_bind. by destruct (m s). Qed.

Lemma wp_bind {A B} (m : M S J A) (f : A -> M S J B) Q E X s :
  wp m (fun a s' => wp (f a) Q E X s') E X s -> wp (mbind f m) Q E X s.
Proof. unfold wp, mbind, M_bind. by destruct (m s). Qed.

Lemma wp_mono {A} (m : M S J A) (Q Q' : A -> S -> Prop) (E E' : J -> S -> Prop)
    (X X' : stop -> S -> Prop) s :
  wp m Q E X s ->
  (forall a s', Q a s' -> Q' a s') -> (forall j s', E j s' -> E' j s') ->
  (forall r s', X r s' -> X' r s') -> wp m Q' E' X' s.
Proof. unfold wp. destruct (m s); eauto. Qed.

Lemma wp_ok {A} (m : M S J A) Q E X s a s' :
  m s = Ok a s' -> Q a s' -> wp m Q E X s.
Proof. unfold wp. by intros ->. Qed.

(** Step over code whose run is known. *)
Lemma wp_step {A B} (m : M S J A) (f : A -> M S J B) Q E X s a s' :
  m s = Ok a s' -> wp (f a) Q E X s' -> wp (mbind f m) Q E X s.
Proof. intros Hm. unfold wp. by rewrite (bind_ok _ _ _ _ _ Hm). Qed.

(** Whatever the first part does, only the second can return. *)
Lemma wp_any {A B} (m : M S J A) (f : A -> M S J B) Q s :
  (forall a s', wp (f a) Q (fun _ _ => True) (fun _ _ => True) s') ->
  wp (mbind f m) Q (fun _ _ => True) (fun _ _ => True) s.
Proof. intros H. apply wp_bind. unfold wp at 1. destruct (m s); [apply H|done..]. Qed.

(** Code that neither transfers control nor stops: it returns. *)
Lemma wp_returns {A} (m : M S J A) (Q : A -> S -> Prop) s :
  wp m Q (fun _ _ => False) (fun _ _ => False) s -> exists a s', m s = Ok a s' /\ Q a s'.
Proof. unfold wp. destruct (m s); naive_solver. Qed.

(** The invariant rule of an ascending counted loop. *)
Lemma wp_for_n {A} (I : Z -> S -> Prop) E X (body : Z -> M S J A) n i s :
  I i s ->
  (forall k s', i <= k < i + Z.of_nat n -> I k s' ->
    wp (body k) (fun _ => I (k + 1)) E X s') ->
  wp (for_n n i body) (fun _ => I (i + Z.of_nat n)) E X s.
Proof.
  revert i s. induction n as [|n IH]; intros i s HI Hb; simpl.
  - unfold wp, skip, mret, M_ret. by rewrite Z.add_0_r.
  - apply wp_bind. eapply wp_mono; [apply Hb; [lia|done]| |done|done].
    intros ? s' HI'. simpl in *.
    replace (i + Z.of_nat (Datatypes.S n)) with (i + 1 + Z.of_nat n) by lia.
    apply IH; [done|]. intros k s'' Hk. apply Hb. lia.
Qed.

(** The same for a loop whose body may return from the function. *)
Lemma wp_for_n_ret {A} (I : Z -> S -> Prop) (R : A -> S -> Prop) E X
    (body : Z -> M S J (option A)) n i s :
  I i s ->
  (forall k s', i <= k < i + Z.of_nat n -> I k s' ->
    wp (body k) (fun r s'' => match r with Some a => R a s'' | None => I (k + 1) s'' end)
      E X s') ->
  wp (for_n_ret n i body)
    (fun r s'' => match r with Some a => R a s'' | None => I (i + Z.of_nat n) s'' end) E X s.
Proof.
  revert i s. induction n as [|n IH]; intros i s HI Hb; simpl.
  - unfold wp, mret, M_ret. by rewrite Z.add_0_r.
  - apply wp_bind. eapply wp_mono; [apply Hb; [lia|done]| |done|done].
    intros [a|] s' HI'; simpl; [done|].
    replace (i + Z.of_nat (Datatypes.S n)) with (i + 1 + Z.of_nat n) by lia.
    apply IH; [done|]. intros k s'' Hk. apply Hb. lia.
Qed.

Lemma wp_for_down_ret {A} (I : Z -> S -> Prop) (R : A -> S -> Prop) E X
    (body : Z -> M S J (option A)) n i s :
  I i s ->
  (forall k s', i - Z.of_nat n < k <= i -> I k s' ->
    wp (body k) (fun r s'' => match r with Some a => R a s'' | None => I (k - 1) s'' end)
      E X s') ->
  wp (for_down_ret n i body)
    (fun r s'' => match r with Some a => R a s'' | None => I (i - Z.of_nat n) s'' end) E X s.
Proof.
  revert i s. induction n as [|n IH]; intros i s HI Hb; simpl.
  - unfold wp, mret, M_ret. by rewrite Z.sub_0_r.
  - apply wp_bind. eapply wp_mono; [apply Hb; [lia|done]| |done|done].
    intros [a|] s' HI'; simpl; [done|].
    replace (i - Z.of_nat (Datatypes.S n)) with (i - 1 - Z.of_nat n) by lia.
    apply IH; [done|]. intros k s'' Hk. apply Hb. lia.
Qed.

Lemma wp_for_down {A} (I : Z -> S -> Prop) E X (body : Z -> M S J A) n i s :
  I i s ->
  (forall k s', i - Z.of_nat n < k <= i -> I k s' ->
    wp (body k) (fun _ => I (k - 1)) E X s') ->
  wp (for_down n i body) (fun _ => I (i - Z.of_nat n)) E X s.
Proof.
  revert i s. induction n as [|n IH]; intros i s HI Hb; simpl.
  - unfold wp, skip, mret, M_ret. by rewrite Z.sub_0_r.
  - apply wp_bind. eapply wp_mono; [apply Hb; [lia|done]| |done|done].
    intros ? s' HI'. simpl in *.
    replace (i - Z.of_nat (Datatypes.S n)) with (i - 1 - Z.of_nat n) by lia.
    apply IH; [done|]. intros k s'' Hk. apply Hb. lia.
Qed.

(** *** Loops that return *)

Lemma returns_mono {A} (m : M S J A) (Q Q' : A -> S -> Prop) s :
  returns m Q s -> (forall a s', Q a s' -> Q' a s') -> returns m Q' s.
Proof. intros. by eapply wp_mono. Qed.

Lemma returns_for_range {A} (I : Z -> S -> Prop) (body : Z -> M S J A) lo hi s :
  lo <= hi -> I lo s ->
  (forall k s', lo <= k < hi -> I k s' -> returns (body k) (fun _ => I (k + 1)) s') ->
  returns (for_range lo hi body) (fun _ => I hi) s.
Proof.
  intros Hle HI Hb. unfold for_range. eapply returns_mono.
  - apply (wp_for_n I); [done|]. intros k s' Hk. apply Hb. lia.
  - intros ? s'. by replace (lo + Z.of_nat (Z.to_nat (hi - lo))) with hi by lia.
Qed.

Lemma returns_for_range_ret {A} (I : Z -> S -> Prop) (R : A -> S -> Prop)
    (body : Z -> M S J (option A)) lo hi s :
  lo <= hi -> I lo s ->
  (forall k s', lo <= k < hi -> I k s' ->
    returns (body k) (fun r s'' => match r with Some a => R a s'' | None => I (k + 1) s'' end) s') ->
  returns (for_range_ret lo hi body)
    (fun r s'' => match r with Some a => R a s'' | None => I hi s'' end) s.
Proof.
  intros Hle HI Hb. unfold for_range_ret. eapply returns_mono.
  - apply (wp_for_n_ret I R); [done|]. intros k s' Hk. apply Hb. lia.
  - intros [a|] s'; [done|]. by replace (lo + Z.of_nat (Z.to_nat (hi - lo))) with hi by lia.
Qed.

Lemma returns_for_down {A} (I : Z -> S -> Prop) (body : Z -> M S J A) lo hi s :
  lo <= hi -> I (hi - 1) s ->
  (forall k s', lo <= k < hi -> I k s' -> returns (body k) (fun _ => I (k - 1)) s') ->
  returns (for_down (Z.to_nat (hi - lo)) (hi - 1) body) (fun _ => I (lo - 1)) s.
Proof.
  intros Hle HI Hb. eapply returns_mono.
  - apply (wp_for_down I); [done|]. intros k s' Hk. apply Hb. lia.
  - intros ? s'. by replace (hi - 1 - Z.of_nat (Z.to_nat (hi - lo))) with (lo - 1) by lia.
Qed.

(** Sequencing of code that returns. *)
Lemma returns_bind {A B} (m : M S J A) (f : A -> M S J B) (Q : A -> S -> Prop) R s :
  returns m Q s -> (forall a s', Q a s' -> returns (f a) R s') -> returns (mbind f m) R s.
Proof. intros Hm Hf. apply wp_bind. by eapply returns_mono. Qed.

Lemma returns_then {A B} (m : M S J A) (f : A -> M S J B) (Q : A -> S -> Prop) R E X s :
  returns m Q s -> (forall a s', Q a s' -> wp (f a) R E X s') -> wp (mbind f m) R E X s.
Proof.
  intros Hm Hf. apply wp_bind. destruct (wp_returns _ _ _ Hm) as (a & s' & Hr & Hq).
  by eapply wp_ok; [exact Hr|apply Hf].
Qed.

Lemma returns_ok {A} (m : M S J A) (Q : A -> S -> Prop) s a s' :
  m s = Ok a s' -> Q a s' -> returns m Q s.
Proof. apply wp_ok. Qed.

(** A loop whose bounds are already crossed does nothing. *)
Lemma for_range_empty {A} (body : Z -> M S J A) lo hi s :
  hi <= lo -> for_range lo hi body s = Ok tt s.
Proof. intros. unfold for_range. by replace (Z.to_nat (hi - lo)) with 0%nat by lia. Qed.

Lemma for_range_ret_empty {A} (body : Z -> M S J (option A)) lo hi s :
  hi <= lo -> for_range_ret lo hi body s = Ok None s.
Proof. intros. unfold for_range_ret. by replace (Z.to_nat (hi - lo)) with 0%nat by lia. Qed.
End WpLemmas.

(** Code of a component, run inside the larger state. *)
Lemma zoom_run {S T J A} (get : T -> S) (put : S -> T -> T) (m : M S Empty_set A) t a s' :
  m (get t) = Ok a s' -> (zoom get put m : M T J A) t = Ok a (put s' t).
Proof. unfold zoom. by intros ->. Qed.

Lemma wp_zoom {S T J A} (get : T -> S) (put : S -> T -> T) (m : M S Empty_set A)
    (Q : A -> T -> Prop) (E : J -> T -> Prop) X t :
  wp m (fun a s' => Q a (put s' t)) (fun _ _ => False) (fun r s' => X r (put s' t)) (get t) ->
  wp (zoom get put m) Q E X t.
Proof. unfold wp, zoom. destruct (m (get t)) as [| []|]; done. Qed.

Create HintDb yalnix.
Create Rewrite HintDb yalnix_run.
#[export] Hint Rewrite @bind_gets @bind_ret @bind_modify @bind_bind : yalnix_run.

(** Turn the boolean tests of the code into propositions. *)
Ltac bool_to_prop :=
  repeat match goal with
  | H : (_ && _)%bool = true |- _ => apply andb_true_iff in H as [? ?]
  | H : (_ && _)%bool = false |- _ => apply andb_false_iff in H
  | H : (_ || _)%bool = true |- _ => apply orb_true_iff in H
  | H : (_ || _)%bool = false |- _ => apply orb_false_iff in H as [? ?]
  | H : negb _ = true |- _ => apply negb_true_iff in H
  | H : negb _ = false |- _ => apply negb_false_iff in H
  | H : (_ =? _) = true |- _ => apply Z.eqb_eq in H
  | H : (_ =? _) = false |- _ => apply Z.eqb_neq in H
  | H : (_ <? _) = true |- _ => apply Z.ltb_lt in H
  | H : (_ <? _) = false |- _ => apply Z.ltb_ge in H
  | H : (_ <=? _) = true |- _ => apply Z.leb_le in H
  | H : (_ <=? _) = false |- _ => apply Z.leb_gt in H
  end.

(** Case analysis on the next boolean test of the goal. *)
Ltac case_test :=
  match goal with
  | |- context [if ?b then _ else _] =>
      lazymatch type of b with
      | bool => let H := fresh "Ht" in destruct b eqn:H; bool_to_prop
      end
  end.

(** Decide a boolean test of the goal by arithmetic. *)
Ltac test_true b := replace b with true by (symmetry; lia).
Ltac test_false b := replace b with false by (symmetry; lia).

(** Step through the straight-line prefix of a run. *)
Ltac mstep := autorewrite with yalnix_run.

(** Step over an accessor whose result the context determines: the run lemmas of the
    accessors are hints of [yalnix]. *)
Ltac run_step := eapply wp_step; [solve [eauto with yalnix]|].

(** Name the body of the loop in the goal. *)
Ltac set_body b :=
  match goal with
  | |- context [for_n_ret _ _ ?f] => set (b := f)
  | |- context [for_n _ _ ?f] => set (b := f)
  | |- context [for_down_ret _ _ ?f] => set (b := f)
  | |- context [for_down _ _ ?f] => set (b := f)
  end.

(** A decidable proposition about concrete data, settled by evaluation. *)
Ltac by_computing := apply (bool_decide_unpack _); vm_compute; exact I.

(** ** Machine integers *)

(** The value of a register read as the C type [int]. *)
Definition to_int (z : Z) : Z := (z + 2 ^ 31) mod 2 ^ 32 - 2 ^ 31.
(** The value stored in an [unsigned int] or a 32-bit register. *)
Definition to_uint (z : Z) : Z := z mod 2 ^ 32.

Lemma to_int_range z : INT_MIN <= to_int z <= INT_MAX.
Proof. unfold to_int, INT_MIN, INT_MAX. pose proof (Z.mod_pos_bound (z + 2^31) (2^32)). lia. Qed.

Lemma to_uint_range z : 0 <= to_uint z < 2 ^ 32.
Proof. unfold to_uint. apply Z.mod_pos_bound. lia. Qed.

Lemma to_int_id z : INT_MIN <= z <= INT_MAX -> to_int z = z.
Proof. unfold to_int, INT_MIN, INT_MAX. intros. rewrite Z.mod_small; lia. Qed.

(** A C [int] survives the trip through an unsigned 32-bit register. *)
Lemma to_int_to_uint z : INT_MIN <= z <= INT_MAX -> to_int (to_uint z) = z.
Proof.
  intros Hz. rewrite <- (to_int_id z Hz) at 2. unfold to_int, to_uint.
  by rewrite Zplus_mod_idemp_l.
Qed.

(** ** Lists as C arrays *)

Lemma list_update_lookup {A} (l : list A) (i j : nat) x :
  <[i := x]> l !! j = if decide (i = j) then (if decide (i < length l)%nat then Some x else None) else l !! j.
Proof.
  case_decide as Hij; [subst|by rewrite list_lookup_insert_ne].
  case_decide; [by rewrite list_lookup_insert_eq|].
  rewrite list_insert_ge by lia. apply lookup_ge_None. lia.
Qed.

Lemma filter_all {A} (P : A -> Prop) `{forall x, Decision (P x)} (l : list A) :
  (forall x, x ∈ l -> P x) -> filter P l = l.
Proof.
  induction l as [|x l IH]; intros Hl; [done|].
  rewrite filter_cons_True by (apply Hl; set_solver). f_equal. apply IH. set_solver.
Qed.

(** ** Finite maps *)

Lemma alter_Some `{Countable K} {A} (f : A -> A) (m : gmap K A) i x :
  m !! i = Some x -> alter f i m = <[i := f x]> m.
Proof.
  intros Hi. apply map_eq. intros j. rewrite lookup_alter, lookup_insert.
  case_decide; [subst; by rewrite Hi|done].
Qed.
