(* ===== verification/Framework.v ===== *)
(** * The framework the kernel is written against

    [ykernel.h], [hardware.h], the linker's symbols and [libkernel.a] are not
    part of the repository.  Every constant and function the sources take from
    them is a field of the class [Framework]; what the sources rely on is the
    class [FrameworkLaws].  External functions answer from the log of all
    external calls so far, so that they may behave differently at every call.
    [demo] is a concrete framework, used only by the witnesses. *)

From S2P Require Import Prelude.

Inductive hwreg :=
| REG_VECTOR_BASE | REG_VM_ENABLE | REG_TLB_FLUSH
| REG_PTBR0 | REG_PTLR0 | REG_PTBR1 | REG_PTLR1.

#[export] Instance hwreg_eq_dec : EqDecision hwreg.
Proof. solve_decision. Defined.

(** One interaction of the kernel with the world outside [src/]. *)
Inductive event :=
| EvReg (r : hwreg) (v : Z)              (* WriteRegister(r, v) *)
| EvMalloc (bytes : Z)                   (* malloc(bytes), calloc *)
| EvBrk (addr rc : Z)                    (* the allocator called SetKernelBrk(addr) *)
| EvNewPid (pt : Z)                      (* helper_new_pid(pt) *)
| EvRetirePid (pid : Z)                  (* helper_retire_pid(pid) *)
| EvSwitch                               (* KernelContextSwitch(...) *)
| EvTtyReceive (tty : Z)                 (* TtyReceive(tty, ...) *)
| EvTtyTransmit (tty : Z) (bytes : list Z) (* TtyTransmit(tty, bytes) *)
| EvOpen (name : list Z)                 (* open(name, O_RDONLY) *)
| EvLoadInfo (fd : Z)                    (* LoadInfo(fd, &li) *)
| EvRead (fd offset bytes : Z)           (* lseek(fd, offset), read(fd, _, bytes) *)
| EvClose (fd : Z).                      (* close(fd) *)

#[export] Instance event_eq_dec : EqDecision event.
Proof. solve_decision. Defined.

(** The trap numbers of hardware.h and the system call numbers of yalnix.h. *)
Inductive trap :=
| TRAP_KERNEL | TRAP_CLOCK | TRAP_ILLEGAL | TRAP_MEMORY | TRAP_MATH
| TRAP_TTY_RECEIVE | TRAP_TTY_TRANSMIT | TRAP_DISK.

Inductive syscall :=
| YALNIX_FORK | YALNIX_EXEC | YALNIX_EXIT | YALNIX_WAIT | YALNIX_GETPID | YALNIX_BRK
| YALNIX_DELAY | YALNIX_TTY_READ | YALNIX_TTY_WRITE
| YALNIX_PIPE_INIT | YALNIX_PIPE_READ | YALNIX_PIPE_WRITE
| YALNIX_LOCK_INIT | YALNIX_LOCK_ACQUIRE | YALNIX_LOCK_RELEASE
| YALNIX_CVAR_INIT | YALNIX_CVAR_SIGNAL | YALNIX_CVAR_BROADCAST | YALNIX_CVAR_WAIT
| YALNIX_RECLAIM.

#[export] Instance trap_eq_dec : EqDecision trap.
Proof. solve_decision. Defined.
#[export] Instance syscall_eq_dec : EqDecision syscall.
Proof. solve_decision. Defined.

(** The framework's [struct load_info]. *)
Record load_info := mkLoadInfo {
  li_entry : Z;
  li_t_faddr : Z; li_t_vaddr : Z; li_t_npg : Z;
  li_id_faddr : Z; li_id_vaddr : Z; li_id_npg : Z; li_id_end : Z;
  li_ud_npg : Z; li_ud_end : Z
}.

Class Framework := {
  (* hardware.h: paging *)
  PAGESHIFT : Z;
  PAGESIZE : Z;
  VMEM_1_BASE : Z;
  VMEM_1_LIMIT : Z;
  MAX_PT_LEN : Z;
  MAX_PMEM_SIZE : Z;
  KERNEL_STACK_BASE : Z;
  KERNEL_STACK_LIMIT : Z;
  KERNEL_STACK_MAXSIZE : Z;
  UP_TO_PAGE : Z -> Z;
  DOWN_TO_PAGE : Z -> Z;
  TLB_FLUSH_ALL : Z;
  TLB_FLUSH_1 : Z;
  TLB_FLUSH_KSTACK : Z;
  PROT_NONE : Z;
  PROT_READ : Z;
  PROT_WRITE : Z;
  PROT_EXEC : Z;
  (* the kernel image, set up by the boot loader *)
  first_kernel_text_page : Z;
  first_kernel_data_page : Z;
  orig_kernel_brk_page : Z;
  (* yalnix.h *)
  SUCCESS : Z;
  ERROR : Z;
  KILL : Z;
  sizeof : string -> Z;
  MAX_PROCS : Z;
  NUM_TERMINALS : Z;
  TERMINAL_MAX_LINE : Z;
  PIPE_BUFFER_LEN : Z;
  trap_number : trap -> Z;
  TRAP_VECTOR_SIZE : Z;
  syscall_number : syscall -> Z;
  POST_ARGV_NULL_SPACE : Z;
  INITIAL_STACK_FRAME_SIZE : Z;
  (* addresses chosen by the linker *)
  DoIdle : Z;
  trap_vector : Z;
  (* [memcpy(b + dst, b + src, n)] inside one buffer [b], overlapping or not *)
  memcpy_within : list Z -> Z -> Z -> Z -> list Z;
  (* external functions, answering from the log of external calls *)
  malloc_brk : list event -> Z -> option Z;
  malloc_ptr : list event -> gset Z -> Z -> option Z;
  malloc_bytes : list event -> Z -> list Z;
  helper_new_pid : list event -> Z -> Z;
  switch_fails : list event -> bool;
  tty_receive : list event -> Z -> Z * list Z;
  exec_open : list event -> list Z -> Z;
  exec_load_info : list event -> Z -> option load_info;
  exec_read : list event -> Z -> Z -> Z -> list Z
}.

Class FrameworkLaws (F : Framework) : Prop := {
  (* a page is a power of two; both regions have MAX_PT_LEN pages and follow
     one another in the 31-bit part of the address space *)
  pageshift_pos : 0 <= PAGESHIFT;
  pagesize_def : PAGESIZE = 2 ^ PAGESHIFT;
  max_pt_len_pos : 0 < MAX_PT_LEN;
  region0_size : VMEM_1_BASE = MAX_PT_LEN * PAGESIZE;
  region1_size : VMEM_1_LIMIT = VMEM_1_BASE + MAX_PT_LEN * PAGESIZE;
  region1_int : VMEM_1_LIMIT <= INT_MAX;
  (* the kernel stack: two pages in Region 0, below Region 1 *)
  kstack_two : KERNEL_STACK_MAXSIZE = 2 * PAGESIZE;
  kstack_aligned : KERNEL_STACK_BASE = (KERNEL_STACK_BASE ≫ PAGESHIFT) * PAGESIZE;
  kstack_limit : KERNEL_STACK_LIMIT = KERNEL_STACK_BASE + KERNEL_STACK_MAXSIZE;
  kstack_in_region0 : KERNEL_STACK_LIMIT <= VMEM_1_BASE;
  kimage : 0 <= first_kernel_text_page <= first_kernel_data_page /\
           first_kernel_data_page <= orig_kernel_brk_page /\
           0 < orig_kernel_brk_page < KERNEL_STACK_BASE ≫ PAGESHIFT;
  (* the rounding macros *)
  up_to_page_spec : forall a, 0 <= a <= VMEM_1_LIMIT ->
    UP_TO_PAGE a = (a + PAGESIZE - 1) / PAGESIZE * PAGESIZE;
  down_to_page_spec : forall a, 0 <= a <= VMEM_1_LIMIT ->
    DOWN_TO_PAGE a = a / PAGESIZE * PAGESIZE;
  (* return codes *)
  success_zero : SUCCESS = 0;
  error_neg : ERROR < 0;
  error_int : INT_MIN <= ERROR;
  kill_neither : KILL <> SUCCESS /\ KILL <> ERROR;
  (* sizes *)
  max_procs_pos : 0 < MAX_PROCS;
  num_terminals_pos : 0 < NUM_TERMINALS;
  terminal_max_line_pos : 0 < TERMINAL_MAX_LINE;
  pipe_buffer_len_pos : 0 < PIPE_BUFFER_LEN;
  (* malloc returns a block that is not in use, never the null pointer *)
  malloc_fresh : forall log inuse n p,
    malloc_ptr log inuse n = Some p -> p <> 0 /\ p ∉ inuse;
  (* a block of n bytes has n bytes, of unspecified value *)
  malloc_bytes_len : forall log n, 0 <= n -> length (malloc_bytes log n) = Z.to_nat n;
  (* the protection bits are independent *)
  prot_rw_read : Z.land (Z.lor PROT_READ PROT_WRITE) PROT_READ <> 0;
  prot_rw_write : Z.land (Z.lor PROT_READ PROT_WRITE) PROT_WRITE <> 0;
  (* trap and system call numbers are case labels and array indices *)
  trap_number_inj : Inj eq eq trap_number;
  trap_number_range : forall t, 0 <= trap_number t < TRAP_VECTOR_SIZE;
  syscall_number_inj : Inj eq eq syscall_number;
  post_argv_space : 0 <= POST_ARGV_NULL_SPACE <= PAGESIZE;
  initial_frame_size : 0 <= INITIAL_STACK_FRAME_SIZE <= PAGESIZE;
  (* the C standard defines memcpy when the two ranges do not overlap *)
  memcpy_disjoint : forall b dst src n,
    0 <= n -> 0 <= dst -> 0 <= src ->
    dst + n <= Z.of_nat (length b) -> src + n <= Z.of_nat (length b) ->
    dst + n <= src \/ src + n <= dst ->
    memcpy_within b dst src n =
      take (Z.to_nat dst) b ++ take (Z.to_nat n) (drop (Z.to_nat src) b)
        ++ drop (Z.to_nat (dst + n)) b;
  (* read returns at most what was asked for *)
  exec_read_len : forall log fd off n,
    Z.of_nat (length (exec_read log fd off n)) <= Z.max 0 n;
  (* TtyReceive fills at most the buffer it is given *)
  tty_receive_len : forall log t len bytes,
    tty_receive log t = (len, bytes) ->
    len < 0 \/ (len <= TERMINAL_MAX_LINE /\ len = Z.of_nat (length bytes))
}.

(** ** A concrete framework *)

(** The lowest block number above everything in use. *)
Definition demo_malloc (inuse : gset Z) : Z :=
  1 + set_fold Z.max 0 inuse.

Lemma demo_malloc_ge (inuse : gset Z) p : p ∈ inuse -> p < demo_malloc inuse.
Proof.
  unfold demo_malloc. revert p.
  enough (H : forall p, p ∈ inuse -> p <= set_fold Z.max 0 inuse).
  { intros p Hp. specialize (H p Hp). lia. }
  apply (set_fold_ind_L (fun r (Y : gset Z) => forall p, p ∈ Y -> p <= r)).
  - set_solver.
  - intros x Y r Hx IH p [->%elem_of_singleton|Hp]%elem_of_union; [lia|].
    specialize (IH p Hp). lia.
Qed.

Lemma demo_malloc_pos inuse : 0 < demo_malloc inuse.
Proof.
  unfold demo_malloc. enough (0 <= set_fold Z.max 0 inuse) by lia.
  apply (set_fold_ind_L (fun r (_ : gset Z) => 0 <= r)); intros; lia.
Qed.

Definition is_new_pid (e : event) : bool :=
  match e with EvNewPid _ => true | _ => false end.

Definition demo_trap_number (t : trap) : Z :=
  match t with
  | TRAP_KERNEL => 0 | TRAP_CLOCK => 1 | TRAP_ILLEGAL => 2 | TRAP_MEMORY => 3
  | TRAP_MATH => 4 | TRAP_TTY_RECEIVE => 5 | TRAP_TTY_TRANSMIT => 6 | TRAP_DISK => 7
  end.

Definition demo_syscall_number (c : syscall) : Z :=
  match c with
  | YALNIX_FORK => 1 | YALNIX_EXEC => 2 | YALNIX_EXIT => 3 | YALNIX_WAIT => 4
  | YALNIX_GETPID => 5 | YALNIX_BRK => 6 | YALNIX_DELAY => 7 | YALNIX_TTY_READ => 33
  | YALNIX_TTY_WRITE => 34 | YALNIX_PIPE_INIT => 71 | YALNIX_PIPE_READ => 72
  | YALNIX_PIPE_WRITE => 73 | YALNIX_LOCK_INIT => 81 | YALNIX_LOCK_ACQUIRE => 82
  | YALNIX_LOCK_RELEASE => 83 | YALNIX_CVAR_INIT => 91 | YALNIX_CVAR_SIGNAL => 92
  | YALNIX_CVAR_BROADCAST => 93 | YALNIX_CVAR_WAIT => 94 | YALNIX_RECLAIM => 95
  end.

(** A memcpy that copies from the lowest byte upwards. *)
Definition copy_down (b : list Z) (dst src n : Z) : list Z :=
  take (Z.to_nat dst) b ++ take (Z.to_nat n) (drop (Z.to_nat src) b)
    ++ drop (Z.to_nat (dst + n)) b.

Definition demo : Framework := {|
  PAGESHIFT := 13; PAGESIZE := 8192;
  VMEM_1_BASE := 1048576; VMEM_1_LIMIT := 2097152;
  MAX_PT_LEN := 128; MAX_PMEM_SIZE := 16777216;
  KERNEL_STACK_BASE := 1032192; KERNEL_STACK_LIMIT := 1048576;
  KERNEL_STACK_MAXSIZE := 16384;
  UP_TO_PAGE := fun a => (a + 8192 - 1) / 8192 * 8192;
  DOWN_TO_PAGE := fun a => a / 8192 * 8192;
  TLB_FLUSH_ALL := -1; TLB_FLUSH_1 := -2; TLB_FLUSH_KSTACK := -3;
  PROT_NONE := 0; PROT_READ := 1; PROT_WRITE := 2; PROT_EXEC := 4;
  first_kernel_text_page := 0; first_kernel_data_page := 10;
  orig_kernel_brk_page := 20;
  SUCCESS := 0; ERROR := -1; KILL := -2;
  sizeof := fun _ => 64;
  MAX_PROCS := 16; NUM_TERMINALS := 4; TERMINAL_MAX_LINE := 1024;
  PIPE_BUFFER_LEN := 256;
  trap_number := demo_trap_number; TRAP_VECTOR_SIZE := 16;
  syscall_number := demo_syscall_number;
  POST_ARGV_NULL_SPACE := 1; INITIAL_STACK_FRAME_SIZE := 8;
  DoIdle := 4096; trap_vector := 90112;
  memcpy_within := copy_down;
  malloc_brk := fun _ _ => None;
  malloc_ptr := fun _ inuse _ => Some (demo_malloc inuse);
  malloc_bytes := fun _ n => replicate (Z.to_nat n) 0;
  helper_new_pid := fun log _ =>
    Z.of_nat (length (List.filter is_new_pid log));
  switch_fails := fun _ => false;
  tty_receive := fun _ _ => (3, [97; 98; 10]);
  exec_open := fun _ name => if decide (name = []) then -1 else 3;
  exec_load_info := fun _ _ => Some (mkLoadInfo 1048576 0 1048576 1 8192 1056768 1 1056800 1 1064964);
  exec_read := fun _ _ _ n => replicate (Z.to_nat n) 0
|}.

Lemma demo_laws : FrameworkLaws demo.
Proof.
  constructor; cbn -[Z.div Z.mul Z.add Z.shiftr]; try lia; try done.
  - intros _ inuse _ p [= <-]. pose proof (demo_malloc_pos inuse).
    split; [lia|]. intros Hin. pose proof (demo_malloc_ge _ _ Hin). lia.
  - intros _ n _. apply length_replicate.
  - intros [] []; simpl; congruence.
  - intros []; simpl; lia.
  - intros [] []; simpl; congruence.
  - intros _ _ _ n. rewrite length_replicate. lia.
  - intros _ _ len bytes [= <- <-]. right. split; vm_compute; first [reflexivity | discriminate].
Qed.

(** The same kernel on a machine with 64-byte pages, small enough to run. *)
Definition tiny : Framework := {|
  PAGESHIFT := 6; PAGESIZE := 64;
  VMEM_1_BASE := 1024; VMEM_1_LIMIT := 2048;
  MAX_PT_LEN := 16; MAX_PMEM_SIZE := 8192;
  KERNEL_STACK_BASE := 896; KERNEL_STACK_LIMIT := 1024;
  KERNEL_STACK_MAXSIZE := 128;
  UP_TO_PAGE := fun a => (a + 64 - 1) / 64 * 64;
  DOWN_TO_PAGE := fun a => a / 64 * 64;
  TLB_FLUSH_ALL := -1; TLB_FLUSH_1 := -2; TLB_FLUSH_KSTACK := -3;
  PROT_NONE := 0; PROT_READ := 1; PROT_WRITE := 2; PROT_EXEC := 4;
  first_kernel_text_page := 0; first_kernel_data_page := 4;
  orig_kernel_brk_page := 8;
  SUCCESS := 0; ERROR := -1; KILL := -2;
  sizeof := fun _ => 64;
  MAX_PROCS := 16; NUM_TERMINALS := 2; TERMINAL_MAX_LINE := 8;
  PIPE_BUFFER_LEN := 4;
  trap_number := demo_trap_number; TRAP_VECTOR_SIZE := 16;
  syscall_number := demo_syscall_number;
  POST_ARGV_NULL_SPACE := 1; INITIAL_STACK_FRAME_SIZE := 8;
  DoIdle := 128; trap_vector := 320;
  memcpy_within := copy_down;
  malloc_brk := fun _ _ => None;
  malloc_ptr := fun _ inuse _ => Some (demo_malloc inuse);
  malloc_bytes := fun _ n => replicate (Z.to_nat n) 0;
  helper_new_pid := fun log _ =>
    Z.of_nat (length (List.filter is_new_pid log));
  switch_fails := fun _ => false;
  tty_receive := fun _ _ => (3, [97; 98; 10]);
  exec_open := fun _ name => if decide (name = []) then -1 else 3;
  exec_load_info := fun _ _ => Some (mkLoadInfo 1024 0 1024 1 64 1088 1 1120 1 1160);
  exec_read := fun _ _ _ n => replicate (Z.to_nat n) 7
|}.

Lemma tiny_laws : FrameworkLaws tiny.
Proof.
  constructor; cbn -[Z.div Z.mul Z.add Z.shiftr]; try lia; try done.
  - intros _ inuse _ p [= <-]. pose proof (demo_malloc_pos inuse).
    split; [lia|]. intros Hin. pose proof (demo_malloc_ge _ _ Hin). lia.
  - intros _ n _. apply length_replicate.
  - intros [] []; simpl; congruence.
  - intros []; simpl; lia.
  - intros [] []; simpl; congruence.
  - intros _ _ _ n. rewrite length_replicate. lia.
  - intros _ _ len bytes [= <- <-]. right. split; vm_compute; first [reflexivity | discriminate].
Qed.

(** ** Page arithmetic every component uses *)

Section Pages.
Context {F : Framework} {FL : FrameworkLaws F}.

Lemma pagesize_pos : 0 < PAGESIZE.
Proof. rewrite pagesize_def. apply Z.pow_pos_nonneg; [lia|apply pageshift_pos]. Qed.

Lemma shiftr_page a : a ≫ PAGESHIFT = a / PAGESIZE.
Proof. rewrite pagesize_def. apply Z.shiftr_div_pow2, pageshift_pos. Qed.

Lemma shiftl_page a : a ≪ PAGESHIFT = a * PAGESIZE.
Proof. rewrite pagesize_def. apply Z.shiftl_mul_pow2, pageshift_pos. Qed.

(** The Region 1 page number of a byte address. *)
Lemma region1_page a :
  VMEM_1_BASE <= a < VMEM_1_LIMIT ->
  0 <= (a - VMEM_1_BASE) ≫ PAGESHIFT < MAX_PT_LEN.
Proof.
  intros Ha. rewrite shiftr_page. pose proof pagesize_pos.
  pose proof region1_size. split; [apply Z.div_pos; lia|].
  apply Z.div_lt_upper_bound; lia.
Qed.

(** The first page number at or above a Region 1 address. *)
Lemma up_to_page_region1 a :
  VMEM_1_BASE <= a <= VMEM_1_LIMIT ->
  (UP_TO_PAGE a - VMEM_1_BASE) ≫ PAGESHIFT = (a - VMEM_1_BASE + PAGESIZE - 1) / PAGESIZE.
Proof.
  intros Ha. rewrite shiftr_page. pose proof pagesize_pos. pose proof max_pt_len_pos.
  rewrite up_to_page_spec by (rewrite region0_size in *; nia).
  rewrite region0_size in *.
  replace (a + PAGESIZE - 1) with (a - MAX_PT_LEN * PAGESIZE + PAGESIZE - 1 + MAX_PT_LEN * PAGESIZE) by lia.
  rewrite Z.div_add by lia.
  replace ((_ + MAX_PT_LEN) * PAGESIZE - _)
    with ((a - MAX_PT_LEN * PAGESIZE + PAGESIZE - 1) / PAGESIZE * PAGESIZE) by lia.
  by rewrite Z.div_mul by lia.
Qed.

Lemma up_to_page_region1_bounds a :
  VMEM_1_BASE <= a <= VMEM_1_LIMIT ->
  0 <= (UP_TO_PAGE a - VMEM_1_BASE) ≫ PAGESHIFT <= MAX_PT_LEN.
Proof.
  intros Ha. rewrite up_to_page_region1 by done. pose proof pagesize_pos.
  pose proof region1_size.
  split; [apply Z.div_pos; lia|]. apply Z.lt_succ_r.
  apply Z.div_lt_upper_bound; lia.
Qed.

(** Rounding up stays in Region 1 and is idempotent. *)
Lemma up_to_page_aligned a :
  VMEM_1_BASE <= a <= VMEM_1_LIMIT ->
  VMEM_1_BASE <= UP_TO_PAGE a <= VMEM_1_LIMIT /\ UP_TO_PAGE (UP_TO_PAGE a) = UP_TO_PAGE a.
Proof.
  intros Ha. pose proof pagesize_pos. pose proof max_pt_len_pos. pose proof region0_size.
  pose proof region1_size.
  assert (Hq : MAX_PT_LEN <= (a + PAGESIZE - 1) / PAGESIZE <= 2 * MAX_PT_LEN).
  { split; [apply Z.div_le_lower_bound; lia|]. apply Z.lt_succ_r, Z.div_lt_upper_bound; lia. }
  assert (Hup : UP_TO_PAGE a = (a + PAGESIZE - 1) / PAGESIZE * PAGESIZE)
    by (apply up_to_page_spec; nia).
  rewrite Hup. split; [nia|]. rewrite up_to_page_spec by nia.
  replace (_ / PAGESIZE * PAGESIZE + PAGESIZE - 1)
    with (PAGESIZE - 1 + (a + PAGESIZE - 1) / PAGESIZE * PAGESIZE) by lia.
  rewrite Z.div_add, (Z.div_small (PAGESIZE - 1)) by lia. lia.
Qed.

Lemma error_not_success : ERROR <> SUCCESS.
Proof. pose proof error_neg. rewrite success_zero. lia. Qed.
End Pages.
