(* ===== verification/Queue.v ===== *)
(** * Intrusive doubly linked queues ([Queue.h], [Queue.c])

    The C queues link [QueueEntry] structures that live inside other objects
    (PCBs, terminal lines) into a ring through a head inside the [Queue].  The
    model keeps the pointers: a heap of cells addressed by queue heads and
    entries, with the C statements as loads and stores.  The abstract
    specification is a map from queues to the lists of their entries; [qabs]
    relates the two and every operation is proved to refine it. *)

From S2P Require Import Prelude.

Section Queue.
(** [Q] names the queues, [E] the entries. *)
Context {Q E : Type} `{Countable Q, Countable E}.

(** ** Data *)

(** The address of a [QueueEntry]: the head of a queue, or an entry. *)
Inductive qaddr :=
| QHead (q : Q)
| QEnt (e : E).

#[export] Instance qaddr_eq_dec : EqDecision qaddr.
Proof. solve_decision. Defined.

#[export] Instance qaddr_countable : Countable qaddr.
Proof.
  refine (inj_countable'
    (fun a => match a with QHead q => inl q | QEnt e => inr e end)
    (fun s => match s with inl q => QHead q | inr e => QEnt e end) _).
  by intros [].
Defined.

(** [None] is the null pointer. *)
Record QueueEntry := mkEntry {
  prev : option qaddr;
  next : option qaddr;
  owner : Z
}.

(** The cells of all queues and entries, and the [length] field of each queue. *)
Record qheap := mkHeap {
  cells : gmap qaddr QueueEntry;
  lengths : gmap Q Z
}.

(** ** Loads and stores *)

Definition load (a : qaddr) : M qheap Empty_set QueueEntry :=
  fun h => deref "queue entry" (cells h !! a) h.
Definition store (a : qaddr) (n : QueueEntry) : M qheap Empty_set unit :=
  modify (fun h => mkHeap (<[a := n]> (cells h)) (lengths h)).
Definition set_prev (a : qaddr) (p : option qaddr) : M qheap Empty_set unit :=
  n ← load a; store a (mkEntry p (next n) (owner n)).
Definition set_next (a : qaddr) (p : option qaddr) : M qheap Empty_set unit :=
  n ← load a; store a (mkEntry (prev n) p (owner n)).
Definition load_length (q : Q) : M qheap Empty_set Z :=
  fun h => deref "queue" (lengths h !! q) h.
Definition store_length (q : Q) (v : Z) : M qheap Empty_set unit :=
  modify (fun h => mkHeap (cells h) (<[q := v]> (lengths h))).

(** ** Operations *)

Definition QueueInit (queue : Q) : M qheap Empty_set unit :=
  store (QHead queue) (mkEntry (Some (QHead queue)) (Some (QHead queue)) 0) ;;
  store_length queue 0.

Definition QueueEntryInit (entry : E) (owner : Z) : M qheap Empty_set unit :=
  store (QEnt entry) (mkEntry None None owner).

Definition QueueIsEmpty (queue : Q) : M qheap Empty_set bool :=
  len ← load_length queue;
  mret (len =? 0).

Definition QueuePushBack (queue : Q) (entry : E) : M qheap Empty_set unit :=
  head ← load (QHead queue);
  set_prev (QEnt entry) (prev head) ;;
  set_next (QEnt entry) (Some (QHead queue)) ;;
  head ← load (QHead queue);
  last ← deref "queue->head.prev" (prev head);
  set_next last (Some (QEnt entry)) ;;
  set_prev (QHead queue) (Some (QEnt entry)) ;;
  len ← load_length queue;
  store_length queue (len + 1).

Definition QueueRemove (queue : Q) (entry : qaddr) : M qheap Empty_set unit :=
  n ← load entry;
  match prev n, next n with
  | Some p, Some nx =>
      set_next p (Some nx) ;;
      n ← load entry;
      nx ← deref "entry->next" (next n);
      set_prev nx (prev n) ;;
      set_prev entry None ;;
      set_next entry None ;;
      len ← load_length queue;
      store_length queue (len - 1)
  | _, _ => mret tt
  end.

Definition QueuePopFront (queue : Q) : M qheap Empty_set (option qaddr) :=
  empty ← QueueIsEmpty queue;
  if (empty : bool) then mret None
  else
    head ← load (QHead queue);
    entry ← deref "queue->head.next" (next head);
    QueueRemove queue entry ;;
    mret (Some entry).

(** ** The abstract specification: each queue is the list of its entries *)

Definition spec_push (q : Q) (e : E) (c : gmap Q (list E)) : gmap Q (list E) :=
  alter (fun l => l ++ [e]) q c.
Definition spec_pop (q : Q) (c : gmap Q (list E)) : option E * gmap Q (list E) :=
  match c !! q with
  | Some (e :: l) => (Some e, <[q := l]> c)
  | _ => (None, c)
  end.
Definition spec_remove (q : Q) (e : E) (c : gmap Q (list E)) : gmap Q (list E) :=
  alter (filter (fun x => x <> e)) q c.
Definition queued (c : gmap Q (list E)) (e : E) : Prop :=
  exists q l, c !! q = Some l /\ e ∈ l.

(** ** The representation *)

Definition nxt (h : qheap) (a : qaddr) : option qaddr := cells h !! a ≫= next.
Definition prv (h : qheap) (a : qaddr) : option qaddr := cells h !! a ≫= prev.
Definition owner_of (h : qheap) (a : qaddr) : option Z := owner <$> cells h !! a.

(** The cells from [x] through [l] to [y] are linked in both directions. *)
Fixpoint linked (nx pv : qaddr -> option qaddr) (x : qaddr) (l : list qaddr)
    (y : qaddr) : Prop :=
  match l with
  | [] => nx x = Some y /\ pv y = Some x
  | z :: l' => (nx x = Some z /\ pv z = Some x) /\ linked nx pv z l' y
  end.

Record qabs (h : qheap) (c : gmap Q (list E)) : Prop := {
  qabs_ring : forall q l, c !! q = Some l ->
    linked (nxt h) (prv h) (QHead q) (QEnt <$> l) (QHead q);
  qabs_length : forall q l, c !! q = Some l ->
    lengths h !! q = Some (Z.of_nat (length l));
  qabs_nodup : forall q l, c !! q = Some l -> NoDup l;
  qabs_disjoint : forall q1 q2 l1 l2 e, c !! q1 = Some l1 -> c !! q2 = Some l2 ->
    e ∈ l1 -> e ∈ l2 -> q1 = q2;
  qabs_unlinked : forall e, ~ queued c e -> nxt h (QEnt e) = None /\ prv h (QEnt e) = None
}.

(** Two heaps with the same entries, owned by the same objects. *)
Definition same_owners (h h' : qheap) : Prop :=
  forall e, owner_of h' (QEnt e) = owner_of h (QEnt e).

#[export] Instance same_owners_equiv : Equivalence same_owners.
Proof.
  split; [by intros h e|by intros h1 h2 H12 e|].
  intros h1 h2 h3 H12 H23 e. by rewrite H23.
Qed.

(** ** Segments *)

Lemma linked_app nx pv x l1 z l2 y :
  linked nx pv x (l1 ++ z :: l2) y <-> linked nx pv x l1 z /\ linked nx pv z l2 y.
Proof. revert x. induction l1 as [|w l1 IH]; intros x; simpl; [done|]. rewrite IH. tauto. Qed.

Lemma linked_next nx pv x l y : linked nx pv x l y -> nx x = Some (default y (head l)).
Proof. destruct l; simpl; intuition. Qed.

Lemma last_elem (x : qaddr) l : List.last l x ∈ x :: l.
Proof.
  revert x. induction l as [|z l IH]; intros x; [set_solver|].
  destruct l as [|w l]; [set_solver|]. specialize (IH x). set_solver.
Qed.

Lemma linked_prev nx pv x l y : linked nx pv x l y -> pv y = Some (List.last l x).
Proof.
  revert x. induction l as [|z l IH]; intros x; simpl; [by intros []|].
  intros [_ Hl]. rewrite (IH z Hl). destruct l as [|w l]; [done|].
  f_equal. clear. revert w. induction l as [|v l IHl]; intros w; [done|]. simpl in *. apply IHl.
Qed.

Lemma linked_frame nx pv nx' pv' x l y :
  (forall a, a ∈ x :: l -> nx' a = nx a) ->
  (forall a, a ∈ y :: l -> pv' a = pv a) ->
  linked nx pv x l y -> linked nx' pv' x l y.
Proof.
  revert x. induction l as [|z l IH]; intros x Hn Hp; simpl.
  - rewrite Hn, Hp by set_solver. done.
  - intros [[Hx Hz] Hl]. rewrite Hn, Hp by set_solver. split; [done|].
    apply IH; [set_solver..|done].
Qed.

Lemma linked_elem nx pv x l y a :
  linked nx pv x l y -> a ∈ l -> is_Some (nx a) /\ is_Some (pv a).
Proof.
  revert x. induction l as [|z l IH]; intros x; simpl; [set_solver|].
  intros [[Hx Hz] Hl] [->|Ha]%elem_of_cons.
  - split; [|by eauto]. apply linked_next in Hl. eauto.
  - eapply IH; eauto.
Qed.

(** Redirect the end of a segment: its last cell [w] now links to [z]. *)
Lemma linked_redirect nx pv nx' pv' x l y w z :
  linked nx pv x l y -> pv y = Some w -> NoDup (x :: l) -> y ∉ l ->
  (forall a, a ∈ x :: l -> a <> w -> nx' a = nx a) ->
  (forall a, a ∈ l -> pv' a = pv a) ->
  nx' w = Some z -> pv' z = Some w ->
  linked nx' pv' x l z.
Proof.
  intros Hl Hw. revert x Hl.
  induction l as [|v l IH]; intros x Hl Hnd Hy Hn Hp Hz Hw'; simpl in *.
  - destruct Hl as [_ Hl]. simplify_eq. done.
  - destruct Hl as [[Hxv Hvx] Hl]. inversion Hnd as [|? ? Hx Hnd']; subst.
    assert (Hwl : w ∈ v :: l).
    { pose proof (linked_prev _ _ _ _ _ Hl) as Hlast. simplify_eq. apply last_elem. }
    rewrite Hn, Hp by set_solver. split; [done|].
    apply IH; [done..|set_solver|set_solver|set_solver|done|done].
Qed.

(** Append [e] between the last cell [w] and [y]. *)
Lemma linked_snoc nx pv nx' pv' x l y w e :
  linked nx pv x l y -> pv y = Some w -> NoDup (x :: l) -> y ∉ l ->
  (forall a, a ∈ x :: l -> a <> w -> nx' a = nx a) ->
  (forall a, a ∈ l -> pv' a = pv a) ->
  nx' w = Some e -> pv' e = Some w -> nx' e = Some y -> pv' y = Some e ->
  linked nx' pv' x (l ++ [e]) y.
Proof.
  intros. apply linked_app. split; [by eapply linked_redirect|]. by simpl.
Qed.

(** Take [e] out of a segment: its neighbours [w] and [z] are joined. *)
Lemma linked_unlink nx pv nx' pv' x l1 e l2 y w z :
  linked nx pv x (l1 ++ e :: l2) y -> pv e = Some w -> nx e = Some z ->
  NoDup (x :: l1 ++ e :: l2) -> y ∉ l1 ++ e :: l2 ->
  (forall a, a ∈ x :: l1 ++ l2 -> a <> w -> nx' a = nx a) ->
  (forall a, a ∈ y :: l1 ++ l2 -> a <> z -> pv' a = pv a) ->
  nx' w = Some z -> pv' z = Some w ->
  linked nx' pv' x (l1 ++ l2) y.
Proof.
  intros [Hl1 Hl2]%linked_app Hw Hz Hnd Hy Hn Hp Hwz Hzw.
  assert (Hwin : w ∈ x :: l1).
  { pose proof (linked_prev _ _ _ _ _ Hl1) as Hlast. simplify_eq. apply last_elem. }
  rewrite app_comm_cons in Hnd. apply NoDup_app in Hnd as (Hnd1 & Hdis & Hnd2).
  inversion Hnd2 as [|? ? He Hnd2']; subst.
  destruct l2 as [|v l2]; simpl in Hl2.
  - destruct Hl2 as [Hl2 _]. simplify_eq. rewrite app_nil_r in *.
    eapply linked_redirect; [done..| | | |done|done]; [set_solver| |].
    + intros a Ha Hne. apply Hn; [set_solver|done].
    + intros a Ha. apply Hp; set_solver.
  - destruct Hl2 as [[Hl2 _] Hl2']. simplify_eq. apply linked_app. split.
    + eapply linked_redirect; [done..| | | |done|done]; [set_solver| |].
      * intros a Ha Hne. apply Hn; [set_solver|done].
      * intros a Ha. apply Hp; [set_solver|].
        intros ->. apply (Hdis v); set_solver.
    + inversion Hnd2'; subst.
      eapply linked_frame; [| |done].
      * intros a Ha. apply Hn; [set_solver|]. intros ->. apply (Hdis w); set_solver.
      * intros a Ha. apply Hp; [set_solver|]. intros ->. set_solver.
Qed.

(** ** Stores, seen through [nxt], [prv] and [owner_of] *)

Lemma set_next_run (h : qheap) a n v :
  cells h !! a = Some n ->
  set_next a v h = Ok tt (mkHeap (<[a := mkEntry (prev n) v (owner n)]> (cells h)) (lengths h)).
Proof. intros Hn. unfold set_next, load, mbind, M_bind, deref. by rewrite Hn. Qed.

Lemma set_prev_run (h : qheap) a n v :
  cells h !! a = Some n ->
  set_prev a v h = Ok tt (mkHeap (<[a := mkEntry v (next n) (owner n)]> (cells h)) (lengths h)).
Proof. intros Hn. unfold set_prev, load, mbind, M_bind, deref. by rewrite Hn. Qed.

(** One pointer of [h] changed: [nx], [pv] describe the new heap. *)
Record stored (h h' : qheap) (nx pv : qaddr -> option qaddr) : Prop := {
  stored_nxt : forall a, nxt h' a = nx a;
  stored_prv : forall a, prv h' a = pv a;
  stored_owner : same_owners h h';
  stored_lengths : lengths h' = lengths h;
  stored_dom : forall a, is_Some (cells h !! a) -> is_Some (cells h' !! a)
}.

Definition upd (f : qaddr -> option qaddr) (a : qaddr) (v : option qaddr) : qaddr -> option qaddr :=
  fun b => if decide (a = b) then v else f b.

Lemma stored_refl h : stored h h (nxt h) (prv h).
Proof. by split. Qed.

Lemma set_next_stored h0 h nx pv a v :
  stored h0 h nx pv -> is_Some (cells h0 !! a) ->
  exists h', set_next a v h = Ok tt h' /\ stored h0 h' (upd nx a v) pv.
Proof.
  intros [Hn Hp Ho Hl Hd] Ha. destruct (Hd a Ha) as [n Hna].
  eexists. split; [by apply set_next_run|].
  split; simpl; [..|done|]; unfold upd, nxt, prv, owner_of in *; simpl.
  - intros b. destruct (decide (a = b)) as [->|Hne]; [by rewrite lookup_insert_eq|].
    rewrite lookup_insert_ne by done. apply Hn.
  - intros b. destruct (decide (a = b)) as [->|Hne].
    + rewrite lookup_insert_eq. simpl. rewrite <- Hp. by rewrite Hna.
    + rewrite lookup_insert_ne by done. apply Hp.
  - intros b. rewrite <- Ho. unfold owner_of. simpl.
    destruct (decide (a = QEnt b)) as [->|Hne]; [by rewrite lookup_insert_eq, Hna|].
    by rewrite lookup_insert_ne.
  - intros b Hb. destruct (decide (a = b)) as [->|Hne]; [rewrite lookup_insert_eq; eauto|].
    rewrite lookup_insert_ne by done. auto.
Qed.

Lemma set_prev_stored h0 h nx pv a v :
  stored h0 h nx pv -> is_Some (cells h0 !! a) ->
  exists h', set_prev a v h = Ok tt h' /\ stored h0 h' nx (upd pv a v).
Proof.
  intros [Hn Hp Ho Hl Hd] Ha. destruct (Hd a Ha) as [n Hna].
  eexists. split; [by apply set_prev_run|].
  split; simpl; [..|done|]; unfold upd, nxt, prv, owner_of in *; simpl.
  - intros b. destruct (decide (a = b)) as [->|Hne].
    + rewrite lookup_insert_eq. simpl. rewrite <- Hn. by rewrite Hna.
    + rewrite lookup_insert_ne by done. apply Hn.
  - intros b. destruct (decide (a = b)) as [->|Hne]; [by rewrite lookup_insert_eq|].
    rewrite lookup_insert_ne by done. apply Hp.
  - intros b. rewrite <- Ho. unfold owner_of. simpl.
    destruct (decide (a = QEnt b)) as [->|Hne]; [by rewrite lookup_insert_eq, Hna|].
    by rewrite lookup_insert_ne.
  - intros b Hb. destruct (decide (a = b)) as [->|Hne]; [rewrite lookup_insert_eq; eauto|].
    rewrite lookup_insert_ne by done. auto.
Qed.

Lemma load_stored h0 h nx pv a :
  stored h0 h nx pv -> is_Some (cells h0 !! a) ->
  exists n, load a h = Ok n h /\ next n = nx a /\ prev n = pv a.
Proof.
  intros [Hn Hp Ho Hl Hd] Ha. destruct (Hd a Ha) as [n Hna].
  exists n. unfold load. rewrite Hna. rewrite <- Hn, <- Hp. unfold nxt, prv.
  by rewrite Hna.
Qed.

(** ** The ring of a represented queue *)

Lemma nxt_is_cell h a b : nxt h a = Some b -> is_Some (cells h !! a).
Proof. unfold nxt. destruct (cells h !! a); naive_solver. Qed.
Lemma prv_is_cell h a b : prv h a = Some b -> is_Some (cells h !! a).
Proof. unfold prv. destruct (cells h !! a); naive_solver. Qed.

Lemma ring_nodup (q : Q) (l : list E) : NoDup l -> NoDup (QHead q :: (QEnt <$> l)).
Proof.
  intros Hl. apply NoDup_cons. split.
  - intros (e & He & _)%list_elem_of_fmap. done.
  - apply NoDup_fmap_2; [|done]. by intros e1 e2 [= ->].
Qed.

Lemma head_not_entry (q : Q) (l : list E) : QHead q ∉ QEnt <$> l.
Proof. intros (e & He & _)%list_elem_of_fmap. done. Qed.

Lemma elem_of_entries (e : E) (l : list E) : QEnt e ∈ QEnt <$> l <-> e ∈ l.
Proof.
  rewrite list_elem_of_fmap. split; [by intros (? & [= ->] & ?)|].
  intros He. by exists e.
Qed.

(** The last cell of the ring, the one before the head. *)
Lemma ring_last h c q l :
  qabs h c -> c !! q = Some l ->
  exists w, prv h (QHead q) = Some w /\ w ∈ QHead q :: (QEnt <$> l) /\ is_Some (cells h !! w).
Proof.
  intros Ha Hq. pose proof (qabs_ring _ _ Ha _ _ Hq) as Hr.
  exists (List.last (QEnt <$> l) (QHead q)).
  pose proof (linked_prev _ _ _ _ _ Hr) as Hp. split; [done|].
  pose proof (last_elem (QHead q) (QEnt <$> l)) as Hin. split; [done|].
  apply elem_of_cons in Hin as [->|Hin].
  - by eapply prv_is_cell.
  - destruct (linked_elem _ _ _ _ _ _ Hr Hin) as [[b Hb] _]. by eapply nxt_is_cell.
Qed.

Lemma ring_head_cell h c q l :
  qabs h c -> c !! q = Some l -> is_Some (cells h !! QHead q).
Proof.
  intros Ha Hq. pose proof (qabs_ring _ _ Ha _ _ Hq) as Hr.
  apply linked_next in Hr. by eapply nxt_is_cell.
Qed.

(** Changing the list of one queue, its cells being the only ones touched. *)
Lemma qabs_update h h' c q l l' :
  qabs h c -> c !! q = Some l \/ c !! q = None /\ l = [] ->
  linked (nxt h') (prv h') (QHead q) (QEnt <$> l') (QHead q) ->
  lengths h' = <[q := Z.of_nat (length l')]> (lengths h) ->
  (forall a, a <> QHead q -> a ∉ QEnt <$> (l ++ l') -> nxt h' a = nxt h a /\ prv h' a = prv h a) ->
  NoDup l' ->
  (forall e, e ∈ l' -> e ∈ l \/ ~ queued c e) ->
  (forall e, e ∈ l -> e ∉ l' -> nxt h' (QEnt e) = None /\ prv h' (QEnt e) = None) ->
  qabs h' (<[q := l']> c).
Proof.
  intros Ha Hq Hring Hlen Hframe Hnd Hnew Hout.
  assert (Hql : forall e, e ∈ l -> c !! q = Some l) by (destruct Hq as [|[_ ->]]; set_solver).
  assert (Hother : forall q2 l2 e, q <> q2 -> c !! q2 = Some l2 -> e ∈ l2 -> (e ∉ l) /\ (e ∉ l')).
  { intros q2 l2 e Hne Hq2 He. split.
    - intros He'. apply Hne. by eapply (qabs_disjoint _ _ Ha); eauto.
    - intros He'. destruct (Hnew e He') as [He''|Hno].
      + apply Hne. by eapply (qabs_disjoint _ _ Ha); eauto.
      + apply Hno. by exists q2, l2. }
  split.
  - intros q2 l2. destruct (decide (q = q2)) as [<-|Hne].
    + rewrite lookup_insert_eq. by intros [= <-].
    + rewrite lookup_insert_ne by done. intros Hq2.
      eapply linked_frame; [| |by eapply (qabs_ring _ _ Ha)].
      all: intros a [->|(e & -> & He)%list_elem_of_fmap]%elem_of_cons;
        apply Hframe; [congruence|intros (?&?&?)%list_elem_of_fmap; done|done|].
      all: destruct (Hother q2 l2 e Hne Hq2 He);
        rewrite elem_of_entries, elem_of_app; tauto.
  - intros q2 l2. rewrite Hlen. destruct (decide (q = q2)) as [<-|Hne].
    + rewrite !lookup_insert_eq. by intros [= <-].
    + rewrite !lookup_insert_ne by done. by apply (qabs_length _ _ Ha).
  - intros q2 l2. destruct (decide (q = q2)) as [<-|Hne].
    + rewrite !lookup_insert_eq. by intros [= <-].
    + rewrite !lookup_insert_ne by done. by apply (qabs_nodup _ _ Ha).
  - intros q1 q2 l1 l2 e.
    destruct (decide (q = q1)) as [<-|Hne1]; destruct (decide (q = q2)) as [<-|Hne2];
      rewrite ?lookup_insert_eq, ?lookup_insert_ne by done; intros.
    + done.
    + simplify_eq. exfalso. eapply (Hother q2 l2 e); done.
    + simplify_eq. exfalso. eapply (Hother q1 l1 e); done.
    + by eapply (qabs_disjoint _ _ Ha).
  - intros e Hnq.
    assert (He' : e ∉ l').
    { intros He'. apply Hnq. exists q, l'. by rewrite lookup_insert_eq. }
    destruct (decide (e ∈ l)) as [He|He]; [by apply Hout|].
    destruct (Hframe (QEnt e)) as [-> ->]; [done|rewrite elem_of_entries, elem_of_app; tauto|].
    apply (qabs_unlinked _ _ Ha). intros (q2 & l2 & Hq2 & He2). apply Hnq. exists q2, l2.
    rewrite lookup_insert_ne; [done|]. intros ->.
    destruct Hq as [?|[? ?]]; by simplify_eq.
Qed.

(** ** Refinement of the operations *)

Definition cell_of (h : qheap) (e : E) : Prop := is_Some (cells h !! QEnt e).

(** The ring and the pointers after the four stores of [QueuePushBack]. *)
Lemma push_ring h c q l e w h' :
  qabs h c -> c !! q = Some l -> ~ queued c e ->
  prv h (QHead q) = Some w -> w ∈ QHead q :: (QEnt <$> l) ->
  stored h h' (upd (upd (nxt h) (QEnt e) (Some (QHead q))) w (Some (QEnt e)))
              (upd (upd (prv h) (QEnt e) (Some w)) (QHead q) (Some (QEnt e))) ->
  linked (nxt h') (prv h') (QHead q) (QEnt <$> (l ++ [e])) (QHead q).
Proof.
  intros Ha Hq Hnq Hw Hwin [Hn Hp _ _ _]. rewrite fmap_app. simpl.
  assert (He : e ∉ l) by (intros He; apply Hnq; by exists q, l).
  assert (Hwe : w <> QEnt e).
  { intros ->. apply elem_of_cons in Hwin as [|Hwin]; [done|]. by apply elem_of_entries in Hwin. }
  pose proof (head_not_entry q l) as Hhd.
  eapply (linked_snoc (nxt h) (prv h)); [by eapply (qabs_ring _ _ Ha)|done|..];
    unfold upd in *.
  - apply ring_nodup. by eapply (qabs_nodup _ _ Ha).
  - done.
  - intros a Hin Hne. rewrite Hn. rewrite decide_False by done. apply decide_False.
    intros <-. apply elem_of_cons in Hin as [|Hin]; [done|]. by apply elem_of_entries in Hin.
  - intros a Hin. rewrite Hp. rewrite decide_False by (intros <-; done). apply decide_False.
    intros <-. by apply elem_of_entries in Hin.
  - rewrite Hn. by rewrite decide_True.
  - rewrite Hp. rewrite decide_False by done. by rewrite decide_True.
  - rewrite Hn. rewrite decide_False by done. by rewrite decide_True.
  - rewrite Hp. by rewrite decide_True.
Qed.

Lemma QueuePushBack_ok h c q l e :
  qabs h c -> c !! q = Some l -> cell_of h e -> ~ queued c e ->
  exists h', QueuePushBack q e h = Ok tt h' /\ qabs h' (<[q := l ++ [e]]> c) /\ same_owners h h'.
Proof.
  intros Ha Hq Hc Hnq.
  destruct (ring_last _ _ _ _ Ha Hq) as (w & Hw & Hwin & Hwc).
  pose proof (ring_head_cell _ _ _ _ Ha Hq) as Hhc.
  destruct (load_stored _ _ _ _ _ (stored_refl h) Hhc) as (n0 & Hl0 & Hn0 & Hp0).
  destruct (set_prev_stored _ _ _ _ (QEnt e) (prev n0) (stored_refl h) Hc) as (h1 & Hr1 & H1).
  destruct (set_next_stored _ _ _ _ (QEnt e) (Some (QHead q)) H1 Hc) as (h2 & Hr2 & H2).
  destruct (load_stored _ _ _ _ _ H2 Hhc) as (n1 & Hl1 & Hn1 & Hp1).
  rewrite Hp0, Hw in *. unfold upd at 1 in Hp1. rewrite decide_False in Hp1 by done.
  rewrite Hw in Hp1.
  destruct (set_next_stored _ _ _ _ w (Some (QEnt e)) H2 Hwc) as (h3 & Hr3 & H3).
  destruct (set_prev_stored _ _ _ _ (QHead q) (Some (QEnt e)) H3 Hhc) as (h4 & Hr4 & H4).
  pose proof (push_ring _ _ _ _ _ _ _ Ha Hq Hnq Hw Hwin H4) as Hring.
  destruct H4 as [Hn Hp Ho Hl Hd].
  eexists. split; [|split].
  - unfold QueuePushBack. rewrite (bind_ok _ _ _ _ _ Hl0), Hp0, (bind_ok _ _ _ _ _ Hr1),
      (bind_ok _ _ _ _ _ Hr2), (bind_ok _ _ _ _ _ Hl1), Hp1.
    cbn [deref]. rewrite bind_ret, (bind_ok _ _ _ _ _ Hr3), (bind_ok _ _ _ _ _ Hr4).
    unfold mbind, M_bind, load_length. rewrite Hl, (qabs_length _ _ Ha _ _ Hq). reflexivity.
  - eapply (qabs_update h); simpl; [done|by left|done|..].
    + rewrite Hl, length_app. simpl. f_equal. lia.
    + intros a Hne Hin.
      assert (a <> QEnt e) by (intros ->; apply Hin; apply elem_of_entries; set_solver).
      assert (a <> w).
      { intros ->. apply elem_of_cons in Hwin as [|Hwin]; [done|]. rewrite fmap_app in Hin. set_solver. }
      change (nxt (mkHeap (cells h4) _) a) with (nxt h4 a).
      change (prv (mkHeap (cells h4) _) a) with (prv h4 a).
      rewrite Hn, Hp. unfold upd. rewrite !decide_False by congruence. done.
    + apply NoDup_app. split_and!; [by eapply (qabs_nodup _ _ Ha)| |apply NoDup_singleton].
      intros x Hx ->%list_elem_of_singleton. apply Hnq. by exists q, l.
    + intros x [?| ->%list_elem_of_singleton]%elem_of_app; auto.
    + intros x Hx Hx'. exfalso. apply Hx'. set_solver.
  - intros a. apply Ho.
Qed.

(** The neighbours of an entry of a ring. *)
Lemma ring_neighbours h c q l1 e l2 :
  qabs h c -> c !! q = Some (l1 ++ e :: l2) ->
  exists w z, prv h (QEnt e) = Some w /\ nxt h (QEnt e) = Some z /\
    w ∈ QHead q :: (QEnt <$> l1) /\ z ∈ QHead q :: (QEnt <$> l2) /\
    is_Some (cells h !! w) /\ is_Some (cells h !! z).
Proof.
  intros Ha Hq. pose proof (qabs_ring _ _ Ha _ _ Hq) as Hr.
  rewrite fmap_app, fmap_cons in Hr. apply linked_app in Hr as [Hr1 Hr2].
  pose proof (linked_prev _ _ _ _ _ Hr1) as Hw. pose proof (linked_next _ _ _ _ _ Hr2) as Hz.
  pose proof (last_elem (QHead q) (QEnt <$> l1)) as Hwin.
  pose proof (ring_head_cell _ _ _ _ Ha Hq) as Hhd.
  eexists _, _. split_and!; [exact Hw|exact Hz|exact Hwin| | |].
  - destruct l2; set_solver.
  - apply elem_of_cons in Hwin as [->|Hin]; [done|].
    destruct (linked_elem _ _ _ _ _ _ Hr1 Hin) as [[b Hb] _]. by eapply nxt_is_cell.
  - destruct l2 as [|y l2]; [done|]. simpl in *.
    destruct Hr2 as [[_ Hy] _]. by eapply prv_is_cell.
Qed.

(** The ring after the four stores of [QueueRemove]. *)
Lemma remove_ring h c q l1 e l2 w z h' :
  qabs h c -> c !! q = Some (l1 ++ e :: l2) ->
  prv h (QEnt e) = Some w -> nxt h (QEnt e) = Some z ->
  w ∈ QHead q :: (QEnt <$> l1) -> z ∈ QHead q :: (QEnt <$> l2) ->
  stored h h' (upd (upd (nxt h) w (Some z)) (QEnt e) None)
              (upd (upd (prv h) z (Some w)) (QEnt e) None) ->
  linked (nxt h') (prv h') (QHead q) (QEnt <$> (l1 ++ l2)) (QHead q).
Proof.
  intros Ha Hq Hw Hz Hwin Hzin [Hn Hp _ _ _].
  pose proof (qabs_nodup _ _ Ha _ _ Hq) as Hnd.
  assert (He1 : e ∉ l1 ++ l2).
  { apply NoDup_app in Hnd as (_ & Hd & [Hn2 _]%NoDup_cons). intros [He|He]%elem_of_app; [|done].
    apply (Hd e He). set_solver. }
  assert (Hwe : w <> QEnt e).
  { intros ->. apply elem_of_cons in Hwin as [|Hwin]; [done|]. apply elem_of_entries in Hwin. set_solver. }
  assert (Hze : z <> QEnt e).
  { intros ->. apply elem_of_cons in Hzin as [|Hzin]; [done|]. apply elem_of_entries in Hzin. set_solver. }
  assert (Hne : forall a, a ∈ QHead q :: (QEnt <$> l1) ++ (QEnt <$> l2) -> a <> QEnt e).
  { intros a Hin ->. rewrite <- fmap_app in Hin.
    apply elem_of_cons in Hin as [|Hin]; [done|]. by apply elem_of_entries in Hin. }
  rewrite fmap_app.
  apply (linked_unlink (nxt h) (prv h) _ _ _ _ (QEnt e) _ _ w z); unfold upd in *.
  - rewrite <- fmap_cons, <- fmap_app. by apply (qabs_ring _ _ Ha).
  - done.
  - done.
  - rewrite <- fmap_cons, <- fmap_app. by apply ring_nodup.
  - rewrite <- fmap_cons, <- fmap_app. apply head_not_entry.
  - intros a Hin Haw. rewrite Hn. specialize (Hne a Hin). by rewrite !decide_False by done.
  - intros a Hin Haz. rewrite Hp. specialize (Hne a Hin). by rewrite !decide_False by done.
  - rewrite Hn. rewrite decide_False by done. by rewrite decide_True.
  - rewrite Hp. rewrite decide_False by done. by rewrite decide_True.
Qed.

Lemma QueueRemove_split h c q l1 e l2 :
  qabs h c -> c !! q = Some (l1 ++ e :: l2) ->
  exists h', QueueRemove q (QEnt e) h = Ok tt h' /\ qabs h' (<[q := l1 ++ l2]> c) /\
    same_owners h h'.
Proof.
  intros Ha Hq.
  destruct (ring_neighbours _ _ _ _ _ _ Ha Hq) as (w & z & Hw & Hz & Hwin & Hzin & Hwc & Hzc).
  assert (Hec : is_Some (cells h !! QEnt e)) by (by eapply nxt_is_cell).
  assert (Hnd := qabs_nodup _ _ Ha _ _ Hq).
  assert (Hwe : w <> QEnt e).
  { intros ->. apply elem_of_cons in Hwin as [|Hwin]; [done|]. apply elem_of_entries in Hwin.
    apply NoDup_app in Hnd as (_ & Hd & _). apply (Hd e Hwin). set_solver. }
  destruct (load_stored _ _ _ _ _ (stored_refl h) Hec) as (n0 & Hl0 & Hn0 & Hp0).
  destruct (set_next_stored _ _ _ _ w (Some z) (stored_refl h) Hwc) as (h1 & Hr1 & H1).
  destruct (load_stored _ _ _ _ _ H1 Hec) as (n1 & Hl1 & Hn1 & Hp1).
  unfold upd in Hn1 at 1. rewrite decide_False in Hn1 by done.
  destruct (set_prev_stored _ _ _ _ z (Some w) H1 Hzc) as (h2 & Hr2 & H2).
  destruct (set_prev_stored _ _ _ _ (QEnt e) None H2 Hec) as (h3 & Hr3 & H3).
  destruct (set_next_stored _ _ _ _ (QEnt e) None H3 Hec) as (h4 & Hr4 & H4).
  pose proof (remove_ring _ _ _ _ _ _ _ _ _ Ha Hq Hw Hz Hwin Hzin H4) as Hring.
  destruct H4 as [Hn Hp Ho Hl Hd].
  eexists. split; [|split].
  - unfold QueueRemove. rewrite (bind_ok _ _ _ _ _ Hl0), Hp0, Hn0, Hw, Hz.
    rewrite (bind_ok _ _ _ _ _ Hr1), (bind_ok _ _ _ _ _ Hl1), Hn1, Hp1, Hw, Hz.
    cbn [deref]. rewrite bind_ret, (bind_ok _ _ _ _ _ Hr2), (bind_ok _ _ _ _ _ Hr3),
      (bind_ok _ _ _ _ _ Hr4).
    unfold mbind, M_bind, load_length. rewrite Hl, (qabs_length _ _ Ha _ _ Hq). reflexivity.
  - eapply (qabs_update h); simpl; [done|by left|done|..].
    + rewrite Hl, !length_app. simpl. f_equal. lia.
    + intros a Hne Hin.
      assert (a <> QEnt e) by (intros ->; apply Hin; apply elem_of_entries; set_solver).
      assert (a <> w).
      { intros ->. apply elem_of_cons in Hwin as [|Hwin]; [done|]. rewrite !fmap_app in Hin. set_solver. }
      assert (a <> z).
      { intros ->. apply elem_of_cons in Hzin as [|Hzin]; [done|]. rewrite !fmap_app in Hin. set_solver. }
      change (nxt (mkHeap (cells h4) _) a) with (nxt h4 a).
      change (prv (mkHeap (cells h4) _) a) with (prv h4 a).
      rewrite Hn, Hp. unfold upd. rewrite !decide_False by congruence. done.
    + apply NoDup_app in Hnd as (? & Hd2 & [? ?]%NoDup_cons). apply NoDup_app.
      split_and!; [done| |done]. intros x Hx ?. apply (Hd2 x Hx). set_solver.
    + set_solver.
    + intros x [Hx|[->|Hx]%elem_of_cons]%elem_of_app Hx'; [set_solver| |set_solver].
      change (nxt (mkHeap (cells h4) _) ?a) with (nxt h4 a).
      change (nxt h4 (QEnt e) = None /\ prv h4 (QEnt e) = None).
      rewrite Hn, Hp. unfold upd. by rewrite !decide_True.
  - intros a. apply Ho.
Qed.

Lemma QueueRemove_ok h c q l e :
  qabs h c -> c !! q = Some l -> e ∈ l ->
  exists h', QueueRemove q (QEnt e) h = Ok tt h' /\
    qabs h' (spec_remove q e c) /\ same_owners h h'.
Proof.
  intros Ha Hq He. apply list_elem_of_split in He as (l1 & l2 & ->).
  pose proof (qabs_nodup _ _ Ha _ _ Hq) as Hnd.
  destruct (QueueRemove_split _ _ _ _ _ _ Ha Hq) as (h' & Hr & Ha' & Ho).
  exists h'. split_and!; [done| |done].
  unfold spec_remove. replace (alter _ _ _) with (<[q := l1 ++ l2]> c); [done|].
  rewrite (alter_Some _ _ _ _ Hq). f_equal. apply NoDup_app in Hnd as (_ & Hd & [Hn2 _]%NoDup_cons).
  rewrite filter_app, filter_cons, decide_False by tauto.
  rewrite !filter_all; [done|set_solver|].
  intros x Hx ->. apply (Hd e Hx). set_solver.
Qed.

(** An entry is linked exactly when it is queued: the tests [entry.prev != 0]
    of [ProcessDestroy] and [ProcessMakeReady]. *)
Lemma linked_queued h c e :
  qabs h c -> queued c e -> is_Some (nxt h (QEnt e)) /\ is_Some (prv h (QEnt e)).
Proof.
  intros Ha (q & l & Hq & He).
  eapply linked_elem; [by eapply (qabs_ring _ _ Ha)|]. by apply elem_of_entries.
Qed.

Lemma queued_dec_linked h c e :
  qabs h c -> prv h (QEnt e) = None <-> ~ queued c e.
Proof.
  intros Ha. split.
  - intros Hp Hq. destruct (linked_queued _ _ _ Ha Hq) as [_ [? ?]]. congruence.
  - intros Hq. by apply (qabs_unlinked _ _ Ha).
Qed.

(** Removing an entry that is in no queue changes nothing. *)
Lemma QueueRemove_noop h c q e :
  qabs h c -> cell_of h e -> ~ queued c e -> QueueRemove q (QEnt e) h = Ok tt h.
Proof.
  intros Ha [n Hn] Hq. pose proof (qabs_unlinked _ _ Ha e Hq) as [Hx Hp].
  unfold nxt, prv in *. rewrite Hn in *. simpl in *.
  unfold QueueRemove, mbind, M_bind, load. rewrite Hn. simpl. by rewrite Hp.
Qed.

Lemma QueueIsEmpty_ok h c q l :
  qabs h c -> c !! q = Some l -> QueueIsEmpty q h = Ok (bool_decide (l = [])) h.
Proof.
  intros Ha Hq. unfold QueueIsEmpty, load_length, mbind, M_bind.
  rewrite (qabs_length _ _ Ha _ _ Hq). simpl. unfold mret, M_ret. f_equal.
  by destruct l.
Qed.

Lemma QueuePopFront_ok h c q :
  qabs h c -> is_Some (c !! q) ->
  exists h', QueuePopFront q h = Ok (QEnt <$> (spec_pop q c).1) h' /\
    qabs h' (spec_pop q c).2 /\ same_owners h h'.
Proof.
  intros Ha [l Hq]. unfold QueuePopFront, spec_pop.
  rewrite (bind_ok _ _ _ _ _ (QueueIsEmpty_ok _ _ _ _ Ha Hq)), Hq.
  destruct l as [|e l]; simpl; [by exists h|].
  pose proof (qabs_ring _ _ Ha _ _ Hq) as Hr. apply linked_next in Hr. simpl in Hr.
  unfold nxt in Hr. destruct (cells h !! QHead q) as [n|] eqn:Hn; [|done]. simpl in Hr.
  assert (Hld : load (QHead q) h = Ok n h) by (unfold load; by rewrite Hn).
  rewrite (bind_ok _ _ _ _ _ Hld), Hr. cbn [deref]. rewrite bind_ret.
  destruct (QueueRemove_split h c q [] e l Ha Hq) as (h' & Hrm & Ha' & Ho).
  exists h'. rewrite (bind_ok _ _ _ _ _ Hrm). done.
Qed.

Lemma QueueInit_ok h c q :
  qabs h c -> c !! q = None \/ c !! q = Some [] ->
  exists h', QueueInit q h = Ok tt h' /\ qabs h' (<[q := []]> c) /\ same_owners h h'.
Proof.
  intros Ha Hq. eexists. split; [reflexivity|]. split.
  - eapply (qabs_update h _ c q []); simpl; [done|tauto|..].
    + unfold nxt, prv. simpl. by rewrite lookup_insert_eq.
    + done.
    + intros a Hne _. unfold nxt, prv. simpl. by rewrite lookup_insert_ne.
    + apply NoDup_nil_2.
    + set_solver.
    + set_solver.
  - intros e. unfold owner_of. simpl. by rewrite lookup_insert_ne.
Qed.

Lemma QueueEntryInit_ok h c e o :
  qabs h c -> ~ queued c e ->
  exists h', QueueEntryInit e o h = Ok tt h' /\ qabs h' c /\
    owner_of h' (QEnt e) = Some o /\
    (forall e', e' <> e -> owner_of h' (QEnt e') = owner_of h (QEnt e')).
Proof.
  intros Ha Hq. eexists. split; [reflexivity|].
  assert (Hfr : forall a, a <> QEnt e ->
    cells (mkHeap (<[QEnt e := mkEntry None None o]> (cells h)) (lengths h)) !! a = cells h !! a).
  { intros a Hne. simpl. by rewrite lookup_insert_ne. }
  split_and!.
  - destruct Ha as [Hr Hl Hn Hd Hu]. split; [|done..|].
    + intros q l Hql. eapply linked_frame; [| |by apply Hr];
      intros a [->|(x & -> & Hx)%list_elem_of_fmap]%elem_of_cons;
      unfold nxt, prv; rewrite Hfr; try done; intros [= ->]; apply Hq; by exists q, l.
    + intros x Hx. unfold nxt, prv. destruct (decide (x = e)) as [->|Hne].
      * simpl. rewrite lookup_insert_eq. done.
      * rewrite Hfr by congruence. by apply Hu.
  - unfold owner_of. simpl. by rewrite lookup_insert_eq.
  - intros e' Hne. unfold owner_of. rewrite Hfr by congruence. done.
Qed.

(** The empty heap represents no queue. *)
Definition empty_heap : qheap := mkHeap ∅ ∅.

Lemma qabs_empty : qabs empty_heap ∅.
Proof. by split. Qed.

(** ** Whole runs of queue operations *)

Inductive qop :=
| OpInit (q : Q)
| OpEntryInit (e : E) (o : Z)
| OpPush (q : Q) (e : E)
| OpPop (q : Q)
| OpRemove (q : Q) (e : E)
| OpIsEmpty (q : Q).

Inductive qresult :=
| RNone
| RPopped (a : option E)
| RBool (b : bool).

Definition entry_name (a : qaddr) : option E :=
  match a with QEnt e => Some e | QHead _ => None end.

(** One call of the C code. *)
Definition exec_op (op : qop) : M qheap Empty_set qresult :=
  match op with
  | OpInit q => QueueInit q ;; mret RNone
  | OpEntryInit e o => QueueEntryInit e o ;; mret RNone
  | OpPush q e => QueuePushBack q e ;; mret RNone
  | OpPop q => a ← QueuePopFront q; mret (RPopped (a ≫= entry_name))
  | OpRemove q e => QueueRemove q (QEnt e) ;; mret RNone
  | OpIsEmpty q => b ← QueueIsEmpty q; mret (RBool b)
  end.
Fixpoint exec_ops (ops : list qop) : M qheap Empty_set (list qresult) :=
  match ops with
  | [] => mret []
  | op :: ops => r ← exec_op op; rs ← exec_ops ops; mret (r :: rs)
  end.

(** The same call on lists; the second component holds the initialised entries. *)
Definition spec_op (op : qop) (st : gmap Q (list E) * gset E)
  : qresult * (gmap Q (list E) * gset E) :=
  let '(c, es) := st in
  match op with
  | OpInit q => (RNone, (<[q := []]> c, es))
  | OpEntryInit e o => (RNone, (c, {[e]} ∪ es))
  | OpPush q e => (RNone, (spec_push q e c, es))
  | OpPop q => (RPopped (spec_pop q c).1, ((spec_pop q c).2, es))
  | OpRemove q e => (RNone, (spec_remove q e c, es))
  | OpIsEmpty q => (RBool (bool_decide (c !! q = Some [])), (c, es))
  end.
Fixpoint spec_ops (ops : list qop) (st : gmap Q (list E) * gset E) : list qresult :=
  match ops with
  | [] => []
  | op :: ops => (spec_op op st).1 :: spec_ops ops (spec_op op st).2
  end.

#[export] Instance queued_dec c e : Decision (queued c e).
Proof.
  refine (cast_if (decide (map_Exists (fun _ l => e ∈ l) c))); unfold queued, map_Exists in *; naive_solver.
Defined.

(** What the kernel must respect when it calls the queue code. *)
Definition contract (op : qop) (st : gmap Q (list E) * gset E) : Prop :=
  let '(c, es) := st in
  match op with
  | OpInit q => default [] (c !! q) = []
  | OpEntryInit e _ => ~ queued c e
  | OpPush q e => is_Some (c !! q) /\ e ∈ es /\ ~ queued c e
  | OpPop q | OpIsEmpty q => is_Some (c !! q)
  | OpRemove q e => e ∈ es /\ (queued c e -> e ∈ default [] (c !! q))
  end.
Fixpoint contracts (ops : list qop) (st : gmap Q (list E) * gset E) : Prop :=
  match ops with
  | [] => True
  | op :: ops => contract op st /\ contracts ops (spec_op op st).2
  end.

#[export] Instance contract_dec op st : Decision (contract op st).
Proof. destruct st as [c es], op; simpl; apply _. Defined.
#[export] Instance contracts_dec ops st : Decision (contracts ops st).
Proof. revert st. induction ops; simpl; apply _. Defined.

Definition represents (h : qheap) (st : gmap Q (list E) * gset E) : Prop :=
  qabs h st.1 /\ forall e, e ∈ st.2 -> cell_of h e.

Lemma same_owners_cell h h' e : same_owners h h' -> cell_of h e -> cell_of h' e.
Proof.
  intros Ho [n Hn]. specialize (Ho e). unfold owner_of in Ho. rewrite Hn in Ho.
  unfold cell_of. destruct (cells h' !! QEnt e); [eauto|done].
Qed.

Lemma represents_step h h' c c' es :
  represents h (c, es) -> qabs h' c' -> same_owners h h' -> represents h' (c', es).
Proof. intros [Ha He] Ha' Ho. split; [done|]. intros e Hin. eapply same_owners_cell; eauto. Qed.

Lemma exec_op_refines op h st :
  represents h st -> contract op st ->
  exists h', exec_op op h = Ok (spec_op op st).1 h' /\ represents h' (spec_op op st).2.
Proof.
  destruct st as [c es]. intros Hrep Hc. pose proof Hrep as [Ha He]. simpl in Ha, He.
  destruct op as [q|e o|q e|q|q e|q]; simpl in Hc |- *.
  - destruct (QueueInit_ok h c q Ha) as (h' & Hr & Ha' & Ho).
    { destruct (c !! q); simpl in Hc; subst; auto. }
    exists h'. rewrite (bind_ok _ _ _ _ _ Hr). eauto using represents_step.
  - destruct (QueueEntryInit_ok h c e o Ha Hc) as (h' & Hr & Ha' & Ho & Ho').
    exists h'. rewrite (bind_ok _ _ _ _ _ Hr). split; [done|]. split; [done|]. simpl.
    intros e' Hin. destruct (decide (e' = e)) as [->|Hne].
    + unfold owner_of in Ho. unfold cell_of. destruct (cells h' !! QEnt e); [eauto|done].
    + specialize (Ho' e' Hne). destruct (He e') as [n Hn]; [set_solver|].
      unfold owner_of in Ho'. rewrite Hn in Ho'. unfold cell_of.
      destruct (cells h' !! QEnt e'); [eauto|done].
  - destruct Hc as ([l Hq] & Hin & Hnq).
    destruct (QueuePushBack_ok h c q l e Ha Hq (He e Hin) Hnq) as (h' & Hr & Ha' & Ho).
    exists h'. rewrite (bind_ok _ _ _ _ _ Hr). split; [done|].
    eapply represents_step; [done| |done]. unfold spec_push.
    by rewrite (alter_Some _ _ _ _ Hq).
  - destruct (QueuePopFront_ok h c q Ha Hc) as (h' & Hr & Ha' & Ho).
    exists h'. rewrite (bind_ok _ _ _ _ _ Hr). split; [by destruct (spec_pop q c).1|].
    by eapply represents_step.
  - destruct Hc as [Hin Hq]. destruct (decide (queued c e)) as [Hqd|Hnq].
    + specialize (Hq Hqd). destruct (c !! q) as [l|] eqn:Hcq; [|set_solver].
      destruct (QueueRemove_ok h c q l e Ha Hcq Hq) as (h' & Hr & Ha' & Ho).
      exists h'. rewrite (bind_ok _ _ _ _ _ Hr). eauto using represents_step.
    + exists h. rewrite (bind_ok _ _ _ _ _ (QueueRemove_noop h c q e Ha (He e Hin) Hnq)).
      split; [done|]. split; [|done]. simpl.
      replace (spec_remove q e c) with c; [done|].
      apply map_eq. intros q2. unfold spec_remove. rewrite lookup_alter. case_decide; [subst|done].
      destruct (c !! q2) as [l|] eqn:Hl; [|done]. simpl. rewrite filter_all; [done|].
      intros x Hx ->. apply Hnq. by exists q2, l.
  - destruct Hc as [l Hq]. exists h. rewrite (bind_ok _ _ _ _ _ (QueueIsEmpty_ok h c q l Ha Hq)).
    split; [|done]. unfold mret, M_ret. do 2 f_equal. rewrite Hq.
    apply bool_decide_ext. naive_solver.
Qed.

(** Entries pushed on a queue, then popped from it. *)
Definition push_all (q : Q) (es : list E) : list qop := OpPush q <$> es.
Definition pop_n (q : Q) (n : nat) : list qop := repeat (OpPop q) n.

Lemma contracts_app ops1 ops2 st :
  contracts (ops1 ++ ops2) st <->
  contracts ops1 st /\ contracts ops2 (foldl (fun st op => (spec_op op st).2) st ops1).
Proof. revert st. induction ops1; intros st; simpl; [tauto|]. rewrite IHops1. tauto. Qed.

Lemma spec_ops_app ops1 ops2 st :
  spec_ops (ops1 ++ ops2) st =
  spec_ops ops1 st ++ spec_ops ops2 (foldl (fun st op => (spec_op op st).2) st ops1).
Proof. revert st. induction ops1; intros st; simpl; [done|]. by rewrite IHops1. Qed.

Lemma exec_ops_sim ops h st :
  represents h st -> contracts ops st ->
  exists h', exec_ops ops h = Ok (spec_ops ops st) h' /\
    represents h' (foldl (fun st op => (spec_op op st).2) st ops).
Proof.
  revert h st. induction ops as [|op ops IH]; intros h st Hr Hc; simpl; [by exists h|].
  destruct Hc as [Hc1 Hc2]. destruct (exec_op_refines _ _ _ Hr Hc1) as (h1 & H1 & Hr1).
  destruct (IH _ _ Hr1 Hc2) as (h2 & H2 & Hr2). exists h2. split; [|done].
  by rewrite (bind_ok _ _ _ _ _ H1), (bind_ok _ _ _ _ _ H2).
Qed.

Lemma push_all_spec q l es c s :
  c !! q = Some l ->
  foldl (fun st op => (spec_op op st).2) (c, s) (push_all q es) = (<[q := l ++ es]> c, s).
Proof.
  revert l c. induction es as [|e es IH]; intros l c Hq; simpl.
  - by rewrite app_nil_r, insert_id.
  - unfold spec_push at 1. rewrite (alter_Some _ _ _ _ Hq).
    unfold push_all in IH. rewrite (IH (l ++ [e])) by apply lookup_insert_eq.
    by rewrite insert_insert_eq, <- app_assoc.
Qed.

Lemma pop_n_spec q l c s :
  c !! q = Some l ->
  spec_ops (pop_n q (length l)) (c, s) = (fun e => RPopped (Some e)) <$> l.
Proof.
  revert c. induction l as [|e l IH]; intros c Hq; simpl; [done|].
  unfold spec_pop. rewrite Hq. simpl. f_equal. apply IH. apply lookup_insert_eq.
Qed.

Lemma push_all_contracts q l es c s :
  c !! q = Some l -> NoDup es -> (forall e, e ∈ es -> e ∈ s /\ ~ queued c e) ->
  contracts (push_all q es) (c, s).
Proof.
  revert l c. induction es as [|e es IH]; intros l c Hq Hnd He; simpl; [done|].
  apply NoDup_cons in Hnd as [Hn Hnd]. split.
  - destruct (He e) as [? ?]; [set_solver|]. split_and!; [by exists l|done..].
  - unfold spec_push. rewrite (alter_Some _ _ _ _ Hq).
    apply (IH (l ++ [e])); [apply lookup_insert_eq|done|].
    intros x Hx. destruct (He x) as [? Hnq]; [set_solver|]. split; [done|].
    intros (q2 & l2 & Hq2 & Hx2). destruct (decide (q = q2)) as [->|Hne].
    + rewrite lookup_insert_eq in Hq2. simplify_eq.
      apply elem_of_app in Hx2 as [Hx2| ->%list_elem_of_singleton]; [|done].
      apply Hnq. by exists q2, l.
    + rewrite lookup_insert_ne in Hq2 by done. apply Hnq. by exists q2, l2.
Qed.

Lemma pop_n_contracts q n c s : is_Some (c !! q) -> contracts (pop_n q n) (c, s).
Proof.
  revert c. induction n as [|n IH]; intros c Hq; simpl; [done|]. split; [done|].
  apply IH. unfold spec_pop. destruct (c !! q) as [[|e l]|] eqn:Hcq; simpl; rewrite ?Hcq, ?lookup_insert_eq; by eauto.
Qed.

Lemma pop_n_state q l c s :
  c !! q = Some l ->
  foldl (fun st op => (spec_op op st).2) (c, s) (pop_n q (length l)) = (<[q := []]> c, s).
Proof.
  revert c. induction l as [|e l IH]; intros c Hq; simpl; [by rewrite insert_id|].
  unfold spec_pop at 1. rewrite Hq. simpl. unfold pop_n in IH.
  rewrite IH by apply lookup_insert_eq. by rewrite insert_insert_eq.
Qed.

(** ** Deciding the representation of a concrete heap *)

#[export] Instance linked_dec nx pv x l y : Decision (linked nx pv x l y).
Proof. revert x. induction l; simpl; intros; apply _. Defined.

Definition qabs_check (h : qheap) (c : gmap Q (list E)) : Prop :=
  map_Forall (fun q l => linked (nxt h) (prv h) (QHead q) (QEnt <$> l) (QHead q) /\
    lengths h !! q = Some (Z.of_nat (length l)) /\ NoDup l) c /\
  map_Forall (fun q1 l1 => map_Forall (fun q2 l2 => q1 = q2 \/ Forall (fun e => e ∉ l2) l1) c) c /\
  map_Forall (fun a n => match a with
    | QEnt e => queued c e \/ next n = None /\ prev n = None
    | QHead _ => True
    end) (cells h).

#[export] Instance qabs_check_dec h c : Decision (qabs_check h c).
Proof.
  unfold qabs_check. apply and_dec; [apply _|]. apply and_dec; [apply _|].
  apply map_Forall_dec. intros [q|e] n; apply _.
Defined.

Lemma qabs_check_sound h c : qabs_check h c -> qabs h c.
Proof.
  intros (H1 & H2 & H3). split.
  - intros q l Hq. apply (H1 q l Hq).
  - intros q l Hq. apply (H1 q l Hq).
  - intros q l Hq. apply (H1 q l Hq).
  - intros q1 q2 l1 l2 e Hq1 Hq2 He1 He2. destruct (H2 q1 l1 Hq1 q2 l2 Hq2) as [?|Hf]; [done|].
    rewrite Forall_forall in Hf. by destruct (Hf e He1).
  - intros e Hq. unfold nxt, prv. destruct (cells h !! QEnt e) as [n|] eqn:Hn; [|done].
    destruct (H3 (QEnt e) n Hn) as [?|[Hx Hp]]; [done|]. simpl. by rewrite Hx, Hp.
Qed.

(** The lists of a heap, read along the [next] pointers. *)
Fixpoint ring_of (fuel : nat) (h : qheap) (a : option qaddr) : list E :=
  match fuel, a with
  | S n, Some (QEnt e) => e :: ring_of n h (nxt h (QEnt e))
  | _, _ => []
  end.
Definition lists_of (h : qheap) : gmap Q (list E) :=
  map_imap (fun q n => Some (ring_of (Z.to_nat n) h (nxt h (QHead q)))) (lengths h).

(** ** Properties *)

(** C1: the pointer code implements a family of lists.  Every run of queue
    operations that respects the contract of [Queue.c] (initialise a queue only
    while it is empty, push only an initialised entry that is in no queue,
    remove an entry only from the queue it is in) runs without dereferencing a
    bad pointer returns exactly what the lists return and still represents them. *)
Theorem queue_ops_refine_lists (h : qheap) (st : gmap Q (list E) * gset E) ops :
  represents h st -> contracts ops st ->
  exists h', exec_ops ops h = Ok (spec_ops ops st) h' /\
    represents h' (foldl (fun st op => (spec_op op st).2) st ops).
Proof. apply exec_ops_sim. Qed.

(** C38: a queue is first in, first out: entries pushed on an empty queue come
    back in the order they were pushed, and the queue is then empty again. *)
Theorem queue_fifo (h : qheap) (c : gmap Q (list E)) (s : gset E) q es :
  represents h (c, s) -> c !! q = Some [] -> NoDup es ->
  (forall e, e ∈ es -> e ∈ s /\ ~ queued c e) ->
  exists h', exec_ops (push_all q es ++ pop_n q (length es) ++ [OpIsEmpty q]) h =
    Ok (repeat RNone (length es) ++ ((fun e => RPopped (Some e)) <$> es) ++ [RBool true]) h'.
Proof.
  intros Hr Hq Hnd He.
  assert (Hpush := push_all_spec q [] es c s Hq). simpl in Hpush.
  assert (Hq' : <[q := es]> c !! q = Some es) by apply lookup_insert_eq.
  destruct (exec_ops_sim (push_all q es ++ pop_n q (length es) ++ [OpIsEmpty q]) h (c, s) Hr)
    as (h' & Hh' & _).
  - rewrite !contracts_app, Hpush, (pop_n_state _ _ _ _ Hq'). split_and!.
    + by eapply push_all_contracts.
    + by apply pop_n_contracts.
    + simpl. by rewrite lookup_insert_eq.
  - exists h'. rewrite Hh'. f_equal. rewrite !spec_ops_app, Hpush, (pop_n_state _ _ _ _ Hq').
    f_equal; [|f_equal; [by apply pop_n_spec|]].
    + clear. generalize (c, s). induction es as [|e es IH]; intros st; simpl; [done|].
      destruct st. simpl. f_equal. apply IH.
    + simpl. by rewrite lookup_insert_eq, bool_decide_true.
Qed.
End Queue.

Arguments qaddr : clear implicits.
Arguments qheap Q E {_ _ _ _}.
Arguments QueueEntry : clear implicits.

(** ** The properties at concrete queues *)

Module QueueWitness.
(** Queue 0 initialised, entries 7, 8 and 9 initialised and in no queue. *)
Definition ops0 : list (@qop Z Z) :=
  [OpInit 0; OpEntryInit 7 70; OpEntryInit 8 80; OpEntryInit 9 90].
Definition heap0 : qheap Z Z :=
  match exec_ops ops0 empty_heap with Ok _ h => h | _ => empty_heap end.
Definition lists0 : gmap Z (list Z) := {[ 0 := [] ]}.
Definition inited0 : gset Z := {[ 9; 8; 7 ]}.

Lemma represents_empty : represents (@empty_heap Z Z _ _ _ _) (∅, ∅).
Proof. split; [apply qabs_empty|done]. Qed.

Lemma represents0 : represents heap0 (lists0, inited0).
Proof.
  destruct (exec_ops_sim ops0 _ _ represents_empty) as (h & Hh & Hr);
    [apply (bool_decide_unpack _); by vm_compute|].
  unfold heap0. rewrite Hh. split; [|apply Hr].
  replace lists0 with (foldl (fun st op => (spec_op op st).2) (∅, ∅) ops0).1 by by vm_compute.
  apply Hr.
Qed.

(** Push 7 and 8, remove 7, pop 8, find the queue empty. *)
Definition ops1 : list (@qop Z Z) :=
  [OpPush 0 7; OpPush 0 8; OpRemove 0 7; OpPop 0; OpIsEmpty 0].

Lemma queue_ops_refine_lists_witness :
  contracts ops1 (lists0, inited0) /\
  exists h', exec_ops ops1 heap0 = Ok [RNone; RNone; RNone; RPopped (Some 8); RBool true] h' /\
    represents h' (foldl (fun st op => (spec_op op st).2) (lists0, inited0) ops1).
Proof.
  assert (Hc : contracts ops1 (lists0, inited0)).
  { apply (bool_decide_unpack _). by vm_compute. }
  split; [exact Hc|].
  exact (queue_ops_refine_lists heap0 (lists0, inited0) ops1 represents0 Hc).
Defined.

Lemma queue_fifo_witness :
  exists h', exec_ops (push_all 0 [9; 7] ++ pop_n 0 2 ++ [OpIsEmpty 0]) heap0 =
    Ok ([RNone; RNone] ++ [RPopped (Some 9); RPopped (Some 7)] ++ [RBool true]) h'.
Proof.
  apply (queue_fifo heap0 lists0 inited0 0 [9; 7] represents0).
  - by vm_compute.
  - apply (bool_decide_unpack _). by vm_compute.
  - intros e [->|[->|[]%elem_of_nil]%elem_of_cons]%elem_of_cons;
      (split; [apply (bool_decide_unpack _); by vm_compute|]);
      apply (bool_decide_unpack _); by vm_compute.
Defined.
End QueueWitness.
