(* ===== verification/Memory.v ===== *)
(** * Physical frames and page tables ([memory.h], [memory.c])

    The state [mem] holds the globals of [memory.c] and [kernelbrk.c], the page
    tables on the kernel heap, the machine's registers and physical memory, the
    set of heap blocks in use and the log of external calls.  The operations are
    those of [memory.c] that do not need the kernel heap; [KernelBrk.v] adds the
    heap and the rest of the file.

    The accounting invariant [accounted m pt ext] says that the frames marked in
    [frame_allocated] are exactly the frames mapped by table [pt] and the frames
    [ext] that belong to everybody else, each exactly once: no frame is leaked
    and none has two owners.  Every operation on a table preserves it. *)

From S2P Require Import Prelude Framework.

(** ** Data *)

Record pte := mkPte {
  valid : bool;
  prot : Z;
  pfn : Z
}.

(** What [calloc] leaves in a page table entry. *)
Definition pte_zero : pte := mkPte false 0 0.

Record mem := mkMem {
  (* memory.c *)
  frame_allocated : list bool;
  physical_frame_count : Z;
  kernel_region0_pt : Z;
  (* kernelbrk.c, kernelstart.c *)
  current_kernel_brk_page : Z;
  highest_pre_vm_brk_page : Z;
  vm_enabled : bool;
  (* the kernel heap: page tables by address, blocks in use *)
  page_tables : gmap Z (list pte);
  inuse : gset Z;
  (* the machine *)
  ptbr0 : Z;
  ptbr1 : Z;
  ram : gmap Z Z;
  log : list event
}.

Definition set_frames v m := mkMem v (physical_frame_count m) (kernel_region0_pt m)
  (current_kernel_brk_page m) (highest_pre_vm_brk_page m) (vm_enabled m) (page_tables m)
  (inuse m) (ptbr0 m) (ptbr1 m) (ram m) (log m).
Definition set_frame_count v m := mkMem (frame_allocated m) v (kernel_region0_pt m)
  (current_kernel_brk_page m) (highest_pre_vm_brk_page m) (vm_enabled m) (page_tables m)
  (inuse m) (ptbr0 m) (ptbr1 m) (ram m) (log m).
Definition set_region0_pt v m := mkMem (frame_allocated m) (physical_frame_count m) v
  (current_kernel_brk_page m) (highest_pre_vm_brk_page m) (vm_enabled m) (page_tables m)
  (inuse m) (ptbr0 m) (ptbr1 m) (ram m) (log m).
Definition set_brk_page v m := mkMem (frame_allocated m) (physical_frame_count m)
  (kernel_region0_pt m) v (highest_pre_vm_brk_page m) (vm_enabled m) (page_tables m)
  (inuse m) (ptbr0 m) (ptbr1 m) (ram m) (log m).
Definition set_highest_brk_page v m := mkMem (frame_allocated m) (physical_frame_count m)
  (kernel_region0_pt m) (current_kernel_brk_page m) v (vm_enabled m) (page_tables m)
  (inuse m) (ptbr0 m) (ptbr1 m) (ram m) (log m).
Definition set_vm_enabled v m := mkMem (frame_allocated m) (physical_frame_count m)
  (kernel_region0_pt m) (current_kernel_brk_page m) (highest_pre_vm_brk_page m) v
  (page_tables m) (inuse m) (ptbr0 m) (ptbr1 m) (ram m) (log m).
Definition set_tables v m := mkMem (frame_allocated m) (physical_frame_count m)
  (kernel_region0_pt m) (current_kernel_brk_page m) (highest_pre_vm_brk_page m)
  (vm_enabled m) v (inuse m) (ptbr0 m) (ptbr1 m) (ram m) (log m).
Definition set_inuse v m := mkMem (frame_allocated m) (physical_frame_count m)
  (kernel_region0_pt m) (current_kernel_brk_page m) (highest_pre_vm_brk_page m)
  (vm_enabled m) (page_tables m) v (ptbr0 m) (ptbr1 m) (ram m) (log m).
Definition set_ptbr0 v m := mkMem (frame_allocated m) (physical_frame_count m)
  (kernel_region0_pt m) (current_kernel_brk_page m) (highest_pre_vm_brk_page m)
  (vm_enabled m) (page_tables m) (inuse m) v (ptbr1 m) (ram m) (log m).
Definition set_ptbr1 v m := mkMem (frame_allocated m) (physical_frame_count m)
  (kernel_region0_pt m) (current_kernel_brk_page m) (highest_pre_vm_brk_page m)
  (vm_enabled m) (page_tables m) (inuse m) (ptbr0 m) v (ram m) (log m).
Definition set_ram v m := mkMem (frame_allocated m) (physical_frame_count m)
  (kernel_region0_pt m) (current_kernel_brk_page m) (highest_pre_vm_brk_page m)
  (vm_enabled m) (page_tables m) (inuse m) (ptbr0 m) (ptbr1 m) v (log m).
Definition add_log e m := mkMem (frame_allocated m) (physical_frame_count m)
  (kernel_region0_pt m) (current_kernel_brk_page m) (highest_pre_vm_brk_page m)
  (vm_enabled m) (page_tables m) (inuse m) (ptbr0 m) (ptbr1 m) (ram m) (log m ++ [e]).

Section Memory.
Context {F : Framework}.

(** ** The machine *)

(** [WriteRegister]: the two page table base registers are remembered. *)
Definition write_reg (r : hwreg) (v : Z) (m : mem) : mem :=
  let m := add_log (EvReg r v) m in
  match r with
  | REG_PTBR0 => set_ptbr0 v m
  | REG_PTBR1 => set_ptbr1 v m
  | _ => m
  end.
Definition WriteRegister (r : hwreg) (v : Z) : M mem Empty_set unit := modify (write_reg r v).

(** C array indexing: an index outside the array is an error, not a default. *)
Definition zlookup {A} (l : list A) (i : Z) : option A :=
  if i <? 0 then None else l !! Z.to_nat i.

(** [pt[i]] as a value and as the target of an assignment. *)
Definition table_entry (m : mem) (pt i : Z) : option pte :=
  page_tables m !! pt ≫= (fun l => zlookup l i).
Definition put_pte (pt i : Z) (e : pte) (m : mem) : mem :=
  set_tables (alter (fun l => <[Z.to_nat i := e]> l) pt (page_tables m)) m.
Definition pt_read (pt i : Z) : M mem Empty_set pte :=
  fun m => deref "page table entry" (table_entry m pt i) m.
Definition pt_write (pt i : Z) (e : pte) : M mem Empty_set unit :=
  pt_read pt i ;; modify (put_pte pt i e).

(** ** Frames *)

Definition FrameAlloc : M mem Empty_set Z :=
  count ← gets physical_frame_count;
  r ← for_range_ret 0 count (fun pfn =>
    m ← gets (fun m => m);
    used ← deref "frame_allocated" (zlookup (frame_allocated m) pfn);
    if (negb used)
    then modify (set_frames (<[Z.to_nat pfn := true]> (frame_allocated m))) ;; mret (Some pfn)
    else mret None);
  mret (default ERROR r).

Definition FrameFree (pfn : Z) : M mem Empty_set unit :=
  m ← gets (fun m => m);
  if (pfn <? 0) || (physical_frame_count m <=? pfn) then mret tt
  else
    deref "frame_allocated" (zlookup (frame_allocated m) pfn) ;;
    modify (set_frames (<[Z.to_nat pfn := false]> (frame_allocated m))).

Definition FrameIsAllocated (pfn : Z) : M mem Empty_set bool :=
  m ← gets (fun m => m);
  if (pfn <? 0) || (physical_frame_count m <=? pfn) then mret false
  else deref "frame_allocated" (zlookup (frame_allocated m) pfn).

(** ** Page tables *)

Definition MemoryInstallPageTables (region1_pt : Z) : M mem Empty_set unit :=
  pt0 ← gets kernel_region0_pt;
  WriteRegister REG_PTBR0 pt0 ;;
  WriteRegister REG_PTLR0 MAX_PT_LEN ;;
  WriteRegister REG_PTBR1 region1_pt ;;
  WriteRegister REG_PTLR1 MAX_PT_LEN.

(** The TLB flush at the end of [MemoryMapPage] and [MemoryUnmapPage]. *)
Definition flush_page (pt index : Z) : M mem Empty_set unit :=
  m ← gets (fun m => m);
  if vm_enabled m then
    if pt =? kernel_region0_pt m then
      WriteRegister REG_TLB_FLUSH (index ≪ PAGESHIFT)
    else
      WriteRegister REG_TLB_FLUSH (VMEM_1_BASE + (index ≪ PAGESHIFT))
  else skip.

Definition MemoryMapPage (pt index pfn prot : Z) : M mem Empty_set Z :=
  if (pt =? 0) || (index <? 0) || (MAX_PT_LEN <=? index) || (pfn <? 0) then mret ERROR
  else
    pt_write pt index (mkPte true prot pfn) ;;
    flush_page pt index ;;
    mret SUCCESS.

Definition MemoryUnmapPage (pt index : Z) : M mem Empty_set unit :=
  if (pt =? 0) || (index <? 0) || (MAX_PT_LEN <=? index) then mret tt
  else
    pt_write pt index (mkPte false PROT_NONE 0) ;;
    flush_page pt index.

Definition MemoryFreePageTableFrames (pt : Z) : M mem Empty_set unit :=
  if pt =? 0 then mret tt
  else
    for_range 0 MAX_PT_LEN (fun i =>
      e ← pt_read pt i;
      if valid e then FrameFree (pfn e) ;; MemoryUnmapPage pt i else skip) ;;
    vm ← gets vm_enabled;
    if (vm : bool) then WriteRegister REG_TLB_FLUSH TLB_FLUSH_1 else skip.

(** ** Frames in use and frames mapped *)

Definition used (m : mem) (f : Z) : Prop :=
  0 <= f < physical_frame_count m /\ frame_allocated m !! Z.to_nat f = Some true.

Definition mem_wf (m : mem) : Prop :=
  0 <= physical_frame_count m <= Z.of_nat (length (frame_allocated m)).

Definition frames_of (l : list pte) : list Z := pfn <$> filter (fun e => valid e = true) l.

Definition table_frames (m : mem) (pt : Z) : list Z :=
  from_option frames_of [] (page_tables m !! pt).

(** The frame accounting of one page table against all other owners [ext]. *)
Record accounted (m : mem) (pt : Z) (ext : list Z) : Prop := {
  acc_wf : mem_wf m;
  acc_ptr : pt <> 0;
  acc_table : exists l, page_tables m !! pt = Some l /\ length l = Z.to_nat MAX_PT_LEN;
  acc_nodup : NoDup (table_frames m pt ++ ext);
  acc_used : forall f, used m f <-> f ∈ table_frames m pt ++ ext
}.

(** What an operation on table [pt] leaves alone. *)
Record outside (m m' : mem) (pt : Z) : Prop := {
  out_count : physical_frame_count m' = physical_frame_count m;
  out_region0 : kernel_region0_pt m' = kernel_region0_pt m;
  out_brk : current_kernel_brk_page m' = current_kernel_brk_page m;
  out_hibrk : highest_pre_vm_brk_page m' = highest_pre_vm_brk_page m;
  out_vm : vm_enabled m' = vm_enabled m;
  out_tables : forall pt', pt' <> pt -> page_tables m' !! pt' = page_tables m !! pt';
  out_inuse : inuse m' = inuse m;
  out_ptbr0 : ptbr0 m' = ptbr0 m;
  out_ptbr1 : ptbr1 m' = ptbr1 m;
  out_ram : ram m' = ram m
}.

Lemma outside_refl m pt : outside m m pt.
Proof. done. Qed.
Lemma outside_trans m2 m1 m3 pt : outside m1 m2 pt -> outside m2 m3 pt -> outside m1 m3 pt.
Proof.
  intros [] []. split; try congruence.
  intros pt' Hne. rewrite out_tables1 by done. by apply out_tables0.
Qed.

(** ** Array access *)

Lemma zlookup_nat {A} (l : list A) (i : Z) : 0 <= i -> zlookup l i = l !! Z.to_nat i.
Proof. intros. unfold zlookup. by test_false (i <? 0). Qed.

Lemma zlookup_is_Some {A} (l : list A) (i : Z) :
  0 <= i < Z.of_nat (length l) -> is_Some (zlookup l i).
Proof. intros. rewrite zlookup_nat by lia. apply lookup_lt_is_Some. lia. Qed.

Lemma zlookup_Some {A} (l : list A) (i : Z) x :
  zlookup l i = Some x -> 0 <= i < Z.of_nat (length l) /\ l !! Z.to_nat i = Some x.
Proof.
  unfold zlookup. case_test; [done|]. intros Hx. pose proof (lookup_lt_Some _ _ _ Hx). split; [lia|done].
Qed.

Lemma zlookup_insert {A} (l : list A) i j x :
  is_Some (zlookup l i) ->
  zlookup (<[Z.to_nat i := x]> l) j = if decide (i = j) then Some x else zlookup l j.
Proof.
  intros [y Hy]. apply zlookup_Some in Hy as [Hr Hy]. destruct (decide (0 <= j)) as [Hj|Hj].
  - rewrite !zlookup_nat, list_update_lookup by lia. destruct (decide (i = j)) as [->|Hne].
    + rewrite !decide_True by lia. done.
    + rewrite decide_False by lia. done.
  - rewrite decide_False by lia. unfold zlookup. by test_true (j <? 0).
Qed.

Lemma mem_wf_frame m f :
  mem_wf m -> 0 <= f < physical_frame_count m -> is_Some (zlookup (frame_allocated m) f).
Proof. unfold mem_wf. intros. apply zlookup_is_Some. lia. Qed.

(** ** FrameAlloc, FrameFree *)

Definition mark_frame (f : Z) (b : bool) (m : mem) : mem :=
  set_frames (<[Z.to_nat f := b]> (frame_allocated m)) m.

Lemma used_mark m f b g :
  mem_wf m -> 0 <= f < physical_frame_count m -> 0 <= g < physical_frame_count m ->
  used (mark_frame f b m) g <-> (if decide (f = g) then b = true else used m g).
Proof.
  unfold mem_wf, used, mark_frame. simpl. intros Hwf Hf Hg.
  rewrite list_update_lookup. case_decide as Hfg.
  - assert (f = g) as -> by lia. rewrite !decide_True by (done || lia).
    naive_solver.
  - rewrite decide_False by congruence. naive_solver.
Qed.

Lemma used_range m f : used m f -> 0 <= f < physical_frame_count m.
Proof. by intros []. Qed.

Lemma mem_wf_mark m f b : mem_wf m -> mem_wf (mark_frame f b m).
Proof. unfold mem_wf, mark_frame. simpl. by rewrite length_insert. Qed.

(** The lowest free frame, or none. *)
Lemma FrameAlloc_spec m :
  mem_wf m ->
  (exists f, FrameAlloc m = Ok f (mark_frame f true m) /\ 0 <= f < physical_frame_count m /\
     ~ used m f /\ forall g, 0 <= g < f -> used m g) \/
  (FrameAlloc m = Ok ERROR m /\ forall g, 0 <= g < physical_frame_count m -> used m g).
Proof.
  intros Hwf. unfold FrameAlloc. rewrite bind_gets. unfold for_range_ret. rewrite Z.sub_0_r.
  set_body body.
  edestruct (wp_returns (for_n_ret (Z.to_nat (physical_frame_count m)) 0 body))
    as ([f|] & s' & Hrun & Hpost).
  { apply (wp_for_n_ret
      (fun i s => s = m /\ forall g, 0 <= g < i -> used m g)
      (fun f s => s = mark_frame f true m /\ 0 <= f < physical_frame_count m /\
         ~ used m f /\ forall g, 0 <= g < f -> used m g)); [split; [done|lia]|].
    intros k s Hk [-> Hlow]. subst body. cbv beta.
    destruct (mem_wf_frame m k Hwf) as [b Hb]; [unfold mem_wf in Hwf; lia|].
    unfold wp. rewrite bind_gets, Hb. cbn [deref]. rewrite bind_ret.
    apply zlookup_Some in Hb as [Hkr Hb]. unfold mem_wf in Hwf.
    destruct b; simpl.
    - split; [done|]. intros g Hg. destruct (decide (g = k)) as [->|]; [|apply Hlow; lia].
      split; [lia|done].
    - split_and!; [done|lia|lia| |done]. intros [_ Hu]. congruence. }
  - left. exists f. rewrite (bind_ok _ _ _ _ _ Hrun). destruct Hpost as (-> & ? & ? & ?). done.
  - right. rewrite (bind_ok _ _ _ _ _ Hrun). destruct Hpost as (-> & Hall).
    split; [done|]. intros g Hg. apply Hall. unfold mem_wf in Hwf. lia.
Qed.

Lemma FrameFree_run m f :
  mem_wf m -> 0 <= f < physical_frame_count m -> FrameFree f m = Ok tt (mark_frame f false m).
Proof.
  intros Hwf Hf. unfold FrameFree. rewrite bind_gets.
  test_false ((f <? 0) || (physical_frame_count m <=? f)).
  destruct (mem_wf_frame m f Hwf Hf) as [b Hb]. rewrite Hb. reflexivity.
Qed.

Lemma FrameFree_invalid m f :
  ~ 0 <= f < physical_frame_count m -> FrameFree f m = Ok tt m.
Proof.
  intros Hf. unfold FrameFree. rewrite bind_gets.
  by test_true ((f <? 0) || (physical_frame_count m <=? f)).
Qed.

(** ** Mapping and unmapping one page *)

(** The machine after the TLB flush of page [i] of table [pt]. *)
Definition flushed (pt i : Z) (m : mem) : mem :=
  if vm_enabled m then
    write_reg REG_TLB_FLUSH
      (if pt =? kernel_region0_pt m then i ≪ PAGESHIFT else VMEM_1_BASE + (i ≪ PAGESHIFT)) m
  else m.
(** Entry [i] of table [pt] replaced and its translation flushed. *)
Definition page_changed (pt i : Z) (e : pte) (m : mem) : mem := flushed pt i (put_pte pt i e m).

Lemma flush_page_run pt i m : flush_page pt i m = Ok tt (flushed pt i m).
Proof.
  unfold flush_page, flushed. rewrite bind_gets. destruct (vm_enabled m); [|done].
  by destruct (pt =? kernel_region0_pt m).
Qed.

Lemma flushed_simpl pt i m :
  frame_allocated (flushed pt i m) = frame_allocated m /\
  page_tables (flushed pt i m) = page_tables m /\ outside m (flushed pt i m) pt.
Proof. unfold flushed. by destruct (vm_enabled m). Qed.

Lemma MemoryMapPage_run pt i f pr m :
  pt <> 0 -> 0 <= i < MAX_PT_LEN -> 0 <= f -> is_Some (table_entry m pt i) ->
  MemoryMapPage pt i f pr m = Ok SUCCESS (page_changed pt i (mkPte true pr f) m).
Proof.
  intros Hpt Hi Hf [e He]. unfold MemoryMapPage.
  test_false ((pt =? 0) || (i <? 0) || (MAX_PT_LEN <=? i) || (f <? 0)).
  unfold pt_write, pt_read. rewrite !bind_bind. unfold mbind at 1, M_bind at 1. rewrite He.
  cbn [deref]. unfold mret, M_ret. rewrite bind_modify, (bind_ok _ _ _ _ _ (flush_page_run _ _ _)).
  reflexivity.
Qed.

Lemma MemoryMapPage_bad pt i f pr m :
  pt = 0 \/ ~ 0 <= i < MAX_PT_LEN \/ f < 0 -> MemoryMapPage pt i f pr m = Ok ERROR m.
Proof.
  intros Hbad. unfold MemoryMapPage.
  by test_true ((pt =? 0) || (i <? 0) || (MAX_PT_LEN <=? i) || (f <? 0)).
Qed.

Lemma MemoryUnmapPage_run pt i m :
  pt <> 0 -> 0 <= i < MAX_PT_LEN -> is_Some (table_entry m pt i) ->
  MemoryUnmapPage pt i m = Ok tt (page_changed pt i (mkPte false PROT_NONE 0) m).
Proof.
  intros Hpt Hi [e He]. unfold MemoryUnmapPage.
  test_false ((pt =? 0) || (i <? 0) || (MAX_PT_LEN <=? i)).
  unfold pt_write, pt_read. rewrite !bind_bind. unfold mbind at 1, M_bind at 1. rewrite He.
  cbn [deref]. unfold mret, M_ret. rewrite bind_modify. apply flush_page_run.
Qed.

Lemma page_changed_outside pt i e m : outside m (page_changed pt i e m) pt.
Proof.
  unfold page_changed. destruct (flushed_simpl pt i (put_pte pt i e m)) as (_ & _ & Ho).
  eapply outside_trans; [|exact Ho]. split; try done.
  intros pt' Hne. simpl. by rewrite lookup_alter_ne.
Qed.

Lemma page_changed_frames pt i e m :
  frame_allocated (page_changed pt i e m) = frame_allocated m.
Proof. unfold page_changed. by destruct (flushed_simpl pt i (put_pte pt i e m)) as (-> & _ & _). Qed.

Lemma page_changed_table pt i e m l :
  page_tables m !! pt = Some l ->
  page_tables (page_changed pt i e m) !! pt = Some (<[Z.to_nat i := e]> l).
Proof.
  intros Hl. unfold page_changed. destruct (flushed_simpl pt i (put_pte pt i e m)) as (_ & -> & _).
  simpl. by rewrite lookup_alter_eq, Hl.
Qed.

Lemma mark_frame_outside f b m pt : outside m (mark_frame f b m) pt.
Proof. by split. Qed.

Lemma used_same m m' :
  physical_frame_count m' = physical_frame_count m ->
  frame_allocated m' = frame_allocated m ->
  forall f, used m' f <-> used m f.
Proof. unfold used. intros -> -> f. done. Qed.

(** ** The frames of a table *)

Lemma frames_of_app l1 l2 : frames_of (l1 ++ l2) = frames_of l1 ++ frames_of l2.
Proof. unfold frames_of. by rewrite filter_app, fmap_app. Qed.

Lemma frames_of_cons e l :
  frames_of (e :: l) = (if valid e then [pfn e] else []) ++ frames_of l.
Proof. unfold frames_of. rewrite filter_cons. destruct (valid e) eqn:He; by case_decide. Qed.

Lemma frames_of_insert l i e0 e :
  l !! i = Some e0 ->
  (if valid e0 then [pfn e0] else []) ++ frames_of (<[i := e]> l) ≡ₚ
  (if valid e then [pfn e] else []) ++ frames_of l.
Proof.
  intros Hi. rewrite <- (take_drop_middle _ _ _ Hi) at 2.
  rewrite insert_take_drop by (by eapply lookup_lt_Some).
  rewrite !frames_of_app, !frames_of_cons.
  destruct (valid e0), (valid e); simpl; by rewrite <- ?Permutation_middle, ?(Permutation_swap (pfn e0)).
Qed.

(** A table that is valid wherever another one is maps at least as many frames. *)
Lemma frames_of_le l' l :
  (forall i e', l' !! i = Some e' -> valid e' = true -> exists e, l !! i = Some e /\ valid e = true) ->
  (length (frames_of l') <= length (frames_of l))%nat.
Proof.
  revert l. induction l' as [|e' l' IH]; intros l Hle; [simpl; lia|].
  assert (Htail : (length (frames_of l') <= length (frames_of (drop 1 l)))%nat).
  { apply IH. intros i e Hi Hv. rewrite lookup_drop. by apply (Hle (Datatypes.S i) e). }
  rewrite frames_of_cons, length_app. destruct (valid e') eqn:Hv.
  - destruct (Hle 0%nat e' eq_refl Hv) as (e & He & Hve). destruct l as [|e1 l]; [done|].
    injection He as ->. rewrite frames_of_cons, Hve, length_app. cbn [drop] in Htail. cbn [length]. rewrite drop_0 in Htail. lia.
  - cbn [length]. destruct l as [|e1 l]; [done|]. cbn [drop] in Htail. rewrite drop_0 in Htail.
    rewrite frames_of_cons, length_app. lia.
Qed.

Lemma elem_of_frames_of l f :
  f ∈ frames_of l <-> exists i e, l !! i = Some e /\ valid e = true /\ pfn e = f.
Proof.
  unfold frames_of. rewrite list_elem_of_fmap. setoid_rewrite list_elem_of_filter.
  setoid_rewrite list_elem_of_lookup. naive_solver.
Qed.

Lemma frames_of_replicate n e : valid e = false -> frames_of (replicate n e) = [].
Proof. intros He. induction n; simpl; [done|]. by rewrite frames_of_cons, He. Qed.

(** ** Accounting *)

Lemma outside_wf m m' pt :
  outside m m' pt -> length (frame_allocated m') = length (frame_allocated m) ->
  mem_wf m -> mem_wf m'.
Proof. unfold mem_wf. intros Ho ->. by rewrite (out_count _ _ _ Ho). Qed.

Lemma page_changed_table_frames pt i e0 e m :
  0 <= i -> table_entry m pt i = Some e0 ->
  (if valid e0 then [pfn e0] else []) ++ table_frames (page_changed pt i e m) pt ≡ₚ
  (if valid e then [pfn e] else []) ++ table_frames m pt.
Proof.
  intros Hi He. unfold table_entry in He.
  destruct (page_tables m !! pt) as [l|] eqn:Hl; [|done]. simpl in He.
  unfold table_frames. rewrite (page_changed_table _ _ _ _ _ Hl), Hl. simpl.
  apply frames_of_insert. by apply zlookup_Some in He as [_ ?].
Qed.

(** A table with an entry to spare maps fewer frames. *)
Lemma table_frames_lt m pt m' pt' k e e' :
  (forall i a', table_entry m' pt' i = Some a' -> valid a' = true ->
     exists a, table_entry m pt i = Some a /\ valid a = true) ->
  table_entry m' pt' k = Some e' -> valid e' = false -> table_entry m pt k = Some e -> valid e = true ->
  (length (table_frames m' pt') < length (table_frames m pt))%nat.
Proof.
  unfold table_entry, table_frames. destruct (page_tables m' !! pt') as [l'|]; [|done].
  destruct (page_tables m !! pt) as [l|]; [|done]. simpl. intros Hle Hk' Hv' Hk Hv.
  apply zlookup_Some in Hk' as [H0 Hk']. apply zlookup_Some in Hk as [_ Hk].
  pose proof (frames_of_insert l' (Z.to_nat k) e' e Hk') as Hp. rewrite Hv', Hv in Hp.
  apply Permutation_length in Hp. simpl in Hp.
  enough (length (frames_of (<[Z.to_nat k := e]> l')) <= length (frames_of l))%nat by lia.
  apply frames_of_le. intros i a Hi Ha. apply list_lookup_insert_Some in Hi as [(Heq1 & Heq2 & _)|[_ Hi]]; [subst; eauto|].
  destruct (Hle (Z.of_nat i) a) as (b & Hb & Hvb); [by rewrite zlookup_nat, Nat2Z.id by lia|done|].
  apply zlookup_Some in Hb as [_ Hb]. rewrite Nat2Z.id in Hb. eauto.
Qed.

Lemma page_changed_length pt i e m l :
  page_tables m !! pt = Some l ->
  exists l', page_tables (page_changed pt i e m) !! pt = Some l' /\ length l' = length l.
Proof.
  intros Hl. eexists. split; [by apply page_changed_table|]. by rewrite length_insert.
Qed.

Lemma used_page_changed pt i e m f : used (page_changed pt i e m) f <-> used m f.
Proof.
  apply used_same; [|apply page_changed_frames].
  apply (out_count _ _ _ (page_changed_outside pt i e m)).
Qed.

Lemma accounted_entry_range m pt ext i e :
  accounted m pt ext -> table_entry m pt i = Some e -> 0 <= i < MAX_PT_LEN.
Proof.
  intros [_ _ (l & Hl & Hlen) _ _] He. unfold table_entry in He. rewrite Hl in He. simpl in He.
  apply zlookup_Some in He as [H0 He]. apply lookup_lt_Some in He. lia.
Qed.

Lemma accounted_entry m pt ext i :
  accounted m pt ext -> 0 <= i < MAX_PT_LEN -> is_Some (table_entry m pt i).
Proof.
  intros [_ _ (l & Hl & Hlen) _ _] Hi. unfold table_entry. rewrite Hl. simpl.
  apply zlookup_is_Some. lia.
Qed.

(** A free frame becomes the mapping of an unmapped page. *)
Lemma accounted_map m pt ext i e0 pr f :
  accounted m pt ext -> 0 <= i < MAX_PT_LEN ->
  table_entry m pt i = Some e0 -> valid e0 = false ->
  0 <= f < physical_frame_count m -> ~ used m f ->
  accounted (page_changed pt i (mkPte true pr f) (mark_frame f true m)) pt ext.
Proof.
  intros Hacc Hi He Hv Hf Hu. destruct Hacc as [Hwf Hpt (l & Hl & Hlen) Hnd Hused].
  pose proof (page_changed_table_frames pt i e0 (mkPte true pr f) (mark_frame f true m)
    ltac:(lia) He) as Hp. rewrite Hv in Hp. simpl in Hp.
  change (table_frames (mark_frame f true m) pt) with (table_frames m pt) in Hp.
  assert (Hfnot : f ∉ table_frames m pt ++ ext) by (by rewrite <- Hused).
  split.
  - eapply outside_wf; [apply page_changed_outside|by rewrite page_changed_frames|].
    by apply mem_wf_mark.
  - done.
  - rewrite <- Hlen. by apply page_changed_length.
  - rewrite Hp. simpl. by apply NoDup_cons.
  - intros g. rewrite used_page_changed, Hp. simpl. rewrite elem_of_cons, <- Hused.
    destruct (decide (0 <= g < physical_frame_count m)) as [Hg|Hg].
    + rewrite used_mark by done. case_decide as Hfg; [naive_solver|].
      split; [tauto|]. intros [->|?]; done.
    + split; [intros [? _]; done|]. intros [->|[? _]]; done.
Qed.

(** The frame of a mapped page is freed and the page unmapped. *)
Lemma accounted_unmap m pt ext i e0 :
  accounted m pt ext -> 0 <= i < MAX_PT_LEN ->
  table_entry m pt i = Some e0 -> valid e0 = true ->
  accounted (page_changed pt i (mkPte false PROT_NONE 0) (mark_frame (pfn e0) false m)) pt ext /\
  used m (pfn e0).
Proof.
  intros Hacc Hi He Hv. destruct Hacc as [Hwf Hpt (l & Hl & Hlen) Hnd Hused].
  pose proof (page_changed_table_frames pt i e0 (mkPte false PROT_NONE 0)
    (mark_frame (pfn e0) false m) ltac:(lia) He) as Hp. rewrite Hv in Hp. simpl in Hp.
  change (table_frames (mark_frame (pfn e0) false m) pt) with (table_frames m pt) in Hp.
  assert (Hmine : used m (pfn e0)) by (rewrite Hused, <- Hp; set_solver).
  split; [|done]. rewrite <- Hp in Hnd. setoid_rewrite <- Hp in Hused. simpl in Hnd, Hused.
  apply NoDup_cons in Hnd as [Hnot Hnd]. split.
  - eapply outside_wf; [apply page_changed_outside|by rewrite page_changed_frames|].
    by apply mem_wf_mark.
  - done.
  - rewrite <- Hlen. by apply page_changed_length.
  - done.
  - intros g. rewrite used_page_changed.
    destruct (decide (0 <= g < physical_frame_count m)) as [Hg|Hg].
    + rewrite used_mark by (done || apply used_range, Hmine).
      case_decide as Hfg; [subst; naive_solver|]. rewrite Hused, elem_of_cons.
      split; [|tauto]. intros [->|?]; done.
    + split; [intros [? _]; done|]. intros Hin. exfalso. apply Hg.
      apply used_range. rewrite Hused. set_solver.
Qed.

Lemma table_entry_put pt i e m j :
  is_Some (table_entry m pt i) ->
  table_entry (put_pte pt i e m) pt j = if decide (i = j) then Some e else table_entry m pt j.
Proof.
  intros [e0 He]. unfold table_entry, put_pte in *. simpl.
  destruct (page_tables m !! pt) as [l|] eqn:Hl; [|done].
  rewrite lookup_alter_eq, Hl. simpl in *. apply zlookup_Some in He as [Hr He].
  destruct (decide (0 <= j)) as [Hj|Hj].
  - rewrite !zlookup_nat, list_update_lookup by lia. case_decide as Hij.
    + assert (i = j) as -> by lia. by rewrite !decide_True by (done || lia).
    + rewrite decide_False by congruence. done.
  - rewrite decide_False by lia. unfold zlookup. by test_true (j <? 0).
Qed.

Lemma put_pte_outside pt i e m : outside m (put_pte pt i e m) pt.
Proof. split; try done. intros pt' Hne. simpl. by rewrite lookup_alter_ne. Qed.

Lemma pt_write_run pt i e m :
  is_Some (table_entry m pt i) -> pt_write pt i e m = Ok tt (put_pte pt i e m).
Proof. intros [e0 He]. unfold pt_write, pt_read, mbind, M_bind. by rewrite He. Qed.

Lemma table_entry_changed pt i e m j :
  is_Some (table_entry m pt i) ->
  table_entry (page_changed pt i e m) pt j = if decide (i = j) then Some e else table_entry m pt j.
Proof.
  intros He. rewrite <- (table_entry_put pt i e m j He). unfold page_changed, table_entry.
  by destruct (flushed_simpl pt i (put_pte pt i e m)) as (_ & -> & _).
Qed.

(** [m'] is [m] with entry [i] of [pt] replaced, the accounts still balanced. *)
Record entry_step (m m' : mem) (pt i : Z) (e : pte) (ext : list Z) : Prop := {
  step_accounted : accounted m' pt ext;
  step_outside : outside m m' pt;
  step_entries : forall j,
    table_entry m' pt j = if decide (i = j) then Some e else table_entry m pt j
}.

(** One turn of the loops that grow a table by a fresh frame. *)
Lemma alloc_map_step m pt ext i e0 pr :
  FrameworkLaws F ->
  accounted m pt ext -> 0 <= i < MAX_PT_LEN ->
  table_entry m pt i = Some e0 -> valid e0 = false ->
  (exists f m1 m2, FrameAlloc m = Ok f m1 /\ f <> ERROR /\ 0 <= f /\ ~ used m f /\
     MemoryMapPage pt i f pr m1 = Ok SUCCESS m2 /\
     entry_step m m2 pt i (mkPte true pr f) ext /\
     forall g, used m2 g -> used m g \/ g = f) \/
  (FrameAlloc m = Ok ERROR m /\ forall g, 0 <= g < physical_frame_count m -> used m g).
Proof.
  intros FL Hacc Hi He Hv. destruct (FrameAlloc_spec m (acc_wf _ _ _ Hacc))
    as [(f & Hr & Hf & Hu & _)|[Hr Hall]]; [left|by right].
  pose proof error_neg. eexists f, _, _.
  split_and!; [done|lia|lia|done| |split|].
  - apply MemoryMapPage_run; [apply (acc_ptr _ _ _ Hacc)|done|lia|eauto].
  - by eapply accounted_map.
  - eapply outside_trans; [apply mark_frame_outside|apply page_changed_outside].
  - intros j. rewrite table_entry_changed; [done|]. by exists e0.
  - intros g. rewrite used_page_changed. intros Hg. pose proof (used_range _ _ Hg).
    apply used_mark in Hg; [|apply (acc_wf _ _ _ Hacc)|done|done].
    case_decide; [by right|by left].
Qed.

(** One turn of the loops that free a mapped page. *)
Lemma free_unmap_step m pt ext i e0 :
  accounted m pt ext -> 0 <= i < MAX_PT_LEN ->
  table_entry m pt i = Some e0 -> valid e0 = true ->
  exists m1 m2, FrameFree (pfn e0) m = Ok tt m1 /\ MemoryUnmapPage pt i m1 = Ok tt m2 /\
    entry_step m m2 pt i (mkPte false PROT_NONE 0) ext.
Proof.
  intros Hacc Hi He Hv. destruct (accounted_unmap m pt ext i e0 Hacc Hi He Hv) as [Ha Hu].
  eexists _, _. split_and!; [..|split].
  - apply FrameFree_run; [apply (acc_wf _ _ _ Hacc)|by apply used_range].
  - apply MemoryUnmapPage_run; [apply (acc_ptr _ _ _ Hacc)|done|]. eauto.
  - done.
  - eapply outside_trans; [apply mark_frame_outside|apply page_changed_outside].
  - intros j. rewrite table_entry_changed; [done|]. by exists e0.
Qed.

Context {FL : FrameworkLaws F}.

(** ** Freeing a whole table *)

Lemma no_valid_no_frames l : (forall i e, l !! i = Some e -> valid e = false) -> frames_of l = [].
Proof.
  intros Hall. induction l as [|e l IH]; [done|].
  rewrite frames_of_cons, (Hall 0%nat e eq_refl). apply IH.
  intros j e' He'. apply (Hall (Datatypes.S j) e' He').
Qed.

Lemma table_entry_range m pt ext i e :
  accounted m pt ext -> table_entry m pt i = Some e -> 0 <= i < MAX_PT_LEN.
Proof.
  intros [_ _ (l & Hl & Hlen) _ _]. unfold table_entry. rewrite Hl. simpl.
  intros He. apply zlookup_Some in He as [? _]. lia.
Qed.

Definition all_unmapped (m : mem) (pt : Z) : Prop :=
  forall i e, table_entry m pt i = Some e -> valid e = false.

Lemma all_unmapped_frames m pt : all_unmapped m pt -> table_frames m pt = [].
Proof.
  unfold all_unmapped, table_frames, table_entry. intros Hall.
  destruct (page_tables m !! pt) as [l|] eqn:Hl; [|done]. simpl in *.
  apply no_valid_no_frames. intros i e He. apply (Hall (Z.of_nat i)).
  rewrite zlookup_nat by lia. by rewrite Nat2Z.id.
Qed.

(** The loop of [MemoryFreePageTableFrames] up to entry [i]. *)
Definition freed_upto (m : mem) (pt : Z) (ext : list Z) (i : Z) (s : mem) : Prop :=
  accounted s pt ext /\ outside m s pt /\
  forall j e, 0 <= j < i -> table_entry s pt j = Some e -> valid e = false.

Lemma free_loop m pt ext :
  accounted m pt ext ->
  returns (for_range 0 MAX_PT_LEN (fun i =>
      e ← pt_read pt i;
      if valid e then FrameFree (pfn e) ;; MemoryUnmapPage pt i else skip))
    (fun _ => freed_upto m pt ext MAX_PT_LEN) m.
Proof.
  intros Hacc. pose proof max_pt_len_pos.
  apply (returns_for_range (freed_upto m pt ext)); [lia|..].
  - split_and!; [done|apply outside_refl|lia].
  - intros k s Hk (Ha & Ho & Hlow).
    destruct (accounted_entry s pt ext k Ha) as [e0 He0]; [lia|].
    unfold pt_read, wp. unfold mbind at 1, M_bind at 1. rewrite He0.
    cbn [deref]. unfold mret at 1, M_ret at 1. destruct (valid e0) eqn:Hv; simpl.
    + destruct (free_unmap_step s pt ext k e0 Ha ltac:(lia) He0 Hv)
        as (m1 & m2 & H1 & H2 & [Ha2 Ho2 He2]).
      rewrite (bind_ok _ _ _ _ _ H1), H2. split_and!; [done|by eapply outside_trans|].
      intros j e Hj. rewrite He2. case_decide; [by intros [= <-]|]. apply Hlow. lia.
    + split_and!; [done..|]. intros j e Hj. destruct (decide (j = k)) as [->|]; [congruence|].
      apply Hlow. lia.
Qed.

Lemma MemoryFreePageTableFrames_ok m pt ext :
  accounted m pt ext ->
  exists m', MemoryFreePageTableFrames pt m = Ok tt m' /\
    accounted m' pt ext /\ outside m m' pt /\ all_unmapped m' pt /\
    forall f, used m' f <-> f ∈ ext.
Proof.
  intros Hacc. destruct (wp_returns _ _ _ (free_loop m pt ext Hacc)) as (u & s & Hrun & Ha & Ho & Hlow).
  unfold MemoryFreePageTableFrames. pose proof (acc_ptr _ _ _ Hacc). test_false (pt =? 0).
  rewrite (bind_ok _ _ _ _ _ Hrun), bind_gets.
  assert (Hall : all_unmapped s pt).
  { intros i e He. eapply Hlow; [|done]. by eapply table_entry_range. }
  assert (Hu : forall f, used s f <-> f ∈ ext).
  { intros f. by rewrite (acc_used _ _ _ Ha), (all_unmapped_frames _ _ Hall). }
  destruct (vm_enabled s); eexists; (split; [reflexivity|]); split_and!; try done.
  - by destruct Ha as [? ? ? ? ?].
  - by destruct Ho.
Qed.

(** ** Frames in use, read off the entries *)

Lemma elem_of_table_frames m pt f :
  f ∈ table_frames m pt <-> exists i e, table_entry m pt i = Some e /\ valid e = true /\ pfn e = f.
Proof.
  unfold table_frames, table_entry. destruct (page_tables m !! pt) as [l|]; simpl; [|set_solver].
  rewrite elem_of_frames_of. split.
  - intros (i & e & He & ?). exists (Z.of_nat i), e. rewrite zlookup_nat, Nat2Z.id by lia. done.
  - intros (i & e & [_ He]%zlookup_Some & ?). eauto.
Qed.

(** Two tables with the same valid entries keep the same frames in use. *)
Lemma same_valid_used m m' pt ext :
  accounted m pt ext -> accounted m' pt ext ->
  (forall i e, valid e = true -> table_entry m' pt i = Some e <-> table_entry m pt i = Some e) ->
  forall f, used m' f <-> used m f.
Proof.
  intros Ha Ha' Hsame f. rewrite (acc_used _ _ _ Ha), (acc_used _ _ _ Ha'), !elem_of_app.
  rewrite !elem_of_table_frames. naive_solver.
Qed.

Lemma accounted_log m pt ext ev : accounted m pt ext -> accounted (add_log ev m) pt ext.
Proof. by intros [? ? ? ? ?]. Qed.
Lemma outside_log m pt ev : outside m (add_log ev m) pt.
Proof. done. Qed.

(** ** Deciding the accounts of a concrete memory *)

Definition used_b (m : mem) (f : Z) : bool :=
  bool_decide (0 <= f < physical_frame_count m) &&
  bool_decide (frame_allocated m !! Z.to_nat f = Some true).

Lemma used_b_spec m f : used_b m f = true <-> used m f.
Proof. unfold used_b, used. by rewrite andb_true_iff, !bool_decide_eq_true. Qed.

Definition accounted_b (m : mem) (pt : Z) (ext : list Z) : bool :=
  bool_decide (0 <= physical_frame_count m <= Z.of_nat (length (frame_allocated m))) &&
  bool_decide (pt <> 0) &&
  match page_tables m !! pt with
  | Some l =>
      (length l =? Z.to_nat MAX_PT_LEN)%nat &&
      bool_decide (NoDup (frames_of l ++ ext)) &&
      forallb (used_b m) (frames_of l ++ ext) &&
      forallb (fun f => negb (used_b m f) || bool_decide (f ∈ frames_of l ++ ext))
        (Z.of_nat <$> seq 0 (Z.to_nat (physical_frame_count m)))
  | None => false
  end.

Lemma accounted_b_sound m pt ext : accounted_b m pt ext = true -> accounted m pt ext.
Proof.
  unfold accounted_b. destruct (page_tables m !! pt) as [l|] eqn:Hl; [|by rewrite andb_false_r].
  rewrite !andb_true_iff, !bool_decide_eq_true, Nat.eqb_eq, !forallb_forall.
  intros [[Hwf Hpt] [[[Hlen Hnd] Hin] Hout]].
  assert (Htf : table_frames m pt = frames_of l) by (unfold table_frames; by rewrite Hl).
  split; [done|done|by eauto|by rewrite Htf|]. intros f. rewrite Htf. split.
  - intros Hu. specialize (Hout f). pose proof (used_range _ _ Hu). pose proof Hu as Hub.
    apply used_b_spec in Hub. rewrite Hub in Hout. simpl in Hout.
    apply (bool_decide_eq_true_1 (f ∈ frames_of l ++ ext)), Hout. apply list_elem_of_In, list_elem_of_fmap.
    exists (Z.to_nat f). split; [lia|]. apply elem_of_seq. lia.
  - intros Hf. apply used_b_spec, Hin. by apply list_elem_of_In.
Qed.

(** ** Properties *)

Lemma mark_back m f :
  mem_wf m -> 0 <= f < physical_frame_count m -> ~ used m f ->
  mark_frame f false (mark_frame f true m) = m.
Proof.
  intros Hwf Hf Hu. destruct (mem_wf_frame m f Hwf Hf) as [b Hb].
  apply zlookup_Some in Hb as [_ Hb]. assert (b = false) as -> by (destruct b; [by destruct Hu|done]).
  unfold mark_frame, set_frames. simpl. rewrite list_insert_insert_eq.
  rewrite list_insert_id by done. by destruct m.
Qed.

(** C36: [FrameAlloc] hands out the lowest free frame, marks exactly that frame and
    fails only when every frame is in use, changing nothing; [FrameFree] of the
    frame it returned restores the state. *)
Theorem frame_alloc_free m :
  mem_wf m ->
  (exists f m1, FrameAlloc m = Ok f m1 /\ 0 <= f < physical_frame_count m /\ ~ used m f /\
     (forall g, 0 <= g < f -> used m g) /\ (forall g, used m1 g <-> used m g \/ g = f) /\
     FrameFree f m1 = Ok tt m) \/
  (FrameAlloc m = Ok ERROR m /\ forall g, 0 <= g < physical_frame_count m -> used m g).
Proof.
  intros Hwf. destruct (FrameAlloc_spec m Hwf) as [(f & Hr & Hf & Hu & Hlow)|?]; [left|by right].
  exists f, (mark_frame f true m). split_and!; [done|lia|lia|done|done| |].
  - intros g. split.
    + intros Hg. pose proof (used_range _ _ Hg). apply used_mark in Hg; [|done..].
      case_decide; naive_solver.
    + intros Hg. assert (0 <= g < physical_frame_count m) by (destruct Hg as [[? _]| ->]; done).
      apply used_mark; [done..|]. case_decide; naive_solver.
  - rewrite FrameFree_run; [by rewrite mark_back|by apply mem_wf_mark|done].
Qed.

(** C35: [MemoryFreePageTableFrames] returns without a bad access, gives back every
    frame the table maps and no other: afterwards the table maps nothing, exactly the
    frames of the other owners are in use, and no other table or register changed. *)
Theorem free_table_releases m pt ext :
  accounted m pt ext ->
  exists m', MemoryFreePageTableFrames pt m = Ok tt m' /\ all_unmapped m' pt /\
    (forall f, used m' f <-> used m f /\ f ∉ table_frames m pt) /\
    accounted m' pt ext /\ outside m m' pt.
Proof.
  intros Hacc. destruct (MemoryFreePageTableFrames_ok m pt ext Hacc) as (m' & Hr & Ha & Ho & Hun & Hu).
  exists m'. split_and!; try done. intros f. rewrite Hu, (acc_used _ _ _ Hacc).
  pose proof (acc_nodup _ _ _ Hacc) as Hnd. apply NoDup_app in Hnd as (_ & Hdis & _).
  rewrite elem_of_app. split; [|tauto]. intros Hf. split; [by right|]. intros Hin. by apply (Hdis f).
Qed.

(** C37: [MemoryMapPage] on every argument: a null table, an index outside the table
    or a negative frame is refused and changes nothing; otherwise exactly that entry
    becomes the valid mapping, and once virtual memory is on exactly its page is
    flushed from the TLB, at the address the page has in its region. *)
Theorem map_page_guarded m pt i f pr :
  (pt <> 0 -> 0 <= i < MAX_PT_LEN -> is_Some (table_entry m pt i)) ->
  returns (MemoryMapPage pt i f pr) (fun rc m' =>
    if bool_decide (pt = 0 \/ ~ 0 <= i < MAX_PT_LEN \/ f < 0)
    then rc = ERROR /\ m' = m
    else rc = SUCCESS /\
      (forall j, table_entry m' pt j =
         if decide (i = j) then Some (mkPte true pr f) else table_entry m pt j) /\
      log m' = log m ++ (if vm_enabled m then
        [EvReg REG_TLB_FLUSH (if pt =? kernel_region0_pt m then i * PAGESIZE
                              else VMEM_1_BASE + i * PAGESIZE)] else []) /\
      frame_allocated m' = frame_allocated m /\ outside m m' pt) m.
Proof.
  intros Hin. case_bool_decide as Hbad.
  - eapply returns_ok; [|split; reflexivity]. apply MemoryMapPage_bad. lia.
  - assert (pt <> 0 /\ 0 <= i < MAX_PT_LEN /\ 0 <= f) as (Hpt & Hi & Hf) by lia.
    eapply returns_ok; [apply MemoryMapPage_run; auto|]. split_and!; [done|..].
    + intros j. apply table_entry_changed; auto.
    + unfold page_changed, flushed. simpl. rewrite shiftl_page.
      destruct (vm_enabled m); simpl; [by destruct (pt =? _)|by rewrite app_nil_r].
    + apply page_changed_frames.
    + apply page_changed_outside.
Qed.
End Memory.

(** ** Witnesses *)

Module MemoryWitness.
#[local] Existing Instance tiny.
#[local] Existing Instance tiny_laws.

(** Region 0 at table 1 maps pages 0 and 1; table 2 maps one page; frame 5 belongs
    to a kernel stack. *)
Definition table1 : list pte :=
  [mkPte true 5 0; mkPte true 3 1] ++ replicate 14 pte_zero.
Definition table2 : list pte := replicate 15 pte_zero ++ [mkPte true 3 3].
Definition mem0 : mem :=
  mkMem [true; true; false; true; false; true] 6 1 8 8 true
    {[ 1 := table1; 2 := table2 ]} {[ 1; 2 ]} 1 2 ∅ [].

Lemma frame_alloc_free_witness :
  mem_wf mem0 /\
  ((exists f m1, FrameAlloc mem0 = Ok f m1 /\ 0 <= f < physical_frame_count mem0 /\ ~ used mem0 f /\
     (forall g, 0 <= g < f -> used mem0 g) /\ (forall g, used m1 g <-> used mem0 g \/ g = f) /\
     FrameFree f m1 = Ok tt mem0) \/
  (FrameAlloc mem0 = Ok ERROR mem0 /\
     forall g, 0 <= g < physical_frame_count mem0 -> used mem0 g)).
Proof.
  assert (H : mem_wf mem0) by (unfold mem_wf; simpl; lia).
  split; [exact H|]. apply (frame_alloc_free mem0 H).
Defined.

Lemma free_table_releases_witness :
  accounted mem0 2 [0; 1; 5] /\
  exists m', MemoryFreePageTableFrames 2 mem0 = Ok tt m' /\ all_unmapped m' 2 /\
    (forall f, used m' f <-> used mem0 f /\ f ∉ table_frames mem0 2) /\
    accounted m' 2 [0; 1; 5] /\ outside mem0 m' 2.
Proof.
  assert (H : accounted mem0 2 [0; 1; 5]) by (apply accounted_b_sound; vm_compute; reflexivity).
  split; [exact H|]. apply (free_table_releases mem0 2 [0; 1; 5] H).
Defined.

Lemma map_page_guarded_witness :
  returns (MemoryMapPage 2 4 2 3) (fun rc m' =>
    if bool_decide (2 = 0 \/ ~ 0 <= 4 < MAX_PT_LEN \/ 2 < 0)
    then rc = ERROR /\ m' = mem0
    else rc = SUCCESS /\
      (forall j, table_entry m' 2 j =
         if decide (4 = j) then Some (mkPte true 3 2) else table_entry mem0 2 j) /\
      log m' = log mem0 ++ (if vm_enabled mem0 then
        [EvReg REG_TLB_FLUSH (if 2 =? kernel_region0_pt mem0 then 4 * PAGESIZE
                              else VMEM_1_BASE + 4 * PAGESIZE)] else []) /\
      frame_allocated m' = frame_allocated mem0 /\ outside mem0 m' 2) mem0.
Proof.
  apply (map_page_guarded mem0 2 4 2 3). intros _ _. exists pte_zero. vm_compute. reflexivity.
Defined.
End MemoryWitness.
