(* ===== verification/Mmu.v ===== *)
(** * The kernel's view of byte-addressed memory

    The kernel reads and writes user memory, and copies pages, through virtual
    addresses that the machine translates.  The translation is hardware, so it
    is a parameter, [translate]; [MmuLaws] is what the hardware documents: the
    page walk through the two base registers, with the protection bits checked.
    Every kernel store to a page table entry is followed by the flush of its
    translation before the page is touched, so stale TLB entries are not seen. *)

From S2P Require Import Prelude Framework Memory.

Class Mmu := {
  translate : mem -> bool -> Z -> option Z      (* [true] is a write *)
}.

Section Walk.
Context {F : Framework}.

(** The page table entry that maps a virtual address. *)
Definition walk (m : mem) (a : Z) : option pte :=
  if a <? 0 then None
  else if a <? VMEM_1_BASE then table_entry m (ptbr0 m) (a ≫ PAGESHIFT)
  else if a <? VMEM_1_LIMIT then table_entry m (ptbr1 m) ((a - VMEM_1_BASE) ≫ PAGESHIFT)
  else None.

Definition permits (write : bool) (prot : Z) : bool :=
  negb (Z.land prot (if write then PROT_WRITE else PROT_READ) =? 0).
End Walk.

Class MmuLaws {F : Framework} (T : Mmu) : Prop := {
  mmu_hit : forall m w a e,
    vm_enabled m = true -> walk m a = Some e -> valid e = true ->
    permits w (prot e) = true -> 0 <= pfn e < physical_frame_count m ->
    translate m w a = Some (pfn e * PAGESIZE + a mod PAGESIZE);
  mmu_miss : forall m w a,
    vm_enabled m = true ->
    (forall e, walk m a = Some e -> valid e = false \/ permits w (prot e) = false) ->
    translate m w a = None
}.

(** A concrete machine that does exactly the documented walk. *)
Definition walking_mmu {F : Framework} : Mmu := {|
  translate := fun m w a =>
    match walk m a with
    | Some e => if valid e && permits w (prot e) then Some (pfn e * PAGESIZE + a mod PAGESIZE)
                else None
    | None => None
    end
|}.

Lemma walking_mmu_laws {F : Framework} : MmuLaws walking_mmu.
Proof.
  split; simpl.
  - intros m w a e _ -> -> -> _. done.
  - intros m w a _ H. destruct (walk m a) as [e|]; [|done].
    destruct (H e eq_refl) as [->| ->]; [done|]. by rewrite andb_false_r.
Qed.

Section Mmu.
Context {F : Framework} {T : Mmu}.

(** ** Bytes *)

Definition load_byte (a : Z) : M mem Empty_set Z := fun m =>
  (pa ← deref "memory exception in the kernel" (translate m false a);
   mret (default 0 (ram m !! pa))) m.
Definition store_byte (a v : Z) : M mem Empty_set unit := fun m =>
  (pa ← deref "memory exception in the kernel" (translate m true a);
   modify (set_ram (<[pa := v mod 256]> (ram m)))) m.

Fixpoint load_bytes_n (n : nat) (a : Z) : M mem Empty_set (list Z) :=
  match n with
  | O => mret []
  | S n' => b ← load_byte a; l ← load_bytes_n n' (a + 1); mret (b :: l)
  end.
Definition load_bytes (a n : Z) : M mem Empty_set (list Z) := load_bytes_n (Z.to_nat n) a.
Fixpoint store_bytes (a : Z) (l : list Z) : M mem Empty_set unit :=
  match l with
  | [] => mret tt
  | b :: l' => store_byte a b ;; store_bytes (a + 1) l'
  end.

(** [memcpy] between two ranges of virtual addresses. *)
Definition memcpy (dst src n : Z) : M mem Empty_set unit :=
  l ← load_bytes src n; store_bytes dst l.

(** ** Pointers given by user programs

    The sources dereference them as they are.  Below Region 1 they would reach
    the kernel's own memory, whose bytes are not modelled: a fault. *)

Definition user_range (a n : Z) : M mem Empty_set unit :=
  if (0 <? n) && (a <? VMEM_1_BASE) then fault "user pointer into Region 0" else skip.
Definition user_load (a n : Z) : M mem Empty_set (list Z) :=
  user_range a n ;; load_bytes a n.
Definition user_store (a : Z) (l : list Z) : M mem Empty_set unit :=
  user_range a (Z.of_nat (length l)) ;; store_bytes a l.

(** A 32-bit word, least significant byte first. *)
Definition word_bytes (v : Z) : list Z :=
  (fun k => Z.land (Z.shiftr (to_uint v) (8 * k)) 255) <$> [0; 1; 2; 3].
Definition bytes_word (l : list Z) : Z := foldr (fun b v => b + 256 * v) 0 l.
Definition user_load_word (a : Z) : M mem Empty_set Z :=
  l ← user_load a 4; mret (bytes_word l).
Definition user_store_word (a v : Z) : M mem Empty_set unit := user_store a (word_bytes v).

(** [strlen] and the bytes it passes: reading stops at a zero byte, and cannot
    go past the end of Region 1. *)
Fixpoint user_string_n (n : nat) (a : Z) : M mem Empty_set (list Z) :=
  match n with
  | O => fault "string past the end of Region 1"
  | S n' =>
      b ← user_load a 1;
      match b with
      | [0] => mret []
      | _ => l ← user_string_n n' (a + 1); mret (b ++ l)
      end
  end.
Definition user_string (a : Z) : M mem Empty_set (list Z) :=
  user_string_n (Z.to_nat (VMEM_1_LIMIT - a)) a.

(** [memset(a, 0, n)]. *)
Definition user_zero (a n : Z) : M mem Empty_set unit :=
  for_range 0 n (fun i => user_store (a + i) [0]).
End Mmu.
