(* ===== verification/UserBytes.v ===== *)
(** * Bytes of user memory

    What the loads and stores of [Mmu.v] do to the bytes a user program sees, from the
    documented page walk ([MmuLaws]): a load returns them, a store replaces exactly the
    bytes stored, given that no two pages of the process share a frame. *)

From S2P Require Import Prelude Framework Memory Mmu.

Section UserBytes.
Context {F : Framework} {T : Mmu} {FL : FrameworkLaws F} {TL : MmuLaws T}.

(** The physical byte behind an address. *)
Definition phys (e : pte) (a : Z) : Z := pfn e * PAGESIZE + a mod PAGESIZE.

(** The address is mapped for this kind of access. *)
Definition accessible (m : mem) (w : bool) (a : Z) : Prop :=
  exists e, walk m a = Some e /\ valid e = true /\ permits w (prot e) = true /\
    0 <= pfn e < physical_frame_count m.

Definition user_byte (m : mem) (a : Z) : Z :=
  match walk m a with Some e => default 0 (ram m !! phys e a) | None => 0 end.
Definition user_bytes (m : mem) (a n : Z) : list Z := (fun i => user_byte m (a + i)) <$> seqZ 0 n.

Lemma load_byte_ok m a :
  vm_enabled m = true -> accessible m false a -> load_byte a m = Ok (user_byte m a) m.
Proof.
  intros Hvm (e & Hw & Hv & Hp & Hf). unfold load_byte, user_byte.
  rewrite (mmu_hit m false a e Hvm Hw Hv Hp Hf), Hw. reflexivity.
Qed.

Lemma user_bytes_succ m a n :
  0 <= n -> user_bytes m a (Z.succ n) = user_byte m a :: user_bytes m (a + 1) n.
Proof.
  intros Hn. unfold user_bytes. rewrite (seqZ_cons 0 (Z.succ n)), Z.pred_succ by lia.
  rewrite fmap_cons, Z.add_0_r. f_equal. replace (Z.succ 0) with (1 + 0) by lia.
  rewrite <- (fmap_add_seqZ 1 0), <- list_fmap_compose. apply list_fmap_ext. intros i x _.
  unfold compose. f_equal. lia.
Qed.

Lemma load_bytes_n_ok m a n :
  vm_enabled m = true -> (forall i, 0 <= i < Z.of_nat n -> accessible m false (a + i)) ->
  load_bytes_n n a m = Ok (user_bytes m a (Z.of_nat n)) m.
Proof.
  intros Hvm. revert a. induction n as [|n IH]; intros a Hacc; [done|].
  assert (Ha : accessible m false a) by (rewrite <- (Z.add_0_r a); apply (Hacc 0); lia).
  cbn [load_bytes_n].
  rewrite (bind_ok _ _ _ _ _ (load_byte_ok m a Hvm Ha)).
  rewrite (bind_ok _ _ _ (user_bytes m (a + 1) (Z.of_nat n)) m).
  - unfold mret, M_ret. f_equal. rewrite Nat2Z.inj_succ. by rewrite user_bytes_succ by lia.
  - apply IH. intros i Hi. replace (a + 1 + i) with (a + (1 + i)) by lia. apply Hacc. lia.
Qed.

(** [memcpy] from user memory. *)
Lemma user_load_ok m a n :
  vm_enabled m = true -> VMEM_1_BASE <= a -> 0 <= n ->
  (forall i, 0 <= i < n -> accessible m false (a + i)) ->
  user_load a n m = Ok (user_bytes m a n) m.
Proof.
  intros Hvm Ha Hn Hacc. unfold user_load, user_range. test_false (a <? VMEM_1_BASE).
  rewrite andb_false_r. unfold skip. rewrite bind_ret. unfold load_bytes.
  rewrite load_bytes_n_ok; [by rewrite Z2Nat.id by lia|done|]. intros i Hi. apply Hacc. lia.
Qed.

Lemma user_bytes_length m a n : 0 <= n -> length (user_bytes m a n) = Z.to_nat n.
Proof. intros. unfold user_bytes. by rewrite length_fmap, length_seqZ. Qed.

(** ** Stores *)

(** Different addresses of the range are different bytes of physical memory. *)
Definition no_alias (m : mem) (a n : Z) : Prop :=
  forall i j ei ej, 0 <= i < n -> 0 <= j < n -> walk m (a + i) = Some ei -> walk m (a + j) = Some ej ->
    phys ei (a + i) = phys ej (a + j) -> i = j.

(** Only the ram changed. *)
Definition ram_only (m m' : mem) : Prop := m' = set_ram (ram m') m.

Lemma store_byte_ok m a v e :
  vm_enabled m = true -> walk m a = Some e -> accessible m true a ->
  store_byte a v m = Ok tt (set_ram (<[phys e a := v mod 256]> (ram m)) m).
Proof.
  intros Hvm Hw (e' & Hw' & Hv & Hp & Hf). rewrite Hw in Hw'. injection Hw' as <-. unfold store_byte.
  rewrite (mmu_hit m true a e Hvm Hw Hv Hp Hf). reflexivity.
Qed.

Lemma walk_ram v m a : walk (set_ram v m) a = walk m a.
Proof. reflexivity. Qed.

Lemma accessible_ram v m w a : accessible (set_ram v m) w a <-> accessible m w a.
Proof. reflexivity. Qed.

(** The bytes stored are there; a byte of ram that is none of theirs is untouched. *)
Lemma store_bytes_ok l m a :
  vm_enabled m = true -> Forall (fun b => 0 <= b < 256) l ->
  (forall i, 0 <= i < Z.of_nat (length l) -> accessible m true (a + i)) ->
  no_alias m a (Z.of_nat (length l)) ->
  exists r, store_bytes a l m = Ok tt (set_ram r m) /\
    user_bytes (set_ram r m) a (Z.of_nat (length l)) = l /\
    forall pa, (forall i e, 0 <= i < Z.of_nat (length l) -> walk m (a + i) = Some e -> pa <> phys e (a + i)) ->
      r !! pa = ram m !! pa.
Proof.
  revert m a. induction l as [|b l IH]; intros m a Hvm Hb Hacc Hna; simpl.
  - exists (ram m). split_and!; [by destruct m|done|done].
  - inversion Hb as [|? ? Hb0 Hbl]; subst. simpl in Hacc, Hna.
    assert (Hacc0 : accessible m true a) by (rewrite <- (Z.add_0_r a); apply (Hacc 0); lia).
    pose proof Hacc0 as (e & Hw & _). set (m1 := set_ram (<[phys e a := b mod 256]> (ram m)) m).
    rewrite (bind_ok _ _ _ _ _ (store_byte_ok m a b e Hvm Hw Hacc0)). fold m1.
    destruct (IH m1 (a + 1)) as (r & Hr & Hbytes & Hout); [done|done|..].
    { intros i Hi. apply accessible_ram. replace (a + 1 + i) with (a + (1 + i)) by lia. apply Hacc. lia. }
    { intros i j ei ej Hi Hj Hwi Hwj Heq. unfold m1 in *. rewrite walk_ram in *.
      enough (1 + i = 1 + j) by lia.
      apply (Hna (1 + i) (1 + j) ei ej); [lia|lia|..]; by rewrite ?Z.add_assoc. }
    exists r. split_and!; [exact Hr| |].
    + rewrite Nat2Z.inj_succ, user_bytes_succ by lia. f_equal; [|done].
      unfold user_byte. rewrite walk_ram, Hw, Hout.
      * unfold m1. simpl. rewrite lookup_insert_eq. simpl. by apply Z.mod_small.
      * intros i e' Hi Hw' Heq. unfold m1 in Hw'. rewrite walk_ram in Hw'.
        assert (0 = 1 + i); [|lia].
        apply (Hna 0 (1 + i) e e'); [lia|lia|by rewrite Z.add_0_r|by rewrite Z.add_assoc|].
        by rewrite Z.add_0_r, Z.add_assoc.
    + intros pa Hpa. rewrite Hout.
      * unfold m1. simpl. rewrite lookup_insert_ne; [done|]. intros Heq.
        apply (Hpa 0 e); [lia|by rewrite Z.add_0_r|by rewrite Z.add_0_r].
      * intros i e' Hi Hw'. rewrite <- Z.add_assoc. unfold m1 in Hw'. rewrite walk_ram in Hw'. apply (Hpa (1 + i) e'); [lia|].
        by rewrite Z.add_assoc.
Qed.

(** In one process no two pages share a frame, so nothing aliases. *)
Lemma frames_of_inj l i j ei ej :
  NoDup (frames_of l) -> l !! i = Some ei -> l !! j = Some ej -> valid ei = true -> valid ej = true ->
  pfn ei = pfn ej -> i = j.
Proof.
  revert i j. induction l as [|e l IH]; intros i j Hnd Hi Hj Hvi Hvj Heq; [done|].
  rewrite frames_of_cons in Hnd. apply NoDup_app in Hnd as (_ & Hdis & Hnd).
  destruct i as [|i], j as [|j]; simpl in Hi, Hj; simplify_eq; [done|..].
  - exfalso. rewrite Hvi in Hdis. apply (Hdis (pfn ei)); [set_solver|]. rewrite Heq. apply elem_of_frames_of. eauto.
  - exfalso. rewrite Hvj in Hdis. apply (Hdis (pfn ej)); [set_solver|]. rewrite <- Heq. apply elem_of_frames_of. eauto.
  - f_equal. by apply IH.
Qed.

Lemma walk_region1 m a :
  VMEM_1_BASE <= a < VMEM_1_LIMIT -> walk m a = table_entry m (ptbr1 m) ((a - VMEM_1_BASE) / PAGESIZE).
Proof.
  intros Ha. unfold walk. pose proof region0_size. pose proof max_pt_len_pos. pose proof pagesize_pos.
  test_false (a <? 0). test_false (a <? VMEM_1_BASE). test_true (a <? VMEM_1_LIMIT). by rewrite shiftr_page.
Qed.

Lemma walk_above m a : VMEM_1_LIMIT <= a -> walk m a = None.
Proof.
  intros Ha. unfold walk. pose proof region0_size. pose proof region1_size. pose proof max_pt_len_pos.
  pose proof pagesize_pos. test_false (a <? 0). test_false (a <? VMEM_1_BASE). by test_false (a <? VMEM_1_LIMIT).
Qed.

Lemma accounted_no_alias m ext a n :
  accounted m (ptbr1 m) ext -> VMEM_1_BASE <= a ->
  (forall i, 0 <= i < n -> accessible m true (a + i)) -> no_alias m a n.
Proof.
  intros Hacc Ha Hall i j ei ej Hi Hj Hwi Hwj Heq. pose proof pagesize_pos as Hps.
  assert (Hps0 : PAGESIZE <> 0) by lia.
  destruct (Hall i Hi) as (ei' & Hei & Hvi & _). destruct (Hall j Hj) as (ej' & Hej & Hvj & _).
  rewrite Hwi in Hei. rewrite Hwj in Hej. injection Hei as <-. injection Hej as <-.
  unfold phys in Heq.
  assert (Hoff : (a + i) mod PAGESIZE = (a + j) mod PAGESIZE /\ pfn ei = pfn ej).
  { pose proof (Z.mod_pos_bound (a + i) PAGESIZE Hps). pose proof (Z.mod_pos_bound (a + j) PAGESIZE Hps).
    assert (pfn ei = pfn ej) by nia. split; lia. }
  destruct Hoff as [Hoff Hpfn].
  assert (Hri : a + i < VMEM_1_LIMIT).
  { destruct (decide (a + i < VMEM_1_LIMIT)); [done|]. rewrite walk_above in Hwi by lia. done. }
  assert (Hrj : a + j < VMEM_1_LIMIT).
  { destruct (decide (a + j < VMEM_1_LIMIT)); [done|]. rewrite walk_above in Hwj by lia. done. }
  rewrite walk_region1 in Hwi, Hwj by lia. destruct (acc_table _ _ _ Hacc) as (l & Hl & _).
  pose proof (acc_nodup _ _ _ Hacc) as Hnd. apply NoDup_app in Hnd as (Hnd & _).
  unfold table_frames in Hnd. unfold table_entry in *. rewrite Hl in *. simpl in *.
  apply zlookup_Some in Hwi as [Hi0 Hwi]. apply zlookup_Some in Hwj as [Hj0 Hwj].
  pose proof (frames_of_inj l _ _ _ _ Hnd Hwi Hwj Hvi Hvj Hpfn) as Hpage.
  assert (Hpg : (a + i - VMEM_1_BASE) / PAGESIZE = (a + j - VMEM_1_BASE) / PAGESIZE) by lia.
  pose proof region0_size as Hr0.
  assert (Hdiv : forall x, (x - VMEM_1_BASE) / PAGESIZE = x / PAGESIZE - MAX_PT_LEN).
  { intros x. rewrite Hr0. replace (x - MAX_PT_LEN * PAGESIZE) with (x + (- MAX_PT_LEN) * PAGESIZE) by lia.
    rewrite Z.div_add by lia. lia. }
  rewrite !Hdiv in Hpg. assert (Hq : (a + i) / PAGESIZE = (a + j) / PAGESIZE) by lia.
  pose proof (Z.div_mod (a + i) PAGESIZE Hps0).
  pose proof (Z.div_mod (a + j) PAGESIZE Hps0).
  rewrite Hq in *. lia.
Qed.

(** [memcpy] to user memory. *)
Lemma user_store_ok m ext a l :
  vm_enabled m = true -> accounted m (ptbr1 m) ext -> VMEM_1_BASE <= a ->
  Forall (fun b => 0 <= b < 256) l ->
  (forall i, 0 <= i < Z.of_nat (length l) -> accessible m true (a + i)) ->
  exists r, user_store a l m = Ok tt (set_ram r m) /\
    user_bytes (set_ram r m) a (Z.of_nat (length l)) = l.
Proof.
  intros Hvm Hacc Ha Hb Hall.
  destruct (store_bytes_ok l m a Hvm Hb Hall) as (r & Hr & Hbytes & _); [by eapply accounted_no_alias|].
  exists r. split; [|done]. unfold user_store, user_range. test_false (a <? VMEM_1_BASE).
  rewrite andb_false_r. exact Hr.
Qed.
End UserBytes.
