(* ===== verification/KernelBrk.v ===== *)
(** * The kernel heap break and boot-time memory ([kernelbrk.c], rest of [memory.c])

    [SetKernelBrk] is called by the C library's allocator, never by the kernel
    itself, so [malloc] is modelled as: log the request, let the allocator ask
    for a new break (what it asks for is up to the framework), run the kernel's
    [SetKernelBrk] on it, and take the block the allocator returns. *)

From S2P Require Import Prelude Framework Memory.

Section KernelBrk.
Context {F : Framework}.

(** [KernelPanic] of [kernelstart.c]: a trace message and [helper_abort]. *)
Definition KernelPanic {S J A} (msg : string) : M S J A := stop_with (Panic msg).

(** ** The break *)

Definition KernelBrkPage : M mem Empty_set Z :=
  cur ← gets current_kernel_brk_page;
  (if cur =? 0
   then modify (fun m => set_highest_brk_page orig_kernel_brk_page
                           (set_brk_page orig_kernel_brk_page m))
   else skip) ;;
  m ← gets (fun m => m);
  if negb (vm_enabled m) && (current_kernel_brk_page m <? highest_pre_vm_brk_page m)
  then mret (highest_pre_vm_brk_page m)
  else mret (current_kernel_brk_page m).

(** [while (--page >= old_page)]: give back the pages mapped so far. *)
Definition unmap_back (pt old_page page : Z) : M mem Empty_set unit :=
  for_down (Z.to_nat (page - old_page)) (page - 1) (fun page =>
    e ← pt_read pt page;
    FrameFree (pfn e) ;;
    MemoryUnmapPage pt page).

(** [for (page = old_page; page < requested_page; page++)]: map fresh frames;
    [Some ERROR] is the early return, after the pages mapped so far are given
    back and [cleanup] has run. *)
Definition grow_pages (pt old_page requested_page : Z) (cleanup : M mem Empty_set unit)
  : M mem Empty_set (option Z) :=
  for_range_ret old_page requested_page (fun page =>
    pfn ← FrameAlloc;
    if pfn =? ERROR then
      unmap_back pt old_page page ;; cleanup ;; mret (Some ERROR)
    else
      rc ← MemoryMapPage pt page pfn (Z.lor PROT_READ PROT_WRITE);
      if rc =? ERROR then
        FrameFree pfn ;; unmap_back pt old_page page ;; cleanup ;; mret (Some ERROR)
      else mret None).

(** [for (page = requested_page; page < old_page; page++)]: free mapped pages. *)
Definition shrink_pages (pt requested_page old_page : Z) : M mem Empty_set unit :=
  for_range requested_page old_page (fun page =>
    e ← pt_read pt page;
    if valid e then FrameFree (pfn e) ;; MemoryUnmapPage pt page else skip).

Definition SetKernelBrk (addr : Z) : M mem Empty_set Z :=
  let requested_page := UP_TO_PAGE addr ≫ PAGESHIFT in
  let stack_base_page := KERNEL_STACK_BASE ≫ PAGESHIFT in
  old_page ← KernelBrkPage;
  let requested_page :=
    if requested_page <? orig_kernel_brk_page then orig_kernel_brk_page else requested_page in
  if stack_base_page <? requested_page then mret ERROR
  else
    m ← gets (fun m => m);
    if negb (vm_enabled m) then
      (if highest_pre_vm_brk_page m <? requested_page
       then modify (set_highest_brk_page requested_page) else skip) ;;
      modify (set_brk_page requested_page) ;;
      mret SUCCESS
    else
      r ← grow_pages (kernel_region0_pt m) old_page requested_page skip;
      match r with
      | Some rc => mret rc
      | None =>
          shrink_pages (kernel_region0_pt m) requested_page old_page ;;
          modify (set_brk_page requested_page) ;;
          mret SUCCESS
      end.

(** ** The kernel heap *)

Definition kmalloc (bytes : Z) : M mem Empty_set (option Z) :=
  modify (add_log (EvMalloc bytes)) ;;
  l ← gets log;
  match malloc_brk l bytes with
  | Some addr =>
      rc ← SetKernelBrk addr;
      modify (add_log (EvBrk addr rc))
  | None => skip
  end ;;
  m ← gets (fun m => m);
  match malloc_ptr (log m) (inuse m) bytes with
  | Some p => modify (set_inuse ({[p]} ∪ inuse m)) ;; mret (Some p)
  | None => mret None
  end.

(** [free]: the null pointer is ignored, anything else must be a block in use. *)
Definition kfree (p : Z) : M mem Empty_set unit :=
  m ← gets (fun m => m);
  if p =? 0 then mret tt
  else if decide (p ∈ inuse m) then modify (set_inuse (inuse m ∖ {[p]}))
  else fault "free of a block not in use".

Definition MemoryAllocPageTable : M mem Empty_set Z :=
  p ← kmalloc (MAX_PT_LEN * sizeof "pte_t");
  match p with
  | None => KernelPanic "calloc page table failed"
  | Some pt =>
      modify (fun m => set_tables
        (<[pt := replicate (Z.to_nat MAX_PT_LEN) pte_zero]> (page_tables m)) m) ;;
      mret pt
  end.

(** [free(pt)] of a page table: the table is gone with its block. *)
Definition free_page_table (pt : Z) : M mem Empty_set unit :=
  kfree pt ;; modify (fun m => set_tables (delete pt (page_tables m)) m).

(** ** Boot *)

(** [frame_allocated[i] = b] for [lo <= i < hi]. *)
Definition mark_range (lo hi : Z) (b : bool) : M mem Empty_set unit :=
  for_range lo hi (fun i =>
    m ← gets (fun m => m);
    deref "frame_allocated" (zlookup (frame_allocated m) i) ;;
    modify (mark_frame i b)).

(** The two [KernelBrkPage()] loops of [MemoryInit]; the bound is read again
    before every turn in C, and marking a frame does not change it. *)
Definition reserve_kernel_image : M mem Empty_set unit :=
  brk ← KernelBrkPage;
  count ← gets physical_frame_count;
  mark_range 0 (Z.min brk count) true.

Definition MemoryInit (pmem_size : Z) : M mem Empty_set unit :=
  modify (set_frame_count (pmem_size / PAGESIZE)) ;;
  count ← gets physical_frame_count;
  (if MAX_PMEM_SIZE / PAGESIZE <? count
   then KernelPanic "physical memory exceeds frame table capacity" else skip) ;;
  mark_range 0 count false ;;
  reserve_kernel_image ;;
  mark_range (KERNEL_STACK_BASE ≫ PAGESHIFT)
             (Z.min (KERNEL_STACK_LIMIT ≫ PAGESHIFT) count) true ;;
  pt ← MemoryAllocPageTable;
  modify (set_region0_pt pt) ;;
  reserve_kernel_image.

Definition map_identity (pt lo hi prot : Z) : M mem Empty_set unit :=
  for_range lo hi (fun page => MemoryMapPage pt page page prot).

Definition MemoryBuildKernelRegion0 : M mem Empty_set unit :=
  pt ← gets kernel_region0_pt;
  (if pt =? 0 then KernelPanic "Region 0 page table is null" else skip) ;;
  map_identity pt first_kernel_text_page first_kernel_data_page (Z.lor PROT_READ PROT_EXEC) ;;
  brk ← KernelBrkPage;
  map_identity pt first_kernel_data_page brk (Z.lor PROT_READ PROT_WRITE) ;;
  map_identity pt (KERNEL_STACK_BASE ≫ PAGESHIFT) (KERNEL_STACK_LIMIT ≫ PAGESHIFT)
    (Z.lor PROT_READ PROT_WRITE).

Context {FL : FrameworkLaws F}.

(** ** Growing and shrinking a table *)

Definition prot_rw : Z := Z.lor PROT_READ PROT_WRITE.

Definition unmapped_in (m : mem) (pt lo hi : Z) : Prop :=
  forall j, lo <= j < hi -> exists e, table_entry m pt j = Some e /\ valid e = false.

Definition same_entries_but (m m' : mem) (pt lo hi : Z) : Prop :=
  forall j, ~ lo <= j < hi -> table_entry m' pt j = table_entry m pt j.

(** Pages [lo..hi) of [pt] got fresh frames; nothing else changed. *)
Record grown (m m' : mem) (pt lo hi : Z) (ext : list Z) : Prop := {
  grown_accounted : accounted m' pt ext;
  grown_outside : outside m m' pt;
  grown_pages : forall j, lo <= j < hi ->
    exists f, table_entry m' pt j = Some (mkPte true prot_rw f) /\ ~ used m f;
  grown_others : same_entries_but m m' pt lo hi;
  grown_cost : exists fs, length fs = Z.to_nat (hi - lo) /\
    forall f, used m' f -> used m f \/ f ∈ fs
}.

(** Pages [lo..hi) of [pt] are unmapped; nothing else changed. *)
Record shrunk (m m' : mem) (pt lo hi : Z) (ext : list Z) : Prop := {
  shrunk_accounted : accounted m' pt ext;
  shrunk_outside : outside m m' pt;
  shrunk_pages : unmapped_in m' pt lo hi;
  shrunk_others : same_entries_but m m' pt lo hi
}.

(** Fewer than [n] frames are free. *)
Definition short_of_frames (m : mem) (n : Z) : Prop :=
  exists fs : list Z, Z.of_nat (length fs) < n /\
    forall f, 0 <= f < physical_frame_count m -> used m f \/ f ∈ fs.

Lemma free_turn s pt ext k e0 :
  accounted s pt ext -> 0 <= k < MAX_PT_LEN -> table_entry s pt k = Some e0 -> valid e0 = true ->
  returns (FrameFree (pfn e0) ;; MemoryUnmapPage pt k)
    (fun _ s' => entry_step s s' pt k (mkPte false PROT_NONE 0) ext) s.
Proof.
  intros Ha Hk He Hv. destruct (free_unmap_step s pt ext k e0 Ha Hk He Hv) as (m1 & m2 & H1 & H2 & Hst).
  eapply returns_ok; [|exact Hst]. by rewrite (bind_ok _ _ _ _ _ H1).
Qed.

Lemma unmap_back_ok m pt ext lo hi :
  accounted m pt ext -> 0 <= lo <= hi -> hi <= MAX_PT_LEN ->
  (forall j, lo <= j < hi -> exists e, table_entry m pt j = Some e /\ valid e = true) ->
  returns (unmap_back pt lo hi) (fun _ m' => shrunk m m' pt lo hi ext) m.
Proof.
  intros Ha Hlo Hhi Hmapped. unfold unmap_back. eapply returns_mono.
  - apply (returns_for_down (fun i s => accounted s pt ext /\ outside m s pt /\
      unmapped_in s pt (i + 1) hi /\ same_entries_but m s pt (i + 1) hi)); [lia|..].
    + split_and!; [done|apply outside_refl|intros j ?; lia|done].
    + intros k s Hk (Has & Ho & Hun & Hsame).
      destruct (Hmapped k Hk) as (e0 & He0 & Hv). rewrite <- (Hsame k) in He0 by lia.
      unfold pt_read, wp, mbind at 1, M_bind at 1. rewrite He0. simpl.
      eapply returns_mono; [by apply (free_turn s pt ext k e0); [|lia|..]|].
      intros _ s' [Ha' Ho' He']. split_and!; [done|by eapply outside_trans|..].
      * intros j Hj. rewrite He'. case_decide; [eauto|]. apply Hun. lia.
      * intros j Hj. rewrite He'. rewrite decide_False by lia. apply Hsame. lia.
  - intros _ s (Has & Ho & Hun & Hsame). replace (lo - 1 + 1) with lo in * by lia. done.
Qed.

Lemma shrink_pages_ok m pt ext lo hi :
  accounted m pt ext -> 0 <= lo <= hi -> hi <= MAX_PT_LEN ->
  returns (shrink_pages pt lo hi) (fun _ m' => shrunk m m' pt lo hi ext) m.
Proof.
  intros Ha Hlo Hhi. unfold shrink_pages. eapply returns_mono.
  - apply (returns_for_range (fun i s => accounted s pt ext /\ outside m s pt /\
      unmapped_in s pt lo i /\ same_entries_but m s pt lo i)); [lia|..].
    + split_and!; [done|apply outside_refl|intros j ?; lia|done].
    + intros k s Hk (Has & Ho & Hun & Hsame).
      destruct (accounted_entry s pt ext k Has) as [e0 He0]; [lia|].
      unfold pt_read, wp, mbind at 1, M_bind at 1. rewrite He0. simpl. destruct (valid e0) eqn:Hv.
      * eapply returns_mono; [by apply (free_turn s pt ext k e0); [|lia|..]|].
        intros _ s' [Ha' Ho' He']. split_and!; [done|by eapply outside_trans|..].
        -- intros j Hj. rewrite He'. case_decide; [eauto|]. apply Hun. lia.
        -- intros j Hj. rewrite He'. rewrite decide_False by lia. apply Hsame. lia.
      * simpl. split_and!; [done..| |].
        -- intros j Hj. destruct (decide (j = k)) as [->|]; [eauto|]. apply Hun. lia.
        -- intros j Hj. apply Hsame. lia.
  - intros _ s (Has & Ho & Hun & Hsame). done.
Qed.

(** The action before the early return only touches the log. *)
Definition quiet (cleanup : M mem Empty_set unit) : Prop :=
  forall s, cleanup s = Ok tt s \/ exists ev, cleanup s = Ok tt (add_log ev s).

(** The early return of [grow_pages]: everything as before, and memory short. *)
Record grow_failed (m m' : mem) (pt lo hi : Z) (ext : list Z) (rc : Z) : Prop := {
  failed_rc : rc = ERROR;
  failed_shrunk : shrunk m m' pt lo hi ext;
  failed_used : forall f, used m' f <-> used m f;
  failed_short : short_of_frames m (hi - lo)
}.

Lemma shrunk_log m m' pt lo hi ext ev :
  shrunk m m' pt lo hi ext -> shrunk m (add_log ev m') pt lo hi ext.
Proof. intros [Ha Ho Hp Hs]. split; [by apply accounted_log|by destruct Ho|done..]. Qed.

(** Giving back the pages [lo..k) that a failed growth had mapped. *)
Lemma grown_back m s pt lo k hi ext s' :
  accounted m pt ext -> unmapped_in m pt lo hi -> lo <= k <= hi ->
  grown m s pt lo k ext -> shrunk s s' pt lo k ext ->
  shrunk m s' pt lo hi ext /\ forall f, used s' f <-> used m f.
Proof.
  intros Ha Hun Hk [Has Ho Hp Hs _] [Ha' Ho' Hp' Hs'].
  assert (Hsh : shrunk m s' pt lo hi ext).
  { split; [done|by eapply outside_trans|..].
    - intros j Hj. destruct (decide (j < k)); [apply Hp'; lia|].
      rewrite Hs', Hs by lia. by apply Hun.
    - intros j Hj. rewrite Hs', Hs by lia. done. }
  split; [done|]. apply (same_valid_used m s' pt ext); [done..|].
  intros i e Hv. destruct (decide (lo <= i < hi)) as [Hi|Hi].
  - destruct (Hun i Hi) as (e1 & He1 & Hv1). destruct (shrunk_pages _ _ _ _ _ _ Hsh i Hi) as (e2 & He2 & Hv2).
    rewrite He1, He2. split; intros; simplify_eq; congruence.
  - by rewrite (shrunk_others _ _ _ _ _ _ Hsh i Hi).
Qed.

Lemma grow_failure m s pt lo k hi ext cleanup :
  quiet cleanup -> accounted m pt ext -> unmapped_in m pt lo hi -> 0 <= lo -> lo <= k < hi ->
  hi <= MAX_PT_LEN ->
  grown m s pt lo k ext -> (forall f, 0 <= f < physical_frame_count s -> used s f) ->
  returns (unmap_back pt lo k ;; cleanup ;; mret (Some ERROR))
    (fun r s' => exists rc, r = Some rc /\ grow_failed m s' pt lo hi ext rc) s.
Proof.
  intros Hq Ha Hun Hlo Hk Hhi Hg Hfull.
  eapply returns_bind.
  - apply unmap_back_ok; [apply (grown_accounted _ _ _ _ _ _ Hg)|lia|lia|].
    intros j Hj. destruct (grown_pages _ _ _ _ _ _ Hg j Hj) as (f & He & _). eauto.
  - intros ? s1 Hs1. simpl in Hs1. destruct (grown_back m s pt lo k hi ext s1) as [Hsh Hu]; [done..|lia|done|done|].
    assert (Hshort : short_of_frames m (hi - lo)).
    { destruct (grown_cost _ _ _ _ _ _ Hg) as (fs & Hlen & Hfs). exists fs. split; [lia|].
      intros f Hf. apply Hfs. apply Hfull. by rewrite (out_count _ _ _ (grown_outside _ _ _ _ _ _ Hg)). }
    destruct (Hq s1) as [Hc|[ev Hc]]; (eapply returns_ok; [by rewrite (bind_ok _ _ _ _ _ Hc)|]);
      exists ERROR; (split; [done|]); split; try done.
    by apply shrunk_log.
Qed.

(** One more page, fresh, at either end of the pages grown so far. *)
Lemma grown_step m s s2 pt lo hi lo' hi' k ext f :
  accounted m pt ext -> grown m s pt lo hi ext -> 0 <= lo' -> hi' <= MAX_PT_LEN ->
  unmapped_in m pt lo' hi' -> (forall j, lo' <= j < hi' <-> lo <= j < hi \/ j = k) ->
  lo <= hi -> hi' - lo' = hi - lo + 1 -> ~ used s f ->
  entry_step s s2 pt k (mkPte true prot_rw f) ext ->
  (forall g, used s2 g -> used s g \/ g = f) ->
  grown m s2 pt lo' hi' ext.
Proof.
  intros Ha [Has Ho Hp Hs Hc] Hlo Hhi Hun Hr Hle Hlen Hnu [Ha2 Ho2 He2] Hu2.
  split; [done|by eapply outside_trans|..].
  - intros j Hj. rewrite He2. case_decide as Hjk.
    + exists f. split; [done|]. intros Hfm. destruct Hnu.
      rewrite (acc_used _ _ _ Ha f) in Hfm.
      apply (acc_used _ _ _ Has). apply elem_of_app in Hfm as [Hfm|Hfm]; apply elem_of_app; [left|by right].
      apply elem_of_table_frames in Hfm as (i & e & He & Hev & <-).
      apply elem_of_table_frames. exists i, e. split; [|done].
      rewrite Hs; [done|]. intros Hi. destruct (Hun i) as (e1 & He1 & Hv1); [apply Hr; lia|]. congruence.
    + apply Hp. apply Hr in Hj. lia.
  - intros j Hj. rewrite He2, decide_False by (intros <-; apply Hj, Hr; lia). apply Hs.
    intros ?. apply Hj, Hr. by left.
  - destruct Hc as (fs & Hflen & Hfs). exists (f :: fs). split; [simpl; lia|].
    intros g [Hgs| ->]%Hu2; [|set_solver]. destruct (Hfs g Hgs); set_solver.
Qed.

Lemma grow_pages_ok m pt ext lo hi cleanup :
  quiet cleanup -> accounted m pt ext -> unmapped_in m pt lo hi -> 0 <= lo <= hi ->
  hi <= MAX_PT_LEN ->
  returns (grow_pages pt lo hi cleanup) (fun r m' =>
    match r with
    | None => grown m m' pt lo hi ext
    | Some rc => grow_failed m m' pt lo hi ext rc
    end) m.
Proof.
  intros Hq Ha Hun Hlo Hhi. unfold grow_pages.
  apply (returns_for_range_ret (fun k s => grown m s pt lo k ext)); [lia|..].
  - split; [done|apply outside_refl|intros j ?; lia|done|].
    exists []. split; [simpl; lia|]. auto.
  - intros k s Hk Hg. pose proof Hg as [Has Ho Hp Hs Hc].
    destruct (Hun k) as (e0 & He0 & Hv); [lia|]. rewrite <- (Hs k) in He0 by lia.
    destruct (alloc_map_step s pt ext k e0 prot_rw FL Has) as
      [(f & m1 & m2 & Hal & Hne & Hf & Hnu & Hmap & [Ha2 Ho2 He2] & Hu2)|[Hal Hfull]];
      [lia|done|done|..].
    + eapply returns_ok.
      { rewrite (bind_ok _ _ _ _ _ Hal). test_false (f =? ERROR).
        unfold prot_rw in Hmap. rewrite (bind_ok _ _ _ _ _ Hmap).
        pose proof error_not_success. test_false (SUCCESS =? ERROR). reflexivity. }
      simpl. apply (grown_step m s m2 pt lo k lo (k + 1) k ext f); try done; try lia.
      intros j Hj. apply Hun. lia.
    + eapply wp_step; [exact Hal|]. test_true (ERROR =? ERROR).
      eapply returns_mono; [apply (grow_failure m s pt lo k hi ext); done || lia|].
      by intros r s' (rc & -> & Hf).
Qed.

(** ** SetKernelBrk once virtual memory is on *)

Definition stack_base_page : Z := KERNEL_STACK_BASE ≫ PAGESHIFT.

(** The page [SetKernelBrk] is asked for, never below the original break. *)
Definition brk_target (addr : Z) : Z :=
  Z.max orig_kernel_brk_page (UP_TO_PAGE addr ≫ PAGESHIFT).

(** The kernel heap ends at the break: everything from there to the kernel
    stack is unmapped, and Region 0's frames are accounted for. *)
Record heap_ok (m : mem) (ext : list Z) : Prop := {
  heap_vm : vm_enabled m = true;
  heap_brk : orig_kernel_brk_page <= current_kernel_brk_page m <= stack_base_page;
  heap_accounted : accounted m (kernel_region0_pt m) ext;
  heap_unmapped : unmapped_in m (kernel_region0_pt m) (current_kernel_brk_page m) stack_base_page
}.

Lemma stack_base_bounds : 0 < orig_kernel_brk_page < stack_base_page /\ stack_base_page + 2 <= MAX_PT_LEN.
Proof.
  pose proof kimage as (_ & _ & ?). split; [done|]. unfold stack_base_page.
  pose proof pagesize_pos. pose proof kstack_aligned. pose proof kstack_limit.
  pose proof kstack_in_region0. pose proof region0_size. pose proof kstack_two. nia.
Qed.

Lemma KernelBrkPage_vm m :
  vm_enabled m = true -> current_kernel_brk_page m <> 0 ->
  KernelBrkPage m = Ok (current_kernel_brk_page m) m.
Proof.
  intros Hvm Hc. unfold KernelBrkPage. rewrite bind_gets.
  test_false (current_kernel_brk_page m =? 0). unfold skip. rewrite bind_ret, bind_gets.
  by rewrite Hvm.
Qed.

(** What [SetKernelBrk addr] did from [m]: the answer and the new state. *)
Inductive brk_outcome (m : mem) (ext : list Z) (addr : Z) : Z -> mem -> Prop :=
| brk_grown m1 :
    current_kernel_brk_page m <= brk_target addr <= stack_base_page ->
    grown m m1 (kernel_region0_pt m) (current_kernel_brk_page m) (brk_target addr) ext ->
    brk_outcome m ext addr SUCCESS (set_brk_page (brk_target addr) m1)
| brk_shrunk m1 :
    brk_target addr <= current_kernel_brk_page m ->
    shrunk m m1 (kernel_region0_pt m) (brk_target addr) (current_kernel_brk_page m) ext ->
    brk_outcome m ext addr SUCCESS (set_brk_page (brk_target addr) m1)
| brk_too_high :
    stack_base_page < brk_target addr -> brk_outcome m ext addr ERROR m
| brk_no_memory m1 :
    current_kernel_brk_page m <= brk_target addr <= stack_base_page ->
    grow_failed m m1 (kernel_region0_pt m) (current_kernel_brk_page m) (brk_target addr) ext ERROR ->
    brk_outcome m ext addr ERROR m1.

Lemma quiet_skip : quiet skip.
Proof. by left. Qed.

Lemma SetKernelBrk_outcome m ext addr :
  heap_ok m ext -> returns (SetKernelBrk addr) (brk_outcome m ext addr) m.
Proof.
  intros [Hvm Hbrk Hacc Hun]. pose proof stack_base_bounds as [Hsb Hsb2].
  unfold SetKernelBrk. eapply wp_step; [by apply KernelBrkPage_vm; [|lia]|].
  fold stack_base_page.
  replace (if _ <? orig_kernel_brk_page then _ else _) with (brk_target addr)
    by (unfold brk_target; case_test; lia).
  set (req := brk_target addr). set (cur := current_kernel_brk_page m).
  assert (Horig : orig_kernel_brk_page <= req) by (unfold req, brk_target; lia).
  case_test; [eapply returns_ok; [reflexivity|by apply brk_too_high]|].
  eapply wp_step; [reflexivity|]. rewrite Hvm. cbn [negb].
  set (pt := kernel_region0_pt m) in *.
  destruct (decide (cur <= req)) as [Hle|Hgt].
  - eapply returns_bind.
    { apply (grow_pages_ok m pt ext cur req skip quiet_skip Hacc); [|lia..].
      intros j Hj. apply Hun. lia. }
    intros [rc|] m1 Hm1.
    + pose proof (failed_rc _ _ _ _ _ _ _ Hm1) as ->. eapply returns_ok; [reflexivity|].
      apply brk_no_memory; [lia|done].
    + eapply wp_step; [by apply for_range_empty|]. eapply wp_step; [reflexivity|].
      eapply returns_ok; [reflexivity|]. by apply brk_grown; [lia|].
  - eapply wp_step; [apply for_range_ret_empty; lia|]. cbv beta iota.
    eapply returns_bind; [apply (shrink_pages_ok m pt ext req cur Hacc); lia|].
    intros ? m1 Hm1. simpl in Hm1. eapply wp_step; [reflexivity|].
    eapply returns_ok; [reflexivity|]. by apply brk_shrunk; [lia|].
Qed.

Lemma accounted_brk_page v m pt ext : accounted m pt ext -> accounted (set_brk_page v m) pt ext.
Proof. by intros [? ? ? ? ?]. Qed.

Lemma brk_outcome_heap_ok m ext addr rc m' :
  heap_ok m ext -> brk_outcome m ext addr rc m' -> heap_ok m' ext.
Proof.
  intros [Hvm Hbrk Hacc Hun] Hout. destruct Hout as [m1 Hr Hg|m1 Hr Hs|Hr|m1 Hr Hf]; [..|done|].
  - destruct Hg as [Ha Ho _ Hs _]. split; simpl.
    + by rewrite (out_vm _ _ _ Ho).
    + unfold brk_target in *. lia.
    + rewrite (out_region0 _ _ _ Ho). by apply accounted_brk_page.
    + rewrite (out_region0 _ _ _ Ho). intros j Hj. change (table_entry _ _ j) with (table_entry m1 (kernel_region0_pt m) j).
      rewrite Hs by lia. apply Hun. lia.
  - destruct Hs as [Ha Ho Hp Hs]. split; simpl.
    + by rewrite (out_vm _ _ _ Ho).
    + unfold brk_target in *. lia.
    + rewrite (out_region0 _ _ _ Ho). by apply accounted_brk_page.
    + rewrite (out_region0 _ _ _ Ho). intros j Hj. change (table_entry _ _ j) with (table_entry m1 (kernel_region0_pt m) j).
      destruct (decide (j < current_kernel_brk_page m)); [apply Hp; lia|].
      rewrite Hs by lia. apply Hun. lia.
  - destruct Hf as [_ [Ha Ho Hp Hs] _ _]. split.
    + by rewrite (out_vm _ _ _ Ho).
    + by rewrite (out_brk _ _ _ Ho).
    + by rewrite (out_region0 _ _ _ Ho).
    + rewrite (out_region0 _ _ _ Ho), (out_brk _ _ _ Ho). intros j Hj.
      destruct (decide (j < brk_target addr)); [apply Hp; lia|]. rewrite Hs by lia. apply Hun. lia.
Qed.

(** ** Deciding that pages are unmapped *)

Definition unmapped_b (m : mem) (pt lo hi : Z) : bool :=
  forallb (fun j => match table_entry m pt j with Some e => negb (valid e) | None => false end)
    (seqZ lo (hi - lo)).

Lemma unmapped_b_sound m pt lo hi : unmapped_b m pt lo hi = true -> unmapped_in m pt lo hi.
Proof.
  unfold unmapped_b. rewrite forallb_forall. intros H j Hj. specialize (H j).
  rewrite <- list_elem_of_In, elem_of_seqZ in H. specialize (H ltac:(lia)).
  destruct (table_entry m pt j) as [e|]; [|done]. exists e. by apply negb_true_iff in H.
Qed.

(** ** Properties *)

(** C6: [SetKernelBrk] keeps the kernel heap well formed whatever break it is asked
    for: it maps exactly the missing pages with fresh frames, or unmaps and frees
    exactly the pages above the new break, or refuses a break above the kernel stack
    and changes nothing, or runs out of frames and then leaves every mapping and
    every frame as it found them. *)
Theorem set_kernel_brk_keeps_heap m ext addr :
  heap_ok m ext ->
  returns (SetKernelBrk addr) (fun rc m' => brk_outcome m ext addr rc m' /\ heap_ok m' ext) m.
Proof.
  intros Hh. eapply returns_mono; [by apply SetKernelBrk_outcome|].
  intros rc m' Hout. split; [done|]. by eapply brk_outcome_heap_ok.
Qed.

(** C39: the check against the kernel stack is off by one page for the rest of the
    kernel: a break at the stack base is granted, and then the heap's last page is
    page [stack base - 1], the page through which process.c copies memory. *)
Theorem kernel_brk_reaches_scratch_page m ext addr :
  heap_ok m ext -> current_kernel_brk_page m < stack_base_page ->
  UP_TO_PAGE addr ≫ PAGESHIFT = stack_base_page ->
  returns (SetKernelBrk addr) (fun rc m' =>
    rc = SUCCESS /\ current_kernel_brk_page m' = stack_base_page /\
    (exists f, table_entry m' (kernel_region0_pt m') (stack_base_page - 1) =
       Some (mkPte true prot_rw f)) \/
    rc = ERROR /\ short_of_frames m (stack_base_page - current_kernel_brk_page m)) m.
Proof.
  intros Hh Hlt Haddr. pose proof stack_base_bounds as [Hsb _].
  assert (Ht : brk_target addr = stack_base_page) by (unfold brk_target; lia).
  eapply returns_mono; [by apply SetKernelBrk_outcome|].
  intros rc m' [m1 Hr Hg|m1 Hr Hs|Hr|m1 Hr Hf]; rewrite Ht in *; [left|lia|lia|right].
  - split_and!; [done|done|]. destruct (grown_pages _ _ _ _ _ _ Hg (stack_base_page - 1)) as (f & Hf & _); [lia|].
    exists f. simpl. by rewrite (out_region0 _ _ _ (grown_outside _ _ _ _ _ _ Hg)).
  - split; [done|]. apply (failed_short _ _ _ _ _ _ _ Hf).
Qed.
End KernelBrk.

(** ** Witnesses *)

Module KernelBrkWitness.
#[local] Existing Instance tiny.
#[local] Existing Instance tiny_laws.

(** The kernel right after boot: pages 0-7 and the stack, frame 9 of somebody else. *)
Definition region0 : list pte :=
  ((fun i => mkPte true 3 i) <$> seqZ 0 8) ++ replicate 6 pte_zero ++ [mkPte true 3 14; mkPte true 3 15].
Definition mem1 : mem :=
  mkMem (replicate 8 true ++ [false; true; false; false; false; false; true; true] ++ replicate 4 false)
    20 1 8 8 true {[ 1 := region0 ]} {[ 1 ]} 1 2 ∅ [].

Lemma mem1_heap_ok : heap_ok mem1 [9].
Proof.
  split; [reflexivity|split; vm_compute; discriminate| |].
  - apply accounted_b_sound. vm_compute. reflexivity.
  - apply unmapped_b_sound. vm_compute. reflexivity.
Qed.

Lemma set_kernel_brk_keeps_heap_witness :
  returns (SetKernelBrk 700) (fun rc m' => brk_outcome mem1 [9] 700 rc m' /\ heap_ok m' [9]) mem1 /\
  result (SetKernelBrk 700 mem1) = Some SUCCESS /\
  result (SetKernelBrk 1000 mem1) = Some ERROR.
Proof.
  split; [apply (set_kernel_brk_keeps_heap mem1 [9] 700 mem1_heap_ok)|].
  split; vm_compute; reflexivity.
Defined.

Lemma kernel_brk_reaches_scratch_page_witness :
  returns (SetKernelBrk 896) (fun rc m' =>
    rc = SUCCESS /\ current_kernel_brk_page m' = stack_base_page /\
    (exists f, table_entry m' (kernel_region0_pt m') (stack_base_page - 1) =
       Some (mkPte true prot_rw f)) \/
    rc = ERROR /\ short_of_frames mem1 (stack_base_page - current_kernel_brk_page mem1)) mem1 /\
  result (SetKernelBrk 896 mem1) = Some SUCCESS.
Proof.
  split; [|vm_compute; reflexivity].
  apply (kernel_brk_reaches_scratch_page mem1 [9] 896 mem1_heap_ok); vm_compute; reflexivity.
Defined.
End KernelBrkWitness.
