(* ===== verification/BootMemory.v ===== *)
(** * Memory at boot ([MemoryInit], [MemoryBuildKernelRegion0])

    From the zeroed globals of the kernel image to the accounts with which
    virtual memory is switched on: the frames below the break and under the
    kernel stack are taken, Region 0 maps exactly the live kernel pages onto
    themselves. *)

From S2P Require Import Prelude Framework Memory KernelBrk.

Section BootMemory.
Context {F : Framework} {FL : FrameworkLaws F}.

(** The globals of [memory.c] and [kernelbrk.c] when the kernel is loaded. *)
Definition mem_boot : mem := {|
  frame_allocated := replicate (Z.to_nat (MAX_PMEM_SIZE / PAGESIZE)) false;
  physical_frame_count := 0;
  kernel_region0_pt := 0;
  current_kernel_brk_page := 0;
  highest_pre_vm_brk_page := 0;
  vm_enabled := false;
  page_tables := ∅;
  inuse := ∅;
  ptbr0 := 0;
  ptbr1 := 0;
  ram := ∅;
  log := []
|}.

(** ** Marking frames *)

(** [m'] is [m] with the frames [lo..hi) marked [b]. *)
Record marked (m m' : mem) (lo hi : Z) (b : bool) : Prop := {
  marked_rest : exists l, m' = set_frames l m /\ length l = length (frame_allocated m);
  marked_frames : forall f : Z, 0 <= f ->
    zlookup (frame_allocated m') f =
    if decide (lo <= f < hi) then Some b else zlookup (frame_allocated m) f
}.

Lemma mark_range_ok m lo hi b :
  mem_wf m -> 0 <= lo -> hi <= physical_frame_count m ->
  returns (mark_range lo hi b) (fun _ m' => marked m m' lo hi b) m.
Proof.
  intros Hwf Hlo Hhi. unfold mark_range.
  destruct (decide (lo <= hi)) as [Hle|Hgt].
  - apply (returns_for_range (fun k s => marked m s lo k b)); [done|..].
    + split; [exists (frame_allocated m); by destruct m|]. intros f Hf.
      by rewrite decide_False by lia.
    + intros k s Hk [(l & -> & Hlen) Hfr]. unfold mem_wf in Hwf.
      destruct (zlookup_is_Some l k) as [x Hx]; [lia|].
      eapply wp_step; [reflexivity|]. simpl. rewrite Hx. eapply wp_step; [reflexivity|].
      eapply returns_ok; [reflexivity|]. split.
      * eexists. split; [reflexivity|]. simpl. by rewrite length_insert.
      * intros f Hf. simpl in *. specialize (Hfr f Hf).
        rewrite zlookup_nat in * by done. rewrite list_update_lookup.
        destruct (decide (f = k)) as [->|].
        -- rewrite !decide_True by lia. done.
        -- rewrite decide_False by lia. rewrite Hfr. by repeat case_decide; try lia.
  - eapply returns_ok; [apply for_range_empty; lia|]. split.
    + exists (frame_allocated m). by destruct m.
    + intros f Hf. by rewrite decide_False by lia.
Qed.

Lemma used_zlookup m f :
  used m f <-> 0 <= f < physical_frame_count m /\ zlookup (frame_allocated m) f = Some true.
Proof. unfold used. split; intros [? Hf]; (split; [done|]); by rewrite zlookup_nat in * by lia. Qed.

Lemma marked_used m m' lo hi b f :
  marked m m' lo hi b -> 0 <= f < physical_frame_count m ->
  used m' f <-> if decide (lo <= f < hi) then b = true else used m f.
Proof.
  intros [(l & -> & Hlen) Hfr] Hf. rewrite !used_zlookup, Hfr by lia. simpl.
  destruct (decide (lo <= f < hi)).
  - split; [intros [_ [= ->]]; done|]. by intros ->.
  - by rewrite used_zlookup.
Qed.

Lemma marked_wf m m' lo hi b : marked m m' lo hi b -> mem_wf m -> mem_wf m'.
Proof. intros [(l & -> & Hlen) _]. unfold mem_wf. simpl. by rewrite Hlen. Qed.

(** ** The break before virtual memory *)

(** The break as [KernelBrkPage] reports it before virtual memory is on. *)
Definition boot_brk (m : mem) : Z := highest_pre_vm_brk_page m.

Record brk_ready (m : mem) : Prop := {
  ready_vm : vm_enabled m = false;
  ready_cur : orig_kernel_brk_page <= current_kernel_brk_page m <= boot_brk m;
  ready_brk : boot_brk m <= stack_base_page
}.

Lemma KernelBrkPage_ready m : brk_ready m -> KernelBrkPage m = Ok (boot_brk m) m.
Proof.
  intros [Hvm Hcur Hbrk]. pose proof stack_base_bounds. unfold KernelBrkPage. rewrite bind_gets.
  test_false (current_kernel_brk_page m =? 0). unfold skip. rewrite bind_ret, bind_gets, Hvm.
  cbn [negb andb]. unfold boot_brk in *. case_test; unfold mret, M_ret; f_equal; lia.
Qed.

(** The first call initialises the break. *)
Lemma KernelBrkPage_first m :
  vm_enabled m = false -> current_kernel_brk_page m = 0 ->
  KernelBrkPage m = Ok orig_kernel_brk_page
    (set_highest_brk_page orig_kernel_brk_page (set_brk_page orig_kernel_brk_page m)).
Proof.
  intros Hvm Hcur. unfold KernelBrkPage. rewrite bind_gets, Hcur. cbn [Z.eqb].
  rewrite bind_modify, bind_gets. cbn. rewrite Hvm. cbn [negb andb].
  by test_false (orig_kernel_brk_page <? orig_kernel_brk_page).
Qed.

(** [m'] differs from [m] in the break, the heap blocks and the log at most;
    the break only grew. *)
Record brk_moved (m m' : mem) : Prop := {
  moved_ready : brk_ready m';
  moved_brk : boot_brk m <= boot_brk m';
  moved_frames : frame_allocated m' = frame_allocated m;
  moved_count : physical_frame_count m' = physical_frame_count m;
  moved_region0 : kernel_region0_pt m' = kernel_region0_pt m;
  moved_tables : page_tables m' = page_tables m
}.

Lemma SetKernelBrk_boot m addr :
  brk_ready m -> returns (SetKernelBrk addr) (fun _ m' => brk_moved m m') m.
Proof.
  intros Hr. pose proof Hr as [Hvm Hcur Hbrk]. unfold SetKernelBrk.
  eapply wp_step; [by apply KernelBrkPage_ready|]. fold stack_base_page.
  replace (if _ <? orig_kernel_brk_page then _ else _) with (brk_target addr)
    by (unfold brk_target; case_test; lia).
  assert (orig_kernel_brk_page <= brk_target addr) by (unfold brk_target; lia).
  case_test; [eapply returns_ok; [reflexivity|]; by split|].
  eapply wp_step; [reflexivity|]. rewrite Hvm. cbn [negb]. unfold boot_brk in Hbrk, Hcur.
  case_test; (eapply wp_step; [reflexivity|]); (eapply wp_step; [reflexivity|]);
    (eapply returns_ok; [reflexivity|]); split; simpl; try done; try (split; simpl; try done);
    unfold boot_brk; simpl; lia.
Qed.

Lemma brk_moved_refl m : brk_ready m -> brk_moved m m.
Proof. intros Hr. by split. Qed.

Lemma brk_moved_log m m' ev : brk_moved m m' -> brk_moved m (add_log ev m').
Proof. intros [[? ? ?] ? ? ? ? ?]. by split; [split|..]. Qed.

Lemma kmalloc_boot m bytes :
  brk_ready m ->
  returns (kmalloc bytes) (fun r m' => brk_moved m m' /\ forall p, r = Some p -> p <> 0) m.
Proof.
  intros Hr. unfold kmalloc.
  eapply wp_step; [reflexivity|]. eapply wp_step; [reflexivity|].
  set (m1 := add_log (EvMalloc bytes) m).
  assert (H1 : brk_moved m m1) by (by apply brk_moved_log, brk_moved_refl).
  eapply (returns_bind _ _ (fun _ m2 => brk_moved m m2)).
  { destruct (malloc_brk _ _) as [addr|]; [|by eapply returns_ok].
    eapply returns_bind; [apply (SetKernelBrk_boot m1); apply (moved_ready _ _ H1)|].
    intros rc m2 H2. eapply returns_ok; [reflexivity|]. apply brk_moved_log.
    destruct H1, H2. by split; try congruence; lia. }
  intros ? m2 H2. eapply wp_step; [reflexivity|].
  destruct (malloc_ptr (log m2) (inuse m2) bytes) as [p|] eqn:Hp.
  - eapply wp_step; [reflexivity|]. eapply returns_ok; [reflexivity|].
    apply malloc_fresh in Hp as [Hp _]. split; [|by intros ? [= <-]].
    destruct H2 as [[? ? ?] ? ? ? ? ?]. by split; [split|..].
  - by eapply returns_ok.
Qed.

(** ** MemoryInit *)

Definition stack_limit_page : Z := KERNEL_STACK_LIMIT ≫ PAGESHIFT.

Lemma stack_limit_two : stack_limit_page = stack_base_page + 2.
Proof.
  pose proof kstack_aligned as Ha. fold stack_base_page in Ha. pose proof pagesize_pos.
  unfold stack_limit_page. rewrite shiftr_page, kstack_limit, kstack_two, Ha.
  replace (_ + _) with ((stack_base_page + 2) * PAGESIZE) by lia. by rewrite Z.div_mul by lia.
Qed.

(** The frames a booting kernel owns: its image and heap, and its stack. *)
Definition boot_frame (m : mem) (f : Z) : Prop :=
  0 <= f < physical_frame_count m /\
  (f < boot_brk m \/ stack_base_page <= f < stack_limit_page).

Record memory_ready (m : mem) (count : Z) : Prop := {
  mready_brk : brk_ready m;
  mready_wf : mem_wf m;
  mready_count : physical_frame_count m = count;
  mready_used : forall f, used m f <-> boot_frame m f;
  mready_ptr : kernel_region0_pt m <> 0;
  mready_table : page_tables m !! kernel_region0_pt m =
                 Some (replicate (Z.to_nat MAX_PT_LEN) pte_zero)
}.

Lemma reserve_kernel_image_ok m :
  brk_ready m -> mem_wf m ->
  returns reserve_kernel_image
    (fun _ m' => marked m m' 0 (Z.min (boot_brk m) (physical_frame_count m)) true) m.
Proof.
  intros Hr Hwf. unfold reserve_kernel_image.
  eapply wp_step; [by apply KernelBrkPage_ready|]. eapply wp_step; [reflexivity|].
  apply mark_range_ok; [done|lia|lia].
Qed.

Lemma marked_ready m m' lo hi b : marked m m' lo hi b -> brk_ready m -> brk_ready m'.
Proof. intros [(l & -> & _) _] [? ? ?]. by split. Qed.

Lemma MemoryAllocPageTable_boot m :
  brk_ready m ->
  wp MemoryAllocPageTable (fun pt m' => pt <> 0 /\ exists m1, brk_moved m m1 /\
      exists u, m' = set_tables (<[pt := replicate (Z.to_nat MAX_PT_LEN) pte_zero]> (page_tables m1))
                      (set_inuse u m1))
    (fun _ _ => False) (fun r _ => r = Panic "calloc page table failed") m.
Proof.
  intros Hr. unfold MemoryAllocPageTable.
  eapply returns_then; [by apply kmalloc_boot|]. intros [p|] m1 [H1 Hp]; simpl.
  - split; [by apply Hp|]. exists m1. split; [done|]. exists (inuse m1). by destruct m1.
  - done.
Qed.

Lemma mem_boot_wf count :
  0 <= count <= MAX_PMEM_SIZE / PAGESIZE -> mem_wf (set_frame_count count mem_boot).
Proof. unfold mem_wf. simpl. rewrite length_replicate. lia. Qed.

(** The frame table when the Region 0 table is allocated. *)
Record image_reserved (m : mem) (count : Z) : Prop := {
  image_brk : brk_ready m;
  image_wf : mem_wf m;
  image_count : physical_frame_count m = count;
  image_used : forall f, 0 <= f < count ->
    used m f <-> (f < orig_kernel_brk_page \/ stack_base_page <= f < stack_limit_page);
  image_orig : boot_brk m = orig_kernel_brk_page
}.

(** Nothing is in use after the clearing loop; then image and stack are marked. *)
Lemma boot_marks m2 m3 m4 count :
  0 <= count -> physical_frame_count m2 = count ->
  (forall f, 0 <= f < count -> ~ used m2 f) ->
  marked m2 m3 0 (Z.min orig_kernel_brk_page count) true ->
  marked m3 m4 stack_base_page (Z.min stack_limit_page count) true ->
  forall f, 0 <= f < count ->
  used m4 f <-> (f < orig_kernel_brk_page \/ stack_base_page <= f < stack_limit_page).
Proof.
  intros Hc C2 Hun M2 M3 f Hf.
  assert (C3 : physical_frame_count m3 = count) by (destruct M2 as [(? & -> & _) _]; done).
  rewrite (marked_used _ _ _ _ _ f M3) by lia. case_decide; [split; [lia|done]|].
  rewrite (marked_used _ _ _ _ _ f M2) by lia. case_decide; [split; [lia|done]|].
  specialize (Hun f Hf). split; [done|lia].
Qed.

Lemma MemoryInit_marks_ok count :
  0 <= count <= MAX_PMEM_SIZE / PAGESIZE ->
  returns (mark_range 0 count false ;; reserve_kernel_image ;;
     mark_range (KERNEL_STACK_BASE ≫ PAGESHIFT) (Z.min (KERNEL_STACK_LIMIT ≫ PAGESHIFT) count) true)
    (fun _ m => image_reserved m count) (set_frame_count count mem_boot).
Proof.
  intros Hc. pose proof (mem_boot_wf count Hc) as Hwf. pose proof stack_base_bounds as [Hsb _].
  eapply returns_bind; [apply mark_range_ok; [done|lia|simpl; lia]|].
  intros ? m2 M1. pose proof (marked_wf _ _ _ _ _ M1 Hwf) as Hwf2.
  assert (Hun : forall f, 0 <= f < count -> ~ used m2 f).
  { intros f Hf. rewrite (marked_used _ _ _ _ _ f M1) by (simpl; lia). by rewrite decide_True by lia. }
  pose proof (marked_rest _ _ _ _ _ M1) as (l & -> & _). clear M1.
  set (m3 := set_highest_brk_page orig_kernel_brk_page (set_brk_page orig_kernel_brk_page
    (set_frames l (set_frame_count count mem_boot)))).
  assert (Hr3 : brk_ready m3) by (split; unfold boot_brk; simpl; [done|lia|lia]).
  unfold reserve_kernel_image. eapply (returns_bind _ _ (fun _ m4 =>
    marked m3 m4 0 (Z.min orig_kernel_brk_page count) true)).
  { eapply wp_step; [by apply KernelBrkPage_first|]. eapply wp_step; [reflexivity|].
    apply mark_range_ok; [done|lia|simpl; lia]. }
  intros ? m4 M2. pose proof (marked_wf _ _ _ _ _ M2 Hwf2) as Hwf4.
  assert (C4 : physical_frame_count m4 = count) by (destruct M2 as [(? & -> & _) _]; done).
  eapply returns_mono; [apply (mark_range_ok m4); [done|fold stack_base_page; lia|lia]|].
  intros ? m5 M3. fold stack_base_page stack_limit_page in M3. split.
  - exact (marked_ready _ _ _ _ _ M3 (marked_ready _ _ _ _ _ M2 Hr3)).
  - exact (marked_wf _ _ _ _ _ M3 Hwf4).
  - destruct M3 as [(? & -> & _) _]; done.
  - apply (boot_marks m3 m4); [lia|done|done|done|done].
  - destruct M3 as [(? & -> & _) _]. destruct M2 as [(? & -> & _) _]. done.
Qed.

Lemma seq3_ok {S J B} (m1 m2 m3 : M S J unit) (k : M S J B) s u s' :
  (m1 ;; m2 ;; m3) s = Ok u s' -> (m1 ;; m2 ;; m3 ;; k) s = k s'.
Proof.
  unfold mbind, M_bind. destruct (m1 s); try done. destruct (m2 s0); try done. by intros ->.
Qed.

Lemma MemoryInit_ok pmem_size count :
  count = pmem_size / PAGESIZE -> 0 <= count <= MAX_PMEM_SIZE / PAGESIZE ->
  wp (MemoryInit pmem_size) (fun _ m => memory_ready m count)
    (fun _ _ => False) (fun r _ => r = Panic "calloc page table failed") mem_boot.
Proof.
  intros -> Hc. set (count := pmem_size / PAGESIZE) in *. unfold MemoryInit.
  eapply wp_step; [reflexivity|]. eapply wp_step; [reflexivity|].
  change (physical_frame_count _) with count. test_false (MAX_PMEM_SIZE / PAGESIZE <? count).
  eapply wp_step; [reflexivity|].
  destruct (wp_returns _ _ _ (MemoryInit_marks_ok count Hc)) as (u & m & Hrun & [Hr Hwf C Hu Ho]).
  unfold wp. erewrite seq3_ok by exact Hrun.
  match goal with |- context [match ?k m with _ => _ end] => change (wp k (fun _ m => memory_ready m count)
    (fun _ _ => False) (fun r _ => r = Panic "calloc page table failed") m) end.
  apply wp_bind. eapply wp_mono; [by apply MemoryAllocPageTable_boot| |done|done].
  intros pt m' (Hpt & m1 & [Hr1 Hb1 Hf1 C1 R1 T1] & u' & ->).
  eapply wp_step; [reflexivity|]. set (m2 := set_region0_pt pt _).
  assert (Hr2 : brk_ready m2) by (destruct Hr1; by split).
  assert (Hwf2 : mem_wf m2) by (unfold mem_wf, m2; simpl; by rewrite Hf1, C1).
  eapply wp_mono; [by apply (reserve_kernel_image_ok m2)| |done|done].
  intros ? m3 M3. pose proof (marked_rest _ _ _ _ _ M3) as (l & Hm3 & _).
  assert (C2 : physical_frame_count m2 = count) by (unfold m2; simpl; congruence).
  split.
  - exact (marked_ready _ _ _ _ _ M3 Hr2).
  - exact (marked_wf _ _ _ _ _ M3 Hwf2).
  - by rewrite Hm3.
  - intros f. unfold boot_frame. rewrite Hm3 at 2 3. change (physical_frame_count (set_frames l m2))
      with (physical_frame_count m2). change (boot_brk (set_frames l m2)) with (boot_brk m2).
    destruct (decide (0 <= f < count)) as [Hrange|Hrange].
    + rewrite (marked_used _ _ _ _ _ f M3) by lia. rewrite C2. case_decide; [lia|].
      assert (Hus : used m2 f <-> used m f) by (unfold used, m2; simpl; by rewrite Hf1, C1).
      rewrite Hus, (Hu f Hrange). change (boot_brk m2) with (boot_brk m1) in *. lia.
    + rewrite C2. split; [|naive_solver]. intros Huse%used_range. rewrite Hm3 in Huse. simpl in Huse. lia.
  - by rewrite Hm3.
  - rewrite Hm3. simpl. by rewrite lookup_insert_eq.
Qed.

(** ** MemoryBuildKernelRegion0 *)

(** Pages [lo..hi) of [pt] map onto themselves; nothing else changed. *)
Record identity_mapped (m m' : mem) (pt lo hi pr : Z) : Prop := {
  idm_outside : outside m m' pt;
  idm_frames : frame_allocated m' = frame_allocated m;
  idm_length : length <$> (page_tables m' !! pt) = length <$> (page_tables m !! pt);
  idm_entries : forall j, table_entry m' pt j =
    if decide (lo <= j < hi) then Some (mkPte true pr j) else table_entry m pt j
}.

Lemma map_identity_ok m pt lo hi pr l :
  pt <> 0 -> page_tables m !! pt = Some l -> length l = Z.to_nat MAX_PT_LEN ->
  0 <= lo <= hi -> hi <= MAX_PT_LEN ->
  returns (map_identity pt lo hi pr) (fun _ m' => identity_mapped m m' pt lo hi pr) m.
Proof.
  intros Hpt Hl Hlen Hlo Hhi. unfold map_identity.
  apply (returns_for_range (fun k s => identity_mapped m s pt lo k pr)); [lia|..].
  - split; [apply outside_refl|done..|]. intros j. by rewrite decide_False by lia.
  - intros k s Hk [Ho Hf Hln He]. rewrite Hl in Hln. simpl in Hln.
    destruct (page_tables s !! pt) as [ls|] eqn:Hls; [|done]. simpl in Hln. injection Hln as Hln.
    assert (Hsome : is_Some (table_entry s pt k)).
    { unfold table_entry. rewrite Hls. simpl. apply zlookup_is_Some. lia. }
    eapply returns_ok; [apply MemoryMapPage_run; [done|lia|lia|done]|]. split.
    + eapply outside_trans; [done|apply page_changed_outside].
    + by rewrite page_changed_frames.
    + rewrite (page_changed_table _ _ _ _ _ Hls), Hl. simpl. rewrite length_insert. congruence.
    + intros j. rewrite table_entry_changed by done. rewrite He. repeat case_decide; try lia; try done.
      by subst.
Qed.

(** The Region 0 entry of a booting kernel's page [j]. *)
Definition boot_pte (brk j : Z) : pte :=
  if decide (stack_base_page <= j < stack_limit_page) then mkPte true prot_rw j
  else if decide (first_kernel_data_page <= j < brk) then mkPte true prot_rw j
  else if decide (first_kernel_text_page <= j < first_kernel_data_page)
       then mkPte true (Z.lor PROT_READ PROT_EXEC) j
  else pte_zero.

(** The accounts when Region 0 has been built: every frame in use is mapped at
    its own page number, except the pages below the kernel's text. *)
Record region0_built (m : mem) (count : Z) : Prop := {
  built_brk : brk_ready m;
  built_count : physical_frame_count m = count;
  built_accounted : accounted m (kernel_region0_pt m) (seqZ 0 first_kernel_text_page);
  built_entries : forall j, 0 <= j < MAX_PT_LEN ->
    table_entry m (kernel_region0_pt m) j = Some (boot_pte (boot_brk m) j);
  built_used : forall f, used m f <-> boot_frame m f
}.

Lemma frames_of_identity l k :
  (forall (i : nat) e, l !! i = Some e -> valid e = true -> pfn e = k + Z.of_nat i) ->
  NoDup (frames_of l) /\ forall f, f ∈ frames_of l -> k <= f.
Proof.
  revert k. induction l as [|e l IH]; intros k Hid; [split; [constructor|by intros f Hf%elem_of_nil]|].
  destruct (IH (k + 1)) as [Hnd Hge].
  { intros i e' He' Hv. rewrite (Hid (Datatypes.S i) e' He' Hv). lia. }
  rewrite frames_of_cons. destruct (valid e) eqn:Hv; simpl.
  - assert (pfn e = k) as -> by (rewrite (Hid 0%nat e eq_refl Hv); lia). split.
    + apply NoDup_cons. split; [|done]. intros Hin%Hge. lia.
    + intros f [->|Hin%Hge]%elem_of_cons; lia.
  - split; [done|]. intros f Hin%Hge. lia.
Qed.

Lemma boot_pte_pfn brk j : valid (boot_pte brk j) = true -> pfn (boot_pte brk j) = j.
Proof. unfold boot_pte. by repeat case_decide. Qed.

Lemma boot_pte_valid m j :
  brk_ready m -> 0 <= j ->
  valid (boot_pte (boot_brk m) j) = true <->
  first_kernel_text_page <= j < boot_brk m \/ stack_base_page <= j < stack_limit_page.
Proof.
  intros [_ Hcur Hbrk] Hj. pose proof kimage as (? & ? & ?). unfold boot_pte.
  repeat case_decide; simpl; split; try done; lia.
Qed.

Lemma region0_accounted m count l :
  brk_ready m -> mem_wf m -> physical_frame_count m = count -> stack_limit_page <= count ->
  kernel_region0_pt m <> 0 -> page_tables m !! kernel_region0_pt m = Some l ->
  length l = Z.to_nat MAX_PT_LEN ->
  (forall j, 0 <= j < MAX_PT_LEN ->
     table_entry m (kernel_region0_pt m) j = Some (boot_pte (boot_brk m) j)) ->
  (forall f, used m f <-> boot_frame m f) ->
  accounted m (kernel_region0_pt m) (seqZ 0 first_kernel_text_page).
Proof.
  intros Hr Hwf Hc Hcount Hpt Hl Hlen He Hu. pose proof stack_limit_two. pose proof kimage as (? & ? & ?).
  pose proof stack_base_bounds. pose proof Hr as [_ Hcur Hbrk].
  assert (Hin : forall f, f ∈ table_frames m (kernel_region0_pt m) <->
    first_kernel_text_page <= f < boot_brk m \/ stack_base_page <= f < stack_limit_page).
  { intros f. rewrite elem_of_table_frames. split.
    - intros (j & e & Hj & Hv & <-).
      assert (0 <= j < MAX_PT_LEN) as Hjr.
      { unfold table_entry in Hj. rewrite Hl in Hj. simpl in Hj. apply zlookup_Some in Hj. lia. }
      rewrite He in Hj by done. injection Hj as <-. rewrite boot_pte_pfn by done.
      by apply boot_pte_valid in Hv; [|done|lia].
    - intros Hf. exists f, (boot_pte (boot_brk m) f).
      assert (valid (boot_pte (boot_brk m) f) = true) by (apply boot_pte_valid; [done|lia|done]).
      rewrite He by lia. rewrite boot_pte_pfn by done. done. }
  split; [done|done|eauto| |].
  - apply NoDup_app. split_and!.
    + unfold table_frames. rewrite Hl. simpl. apply (frames_of_identity l 0).
      intros i e Hi Hv. assert (Hti : table_entry m (kernel_region0_pt m) (Z.of_nat i) = Some e).
      { unfold table_entry. rewrite Hl. simpl. by rewrite zlookup_nat, Nat2Z.id by lia. }
      pose proof (lookup_lt_Some _ _ _ Hi). rewrite He in Hti by lia. injection Hti as <-.
      by rewrite boot_pte_pfn.
    + intros f Hf%Hin [? ?]%elem_of_seqZ. lia.
    + apply NoDup_seqZ.
  - intros f. rewrite Hu, elem_of_app, Hin, elem_of_seqZ. unfold boot_frame. lia.
Qed.

Lemma identity_length m m' pt lo hi pr l :
  identity_mapped m m' pt lo hi pr -> page_tables m !! pt = Some l ->
  exists l', page_tables m' !! pt = Some l' /\ length l' = length l.
Proof.
  intros [_ _ Hlen _] Hl. rewrite Hl in Hlen. simpl in Hlen.
  destruct (page_tables m' !! pt) as [l'|]; [|done]. simpl in Hlen. exists l'. split; [done|congruence].
Qed.

Lemma outside_brk_ready m m' pt : outside m m' pt -> brk_ready m -> brk_ready m'.
Proof.
  intros Ho [? ? ?]. split; unfold boot_brk;
    rewrite ?(out_vm _ _ _ Ho), ?(out_brk _ _ _ Ho), ?(out_hibrk _ _ _ Ho); done.
Qed.

Lemma MemoryBuildKernelRegion0_ok m count :
  memory_ready m count -> stack_limit_page <= count ->
  returns MemoryBuildKernelRegion0 (fun _ m' => region0_built m' count) m.
Proof.
  intros [Hr Hwf Hc Hu Hpt Hl] Hcount. pose proof stack_limit_two. pose proof kimage as (? & ? & ?).
  pose proof stack_base_bounds. pose proof Hr as [_ Hcur Hbrk].
  set (pt := kernel_region0_pt m) in *. unfold MemoryBuildKernelRegion0.
  eapply wp_step; [reflexivity|]. fold pt. test_false (pt =? 0). eapply wp_step; [reflexivity|].
  eapply returns_bind; [apply (map_identity_ok m pt _ _ _ _ Hpt Hl); [apply length_replicate|lia|lia]|].
  intros ? m1 I1. destruct (identity_length _ _ _ _ _ _ _ I1 Hl) as (l1 & Hl1 & Hlen1).
  rewrite length_replicate in Hlen1. pose proof (outside_brk_ready _ _ _ (idm_outside _ _ _ _ _ _ I1) Hr) as Hr1.
  assert (B1 : boot_brk m1 = boot_brk m) by (apply (out_hibrk _ _ _ (idm_outside _ _ _ _ _ _ I1))).
  eapply wp_step; [by apply KernelBrkPage_ready|]. rewrite B1.
  eapply returns_bind; [apply (map_identity_ok m1 pt _ _ _ _ Hpt Hl1 Hlen1); lia|].
  intros ? m2 I2. destruct (identity_length _ _ _ _ _ _ _ I2 Hl1) as (l2 & Hl2 & Hlen2).
  fold stack_base_page stack_limit_page. rewrite Hlen1 in Hlen2.
  eapply returns_mono; [apply (map_identity_ok m2 pt _ _ _ _ Hpt Hl2 Hlen2); lia|].
  intros ? m3 I3. destruct (identity_length _ _ _ _ _ _ _ I3 Hl2) as (l3 & Hl3 & Hlen3).
  assert (Ho : outside m m3 pt).
  { eapply outside_trans; [apply I1|]. eapply outside_trans; [apply I2|apply I3]. }
  assert (Hf : frame_allocated m3 = frame_allocated m).
  { by rewrite (idm_frames _ _ _ _ _ _ I3), (idm_frames _ _ _ _ _ _ I2), (idm_frames _ _ _ _ _ _ I1). }
  assert (Hr3 : brk_ready m3) by (by eapply outside_brk_ready).
  assert (B3 : boot_brk m3 = boot_brk m) by apply (out_hibrk _ _ _ Ho).
  assert (R3 : kernel_region0_pt m3 = pt) by apply (out_region0 _ _ _ Ho).
  assert (C3 : physical_frame_count m3 = count) by (by rewrite (out_count _ _ _ Ho)).
  assert (Hu3 : forall f, used m3 f <-> boot_frame m3 f).
  { intros f. rewrite (used_same m m3) by congruence. rewrite Hu. unfold boot_frame.
    by rewrite B3, C3, Hc. }
  assert (He3 : forall j, 0 <= j < MAX_PT_LEN -> table_entry m3 pt j = Some (boot_pte (boot_brk m) j)).
  { intros j Hj. rewrite (idm_entries _ _ _ _ _ _ I3), (idm_entries _ _ _ _ _ _ I2), (idm_entries _ _ _ _ _ _ I1).
    unfold boot_pte, prot_rw. repeat (case_decide; [done|]).
    unfold table_entry. rewrite Hl. simpl. rewrite zlookup_nat by lia. apply lookup_replicate_2. lia. }
  split; [done|done| |by rewrite R3, B3|done].
  apply (region0_accounted m3 count l3); rewrite ?R3; try done.
  - eapply outside_wf; [done|by rewrite Hf|done].
  - congruence.
  - by rewrite B3.
Qed.

(** ** Properties *)

(** C5: booting leaves the memory accounts balanced.  With at most
    [MAX_PMEM_SIZE] bytes of physical memory, reaching at least to the top of the
    kernel stack, [MemoryInit] followed by [MemoryBuildKernelRegion0] either panics
    because the page table cannot be allocated, or ends with Region 0 mapping
    exactly the pages of text (read/execute), data and heap up to the break and
    kernel stack (read/write) onto themselves.  A frame is in use exactly when it is
    below the break or under the stack; the frames in use from the first page of
    text on are mapped by Region 0, each exactly once, and the others, those below
    the kernel text, are in use and mapped nowhere. *)
Theorem boot_memory_accounted pmem_size :
  stack_limit_page <= pmem_size / PAGESIZE <= MAX_PMEM_SIZE / PAGESIZE ->
  wp (MemoryInit pmem_size ;; MemoryBuildKernelRegion0)
    (fun _ m => region0_built m (pmem_size / PAGESIZE))
    (fun _ _ => False) (fun r _ => r = Panic "calloc page table failed") mem_boot.
Proof.
  intros Hc. pose proof stack_limit_two. pose proof stack_base_bounds.
  apply wp_bind. eapply wp_mono; [apply (MemoryInit_ok pmem_size (pmem_size / PAGESIZE)); lia| |done|done].
  intros ? m Hm. eapply wp_mono; [apply (MemoryBuildKernelRegion0_ok m); [exact Hm|lia]|done..].
Qed.

(** C40: more physical memory than the frame table has entries is refused at
    boot, before any frame is marked. *)
Theorem boot_too_much_memory pmem_size :
  MAX_PMEM_SIZE / PAGESIZE < pmem_size / PAGESIZE ->
  MemoryInit pmem_size mem_boot =
    Stop (Panic "physical memory exceeds frame table capacity")
         (set_frame_count (pmem_size / PAGESIZE) mem_boot).
Proof.
  intros Hc. unfold MemoryInit. rewrite bind_modify, bind_gets. cbn [physical_frame_count set_frame_count].
  by test_true (MAX_PMEM_SIZE / PAGESIZE <? pmem_size / PAGESIZE).
Qed.
End BootMemory.

Module BootMemoryWitness.
#[local] Existing Instance demo.
#[local] Existing Instance demo_laws.

Lemma boot_memory_accounted_witness :
  wp (MemoryInit 4194304 ;; MemoryBuildKernelRegion0)
    (fun _ m => region0_built m (4194304 / PAGESIZE))
    (fun _ _ => False) (fun r _ => r = Panic "calloc page table failed") mem_boot.
Proof. apply (boot_memory_accounted 4194304). vm_compute. split; discriminate. Defined.

(** The demo boots: the two functions return. *)
Example demo_boots :
  returned ((MemoryInit 4194304 ;; MemoryBuildKernelRegion0) mem_boot) = true.
Proof. vm_compute. reflexivity. Qed.

Lemma boot_too_much_memory_witness :
  MemoryInit 33554432 mem_boot =
    Stop (Panic "physical memory exceeds frame table capacity") (set_frame_count (33554432 / PAGESIZE) mem_boot).
Proof. apply (boot_too_much_memory 33554432). vm_compute. reflexivity. Defined.
End BootMemoryWitness.
