(* ===== verification/State.v ===== *)
(** * The kernel's state ([process.h], the globals of every source file)

    One record holds all globals of the kernel.  Objects on the kernel heap
    (PCBs, terminal lines, byte buffers) are in maps keyed by their address, so
    that pointers can be shared, compared and go stale as in C; 0 is the null
    pointer.  The embedded [QueueEntry] and [Queue] structures live in the heap
    of [Queue.v] under names made from the address of the object they are in.

    A suspended kernel thread is a [KernelContext]: where it continues when it
    is switched to.  Every call of [ProcessSchedule] or of
    [ProcessCloneKernelContext] in the sources has one constructor, carrying the
    local variables that are still needed after the call. *)

From S2P Require Import Prelude Framework Queue Memory Mmu KernelBrk.

(** ** Names of queues and queue entries *)

Inductive qid :=
| QReady                    (* ready_queue, process.c *)
| QChildren (p : Z)         (* p->children *)
| QIpc (id : Z)             (* the queue inside objects[id] *)
| QTtyRead (t : Z)          (* terminals[t].read_queue *)
| QTtyWrite (t : Z)         (* terminals[t].write_queue *)
| QTtyInput (t : Z).        (* terminals[t].input_queue *)

Inductive eid :=
| EReady (p : Z)            (* p->ready_entry *)
| EBlock (p : Z)            (* p->block_entry *)
| EChild (p : Z)            (* p->child_entry *)
| ELine (l : Z).            (* l->entry of a TtyLine *)

#[export] Instance qid_eq_dec : EqDecision qid.
Proof. solve_decision. Defined.
#[export] Instance eid_eq_dec : EqDecision eid.
Proof. solve_decision. Defined.

#[export] Instance qid_countable : Countable qid.
Proof.
  refine (inj_countable'
    (fun q => match q with
     | QReady => (0, 0) | QChildren p => (1, p) | QIpc i => (2, i)
     | QTtyRead t => (3, t) | QTtyWrite t => (4, t) | QTtyInput t => (5, t) end)
    (fun c => match c with
     | (0, _) => QReady | (1, p) => QChildren p | (2, i) => QIpc i
     | (3, t) => QTtyRead t | (4, t) => QTtyWrite t | (_, t) => QTtyInput t end) _).
  by intros [].
Defined.

#[export] Instance eid_countable : Countable eid.
Proof.
  refine (inj_countable'
    (fun e => match e with
     | EReady p => (0, p) | EBlock p => (1, p) | EChild p => (2, p) | ELine l => (3, l) end)
    (fun c => match c with
     | (0, p) => EReady p | (1, p) => EBlock p | (2, p) => EChild p | (_, l) => ELine l end) _).
  by intros [].
Defined.

(** ** Processes *)

Inductive proc_state := PROC_EMPTY | PROC_READY | PROC_RUNNING | PROC_BLOCKED | PROC_ZOMBIE.

#[export] Instance proc_state_eq_dec : EqDecision proc_state.
Proof. solve_decision. Defined.

(** The framework's [UserContext], as far as the sources use it. *)
Record UserContext := mkUserContext {
  uc_vector : Z;
  uc_code : Z;
  uc_addr : Z;
  uc_pc : Z;
  uc_sp : Z;
  uc_regs : list Z
}.

Definition set_uc_vector v (r : UserContext) : UserContext := mkUserContext v (uc_code r) (uc_addr
  r) (uc_pc r) (uc_sp r) (uc_regs r).
Definition set_uc_code v (r : UserContext) : UserContext := mkUserContext (uc_vector r) v (uc_addr
  r) (uc_pc r) (uc_sp r) (uc_regs r).
Definition set_uc_addr v (r : UserContext) : UserContext := mkUserContext (uc_vector r) (uc_code
  r) v (uc_pc r) (uc_sp r) (uc_regs r).
Definition set_uc_pc v (r : UserContext) : UserContext := mkUserContext (uc_vector r) (uc_code r)
  (uc_addr r) v (uc_sp r) (uc_regs r).
Definition set_uc_sp v (r : UserContext) : UserContext := mkUserContext (uc_vector r) (uc_code r)
  (uc_addr r) (uc_pc r) v (uc_regs r).
Definition set_uc_regs v (r : UserContext) : UserContext := mkUserContext (uc_vector r) (uc_code
  r) (uc_addr r) (uc_pc r) (uc_sp r) v.

(** [u->regs[i]]; the sources use registers 0, 1 and 2. *)
Definition reg (u : UserContext) (i : nat) : Z := default 0 (uc_regs u !! i).
Definition set_reg (i : nat) (v : Z) (u : UserContext) : UserContext :=
  set_uc_regs (<[i := v]> (uc_regs u)) u.

(** What [calloc] leaves in a [UserContext] ([GREGS] general registers). *)
Definition uc_zero : UserContext := mkUserContext 0 0 0 0 0 (replicate 8 0).

(** Where a system call continues after it has waited.  [proc] is the local
    variable that holds the caller. *)
Inductive sys_point :=
| InPipeRead (proc pipe_id buf len : Z)     (* SysPipeRead, after BlockOnQueue *)
| InAcquire (proc lock_id : Z)              (* LockAcquire, after BlockOnQueue *)
| InCvarWait (proc cvar_id lock_id : Z)     (* SysCvarWait, after BlockOnQueue *)
| InTtyRead (proc tty_id : Z)               (* SysTtyRead, after ProcessSchedule *)
| InTtyWrite (proc len : Z)                 (* SysTtyWrite, after ProcessSchedule *)
| InWait (proc status_ptr : Z)              (* SysWait, after ProcessSchedule *)
| InDelay (proc : Z)                        (* SysDelay, after ProcessSchedule *)
| InFork (child : Z).                       (* SysFork, after ProcessCloneKernelContext *)

Inductive KernelContext :=
| KCNone                                    (* never saved: the zeroes of calloc *)
| KCSys (caller : Z) (k : sys_point)        (* inside TrapKernel *)
| KCClock                                   (* TrapClock, after ProcessSchedule *)
| KCZombie                                  (* ProcessExitCurrent, after ProcessSchedule *)
| KCBootClone (init_args : list (list Z))   (* KernelStart, after ProcessCloneKernelContext *)
| KCBootSwitch.                             (* KernelStart, after ProcessSwitch *)

(** [struct pcb]; [children], [ready_entry], [block_entry] and [child_entry] are the
    queue [QChildren p] and the entries [EReady p], [EBlock p], [EChild p]. *)
Record PCB := mkPCB {
  pid : Z;
  state : proc_state;
  region1_pt : Z;
  user_context : UserContext;
  kernel_context : KernelContext;
  kernel_stack_pfns : list Z;
  user_brk : Z;
  user_heap_start : Z;
  user_stack_low_page : Z;
  delay_until : Z;
  exit_status : Z;
  waiting_for_child : bool;
  tty_id : Z;
  tty_read_buf : Z;
  tty_read_len : Z;
  tty_read_line : Z;
  tty_write_buf : Z;
  tty_write_len : Z;
  tty_write_offset : Z;
  parent : Z;
  block_queue : option qid
}.

Definition set_pid v (r : PCB) : PCB := mkPCB v (state r) (region1_pt r) (user_context r)
  (kernel_context r) (kernel_stack_pfns r) (user_brk r) (user_heap_start r) (user_stack_low_page r)
  (delay_until r) (exit_status r) (waiting_for_child r) (tty_id r) (tty_read_buf r) (tty_read_len r)
  (tty_read_line r) (tty_write_buf r) (tty_write_len r) (tty_write_offset r) (parent r) (block_queue
  r).
Definition set_state v (r : PCB) : PCB := mkPCB (pid r) v (region1_pt r) (user_context r)
  (kernel_context r) (kernel_stack_pfns r) (user_brk r) (user_heap_start r) (user_stack_low_page r)
  (delay_until r) (exit_status r) (waiting_for_child r) (tty_id r) (tty_read_buf r) (tty_read_len r)
  (tty_read_line r) (tty_write_buf r) (tty_write_len r) (tty_write_offset r) (parent r) (block_queue
  r).
Definition set_region1_pt v (r : PCB) : PCB := mkPCB (pid r) (state r) v (user_context r)
  (kernel_context r) (kernel_stack_pfns r) (user_brk r) (user_heap_start r) (user_stack_low_page r)
  (delay_until r) (exit_status r) (waiting_for_child r) (tty_id r) (tty_read_buf r) (tty_read_len r)
  (tty_read_line r) (tty_write_buf r) (tty_write_len r) (tty_write_offset r) (parent r) (block_queue
  r).
Definition set_user_context v (r : PCB) : PCB := mkPCB (pid r) (state r) (region1_pt r) v
  (kernel_context r) (kernel_stack_pfns r) (user_brk r) (user_heap_start r) (user_stack_low_page r)
  (delay_until r) (exit_status r) (waiting_for_child r) (tty_id r) (tty_read_buf r) (tty_read_len r)
  (tty_read_line r) (tty_write_buf r) (tty_write_len r) (tty_write_offset r) (parent r) (block_queue
  r).
Definition set_kernel_context v (r : PCB) : PCB := mkPCB (pid r) (state r) (region1_pt r)
  (user_context r) v (kernel_stack_pfns r) (user_brk r) (user_heap_start r) (user_stack_low_page r)
  (delay_until r) (exit_status r) (waiting_for_child r) (tty_id r) (tty_read_buf r) (tty_read_len r)
  (tty_read_line r) (tty_write_buf r) (tty_write_len r) (tty_write_offset r) (parent r) (block_queue
  r).
Definition set_kernel_stack_pfns v (r : PCB) : PCB := mkPCB (pid r) (state r) (region1_pt r)
  (user_context r) (kernel_context r) v (user_brk r) (user_heap_start r) (user_stack_low_page r)
  (delay_until r) (exit_status r) (waiting_for_child r) (tty_id r) (tty_read_buf r) (tty_read_len r)
  (tty_read_line r) (tty_write_buf r) (tty_write_len r) (tty_write_offset r) (parent r) (block_queue
  r).
Definition set_user_brk v (r : PCB) : PCB := mkPCB (pid r) (state r) (region1_pt r) (user_context
  r) (kernel_context r) (kernel_stack_pfns r) v (user_heap_start r) (user_stack_low_page r)
  (delay_until r) (exit_status r) (waiting_for_child r) (tty_id r) (tty_read_buf r) (tty_read_len r)
  (tty_read_line r) (tty_write_buf r) (tty_write_len r) (tty_write_offset r) (parent r) (block_queue
  r).
Definition set_user_heap_start v (r : PCB) : PCB := mkPCB (pid r) (state r) (region1_pt r)
  (user_context r) (kernel_context r) (kernel_stack_pfns r) (user_brk r) v (user_stack_low_page r)
  (delay_until r) (exit_status r) (waiting_for_child r) (tty_id r) (tty_read_buf r) (tty_read_len r)
  (tty_read_line r) (tty_write_buf r) (tty_write_len r) (tty_write_offset r) (parent r) (block_queue
  r).
Definition set_user_stack_low_page v (r : PCB) : PCB := mkPCB (pid r) (state r) (region1_pt r)
  (user_context r) (kernel_context r) (kernel_stack_pfns r) (user_brk r) (user_heap_start r) v
  (delay_until r) (exit_status r) (waiting_for_child r) (tty_id r) (tty_read_buf r) (tty_read_len r)
  (tty_read_line r) (tty_write_buf r) (tty_write_len r) (tty_write_offset r) (parent r) (block_queue
  r).
Definition set_delay_until v (r : PCB) : PCB := mkPCB (pid r) (state r) (region1_pt r)
  (user_context r) (kernel_context r) (kernel_stack_pfns r) (user_brk r) (user_heap_start r)
  (user_stack_low_page r) v (exit_status r) (waiting_for_child r) (tty_id r) (tty_read_buf r)
  (tty_read_len r) (tty_read_line r) (tty_write_buf r) (tty_write_len r) (tty_write_offset r)
  (parent r) (block_queue r).
Definition set_exit_status v (r : PCB) : PCB := mkPCB (pid r) (state r) (region1_pt r)
  (user_context r) (kernel_context r) (kernel_stack_pfns r) (user_brk r) (user_heap_start r)
  (user_stack_low_page r) (delay_until r) v (waiting_for_child r) (tty_id r) (tty_read_buf r)
  (tty_read_len r) (tty_read_line r) (tty_write_buf r) (tty_write_len r) (tty_write_offset r)
  (parent r) (block_queue r).
Definition set_waiting_for_child v (r : PCB) : PCB := mkPCB (pid r) (state r) (region1_pt r)
  (user_context r) (kernel_context r) (kernel_stack_pfns r) (user_brk r) (user_heap_start r)
  (user_stack_low_page r) (delay_until r) (exit_status r) v (tty_id r) (tty_read_buf r)
  (tty_read_len r) (tty_read_line r) (tty_write_buf r) (tty_write_len r) (tty_write_offset r)
  (parent r) (block_queue r).
Definition set_tty_id v (r : PCB) : PCB := mkPCB (pid r) (state r) (region1_pt r) (user_context r)
  (kernel_context r) (kernel_stack_pfns r) (user_brk r) (user_heap_start r) (user_stack_low_page r)
  (delay_until r) (exit_status r) (waiting_for_child r) v (tty_read_buf r) (tty_read_len r)
  (tty_read_line r) (tty_write_buf r) (tty_write_len r) (tty_write_offset r) (parent r) (block_queue
  r).
Definition set_tty_read_buf v (r : PCB) : PCB := mkPCB (pid r) (state r) (region1_pt r)
  (user_context r) (kernel_context r) (kernel_stack_pfns r) (user_brk r) (user_heap_start r)
  (user_stack_low_page r) (delay_until r) (exit_status r) (waiting_for_child r) (tty_id r) v
  (tty_read_len r) (tty_read_line r) (tty_write_buf r) (tty_write_len r) (tty_write_offset r)
  (parent r) (block_queue r).
Definition set_tty_read_len v (r : PCB) : PCB := mkPCB (pid r) (state r) (region1_pt r)
  (user_context r) (kernel_context r) (kernel_stack_pfns r) (user_brk r) (user_heap_start r)
  (user_stack_low_page r) (delay_until r) (exit_status r) (waiting_for_child r) (tty_id r)
  (tty_read_buf r) v (tty_read_line r) (tty_write_buf r) (tty_write_len r) (tty_write_offset r)
  (parent r) (block_queue r).
Definition set_tty_read_line v (r : PCB) : PCB := mkPCB (pid r) (state r) (region1_pt r)
  (user_context r) (kernel_context r) (kernel_stack_pfns r) (user_brk r) (user_heap_start r)
  (user_stack_low_page r) (delay_until r) (exit_status r) (waiting_for_child r) (tty_id r)
  (tty_read_buf r) (tty_read_len r) v (tty_write_buf r) (tty_write_len r) (tty_write_offset r)
  (parent r) (block_queue r).
Definition set_tty_write_buf v (r : PCB) : PCB := mkPCB (pid r) (state r) (region1_pt r)
  (user_context r) (kernel_context r) (kernel_stack_pfns r) (user_brk r) (user_heap_start r)
  (user_stack_low_page r) (delay_until r) (exit_status r) (waiting_for_child r) (tty_id r)
  (tty_read_buf r) (tty_read_len r) (tty_read_line r) v (tty_write_len r) (tty_write_offset r)
  (parent r) (block_queue r).
Definition set_tty_write_len v (r : PCB) : PCB := mkPCB (pid r) (state r) (region1_pt r)
  (user_context r) (kernel_context r) (kernel_stack_pfns r) (user_brk r) (user_heap_start r)
  (user_stack_low_page r) (delay_until r) (exit_status r) (waiting_for_child r) (tty_id r)
  (tty_read_buf r) (tty_read_len r) (tty_read_line r) (tty_write_buf r) v (tty_write_offset r)
  (parent r) (block_queue r).
Definition set_tty_write_offset v (r : PCB) : PCB := mkPCB (pid r) (state r) (region1_pt r)
  (user_context r) (kernel_context r) (kernel_stack_pfns r) (user_brk r) (user_heap_start r)
  (user_stack_low_page r) (delay_until r) (exit_status r) (waiting_for_child r) (tty_id r)
  (tty_read_buf r) (tty_read_len r) (tty_read_line r) (tty_write_buf r) (tty_write_len r) v (parent
  r) (block_queue r).
Definition set_parent v (r : PCB) : PCB := mkPCB (pid r) (state r) (region1_pt r) (user_context r)
  (kernel_context r) (kernel_stack_pfns r) (user_brk r) (user_heap_start r) (user_stack_low_page r)
  (delay_until r) (exit_status r) (waiting_for_child r) (tty_id r) (tty_read_buf r) (tty_read_len r)
  (tty_read_line r) (tty_write_buf r) (tty_write_len r) (tty_write_offset r) v (block_queue r).
Definition set_block_queue v (r : PCB) : PCB := mkPCB (pid r) (state r) (region1_pt r)
  (user_context r) (kernel_context r) (kernel_stack_pfns r) (user_brk r) (user_heap_start r)
  (user_stack_low_page r) (delay_until r) (exit_status r) (waiting_for_child r) (tty_id r)
  (tty_read_buf r) (tty_read_len r) (tty_read_line r) (tty_write_buf r) (tty_write_len r)
  (tty_write_offset r) (parent r) v.

(** What [calloc] leaves in a PCB. *)
Definition pcb_zero : PCB := mkPCB 0 PROC_EMPTY 0 uc_zero KCNone [0; 0] 0 0 0 0 0 false 0 0 0 0 0 0 0 0 None.

(** ** Interprocess communication ([ipc.c]) *)

Definition IPC_MAX_OBJECTS : Z := 128.

Inductive ipc_kind := IPC_FREE | IPC_PIPE | IPC_LOCK | IPC_CVAR.

#[export] Instance ipc_kind_eq_dec : EqDecision ipc_kind.
Proof. solve_decision. Defined.

(** [IpcObject].  The members of the C union are separate fields here: an object is
    initialised field by field whenever its type changes from [IPC_FREE].  The queue
    inside is [QIpc id]. *)
Record IpcObject := mkIpcObject {
  ipc_type : ipc_kind;
  pipe_buf : Z;
  pipe_len : Z;
  pipe_cap : Z;
  lock_owner : Z
}.

Definition set_ipc_type v (r : IpcObject) : IpcObject := mkIpcObject v (pipe_buf r) (pipe_len r)
  (pipe_cap r) (lock_owner r).
Definition set_pipe_buf v (r : IpcObject) : IpcObject := mkIpcObject (ipc_type r) v (pipe_len r)
  (pipe_cap r) (lock_owner r).
Definition set_pipe_len v (r : IpcObject) : IpcObject := mkIpcObject (ipc_type r) (pipe_buf r) v
  (pipe_cap r) (lock_owner r).
Definition set_pipe_cap v (r : IpcObject) : IpcObject := mkIpcObject (ipc_type r) (pipe_buf r)
  (pipe_len r) v (lock_owner r).
Definition set_lock_owner v (r : IpcObject) : IpcObject := mkIpcObject (ipc_type r) (pipe_buf r)
  (pipe_len r) (pipe_cap r) v.

Definition ipc_zero : IpcObject := mkIpcObject IPC_FREE 0 0 0 0.

(** ** Terminals ([tty.c]) *)

(** [TtyLine]; its [entry] is [ELine l]. *)
Record TtyLine := mkTtyLine {
  line_len : Z;
  line_pos : Z;
  line_data : list Z
}.

Definition set_line_len v (r : TtyLine) : TtyLine := mkTtyLine v (line_pos r) (line_data r).
Definition set_line_pos v (r : TtyLine) : TtyLine := mkTtyLine (line_len r) v (line_data r).
Definition set_line_data v (r : TtyLine) : TtyLine := mkTtyLine (line_len r) (line_pos r) v.

(** [TtyState]; its queues are [QTtyRead t], [QTtyWrite t] and [QTtyInput t]. *)
Record TtyState := mkTtyState {
  tty_line : Z;
  tty_writer : Z;
  tty_busy : bool
}.

Definition set_tty_line v (r : TtyState) : TtyState := mkTtyState v (tty_writer r) (tty_busy r).
Definition set_tty_writer v (r : TtyState) : TtyState := mkTtyState (tty_line r) v (tty_busy r).
Definition set_tty_busy v (r : TtyState) : TtyState := mkTtyState (tty_line r) (tty_writer r) v.

Definition tty_zero : TtyState := mkTtyState 0 0 false.

(** ** The whole kernel *)

(** All globals; [uctxt] is the trap frame the handlers are given. *)
Record kst := mkKst {
  k_mem : mem;
  k_queues : qheap qid eid;
  pcbs : gmap Z PCB;
  current_process : Z;
  idle_process : Z;
  init_process : Z;
  clock_ticks : Z;
  process_table : list Z;
  objects : list IpcObject;
  terminals : list TtyState;
  tty_lines : gmap Z TtyLine;
  blocks : gmap Z (list Z);
  uctxt : UserContext
}.

Definition set_k_mem v (r : kst) : kst := mkKst v (k_queues r) (pcbs r) (current_process r)
  (idle_process r) (init_process r) (clock_ticks r) (process_table r) (objects r) (terminals r)
  (tty_lines r) (blocks r) (uctxt r).
Definition set_k_queues v (r : kst) : kst := mkKst (k_mem r) v (pcbs r) (current_process r)
  (idle_process r) (init_process r) (clock_ticks r) (process_table r) (objects r) (terminals r)
  (tty_lines r) (blocks r) (uctxt r).
Definition set_pcbs v (r : kst) : kst := mkKst (k_mem r) (k_queues r) v (current_process r)
  (idle_process r) (init_process r) (clock_ticks r) (process_table r) (objects r) (terminals r)
  (tty_lines r) (blocks r) (uctxt r).
Definition set_current_process v (r : kst) : kst := mkKst (k_mem r) (k_queues r) (pcbs r) v
  (idle_process r) (init_process r) (clock_ticks r) (process_table r) (objects r) (terminals r)
  (tty_lines r) (blocks r) (uctxt r).
Definition set_idle_process v (r : kst) : kst := mkKst (k_mem r) (k_queues r) (pcbs r)
  (current_process r) v (init_process r) (clock_ticks r) (process_table r) (objects r) (terminals r)
  (tty_lines r) (blocks r) (uctxt r).
Definition set_init_process v (r : kst) : kst := mkKst (k_mem r) (k_queues r) (pcbs r)
  (current_process r) (idle_process r) v (clock_ticks r) (process_table r) (objects r) (terminals r)
  (tty_lines r) (blocks r) (uctxt r).
Definition set_clock_ticks v (r : kst) : kst := mkKst (k_mem r) (k_queues r) (pcbs r)
  (current_process r) (idle_process r) (init_process r) v (process_table r) (objects r) (terminals
  r) (tty_lines r) (blocks r) (uctxt r).
Definition set_process_table v (r : kst) : kst := mkKst (k_mem r) (k_queues r) (pcbs r)
  (current_process r) (idle_process r) (init_process r) (clock_ticks r) v (objects r) (terminals r)
  (tty_lines r) (blocks r) (uctxt r).
Definition set_objects v (r : kst) : kst := mkKst (k_mem r) (k_queues r) (pcbs r) (current_process
  r) (idle_process r) (init_process r) (clock_ticks r) (process_table r) v (terminals r) (tty_lines
  r) (blocks r) (uctxt r).
Definition set_terminals v (r : kst) : kst := mkKst (k_mem r) (k_queues r) (pcbs r)
  (current_process r) (idle_process r) (init_process r) (clock_ticks r) (process_table r) (objects
  r) v (tty_lines r) (blocks r) (uctxt r).
Definition set_tty_lines v (r : kst) : kst := mkKst (k_mem r) (k_queues r) (pcbs r)
  (current_process r) (idle_process r) (init_process r) (clock_ticks r) (process_table r) (objects
  r) (terminals r) v (blocks r) (uctxt r).
Definition set_blocks v (r : kst) : kst := mkKst (k_mem r) (k_queues r) (pcbs r) (current_process
  r) (idle_process r) (init_process r) (clock_ticks r) (process_table r) (objects r) (terminals r)
  (tty_lines r) v (uctxt r).
Definition set_uctxt v (r : kst) : kst := mkKst (k_mem r) (k_queues r) (pcbs r) (current_process
  r) (idle_process r) (init_process r) (clock_ticks r) (process_table r) (objects r) (terminals r)
  (tty_lines r) (blocks r) v.

(** Kernel code: it may be switched away from, and then a suspended thread
    continues. *)
Abbreviation K A := (M kst KernelContext A).

Section State.
Context {F : Framework}.

(** ** Access to the state *)

Definition in_mem {A} (m : M mem Empty_set A) : K A := zoom k_mem set_k_mem m.
Definition in_queues {A} (m : M (qheap qid eid) Empty_set A) : K A := zoom k_queues set_k_queues m.

(** [p->field] and [p->field = v]: [p] must be a live PCB. *)
Definition get_pcb (p : Z) : K PCB := fun s => deref "pcb" (pcbs s !! p) s.
Definition upd_pcb (p : Z) (f : PCB -> PCB) : K unit :=
  pcb ← get_pcb p;
  modify (fun s => set_pcbs (<[p := f pcb]> (pcbs s)) s).

(** [(PCB * )entry->owner] of a queue entry. *)
Definition entry_owner (a : qaddr qid eid) : K Z :=
  n ← in_queues (load a);
  mret (owner n).

(** The entries of the arrays. *)
Definition get_object (id : Z) : K IpcObject := fun s => deref "objects[id]" (zlookup (objects s) id) s.
Definition upd_object (id : Z) (f : IpcObject -> IpcObject) : K unit :=
  o ← get_object id;
  modify (fun s => set_objects (<[Z.to_nat id := f o]> (objects s)) s).
Definition get_tty (t : Z) : K TtyState := fun s => deref "terminals[t]" (zlookup (terminals s) t) s.
Definition upd_tty (t : Z) (f : TtyState -> TtyState) : K unit :=
  v ← get_tty t;
  modify (fun s => set_terminals (<[Z.to_nat t := f v]> (terminals s)) s).
Definition get_slot (i : Z) : K Z := fun s => deref "process_table[i]" (zlookup (process_table s) i) s.
Definition set_slot (i p : Z) : K unit :=
  get_slot i ;; modify (fun s => set_process_table (<[Z.to_nat i := p]> (process_table s)) s).

(** [l->field] of a terminal line. *)
Definition get_line (l : Z) : K TtyLine := fun s => deref "line" (tty_lines s !! l) s.
Definition upd_line (l : Z) (f : TtyLine -> TtyLine) : K unit :=
  v ← get_line l; modify (fun s => set_tty_lines (<[l := f v]> (tty_lines s)) s).

(** Calls out of the kernel. *)
Definition external (e : event) : K unit := in_mem (modify (add_log e)).
Definition get_log : K (list event) := gets (fun s => log (k_mem s)).

(** ** The kernel heap *)

(** Buffers: arrays of bytes, or of pointers. *)
Definition malloc_block (n : Z) : K (option Z) :=
  l ← get_log;
  p ← in_mem (kmalloc n);
  match p with
  | None => mret None
  | Some p =>
      modify (fun s => set_blocks (<[p := malloc_bytes l n]> (blocks s)) s) ;;
      mret (Some p)
  end.
Definition free_block (p : Z) : K unit :=
  in_mem (kfree p) ;; modify (fun s => set_blocks (delete p (blocks s)) s).
Definition get_block (p : Z) : K (list Z) := fun s => deref "heap block" (blocks s !! p) s.
Definition put_block (p : Z) (l : list Z) : K unit :=
  modify (fun s => set_blocks (<[p := l]> (blocks s)) s).

(** [n] cells from [off], all inside the block. *)
Definition block_read (p off n : Z) : K (list Z) :=
  b ← get_block p;
  if (0 <=? off) && (0 <=? n) && (off + n <=? Z.of_nat (length b))
  then mret (take (Z.to_nat n) (drop (Z.to_nat off) b))
  else fault "read outside the block".
Definition block_write (p off : Z) (l : list Z) : K unit :=
  b ← get_block p;
  let n := Z.of_nat (length l) in
  if (0 <=? off) && (off + n <=? Z.of_nat (length b))
  then put_block p (take (Z.to_nat off) b ++ l ++ drop (Z.to_nat (off + n)) b)
  else fault "write outside the block".

(** The bytes of a C string, without its zero; [None] when it has no end. *)
Fixpoint cstring (l : list Z) : option (list Z) :=
  match l with
  | [] => None
  | b :: l' => if b =? 0 then Some [] else (b ::.) <$> cstring l'
  end.
Definition block_string (p off : Z) : K (list Z) :=
  b ← get_block p;
  deref "string without end" (cstring (drop (Z.to_nat off) b)).

(** [calloc(1, sizeof(PCB))] and [free] of a PCB or a line: its fields, queues and
    entries are gone with it. *)
Definition forget (qs : list qid) (es : list eid) : K unit :=
  in_queues (modify (fun h => mkHeap
    (foldr (fun a m => delete a m) (cells h) ((QHead <$> qs) ++ (QEnt <$> es)))
    (foldr (fun q m => delete q m) (lengths h) qs))).
Definition calloc_pcb : K Z :=
  p ← in_mem (kmalloc (sizeof "PCB"));
  match p with
  | None => mret 0
  | Some p => modify (fun s => set_pcbs (<[p := pcb_zero]> (pcbs s)) s) ;; mret p
  end.
Definition free_pcb (p : Z) : K unit :=
  in_mem (kfree p) ;;
  modify (fun s => set_pcbs (delete p (pcbs s)) s) ;;
  forget [QChildren p] [EReady p; EBlock p; EChild p].
Definition calloc_line : K Z :=
  p ← in_mem (kmalloc (sizeof "TtyLine"));
  match p with
  | None => mret 0
  | Some p =>
      modify (fun s => set_tty_lines
        (<[p := mkTtyLine 0 0 (replicate (Z.to_nat TERMINAL_MAX_LINE) 0)]> (tty_lines s)) s) ;;
      mret p
  end.
Definition free_line (p : Z) : K unit :=
  in_mem (kfree p) ;;
  modify (fun s => set_tty_lines (delete p (tty_lines s)) s) ;;
  forget [] [ELine p].

(** ** Runs of the accessors *)

Lemma get_pcb_run s p pcb : pcbs s !! p = Some pcb -> get_pcb p s = Ok pcb s.
Proof. intros H. unfold get_pcb. by rewrite H. Qed.

Lemma upd_pcb_run s p pcb f :
  pcbs s !! p = Some pcb -> upd_pcb p f s = Ok tt (set_pcbs (<[p := f pcb]> (pcbs s)) s).
Proof. intros H. unfold upd_pcb. by rewrite (bind_ok _ _ _ _ _ (get_pcb_run _ _ _ H)). Qed.

Lemma in_mem_run {A} (m : M mem Empty_set A) s a m' :
  m (k_mem s) = Ok a m' -> (in_mem m : K A) s = Ok a (set_k_mem m' s).
Proof. apply zoom_run. Qed.

Lemma returns_in_mem {A} (m : M mem Empty_set A) (Q : A -> mem -> Prop) s :
  returns m Q (k_mem s) ->
  returns (in_mem m : K A) (fun a s' => exists m', s' = set_k_mem m' s /\ Q a m') s.
Proof. intros H. apply wp_zoom. eapply returns_mono; [exact H|]. simpl. eauto. Qed.

Lemma in_queues_run {A} (m : M (qheap qid eid) Empty_set A) s a h' :
  m (k_queues s) = Ok a h' -> (in_queues m : K A) s = Ok a (set_k_queues h' s).
Proof. apply zoom_run. Qed.
End State.

#[export] Hint Resolve get_pcb_run : yalnix.

