(* ===== verification/Process.v ===== *)
(** * Processes and the scheduler ([process.h], [process.c])

    All of [process.c] except [ProcessExitCurrent], which needs [ipc.c] and is in
    [Exit.v].  A context switch is [Jump]: the code that called
    [KernelContextSwitch] is suspended as a [KernelContext] and control continues
    in the context the switch function returns.  [ProcessSchedule] is given the
    context of its caller, and never returns normally: either it switches, and
    the caller's context is saved in its PCB, or it continues with it. *)

From S2P Require Import Prelude Framework Queue Memory Mmu KernelBrk State.

Section Process.
Context {F : Framework} {T : Mmu}.

Definition ProcessInit : K unit :=
  for_range 0 MAX_PROCS (fun i => set_slot i 0) ;;
  in_queues (QueueInit QReady).

(** ** Kernel stacks *)

Definition stack_pfn (p i : Z) : K Z :=
  pcb ← get_pcb p;
  deref "kernel_stack_pfns[i]" (zlookup (kernel_stack_pfns pcb) i).
Definition set_stack_pfn (p i v : Z) : K unit :=
  stack_pfn p i ;;
  upd_pcb p (fun pcb => set_kernel_stack_pfns (<[Z.to_nat i := v]> (kernel_stack_pfns pcb)) pcb).

Definition ProcessAllocKernelStack (proc : Z) : K Z :=
  r ← for_range_ret 0 (KERNEL_STACK_MAXSIZE / PAGESIZE) (fun i =>
    pfn ← in_mem FrameAlloc;
    if pfn =? ERROR then
      for_down (Z.to_nat i) (i - 1) (fun i =>
        f ← stack_pfn proc i; in_mem (FrameFree f)) ;;
      mret (Some ERROR)
    else set_stack_pfn proc i pfn ;; mret None);
  mret (default SUCCESS r).

Definition ProcessFreeKernelStack (proc : Z) : K unit :=
  idle ← gets idle_process;
  if proc =? idle then mret tt
  else
    for_range 0 (KERNEL_STACK_MAXSIZE / PAGESIZE) (fun i =>
      f ← stack_pfn proc i;
      if negb (f =? 0) then in_mem (FrameFree f) ;; set_stack_pfn proc i 0 else skip).

(** ** The process table *)

Definition ProcessRegister (proc : Z) : K unit :=
  pcb ← get_pcb proc;
  if (0 <=? pid pcb) && (pid pcb <? MAX_PROCS) then set_slot (pid pcb) proc else skip.

(** [helper_new_pid], [helper_retire_pid] of the framework. *)
Definition new_pid (pt : Z) : K Z :=
  l ← get_log; external (EvNewPid pt) ;; mret (helper_new_pid l pt).
Definition retire_pid (pid : Z) : K unit := external (EvRetirePid pid).

(** The [QueueInit] and the three [QueueEntryInit] calls of every creation. *)
Definition init_queues (proc : Z) : K unit :=
  in_queues (QueueInit (QChildren proc)) ;;
  in_queues (QueueEntryInit (EReady proc) proc) ;;
  in_queues (QueueEntryInit (EBlock proc) proc) ;;
  in_queues (QueueEntryInit (EChild proc) proc).

(** ** Creation *)

Definition ProcessCreateIdle : K Z :=
  proc ← calloc_pcb;
  if proc =? 0 then mret 0
  else
    pt ← in_mem MemoryAllocPageTable;
    upd_pcb proc (set_region1_pt pt) ;;
    let stack_page := MAX_PT_LEN - 1 in
    stack_pfn ← in_mem FrameAlloc;
    if stack_pfn =? ERROR then
      in_mem (free_page_table pt) ;; free_pcb proc ;; mret 0
    else
      in_mem (MemoryMapPage pt stack_page stack_pfn (Z.lor PROT_READ PROT_WRITE)) ;;
      pid ← new_pid pt;
      upd_pcb proc (set_pid pid) ;;
      if pid =? ERROR then
        in_mem (FrameFree stack_pfn) ;; in_mem (free_page_table pt) ;; free_pcb proc ;; mret 0
      else
        upd_pcb proc (set_state PROC_RUNNING) ;;
        set_stack_pfn proc 0 (KERNEL_STACK_BASE ≫ PAGESHIFT) ;;
        set_stack_pfn proc 1 ((KERNEL_STACK_BASE ≫ PAGESHIFT) + 1) ;;
        u ← gets uctxt;
        upd_pcb proc (set_user_context (set_uc_sp (VMEM_1_LIMIT - 4) (set_uc_pc DoIdle u))) ;;
        init_queues proc ;;
        ProcessRegister proc ;;
        mret proc.

Definition ProcessCreateInit : K Z :=
  proc ← calloc_pcb;
  if proc =? 0 then mret 0
  else
    pt ← in_mem MemoryAllocPageTable;
    upd_pcb proc (set_region1_pt pt) ;;
    rc ← ProcessAllocKernelStack proc;
    if rc =? ERROR then
      in_mem (free_page_table pt) ;; free_pcb proc ;; mret 0
    else
      pid ← new_pid pt;
      upd_pcb proc (set_pid pid) ;;
      if pid =? ERROR then
        ProcessFreeKernelStack proc ;; in_mem (free_page_table pt) ;; free_pcb proc ;; mret 0
      else
        u ← gets uctxt;
        upd_pcb proc (set_user_stack_low_page MAX_PT_LEN ∘ set_user_context u ∘
                      set_state PROC_READY) ;;
        init_queues proc ;;
        ProcessRegister proc ;;
        mret proc.

(** The page below the kernel stack, through which pages are copied. *)
Definition scratch_page : Z := (KERNEL_STACK_BASE ≫ PAGESHIFT) - 1.
Definition scratch_addr : Z := scratch_page ≪ PAGESHIFT.

(** The loop body of [ProcessCopyRegion1], for page [i]. *)
Definition copy_region1_page (d sp : PCB) (i : Z) : K (option Z) :=
  e ← in_mem (pt_read (region1_pt sp) i);
  if negb (valid e) then mret None
  else
    pfn ← in_mem FrameAlloc;
    if pfn =? ERROR then
      in_mem (MemoryFreePageTableFrames (region1_pt d)) ;; mret (Some ERROR)
    else
      rc ← in_mem (MemoryMapPage (region1_pt d) i pfn (prot e));
      if rc =? ERROR then
        in_mem (FrameFree pfn) ;;
        in_mem (MemoryFreePageTableFrames (region1_pt d)) ;; mret (Some ERROR)
      else
        pt0 ← gets (fun s => kernel_region0_pt (k_mem s));
        in_mem (MemoryMapPage pt0 scratch_page pfn (Z.lor PROT_READ PROT_WRITE)) ;;
        in_mem (memcpy scratch_addr (VMEM_1_BASE + (i ≪ PAGESHIFT)) PAGESIZE) ;;
        mret None.

Definition ProcessCopyRegion1 (dst src : Z) : K Z :=
  d ← get_pcb dst;
  sp ← get_pcb src;
  r ← for_range_ret 0 MAX_PT_LEN (copy_region1_page d sp);
  match r with
  | Some rc => mret rc
  | None =>
      pt0 ← gets (fun s => kernel_region0_pt (k_mem s));
      in_mem (MemoryUnmapPage pt0 scratch_page) ;;
      in_mem (WriteRegister REG_TLB_FLUSH TLB_FLUSH_ALL) ;;
      mret SUCCESS
  end.

(** The fields the child takes over from its parent, in the order of the code. *)
Definition inherit (parent_ptr : Z) (parent child : PCB) : PCB :=
  set_parent parent_ptr (set_user_stack_low_page (user_stack_low_page parent)
    (set_user_heap_start (user_heap_start parent) (set_user_brk (user_brk parent)
      (set_kernel_context (kernel_context parent)
        (set_user_context (user_context parent) (set_state PROC_READY child)))))).

Definition ProcessCreateChild (parent : Z) : K Z :=
  child ← calloc_pcb;
  if child =? 0 then mret 0
  else
    pt ← in_mem MemoryAllocPageTable;
    upd_pcb child (set_region1_pt pt) ;;
    rc ← ProcessAllocKernelStack child;
    if rc =? ERROR then
      in_mem (free_page_table pt) ;; free_pcb child ;; mret 0
    else
      pid ← new_pid pt;
      upd_pcb child (set_pid pid) ;;
      if pid =? ERROR then
        ProcessFreeKernelStack child ;; in_mem (free_page_table pt) ;; free_pcb child ;; mret 0
      else
        p ← get_pcb parent;
        upd_pcb child (inherit parent p) ;;
        init_queues child ;;
        rc ← ProcessCopyRegion1 child parent;
        if rc =? ERROR then
          ProcessFreeKernelStack child ;; retire_pid pid ;;
          in_mem (free_page_table pt) ;; free_pcb child ;; mret 0
        else
          in_queues (QueuePushBack (QChildren parent) (EChild child)) ;;
          ProcessRegister child ;;
          mret child.

Definition ProcessSetCurrent (proc : Z) : K unit := modify (set_current_process proc).
Definition ProcessCurrent : K Z := gets current_process.

(** ** Context switches *)

(** [KCCopy]: the new process gets the caller's context and a copy of its kernel
    stack; the caller continues. *)
Definition KCCopy (kc_in : KernelContext) (proc : Z) : K KernelContext :=
  upd_pcb proc (set_kernel_context kc_in) ;;
  for_range 0 (KERNEL_STACK_MAXSIZE / PAGESIZE) (fun i =>
    pt0 ← gets (fun s => kernel_region0_pt (k_mem s));
    pfn ← stack_pfn proc i;
    in_mem (MemoryMapPage pt0 scratch_page pfn (Z.lor PROT_READ PROT_WRITE)) ;;
    in_mem (memcpy scratch_addr (KERNEL_STACK_BASE + i * PAGESIZE) PAGESIZE)) ;;
  pt0 ← gets (fun s => kernel_region0_pt (k_mem s));
  in_mem (MemoryUnmapPage pt0 scratch_page) ;;
  in_mem (WriteRegister REG_TLB_FLUSH TLB_FLUSH_KSTACK) ;;
  mret kc_in.

Definition KCSwitch (kc_in : KernelContext) (old next : Z) : K KernelContext :=
  (if negb (old =? 0) then upd_pcb old (set_kernel_context kc_in) else skip) ;;
  let stack_page := KERNEL_STACK_BASE ≫ PAGESHIFT in
  for_range 0 (KERNEL_STACK_MAXSIZE / PAGESIZE) (fun i =>
    pt0 ← gets (fun s => kernel_region0_pt (k_mem s));
    pfn ← stack_pfn next i;
    in_mem (pt_write pt0 (stack_page + i) (mkPte true (Z.lor PROT_READ PROT_WRITE) pfn))) ;;
  modify (set_current_process next) ;;
  n ← get_pcb next;
  in_mem (MemoryInstallPageTables (region1_pt n)) ;;
  in_mem (WriteRegister REG_TLB_FLUSH TLB_FLUSH_ALL) ;;
  n ← get_pcb next;
  mret (kernel_context n).

(** The framework's [KernelContextSwitch]: it may fail; otherwise it runs the
    switch function on the caller's context and continues in the one it returns.
    It returns only when it fails. *)
Definition KernelContextSwitch (func : KernelContext -> K KernelContext)
    (caller : KernelContext) : K Z :=
  l ← get_log;
  external EvSwitch ;;
  if switch_fails l then mret ERROR
  else kc ← func caller; jump kc.

Definition ProcessCloneKernelContext (proc : Z) (caller : KernelContext) : K Z :=
  KernelContextSwitch (fun kc => KCCopy kc proc) caller.

Definition ProcessSwitch (next : Z) (caller : KernelContext) : K Z :=
  cur ← gets current_process;
  if (next =? 0) || (next =? cur) then mret SUCCESS
  else
    upd_pcb next (set_state PROC_RUNNING) ;;
    KernelContextSwitch (fun kc => KCSwitch kc cur next) caller.

(** ** The scheduler *)

Definition ProcessMakeReady (proc : Z) : K unit :=
  idle ← gets idle_process;
  if (proc =? 0) || (proc =? idle) then mret tt
  else
    pcb ← get_pcb proc;
    if decide (state pcb = PROC_ZOMBIE) then mret tt
    else
      upd_pcb proc (set_state PROC_READY) ;;
      n ← in_queues (load (QEnt (EReady proc)));
      if decide (prev n = None) then
        if decide (next n = None)
        then in_queues (QueuePushBack QReady (EReady proc)) else skip
      else skip.

Definition ProcessWakeDelayed : K unit :=
  for_range 0 MAX_PROCS (fun i =>
    p ← get_slot i;
    if p =? 0 then skip
    else
      pcb ← get_pcb p;
      ticks ← gets clock_ticks;
      if bool_decide (state pcb = PROC_BLOCKED) && negb (delay_until pcb =? 0)
           && (delay_until pcb <=? ticks)
      then upd_pcb p (set_delay_until 0) ;; ProcessMakeReady p
      else skip).

Definition ProcessNextReady : K Z :=
  entry ← in_queues (QueuePopFront QReady);
  match entry with
  | None => mret 0
  | Some a => entry_owner a
  end.

(** The choice of [ProcessSchedule]: whom to run next. *)
Definition schedule_next : K Z :=
  ProcessWakeDelayed ;;
  old ← gets current_process;
  idle ← gets idle_process;
  (if negb (old =? 0) && negb (old =? idle) then
     o ← get_pcb old;
     if decide (state o = PROC_RUNNING) then ProcessMakeReady old else skip
   else skip) ;;
  next ← ProcessNextReady;
  if next =? 0 then gets idle_process else mret next.

Definition ProcessSchedule {A} (caller : KernelContext) : K A :=
  next ← schedule_next;
  cur ← gets current_process;
  (if negb (next =? cur) then ProcessSwitch next caller ;; skip else skip) ;;
  jump caller.

(** ** Stack growth *)

(** The body of its loop: [Some ERROR] is the early return. *)
Definition grow_stack_page (pt page : Z) : K (option Z) :=
  pfn ← in_mem FrameAlloc;
  if pfn =? ERROR then mret (Some ERROR)
  else
    rc ← in_mem (MemoryMapPage pt page pfn (Z.lor PROT_READ PROT_WRITE));
    if rc =? ERROR then in_mem (FrameFree pfn) ;; mret (Some ERROR) else mret None.

Definition ProcessGrowStack (proc addr : Z) : K Z :=
  if (proc =? 0) || (addr <? VMEM_1_BASE) || (VMEM_1_LIMIT <=? addr) then mret ERROR
  else
    p ← get_pcb proc;
    let fault_page := (addr - VMEM_1_BASE) ≫ PAGESHIFT in
    let brk_page := (UP_TO_PAGE (user_brk p) - VMEM_1_BASE) ≫ PAGESHIFT in
    if (user_stack_low_page p <=? fault_page) || (fault_page <=? brk_page) then mret ERROR
    else
      r ← for_down_ret (Z.to_nat (user_stack_low_page p - fault_page))
            (user_stack_low_page p - 1) (grow_stack_page (region1_pt p));
      match r with
      | Some rc => mret rc
      | None =>
          upd_pcb proc (set_user_stack_low_page fault_page) ;;
          in_mem (WriteRegister REG_TLB_FLUSH TLB_FLUSH_1) ;;
          mret SUCCESS
      end.

(** ** Destruction *)

(** [while (!QueueIsEmpty(q)) body]; [body] takes an entry off [q], so the length
    of the queue bounds the turns. *)
Fixpoint while_queued_n (n : nat) (q : qid) (body : K unit) : K unit :=
  empty ← in_queues (QueueIsEmpty q);
  if (empty : bool) then mret tt
  else match n with
       | O => fault "queue longer than its length"
       | S n' => body ;; while_queued_n n' q body
       end.
Definition while_queued (q : qid) (body : K unit) : K unit :=
  len ← in_queues (load_length q);
  while_queued_n (Z.to_nat len) q body.

(** [while (!QueueIsEmpty(&proc->children))]: the children become orphans. *)
Definition orphan_children (proc : Z) : K unit :=
  while_queued (QChildren proc)
    (entry ← in_queues (QueuePopFront (QChildren proc));
     a ← deref "null entry" entry;
     child ← entry_owner a;
     upd_pcb child (set_parent 0)).

(** [entry.prev != 0]. *)
Definition entry_linked (e : eid) : K bool :=
  n ← in_queues (load (QEnt e)); mret (bool_decide (prev n <> None)).

Definition ProcessDestroy (proc : Z) : K unit :=
  if proc =? 0 then mret tt
  else
    p ← get_pcb proc;
    (if negb (parent p =? 0) then
       linked ← entry_linked (EChild proc);
       if (linked : bool)
       then in_queues (QueueRemove (QChildren (parent p)) (QEnt (EChild proc))) else skip
     else skip) ;;
    orphan_children proc ;;
    linked ← entry_linked (EReady proc);
    (if (linked : bool) then in_queues (QueueRemove QReady (QEnt (EReady proc))) else skip) ;;
    p ← get_pcb proc;
    match block_queue p with
    | Some q =>
        linked ← entry_linked (EBlock proc);
        if (linked : bool) then
          in_queues (QueueRemove q (QEnt (EBlock proc))) ;;
          upd_pcb proc (set_block_queue None)
        else skip
    | None => skip
    end ;;
    (if (0 <=? pid p) && (pid p <? MAX_PROCS) then
       slot ← get_slot (pid p);
       if slot =? proc then set_slot (pid p) 0 else skip
     else skip) ;;
    retire_pid (pid p) ;;
    in_mem (MemoryFreePageTableFrames (region1_pt p)) ;;
    ProcessFreeKernelStack proc ;;
    in_mem (free_page_table (region1_pt p)) ;;
    free_pcb proc.
End Process.
