(* ===== verification/Ipc.v ===== *)
(** * Pipes, locks and condition variables ([ipc.c])

    The 128 IPC objects, the system calls on them and the release of a dying
    process's locks.  A call that waits ends in [BlockOnQueue], which never
    returns: what the C code does after it is the matching [_woken] definition,
    run when the waiter is switched back to.  [caller] is [TrapKernel]'s local,
    which stays on the suspended kernel stack. *)

From S2P Require Import Prelude Framework Queue Memory Mmu KernelBrk State Process.

Section Ipc.
Context {F : Framework} {T : Mmu}.

Definition IpcInit : K unit :=
  for_range 0 IPC_MAX_OBJECTS (fun i => upd_object i (set_ipc_type IPC_FREE)).

(** ** Objects *)

Definition AllocObject (type : ipc_kind) : K Z :=
  r ← for_range_ret 0 IPC_MAX_OBJECTS (fun i =>
    o ← get_object i;
    if decide (ipc_type o = IPC_FREE)
    then upd_object i (set_ipc_type type) ;; mret (Some i)
    else mret None);
  mret (default ERROR r).

(** [GetObject]: is [id] an object of this type?  The pointer it returns is [id]. *)
Definition GetObject (id : Z) (type : ipc_kind) : K bool :=
  if (id <? 0) || (IPC_MAX_OBJECTS <=? id) then mret false
  else o ← get_object id; mret (bool_decide (ipc_type o = type)).

(** ** Waiting and waking *)

Definition BlockOnQueue {A} (queue : qid) (after : Z -> KernelContext) : K A :=
  proc ← gets current_process;
  u ← gets uctxt;
  upd_pcb proc (set_block_queue (Some queue) ∘ set_state PROC_BLOCKED ∘ set_user_context u) ;;
  in_queues (QueuePushBack queue (EBlock proc)) ;;
  ProcessSchedule (after proc).

Definition WakeOne (queue : qid) : K Z :=
  entry ← in_queues (QueuePopFront queue);
  match entry with
  | None => mret 0
  | Some a =>
      proc ← entry_owner a;
      upd_pcb proc (fun p => set_user_context (set_reg 0 (to_uint SUCCESS) (user_context p))
                               (set_block_queue None p)) ;;
      ProcessMakeReady proc ;;
      mret proc
  end.

Definition WakeAll (queue : qid) : K unit := while_queued queue (WakeOne queue ;; skip).

(** ** Locks *)

Definition LockRelease (lock : Z) : K Z :=
  upd_object lock (set_lock_owner 0) ;;
  next ← WakeOne (QIpc lock);
  (if negb (next =? 0) then upd_object lock (set_lock_owner next) else skip) ;;
  mret SUCCESS.

(** [while (lock->owner != 0) ...] from its test. *)
Definition lock_wait (caller lock_id : Z) : K Z :=
  lock ← get_object lock_id;
  if negb (lock_owner lock =? 0) then
    BlockOnQueue (QIpc lock_id) (fun proc => KCSys caller (InAcquire proc lock_id))
  else
    cur ← gets current_process;
    upd_object lock_id (set_lock_owner cur) ;;
    mret SUCCESS.

Definition LockAcquire (caller lock_id : Z) : K Z :=
  ok ← GetObject lock_id IPC_LOCK;
  cur ← gets current_process;
  idle ← gets idle_process;
  if negb ok || (cur =? 0) || (cur =? idle) then mret ERROR
  else
    lock ← get_object lock_id;
    if lock_owner lock =? cur then mret ERROR
    else lock_wait caller lock_id.

(** The rest of [LockAcquire]'s loop body, after [BlockOnQueue]. *)
Definition LockAcquire_woken (caller lock_id : Z) : K Z :=
  ok ← GetObject lock_id IPC_LOCK;
  if negb ok then mret ERROR
  else
    lock ← get_object lock_id;
    cur ← gets current_process;
    if lock_owner lock =? cur then mret SUCCESS
    else lock_wait caller lock_id.

Definition SysLockInit (lock_idp : Z) : K Z :=
  if lock_idp =? 0 then mret ERROR
  else
    id ← AllocObject IPC_LOCK;
    if id =? ERROR then mret ERROR
    else
      upd_object id (set_lock_owner 0) ;;
      in_queues (QueueInit (QIpc id)) ;;
      in_mem (user_store_word lock_idp id) ;;
      mret SUCCESS.

Definition SysAcquire (caller lock_id : Z) : K Z := LockAcquire caller lock_id.

Definition SysRelease (lock_id : Z) : K Z :=
  ok ← GetObject lock_id IPC_LOCK;
  if negb ok then mret ERROR
  else
    lock ← get_object lock_id;
    cur ← gets current_process;
    if negb (lock_owner lock =? cur) then mret ERROR
    else LockRelease lock_id.

(** ** Pipes *)

(** [while (new_cap < needed) new_cap *= 2]; 32 turns reach any [int] or overflow. *)
Fixpoint double_cap (fuel : nat) (new_cap needed : Z) : K Z :=
  if new_cap <? needed then
    match fuel with
    | O => fault "endless loop"
    | S fuel' => c ← int_op (new_cap * 2); double_cap fuel' c needed
    end
  else mret new_cap.

Definition PipeEnsureCapacity (pipe needed : Z) : K Z :=
  o ← get_object pipe;
  if needed <=? pipe_cap o then mret SUCCESS
  else
    new_cap ← double_cap 32 (pipe_cap o) needed;
    new_buf ← malloc_block new_cap;
    match new_buf with
    | None => mret ERROR
    | Some new_buf =>
        o ← get_object pipe;
        l ← block_read (pipe_buf o) 0 (pipe_len o);
        block_write new_buf 0 l ;;
        free_block (pipe_buf o) ;;
        upd_object pipe (set_pipe_cap new_cap ∘ set_pipe_buf new_buf) ;;
        mret SUCCESS
    end.

Definition SysPipeInit (pipe_idp : Z) : K Z :=
  if pipe_idp =? 0 then mret ERROR
  else
    id ← AllocObject IPC_PIPE;
    if id =? ERROR then mret ERROR
    else
      buf ← malloc_block PIPE_BUFFER_LEN;
      upd_object id (set_pipe_buf (default 0 buf)) ;;
      match buf with
      | None => upd_object id (set_ipc_type IPC_FREE) ;; mret ERROR
      | Some _ =>
          upd_object id (set_pipe_len 0) ;;
          upd_object id (set_pipe_cap PIPE_BUFFER_LEN) ;;
          in_queues (QueueInit (QIpc id)) ;;
          in_mem (user_store_word pipe_idp id) ;;
          mret SUCCESS
      end.

(** [SysPipeRead] once the pipe has bytes. *)
Definition pipe_take (pipe_id buf len : Z) : K Z :=
  pipe ← get_object pipe_id;
  let count := if len <? pipe_len pipe then len else pipe_len pipe in
  l ← block_read (pipe_buf pipe) 0 count;
  in_mem (user_store buf l) ;;
  upd_object pipe_id (set_pipe_len (pipe_len pipe - count)) ;;
  pipe ← get_object pipe_id;
  (if 0 <? pipe_len pipe then
     block_read (pipe_buf pipe) count (pipe_len pipe) ;;
     b ← get_block (pipe_buf pipe);
     put_block (pipe_buf pipe) (memcpy_within b 0 count (pipe_len pipe))
   else skip) ;;
  mret count.

(** [while (pipe->len == 0) ...] from its test. *)
Definition pipe_wait (caller pipe_id buf len : Z) : K Z :=
  pipe ← get_object pipe_id;
  if pipe_len pipe =? 0 then
    BlockOnQueue (QIpc pipe_id) (fun proc => KCSys caller (InPipeRead proc pipe_id buf len))
  else pipe_take pipe_id buf len.

Definition SysPipeRead (caller pipe_id buf len : Z) : K Z :=
  if (len <? 0) || ((buf =? 0) && (0 <? len)) then mret ERROR
  else if len =? 0 then mret 0
  else
    cur ← gets current_process;
    idle ← gets idle_process;
    if (cur =? 0) || (cur =? idle) then mret ERROR
    else
      ok ← GetObject pipe_id IPC_PIPE;
      if negb ok then mret ERROR else pipe_wait caller pipe_id buf len.

Definition SysPipeRead_woken (caller pipe_id buf len : Z) : K Z :=
  ok ← GetObject pipe_id IPC_PIPE;
  if negb ok then mret ERROR else pipe_wait caller pipe_id buf len.

Definition SysPipeWrite (pipe_id buf len : Z) : K Z :=
  if (len <? 0) || ((buf =? 0) && (0 <? len)) then mret ERROR
  else if len =? 0 then mret 0
  else
    ok ← GetObject pipe_id IPC_PIPE;
    if negb ok then mret ERROR
    else
      pipe ← get_object pipe_id;
      needed ← int_op (pipe_len pipe + len);
      rc ← PipeEnsureCapacity pipe_id needed;
      if rc =? ERROR then mret ERROR
      else
        pipe ← get_object pipe_id;
        l ← in_mem (user_load buf len);
        block_write (pipe_buf pipe) (pipe_len pipe) l ;;
        upd_object pipe_id (set_pipe_len (pipe_len pipe + len)) ;;
        WakeAll (QIpc pipe_id) ;;
        mret len.

(** ** Condition variables *)

Definition SysCvarInit (cvar_idp : Z) : K Z :=
  if cvar_idp =? 0 then mret ERROR
  else
    id ← AllocObject IPC_CVAR;
    if id =? ERROR then mret ERROR
    else
      in_queues (QueueInit (QIpc id)) ;;
      in_mem (user_store_word cvar_idp id) ;;
      mret SUCCESS.

Definition SysCvarSignal (cvar_id : Z) : K Z :=
  ok ← GetObject cvar_id IPC_CVAR;
  if negb ok then mret ERROR else WakeOne (QIpc cvar_id) ;; mret SUCCESS.

Definition SysCvarBroadcast (cvar_id : Z) : K Z :=
  ok ← GetObject cvar_id IPC_CVAR;
  if negb ok then mret ERROR else WakeAll (QIpc cvar_id) ;; mret SUCCESS.

Definition SysCvarWait (caller cvar_id lock_id : Z) : K Z :=
  cvar_ok ← GetObject cvar_id IPC_CVAR;
  lock_ok ← GetObject lock_id IPC_LOCK;
  if negb cvar_ok || negb lock_ok then mret ERROR
  else
    lock ← get_object lock_id;
    cur ← gets current_process;
    if negb (lock_owner lock =? cur) then mret ERROR
    else
      rc ← LockRelease lock_id;
      if rc =? ERROR then mret ERROR
      else BlockOnQueue (QIpc cvar_id) (fun proc => KCSys caller (InCvarWait proc cvar_id lock_id)).

Definition SysCvarWait_woken (caller cvar_id lock_id : Z) : K Z :=
  ok ← GetObject cvar_id IPC_CVAR;
  if negb ok then mret ERROR else LockAcquire caller lock_id.

(** ** Reclaiming, process exit *)

Definition SysReclaim (id : Z) : K Z :=
  if (id <? 0) || (IPC_MAX_OBJECTS <=? id) then mret ERROR
  else
    obj ← get_object id;
    match ipc_type obj with
    | IPC_FREE => mret ERROR
    | IPC_PIPE =>
        empty ← in_queues (QueueIsEmpty (QIpc id));
        if negb empty then mret ERROR
        else
          free_block (pipe_buf obj) ;;
          upd_object id (set_pipe_buf 0) ;;
          upd_object id (set_ipc_type IPC_FREE) ;; mret SUCCESS
    | IPC_LOCK =>
        if negb (lock_owner obj =? 0) then mret ERROR
        else
          empty ← in_queues (QueueIsEmpty (QIpc id));
          if negb empty then mret ERROR
          else upd_object id (set_ipc_type IPC_FREE) ;; mret SUCCESS
    | IPC_CVAR =>
        empty ← in_queues (QueueIsEmpty (QIpc id));
        if negb empty then mret ERROR
        else upd_object id (set_ipc_type IPC_FREE) ;; mret SUCCESS
    end.

Definition IpcProcessExit (proc : Z) : K unit :=
  for_range 0 IPC_MAX_OBJECTS (fun i =>
    o ← get_object i;
    if bool_decide (ipc_type o = IPC_LOCK) && (lock_owner o =? proc)
    then LockRelease i ;; skip else skip).
End Ipc.
