(* ===== verification/Exit.v ===== *)
(** * The end of a process ([ProcessExitCurrent] of [process.c]) *)

From S2P Require Import Prelude Framework Queue Memory Mmu KernelBrk State Process Ipc.

Section Exit.
Context {F : Framework} {T : Mmu}.

(** [helper_abort] after [ProcessSchedule] is the resumption of [KCZombie]. *)
Definition ProcessExitCurrent {A} (status : Z) : K A :=
  proc ← gets current_process;
  idle ← gets idle_process;
  (if (proc =? 0) || (proc =? idle) then KernelPanic "idle process exit" else skip) ;;
  init ← gets init_process;
  (if proc =? init then stop_with Halted else skip) ;;
  orphan_children proc ;;
  IpcProcessExit proc ;;
  upd_pcb proc (set_exit_status status) ;;
  upd_pcb proc (set_state PROC_ZOMBIE) ;;
  p ← get_pcb proc;
  (if negb (parent p =? 0) then
     pp ← get_pcb (parent p);
     if waiting_for_child pp then
       upd_pcb (parent p) (set_waiting_for_child false) ;;
       ProcessMakeReady (parent p)
     else skip
   else skip) ;;
  ProcessSchedule KCZombie.
End Exit.
