(* ===== verification/Tty.v ===== *)
(** * Terminals ([tty.c])

    Reading a line at a time and writing in pieces of [TERMINAL_MAX_LINE]: the two
    system calls and the two trap handlers that complete them. *)

From S2P Require Import Prelude Framework Queue Memory Mmu KernelBrk State Process.

Section Tty.
Context {F : Framework} {T : Mmu}.

Definition TtyInit : K unit :=
  for_range 0 NUM_TERMINALS (fun i =>
    in_queues (QueueInit (QTtyRead i)) ;;
    in_queues (QueueInit (QTtyWrite i)) ;;
    in_queues (QueueInit (QTtyInput i)) ;;
    upd_tty i (set_tty_busy false ∘ set_tty_writer 0 ∘ set_tty_line 0)).

Definition TtyValid (tty_id : Z) : bool := (0 <=? tty_id) && (tty_id <? NUM_TERMINALS).

(** ** Reading *)

Definition TtyNextLine (tty : Z) : K Z :=
  t ← get_tty tty;
  if negb (tty_line t =? 0) then upd_tty tty (set_tty_line 0) ;; mret (tty_line t)
  else
    entry ← in_queues (QueuePopFront (QTtyInput tty));
    match entry with
    | None => mret 0
    | Some a => entry_owner a
    end.

Definition TtyCopyLine (tty proc : Z) : K Z :=
  p ← get_pcb proc;
  line ← (if tty_read_line p =? 0 then TtyNextLine tty else mret (tty_read_line p));
  if line =? 0 then mret ERROR
  else
    l ← get_line line;
    let count := if tty_read_len p <? line_len l - line_pos l
                 then tty_read_len p else line_len l - line_pos l in
    (if Z.of_nat (length (line_data l)) <? line_pos l + count
     then fault "read past the line" else skip) ;;
    in_mem (user_store (tty_read_buf p)
              (take (Z.to_nat count) (drop (Z.to_nat (line_pos l)) (line_data l)))) ;;
    upd_line line (set_line_pos (line_pos l + count)) ;;
    upd_pcb proc (set_tty_read_line 0) ;;
    (if line_pos l + count <? line_len l then upd_tty tty (set_tty_line line)
     else free_line line) ;;
    mret count.

(** One turn of the [for (;;)] of [SysTtyRead]; when it waits, the next turn is run
    by the resumption. *)
Definition tty_read_turn (caller proc tty_id : Z) : K Z :=
  rc ← TtyCopyLine tty_id proc;
  if 0 <=? rc then mret rc
  else
    u ← gets uctxt;
    upd_pcb proc (set_block_queue (Some (QTtyRead tty_id)) ∘ set_state PROC_BLOCKED ∘
                  set_user_context u) ;;
    in_queues (QueuePushBack (QTtyRead tty_id) (EBlock proc)) ;;
    ProcessSchedule (KCSys caller (InTtyRead proc tty_id)).

Definition SysTtyRead (caller tty_id buf len : Z) : K Z :=
  if negb (TtyValid tty_id) || (len <? 0) || ((buf =? 0) && (0 <? len)) then mret ERROR
  else if len =? 0 then mret 0
  else
    proc ← gets current_process;
    idle ← gets idle_process;
    if (proc =? 0) || (proc =? idle) then mret ERROR
    else
      upd_pcb proc (set_tty_read_len len ∘ set_tty_read_buf buf ∘ set_tty_id tty_id) ;;
      tty_read_turn caller proc tty_id.

Definition TrapTtyReceive : K unit :=
  u ← gets uctxt;
  let tty_id := uc_code u in
  if negb (TtyValid tty_id) then mret tt
  else
    line ← calloc_line;
    if line =? 0 then mret tt
    else
      in_queues (QueueEntryInit (ELine line) line) ;;
      log ← get_log;
      external (EvTtyReceive tty_id) ;;
      let '(len, bytes) := tty_receive log tty_id in
      upd_line line (fun l => set_line_len len
        (set_line_data (bytes ++ drop (length bytes) (line_data l)) l)) ;;
      if len <? 0 then free_line line
      else
        upd_line line (set_line_pos 0) ;;
        empty ← in_queues (QueueIsEmpty (QTtyRead tty_id));
        if negb empty then
          entry ← in_queues (QueuePopFront (QTtyRead tty_id));
          a ← deref "null entry" entry;
          reader ← entry_owner a;
          upd_pcb reader (set_tty_read_line line ∘ set_block_queue None) ;;
          ProcessMakeReady reader
        else
          in_queues (QueuePushBack (QTtyInput tty_id) (ELine line)).

(** ** Writing *)

(** A call to itself follows the end of a writer, so that all but the first take a
    writer off the queue: its length plus two bounds the calls. *)
Fixpoint TtyStartWrite_n (fuel : nat) (tty_id : Z) : K unit :=
  match fuel with
  | O => fault "endless recursion"
  | S fuel' =>
      tty ← get_tty tty_id;
      if tty_busy tty then mret tt
      else
        started ← (if tty_writer tty =? 0 then
            entry ← in_queues (QueuePopFront (QTtyWrite tty_id));
            match entry with
            | None => mret false
            | Some a =>
                w ← entry_owner a;
                upd_tty tty_id (set_tty_writer w) ;;
                upd_pcb w (set_block_queue None) ;;
                mret true
            end
          else mret true);
        if negb started then mret tt
        else
          tty ← get_tty tty_id;
          let writer := tty_writer tty in
          w ← get_pcb writer;
          if tty_write_len w <=? tty_write_offset w then
            upd_tty tty_id (set_tty_writer 0) ;;
            ProcessMakeReady writer ;;
            TtyStartWrite_n fuel' tty_id
          else
            let rest := tty_write_len w - tty_write_offset w in
            let chunk := if TERMINAL_MAX_LINE <? rest then TERMINAL_MAX_LINE else rest in
            upd_tty tty_id (set_tty_busy true) ;;
            bytes ← block_read (tty_write_buf w) (tty_write_offset w) chunk;
            external (EvTtyTransmit tty_id bytes) ;;
            upd_pcb writer (set_tty_write_offset (tty_write_offset w + chunk))
  end.
Definition TtyStartWrite (tty_id : Z) : K unit :=
  len ← in_queues (load_length (QTtyWrite tty_id));
  TtyStartWrite_n (Z.to_nat len + 2) tty_id.

Definition SysTtyWrite (caller tty_id buf len : Z) : K Z :=
  if negb (TtyValid tty_id) || (len <? 0) || ((buf =? 0) && (0 <? len)) then mret ERROR
  else if len =? 0 then mret 0
  else
    proc ← gets current_process;
    idle ← gets idle_process;
    if (proc =? 0) || (proc =? idle) then mret ERROR
    else
      p ← malloc_block len;
      upd_pcb proc (set_tty_write_buf (default 0 p)) ;;
      match p with
      | None => mret ERROR
      | Some p =>
          l ← in_mem (user_load buf len);
          block_write p 0 l ;;
          u ← gets uctxt;
          upd_pcb proc (set_state PROC_BLOCKED ∘
                        set_user_context (set_reg 0 (to_uint len) u) ∘
                        set_tty_write_offset 0 ∘ set_tty_write_len len ∘ set_tty_id tty_id) ;;
          tty ← get_tty tty_id;
          (if (tty_writer tty =? 0) && negb (tty_busy tty) then
             upd_tty tty_id (set_tty_writer proc) ;;
             TtyStartWrite tty_id
           else
             upd_pcb proc (set_block_queue (Some (QTtyWrite tty_id))) ;;
             in_queues (QueuePushBack (QTtyWrite tty_id) (EBlock proc))) ;;
          ProcessSchedule (KCSys caller (InTtyWrite proc len))
      end.

(** The end of [SysTtyWrite], once the caller runs again. *)
Definition SysTtyWrite_woken (proc len : Z) : K Z :=
  p ← get_pcb proc;
  free_block (tty_write_buf p) ;;
  upd_pcb proc (set_tty_write_offset 0 ∘ set_tty_write_len 0 ∘ set_tty_write_buf 0) ;;
  mret len.

Definition TrapTtyTransmit : K unit :=
  u ← gets uctxt;
  let tty_id := uc_code u in
  if negb (TtyValid tty_id) then mret tt
  else
    upd_tty tty_id (set_tty_busy false) ;;
    tty ← get_tty tty_id;
    let writer := tty_writer tty in
    if writer =? 0 then TtyStartWrite tty_id
    else
      w ← get_pcb writer;
      (if tty_write_len w <=? tty_write_offset w then
         upd_pcb writer (fun p => set_user_context
           (set_reg 0 (to_uint (tty_write_len w)) (user_context p)) p) ;;
         upd_tty tty_id (set_tty_writer 0) ;;
         ProcessMakeReady writer
       else skip) ;;
      TtyStartWrite tty_id.
End Tty.
