(* ===== verification/Loader.v ===== *)
(** * Loading a program ([template.c])

    [LoadProgram] replaces the user memory of a process by a program file: it
    checks the layout, frees the old pages, maps text, data and stack, reads the
    two segments and builds the initial stack.  The file and its header come from
    the framework.  [name] and [args] are the C strings, without their zeros. *)

From S2P Require Import Prelude Framework Queue Memory Mmu KernelBrk State Process.

Section Loader.
Context {F : Framework} {T : Mmu}.

Definition MapRange (pt start count prot : Z) : M mem Empty_set Z :=
  r ← for_range_ret 0 count (fun i =>
    pfn ← FrameAlloc;
    if pfn =? ERROR then mret (Some ERROR)
    else
      rc ← MemoryMapPage pt (start + i) pfn prot;
      if rc =? ERROR then FrameFree pfn ;; mret (Some ERROR) else mret None);
  mret (default SUCCESS r).

(** ** The program file *)

Definition open_program (name : list Z) : K Z :=
  l ← get_log; external (EvOpen name) ;; mret (exec_open l name).
Definition close_program (fd : Z) : K unit := external (EvClose fd).
Definition LoadInfo (fd : Z) : K (option load_info) :=
  l ← get_log; external (EvLoadInfo fd) ;; mret (exec_load_info l fd).
(** [lseek(fd, offset)] and [read(fd, vaddr, size)]: the number of bytes read. *)
Definition read_segment (fd offset vaddr size : Z) : K Z :=
  l ← get_log;
  external (EvRead fd offset size) ;;
  let bytes := exec_read l fd offset size in
  in_mem (user_store vaddr bytes) ;;
  mret (Z.of_nat (length bytes)).

(** ** The initial stack *)

Fixpoint args_size (argsize : Z) (args : list (list Z)) : K Z :=
  match args with
  | [] => mret argsize
  | a :: args' => n ← int_op (argsize + (Z.of_nat (length a) + 1)); args_size n args'
  end.

(** [sizeof(void * )] on the 32-bit machine. *)
Definition sizeof_ptr : Z := 4.

Definition stack_cp (argsize : Z) : Z := VMEM_1_LIMIT - argsize.
Definition stack_cpp (argsize argcount : Z) : Z :=
  Z.land (stack_cp argsize - (argcount + 3 + POST_ARGV_NULL_SPACE) * sizeof_ptr) (Z.lnot 7).
Definition stack_top (argsize argcount : Z) : Z :=
  stack_cpp argsize argcount - INITIAL_STACK_FRAME_SIZE.
Definition stack_pages (argsize argcount : Z) : Z :=
  (VMEM_1_LIMIT - DOWN_TO_PAGE (stack_top argsize argcount)) ≫ PAGESHIFT.

(** [strcpy(cp2, args[i]); cp2 += strlen(cp2) + 1]. *)
Fixpoint save_args (argbuf cp2 : Z) (args : list (list Z)) : K unit :=
  match args with
  | [] => mret tt
  | a :: args' =>
      block_write argbuf cp2 (a ++ [0]) ;;
      save_args argbuf (cp2 + Z.of_nat (length a) + 1) args'
  end.

(** The loop that stores [argv[i]] and its string; the value is the last [cpp]. *)
Fixpoint place_args (n : nat) (argbuf cpp cp cp2 : Z) : K Z :=
  match n with
  | O => mret cpp
  | S n' =>
      in_mem (user_store_word cpp cp) ;;
      s ← block_string argbuf cp2;
      in_mem (user_store cp (s ++ [0])) ;;
      let len := Z.of_nat (length s) + 1 in
      place_args n' argbuf (cpp + sizeof_ptr) (cp + len) (cp2 + len)
  end.

Definition set_prot_range (pt lo hi prot : Z) : M mem Empty_set unit :=
  for_range lo hi (fun i =>
    e ← pt_read pt i; pt_write pt i (mkPte (valid e) prot (pfn e))).

(** ** LoadProgram *)

(** Does the program fit between the bottom of Region 1 and its stack? *)
Definition layout_bad (li : load_info) (text_pg1 data_pg1 data_npg stack_base_pg : Z) : K bool :=
  if (text_pg1 <? 0) || (data_pg1 <? text_pg1) then mret true
  else
    text_end ← int_op (text_pg1 + li_t_npg li);
    if MAX_PT_LEN <? text_end then mret true
    else
      data_end ← int_op (data_pg1 + data_npg);
      mret (stack_base_pg - 1 <? data_end).

(** After the old memory is gone: [Some KILL] when a page or a segment is missing. *)
Definition load_segments (fd : Z) (li : load_info) (pt text_pg1 data_pg1 data_npg stack_base_pg
    stack_npg argbuf : Z) : K (option Z) :=
  let rw := Z.lor PROT_READ PROT_WRITE in
  rc ← in_mem (MapRange pt text_pg1 (li_t_npg li) rw);
  rc ← (if rc =? ERROR then mret rc else in_mem (MapRange pt data_pg1 data_npg rw));
  rc ← (if rc =? ERROR then mret rc else in_mem (MapRange pt stack_base_pg stack_npg rw));
  if rc =? ERROR then free_block argbuf ;; close_program fd ;; mret (Some KILL)
  else
    in_mem (WriteRegister REG_TLB_FLUSH TLB_FLUSH_1) ;;
    let segment_size := li_t_npg li ≪ PAGESHIFT in
    n ← read_segment fd (li_t_faddr li) (li_t_vaddr li) segment_size;
    if negb (n =? segment_size) then free_block argbuf ;; close_program fd ;; mret (Some KILL)
    else
      let segment_size := li_id_npg li ≪ PAGESHIFT in
      n ← read_segment fd (li_id_faddr li) (li_id_vaddr li) segment_size;
      if negb (n =? segment_size) then free_block argbuf ;; close_program fd ;; mret (Some KILL)
      else close_program fd ;; mret None.

Definition build_stack (argbuf argsize argcount : Z) : K unit :=
  let cpp := stack_cpp argsize argcount in
  in_mem (user_zero cpp (VMEM_1_LIMIT - cpp)) ;;
  in_mem (user_store_word cpp argcount) ;;
  cpp ← place_args (Z.to_nat argcount) argbuf (cpp + sizeof_ptr) (stack_cp argsize) 0;
  free_block argbuf ;;
  in_mem (user_store_word cpp 0) ;;
  in_mem (user_store_word (cpp + sizeof_ptr) 0).

Definition LoadProgram (name : list Z) (args : list (list Z)) (proc : Z) : K Z :=
  fd ← open_program name;
  if fd <? 0 then mret ERROR
  else
    info ← LoadInfo fd;
    match info with
    | None => close_program fd ;; mret ERROR
    | Some li =>
        if li_entry li <? VMEM_1_BASE then close_program fd ;; mret ERROR
        else
          let text_pg1 := (li_t_vaddr li - VMEM_1_BASE) ≫ PAGESHIFT in
          let data_pg1 := (li_id_vaddr li - VMEM_1_BASE) ≫ PAGESHIFT in
          data_npg ← int_op (li_id_npg li + li_ud_npg li);
          argsize ← args_size 0 args;
          let argcount := Z.of_nat (length args) in
          let stack_npg := stack_pages argsize argcount in
          let stack_base_pg := MAX_PT_LEN - stack_npg in
          bad ← layout_bad li text_pg1 data_pg1 data_npg stack_base_pg;
          if (bad : bool) then
            close_program fd ;; mret ERROR
          else
            buf ← malloc_block argsize;
            match buf with
            | None => close_program fd ;; mret ERROR
            | Some argbuf =>
                save_args argbuf 0 args ;;
                p ← get_pcb proc;
                let pt := region1_pt p in
                in_mem (MemoryFreePageTableFrames pt) ;;
                r ← load_segments fd li pt text_pg1 data_pg1 data_npg stack_base_pg stack_npg argbuf;
                match r with
                | Some rc => mret rc
                | None =>
                    in_mem (set_prot_range pt text_pg1 (text_pg1 + li_t_npg li)
                              (Z.lor PROT_READ PROT_EXEC)) ;;
                    in_mem (WriteRegister REG_TLB_FLUSH TLB_FLUSH_1) ;;
                    in_mem (user_zero (li_id_end li) (to_uint (li_ud_end li - li_id_end li))) ;;
                    build_stack argbuf argsize argcount ;;
                    let heap := UP_TO_PAGE (li_ud_end li) in
                    upd_pcb proc (fun p =>
                      set_user_context (set_uc_sp (stack_top argsize argcount)
                        (set_uc_pc (li_entry li) (user_context p))) p) ;;
                    upd_pcb proc (set_user_stack_low_page stack_base_pg ∘ set_user_brk heap ∘
                                  set_user_heap_start heap) ;;
                    mret SUCCESS
                end
            end
    end.
End Loader.
