(* ===== verification/Syscalls.v ===== *)
(** * System calls ([syscalls.c])

    [SyscallDispatch] and the calls that are not in [ipc.c] or [tty.c].  As in
    [Ipc.v], a call that waits has a [_woken] definition for the code after the
    wait, and [caller] is [TrapKernel]'s local. *)

From S2P Require Import Prelude Framework Queue Memory Mmu KernelBrk State Process Ipc Exit.
From S2P Require Import Tty Loader.

Section Syscalls.
Context {F : Framework} {T : Mmu}.

(** ** fork, exit, getpid *)

Definition SysFork_cloned (child : Z) : K Z :=
  cur ← ProcessCurrent;
  if cur =? child then mret 0
  else ProcessMakeReady child ;; c ← get_pcb child; mret (pid c).

Definition SysFork (caller : Z) : K Z :=
  parent ← ProcessCurrent;
  idle ← gets idle_process;
  if (parent =? 0) || (parent =? idle) then mret ERROR
  else
    child ← ProcessCreateChild parent;
    if child =? 0 then mret ERROR
    else
      upd_pcb child (fun c => set_user_context (set_reg 0 0 (user_context c)) c) ;;
      rc ← ProcessCloneKernelContext child (KCSys caller (InFork child));
      if rc =? ERROR then ProcessDestroy child ;; mret ERROR
      else SysFork_cloned child.

Definition SysExit {A} (status : Z) : K A :=
  (ProcessExitCurrent status : K unit) ;; stop_with (Panic "SysExit returned").

Definition SysGetPid : K Z :=
  proc ← ProcessCurrent;
  if proc =? 0 then mret ERROR else p ← get_pcb proc; mret (pid p).

(** ** wait *)

(** The first zombie from [entry] on; the length of the queue bounds the turns. *)
Fixpoint find_zombie (fuel : nat) (proc : Z) (entry : option (qaddr qid eid)) : K Z :=
  if decide (entry = Some (QHead (QChildren proc))) then mret 0
  else
    a ← deref "null entry" entry;
    child ← entry_owner a;
    c ← get_pcb child;
    if decide (state c = PROC_ZOMBIE) then mret child
    else
      n ← in_queues (load a);
      match fuel with
      | O => fault "children longer than their number"
      | S fuel' => find_zombie fuel' proc (next n)
      end.

Definition wait_turn (caller proc status_ptr : Z) : K Z :=
  len ← in_queues (load_length (QChildren proc));
  head ← in_queues (load (QHead (QChildren proc)));
  child ← find_zombie (Z.to_nat len) proc (next head);
  if negb (child =? 0) then
    c ← get_pcb child;
    (if negb (status_ptr =? 0) then in_mem (user_store_word status_ptr (exit_status c)) else skip) ;;
    ProcessDestroy child ;;
    mret (pid c)
  else
    empty ← in_queues (QueueIsEmpty (QChildren proc));
    if (empty : bool) then mret ERROR
    else
      u ← gets uctxt;
      upd_pcb proc (set_state PROC_BLOCKED ∘ set_user_context u ∘ set_waiting_for_child true) ;;
      ProcessSchedule (KCSys caller (InWait proc status_ptr)).

Definition SysWait (caller status_ptr : Z) : K Z :=
  proc ← ProcessCurrent;
  idle ← gets idle_process;
  if (proc =? 0) || (proc =? idle) then mret ERROR else wait_turn caller proc status_ptr.

Definition SysWait_woken (caller proc status_ptr : Z) : K Z :=
  upd_pcb proc (set_waiting_for_child false) ;;
  wait_turn caller proc status_ptr.

(** ** brk, delay *)

Definition SysBrk (addr : Z) : K Z :=
  proc ← ProcessCurrent;
  if proc =? 0 then mret ERROR
  else
    p ← get_pcb proc;
    if (user_heap_start p =? 0) || (addr <? user_heap_start p) || (VMEM_1_LIMIT <=? addr)
    then mret ERROR
    else
      let old_page := (UP_TO_PAGE (user_brk p) - VMEM_1_BASE) ≫ PAGESHIFT in
      let new_page := (UP_TO_PAGE addr - VMEM_1_BASE) ≫ PAGESHIFT in
      if user_stack_low_page p <=? new_page then mret ERROR
      else
        r ← in_mem (grow_pages (region1_pt p) old_page new_page
                      (WriteRegister REG_TLB_FLUSH TLB_FLUSH_1));
        match r with
        | Some rc => mret rc
        | None =>
            in_mem (shrink_pages (region1_pt p) new_page old_page) ;;
            upd_pcb proc (set_user_brk (UP_TO_PAGE addr)) ;;
            in_mem (WriteRegister REG_TLB_FLUSH TLB_FLUSH_1) ;;
            mret SUCCESS
        end.

Definition SysDelay (caller ticks : Z) : K Z :=
  if ticks <? 0 then mret ERROR
  else if ticks =? 0 then mret SUCCESS
  else
    proc ← ProcessCurrent;
    idle ← gets idle_process;
    if (proc =? 0) || (proc =? idle) then mret ERROR
    else
      now ← gets clock_ticks;
      u ← gets uctxt;
      upd_pcb proc (set_state PROC_BLOCKED ∘
                    set_user_context (set_reg 0 (to_uint SUCCESS) u) ∘
                    set_delay_until (to_uint (now + to_uint ticks))) ;;
      ProcessSchedule (KCSys caller (InDelay proc)).

(** ** exec *)

Definition KernelStrDup (src : Z) : K Z :=
  if src =? 0 then mret 0
  else
    s ← in_mem (user_string src);
    let len := Z.of_nat (length s) + 1 in
    dst ← malloc_block len;
    match dst with
    | None => mret 0
    | Some dst => block_write dst 0 (s ++ [0]) ;; mret dst
    end.

(** [calloc(n, sizeof(char * ))]: a block of [n] pointers. *)
Definition calloc_ptrs (n : Z) : K Z :=
  p ← malloc_block (n * sizeof_ptr);
  match p with
  | None => mret 0
  | Some p => put_block p (replicate (Z.to_nat n) 0) ;; mret p
  end.

(** [for (i = 0; args[i] != 0; i++) free(args[i])], from cell [off] on. *)
Fixpoint free_strings (cells : list Z) : K unit :=
  match cells with
  | [] => fault "argument vector without end"
  | a :: cells' => if a =? 0 then mret tt else free_block a ;; free_strings cells'
  end.

Definition FreeExecArgs (name args : Z) : K unit :=
  (if negb (args =? 0) then
     cells ← get_block args; free_strings cells ;; free_block args
   else skip) ;;
  free_block name.

(** [for (argc = 0; argvec[argc] != 0 && argc < 64; argc++)]; at most 65 tests. *)
Fixpoint count_args (fuel : nat) (argvec argc : Z) : K Z :=
  w ← in_mem (user_load_word (argvec + argc * sizeof_ptr));
  if w =? 0 then mret argc
  else if argc <? 64 then
    match fuel with
    | O => fault "endless loop"
    | S fuel' => count_args fuel' argvec (argc + 1)
    end
  else mret argc.

(** [rc], [*name_out], [*args_out]. *)
Definition CopyExecArgs (filename argvec : Z) : K (Z * Z * Z) :=
  if filename =? 0 then mret (ERROR, 0, 0)
  else
    name ← KernelStrDup filename;
    if name =? 0 then mret (ERROR, name, 0)
    else if argvec =? 0 then
      args ← calloc_ptrs 2;
      if args =? 0 then free_block name ;; mret (ERROR, name, 0)
      else
        a ← KernelStrDup filename;
        block_write args 0 [a] ;;
        if a =? 0 then free_block args ;; free_block name ;; mret (ERROR, name, 0)
        else mret (SUCCESS, name, args)
    else
      argc ← count_args 64 argvec 0;
      if argc =? 64 then free_block name ;; mret (ERROR, name, 0)
      else
        args ← calloc_ptrs (argc + 1);
        if args =? 0 then free_block name ;; mret (ERROR, name, 0)
        else
          r ← for_range_ret 0 argc (fun i =>
            src ← in_mem (user_load_word (argvec + i * sizeof_ptr));
            a ← KernelStrDup src;
            block_write args i [a] ;;
            if a =? 0 then FreeExecArgs name args ;; mret (Some ERROR) else mret None);
          match r with
          | Some rc => mret (rc, name, args)
          | None => mret (SUCCESS, name, args)
          end.

(** The C strings behind a zero-terminated vector of pointers. *)
Fixpoint strings_at (cells : list Z) : K (list (list Z)) :=
  match cells with
  | [] => fault "argument vector without end"
  | a :: cells' =>
      if a =? 0 then mret []
      else s ← block_string a 0; l ← strings_at cells'; mret (s :: l)
  end.

Definition SysExec (filename argvec : Z) : K Z :=
  proc ← ProcessCurrent;
  idle ← gets idle_process;
  if (proc =? 0) || (proc =? idle) then mret ERROR
  else
    c ← CopyExecArgs filename argvec;
    let '(rc, name, args) := c in
    if rc =? ERROR then mret ERROR
    else
      name_str ← block_string name 0;
      cells ← get_block args;
      arg_strs ← strings_at cells;
      rc ← LoadProgram name_str arg_strs proc;
      FreeExecArgs name args ;;
      if negb (rc =? SUCCESS) then
        (if rc =? KILL then ProcessExitCurrent ERROR else skip) ;;
        mret ERROR
      else mret SUCCESS.

(** ** Dispatch *)

Definition all_syscalls : list syscall :=
  [YALNIX_FORK; YALNIX_EXEC; YALNIX_EXIT; YALNIX_WAIT; YALNIX_GETPID; YALNIX_BRK; YALNIX_DELAY;
   YALNIX_TTY_READ; YALNIX_TTY_WRITE; YALNIX_PIPE_INIT; YALNIX_PIPE_READ; YALNIX_PIPE_WRITE;
   YALNIX_LOCK_INIT; YALNIX_LOCK_ACQUIRE; YALNIX_LOCK_RELEASE; YALNIX_CVAR_INIT;
   YALNIX_CVAR_SIGNAL; YALNIX_CVAR_BROADCAST; YALNIX_CVAR_WAIT; YALNIX_RECLAIM].

(** The label that [switch (uctxt->code)] selects; the branches are in [SyscallDispatch]. *)
Definition decode (code : Z) : option syscall :=
  List.find (fun c => syscall_number c =? code) all_syscalls.

Definition set_result (rc : Z) : K unit :=
  modify (fun s => set_uctxt (set_reg 0 (to_uint rc) (uctxt s)) s).
Definition load_user_context (proc : Z) : K unit :=
  p ← get_pcb proc; modify (set_uctxt (user_context p)).

Definition SyscallDispatch (caller : Z) : K unit :=
  u ← gets uctxt;
  let r i := reg u i in
  let int_r i := to_int (reg u i) in
  match decode (uc_code u) with
  | Some YALNIX_FORK => rc ← SysFork caller; set_result rc
  | Some YALNIX_EXEC =>
      rc ← SysExec (r 0%nat) (r 1%nat);
      if rc =? SUCCESS then cur ← gets current_process; load_user_context cur
      else set_result ERROR
  | Some YALNIX_EXIT => SysExit (int_r 0%nat)
  | Some YALNIX_WAIT => rc ← SysWait caller (r 0%nat); set_result rc
  | Some YALNIX_GETPID => rc ← SysGetPid; set_result rc
  | Some YALNIX_BRK => rc ← SysBrk (r 0%nat); set_result rc
  | Some YALNIX_DELAY => rc ← SysDelay caller (int_r 0%nat); set_result rc
  | Some YALNIX_TTY_READ =>
      rc ← SysTtyRead caller (int_r 0%nat) (r 1%nat) (int_r 2%nat); set_result rc
  | Some YALNIX_TTY_WRITE =>
      rc ← SysTtyWrite caller (int_r 0%nat) (r 1%nat) (int_r 2%nat); set_result rc
  | Some YALNIX_PIPE_INIT => rc ← SysPipeInit (r 0%nat); set_result rc
  | Some YALNIX_PIPE_READ =>
      rc ← SysPipeRead caller (int_r 0%nat) (r 1%nat) (int_r 2%nat); set_result rc
  | Some YALNIX_PIPE_WRITE =>
      rc ← SysPipeWrite (int_r 0%nat) (r 1%nat) (int_r 2%nat); set_result rc
  | Some YALNIX_LOCK_INIT => rc ← SysLockInit (r 0%nat); set_result rc
  | Some YALNIX_LOCK_ACQUIRE => rc ← SysAcquire caller (int_r 0%nat); set_result rc
  | Some YALNIX_LOCK_RELEASE => rc ← SysRelease (int_r 0%nat); set_result rc
  | Some YALNIX_CVAR_INIT => rc ← SysCvarInit (r 0%nat); set_result rc
  | Some YALNIX_CVAR_SIGNAL => rc ← SysCvarSignal (int_r 0%nat); set_result rc
  | Some YALNIX_CVAR_BROADCAST => rc ← SysCvarBroadcast (int_r 0%nat); set_result rc
  | Some YALNIX_CVAR_WAIT => rc ← SysCvarWait caller (int_r 0%nat) (int_r 1%nat); set_result rc
  | Some YALNIX_RECLAIM => rc ← SysReclaim (int_r 0%nat); set_result rc
  | None => set_result ERROR
  end.
End Syscalls.
