(* ===== verification/Trap.v ===== *)
(** * Trap handlers ([trap.h], [trap.c])

    The handlers and the table [TrapInit] fills.  [TrapInit] is the only writer of the
    static array [trap_vector], so what it holds afterwards is a constant, [trap_table]
    (the loop and the assignments), and the definition [TrapInit] is its one effect outside
    the array, the register write.  The parts of a handler after a call of the scheduler are
    the [_resumed] definitions. *)

From S2P Require Import Prelude Framework Queue Memory Mmu KernelBrk State Process Ipc Exit.
From S2P Require Import Tty Loader Syscalls.

Inductive TrapHandler :=
| HTrapClock | HTrapKernel | HTrapMemory | HTrapAbort | HTrapTtyReceive | HTrapTtyTransmit
| HTrapDisk | HTrapUnhandled.

Section Trap.
Context {F : Framework} {T : Mmu}.

Definition set_vector (t : trap) (h : TrapHandler) (v : list TrapHandler) : list TrapHandler :=
  <[Z.to_nat (trap_number t) := h]> v.

(** The loop and the assignments of [TrapInit]: the contents of [trap_vector] after it. *)
Definition trap_table : list TrapHandler :=
  let v := replicate (Z.to_nat TRAP_VECTOR_SIZE) HTrapUnhandled in
  let v := set_vector TRAP_CLOCK HTrapClock v in
  let v := set_vector TRAP_KERNEL HTrapKernel v in
  let v := set_vector TRAP_MEMORY HTrapMemory v in
  let v := set_vector TRAP_ILLEGAL HTrapAbort v in
  let v := set_vector TRAP_MATH HTrapAbort v in
  let v := set_vector TRAP_TTY_RECEIVE HTrapTtyReceive v in
  let v := set_vector TRAP_TTY_TRANSMIT HTrapTtyTransmit v in
  set_vector TRAP_DISK HTrapDisk v.

(** The last statement of [TrapInit]. *)
Definition TrapInit : K unit := in_mem (WriteRegister REG_VECTOR_BASE trap_vector).

(** [if (current_process != 0) current_process->user_context = *uctxt]. *)
Definition save_current : K unit :=
  cur ← gets current_process;
  u ← gets uctxt;
  if negb (cur =? 0) then upd_pcb cur (set_user_context u) else skip.
(** [if (current_process != 0) *uctxt = current_process->user_context]. *)
Definition load_current : K unit :=
  cur ← gets current_process;
  if negb (cur =? 0) then load_user_context cur else skip.

Definition TrapClock : K unit :=
  save_current ;;
  modify (fun s => set_clock_ticks (to_uint (clock_ticks s + 1)) s) ;;
  ProcessSchedule KCClock.
Definition TrapClock_resumed : K unit := load_current.

(** [TrapKernel] after [SyscallDispatch]. *)
Definition TrapKernel_end (caller : Z) : K unit :=
  cur ← gets current_process;
  u ← gets uctxt;
  (if (caller =? cur) && negb (cur =? 0) then upd_pcb cur (set_user_context u) else skip) ;;
  load_current.

Definition TrapKernel : K unit :=
  caller ← gets current_process;
  save_current ;;
  SyscallDispatch caller ;;
  TrapKernel_end caller.

Definition TrapMemory : K unit :=
  save_current ;;
  cur ← gets current_process;
  u ← gets uctxt;
  rc ← ProcessGrowStack cur (uc_addr u);
  if rc =? SUCCESS then cur ← gets current_process; load_user_context cur
  else
    (ProcessExitCurrent ERROR : K unit) ;;
    load_current.

Definition TrapAbort : K unit :=
  save_current ;;
  (ProcessExitCurrent ERROR : K unit) ;;
  load_current.

(** Both only print a trace message. *)
Definition TrapDisk : K unit := mret tt.
Definition TrapUnhandled : K unit := mret tt.

Definition run_handler (h : TrapHandler) : K unit :=
  match h with
  | HTrapClock => TrapClock
  | HTrapKernel => TrapKernel
  | HTrapMemory => TrapMemory
  | HTrapAbort => TrapAbort
  | HTrapTtyReceive => TrapTtyReceive
  | HTrapTtyTransmit => TrapTtyTransmit
  | HTrapDisk => TrapDisk
  | HTrapUnhandled => TrapUnhandled
  end.

(** The machine's dispatch of a trap, through the array whose address [TrapInit] gave it.  This
    is the hardware, not code of the kernel; traps only come from user mode, which
    the kernel enters after [TrapInit]. *)
Definition handle_trap (vector : Z) : K unit :=
  run_handler (default HTrapUnhandled (zlookup trap_table vector)).

(** ** Resuming a system call

    What a suspended call does when its process runs again, down to the result it
    returns.  The first statement after every wait is [*uctxt = proc->user_context]. *)
Definition resume_sys (caller : Z) (k : sys_point) : K Z :=
  match k with
  | InPipeRead proc pipe_id buf len =>
      load_user_context proc ;; SysPipeRead_woken caller pipe_id buf len
  | InAcquire proc lock_id => load_user_context proc ;; LockAcquire_woken caller lock_id
  | InCvarWait proc cvar_id lock_id =>
      load_user_context proc ;; SysCvarWait_woken caller cvar_id lock_id
  | InTtyRead proc tty_id => load_user_context proc ;; tty_read_turn caller proc tty_id
  | InTtyWrite proc len => load_user_context proc ;; SysTtyWrite_woken proc len
  | InWait proc status_ptr => load_user_context proc ;; SysWait_woken caller proc status_ptr
  | InDelay proc => load_user_context proc ;; mret SUCCESS
  | InFork child => SysFork_cloned child
  end.
End Trap.
