(* ===== verification/KernelStart.v ===== *)
(** * Boot ([kernelstart.c]) and the resumption of kernel threads

    [KernelStart] creates the idle and init processes, turns virtual memory on and
    leaves for init.  [resume] is the table of all suspension points: a
    [KernelContext] run to the end of the trap handler it is in. *)

From S2P Require Import Prelude Framework Queue Memory Mmu KernelBrk State Process Ipc Exit.
From S2P Require Import Tty Loader Syscalls Trap.

Section KernelStart.
Context {F : Framework} {T : Mmu}.

(** The bytes of ["init"]. *)
Definition init_string : list Z := [105; 110; 105; 116].

(** After [ProcessSwitch(init_process)], back in the idle process. *)
Definition KernelStart_switched : K unit :=
  idle ← gets idle_process; load_user_context idle.

(** After [ProcessCloneKernelContext(init_process)]. *)
Definition KernelStart_cloned (init_args : list (list Z)) : K unit :=
  cur ← gets current_process;
  idle ← gets idle_process;
  init ← gets init_process;
  if cur =? idle then
    rc ← ProcessSwitch init KCBootSwitch;
    if rc =? ERROR then KernelPanic "failed to switch to init" else KernelStart_switched
  else
    rc ← LoadProgram (hd [] init_args) init_args init;
    (if negb (rc =? SUCCESS) then KernelPanic "failed to load init" else skip) ;;
    load_user_context init.

Definition KernelStart (cmd_args : list (list Z)) (pmem_size : Z) : K unit :=
  let init_args := match cmd_args with [] => [init_string] | _ => cmd_args end in
  ProcessInit ;;
  in_mem (MemoryInit pmem_size) ;;
  in_mem MemoryBuildKernelRegion0 ;;
  IpcInit ;;
  TtyInit ;;
  TrapInit ;;
  idle ← ProcessCreateIdle;
  modify (set_idle_process idle) ;;
  (if idle =? 0 then KernelPanic "failed to create idle process" else skip) ;;
  ProcessSetCurrent idle ;;
  p ← get_pcb idle;
  in_mem (MemoryInstallPageTables (region1_pt p)) ;;
  in_mem (WriteRegister REG_VM_ENABLE 1) ;;
  in_mem (modify (set_vm_enabled true)) ;;
  in_mem (WriteRegister REG_TLB_FLUSH TLB_FLUSH_ALL) ;;
  init ← ProcessCreateInit;
  modify (set_init_process init) ;;
  (if init =? 0 then KernelPanic "failed to create init process" else skip) ;;
  rc ← ProcessCloneKernelContext init (KCBootClone init_args);
  if rc =? ERROR then KernelPanic "failed to clone init kernel context"
  else KernelStart_cloned init_args.

(** ** Resumption *)

Definition resume (kc : KernelContext) : K unit :=
  match kc with
  | KCNone => fault "kernel context never saved"
  | KCSys caller k => rc ← resume_sys caller k; set_result rc ;; TrapKernel_end caller
  | KCClock => TrapClock_resumed
  | KCZombie => stop_with (Panic "zombie process resumed")
  | KCBootClone args => KernelStart_cloned args
  | KCBootSwitch => KernelStart_switched
  end.

(** Kernel code run until it returns to user mode or stops; [None] is out of fuel. *)
Fixpoint run_kernel (fuel : nat) (o : outcome kst KernelContext unit)
  : option (kst + stop * kst) :=
  match o with
  | Ok _ s => Some (inl s)
  | Stop r s => Some (inr (r, s))
  | Jump kc s =>
      match fuel with
      | O => None
      | S fuel' => run_kernel fuel' (resume kc s)
      end
  end.

(** The globals before boot: everything zero but the machine and the kernel image. *)
Definition kst_boot (m : mem) (u : UserContext) : kst :=
  mkKst m empty_heap ∅ 0 0 0 0 (replicate (Z.to_nat MAX_PROCS) 0)
    (replicate (Z.to_nat IPC_MAX_OBJECTS) ipc_zero)
    (replicate (Z.to_nat NUM_TERMINALS) tty_zero) ∅ ∅ u.
End KernelStart.
