(* ===== verification/Machine.v ===== *)
(** * The running machine

    Between traps a user program runs: it changes its registers and the bytes of the
    pages it may write.  A trap hands its context to the kernel, which runs - through
    any number of context switches - until it returns to user mode.  [reachable] is
    every state the machine can be in, at user mode, after boot. *)

From S2P Require Import Prelude Framework Queue Memory Mmu KernelBrk BootMemory State Process Ipc.
From S2P Require Import Exit Tty Loader Syscalls Trap KernelStart.

Section Machine.
Context {F : Framework} {T : Mmu}.

(** One trap, from user mode to user mode (or the end of the machine). *)
Definition trap_step (fuel : nat) (t : trap) (u : UserContext) (s : kst) : option (kst + stop * kst) :=
  run_kernel fuel (handle_trap (trap_number t) (set_uctxt u s)).

(** The user program changed only bytes it may write. *)
Definition user_writes (s : kst) (ram' : gmap Z Z) : Prop :=
  forall pa, ram (k_mem s) !! pa <> ram' !! pa ->
    exists a, VMEM_1_BASE <= a < VMEM_1_LIMIT /\ translate (k_mem s) true a = Some pa.

Inductive machine_step : kst -> kst -> Prop :=
| step_user s ram' :
    user_writes s ram' -> machine_step s (set_k_mem (set_ram ram' (k_mem s)) s)
| step_trap s t u fuel s' :
    trap_step fuel t u s = Some (inl s') -> machine_step s s'.

(** The states of a run of the machine that was booted with [pmem_size] bytes. *)
Inductive reachable (m0 : mem) (cmd_args : list (list Z)) (pmem_size : Z) : kst -> Prop :=
| reach_boot u fuel s :
    run_kernel fuel (KernelStart cmd_args pmem_size (kst_boot m0 u)) = Some (inl s) ->
    reachable m0 cmd_args pmem_size s
| reach_step s s' :
    reachable m0 cmd_args pmem_size s -> machine_step s s' -> reachable m0 cmd_args pmem_size s'.

(** ** Scripts: the traps of a user program one after another *)

Inductive action :=
| ASyscall (c : syscall) (args : list Z)
| ATrap (t : trap) (code addr : Z).

Definition action_trap (a : action) : trap :=
  match a with ASyscall _ _ => TRAP_KERNEL | ATrap t _ _ => t end.
Definition action_context (a : action) (u : UserContext) : UserContext :=
  match a with
  | ASyscall c args =>
      set_uc_code (syscall_number c)
        (set_uc_regs (args ++ drop (length args) (uc_regs u)) u)
  | ATrap _ code addr => set_uc_addr addr (set_uc_code code u)
  end.

Fixpoint run_script (fuel : nat) (script : list action) (o : option (kst + stop * kst))
  : option (kst + stop * kst) :=
  match script with
  | [] => o
  | a :: script' =>
      match o with
      | Some (inl s) =>
          run_script fuel script' (trap_step fuel (action_trap a) (action_context a (uctxt s)) s)
      | _ => o
      end
  end.

Lemma run_script_reachable m0 args pmem fuel script s s' :
  reachable m0 args pmem s -> run_script fuel script (Some (inl s)) = Some (inl s') ->
  reachable m0 args pmem s'.
Proof.
  revert s. induction script as [|a script IH]; intros s Hs; simpl; [by intros [= <-]|].
  destruct (trap_step fuel (action_trap a) (action_context a (uctxt s)) s) as [[s1|[r s1]]|] eqn:Ht.
  - apply IH. eapply reach_step; [exact Hs|]. by eapply step_trap.
  - by destruct script.
  - by destruct script.
Qed.
End Machine.

(** ** The small machine after boot, for concrete runs *)

Module Booted.
#[local] Existing Instance tiny.
#[local] Existing Instance walking_mmu.

Definition boot : option (kst + stop * kst) :=
  run_kernel 10 (KernelStart [] 4096 (kst_boot mem_boot uc_zero)).
Definition state_of (o : option (kst + stop * kst)) : kst :=
  match o with Some (inl s) => s | _ => kst_boot mem_boot uc_zero end.
Definition booted : kst := Eval vm_compute in state_of boot.
Definition pcb_of (p : Z) (s : kst) : PCB := default pcb_zero (pcbs s !! p).

(** The PCBs of idle and init. *)
Definition idle : Z := 2.
Definition init : Z := 4.

Lemma booted_reachable : reachable mem_boot [] 4096 booted.
Proof. apply (reach_boot mem_boot [] 4096 uc_zero 10). vm_compute. reflexivity. Qed.
End Booted.
