(* ===== verification/UserMemory.v ===== *)
(** * User heap and stack ([SysBrk], [ProcessGrowStack])

    The two operations that change a process's memory while it runs.  [user_ok] is
    the layout invariant between them: the pages between the break and the stack are
    unmapped, and every frame has one owner. *)

From S2P Require Import Prelude Framework Queue Memory Mmu KernelBrk BootMemory State Process Ipc.
From S2P Require Import Exit Tty Loader Syscalls Trap KernelStart Machine.

Section UserMemory.
Context {F : Framework} {T : Mmu} {FL : FrameworkLaws F}.

(** The first page above the heap. *)
Definition brk_page (pcb : PCB) : Z := (UP_TO_PAGE (user_brk pcb) - VMEM_1_BASE) ≫ PAGESHIFT.

(** Process [p] owns its user memory: [ext] are all other frames in use. *)
Record user_ok (s : kst) (p : Z) (pcb : PCB) (ext : list Z) : Prop := {
  user_pcb : pcbs s !! p = Some pcb;
  user_nonnull : p <> 0;
  user_accounted : accounted (k_mem s) (region1_pt pcb) ext;
  user_heap : VMEM_1_BASE <= user_heap_start pcb \/ user_heap_start pcb = 0;
  user_break : VMEM_1_BASE <= user_brk pcb <= VMEM_1_LIMIT;
  user_gap : brk_page pcb <= user_stack_low_page pcb <= MAX_PT_LEN;
  user_gap_unmapped : unmapped_in (k_mem s) (region1_pt pcb) (brk_page pcb) (user_stack_low_page pcb)
}.

Lemma brk_page_bounds s p pcb ext : user_ok s p pcb ext -> 0 <= brk_page pcb <= MAX_PT_LEN.
Proof. intros H. apply up_to_page_region1_bounds, (user_break _ _ _ _ H). Qed.

(** A PCB field changed in state [s] whose memory became [m]. *)
Definition with_pcb (p : Z) (pcb : PCB) (m : mem) (s : kst) : kst :=
  set_pcbs (<[p := pcb]> (pcbs s)) (set_k_mem m s).

(** ** brk *)

(** An address [SysBrk] does not refuse. *)
Definition heap_request (pcb : PCB) (addr : Z) : Prop :=
  user_heap_start pcb <> 0 /\ user_heap_start pcb <= addr < VMEM_1_LIMIT.

(** The answers of [SysBrk addr] for process [p], with the state each leaves. *)
Inductive sysbrk_outcome (s : kst) (p : Z) (pcb : PCB) (ext : list Z) (addr : Z) : Z -> kst -> Prop :=
| sysbrk_refused :
    ~ heap_request pcb addr \/
      user_stack_low_page pcb <= (UP_TO_PAGE addr - VMEM_1_BASE) ≫ PAGESHIFT ->
    sysbrk_outcome s p pcb ext addr ERROR s
| sysbrk_grown m1 :
    let new_page := (UP_TO_PAGE addr - VMEM_1_BASE) ≫ PAGESHIFT in
    heap_request pcb addr -> brk_page pcb <= new_page < user_stack_low_page pcb ->
    grown (k_mem s) m1 (region1_pt pcb) (brk_page pcb) new_page ext ->
    sysbrk_outcome s p pcb ext addr SUCCESS
      (with_pcb p (set_user_brk (UP_TO_PAGE addr) pcb) (write_reg REG_TLB_FLUSH TLB_FLUSH_1 m1) s)
| sysbrk_shrunk m1 :
    let new_page := (UP_TO_PAGE addr - VMEM_1_BASE) ≫ PAGESHIFT in
    heap_request pcb addr -> new_page < brk_page pcb ->
    shrunk (k_mem s) m1 (region1_pt pcb) new_page (brk_page pcb) ext ->
    sysbrk_outcome s p pcb ext addr SUCCESS
      (with_pcb p (set_user_brk (UP_TO_PAGE addr) pcb) (write_reg REG_TLB_FLUSH TLB_FLUSH_1 m1) s)
| sysbrk_no_memory m1 :
    let new_page := (UP_TO_PAGE addr - VMEM_1_BASE) ≫ PAGESHIFT in
    heap_request pcb addr -> brk_page pcb <= new_page < user_stack_low_page pcb ->
    grow_failed (k_mem s) m1 (region1_pt pcb) (brk_page pcb) new_page ext ERROR ->
    sysbrk_outcome s p pcb ext addr ERROR (set_k_mem m1 s).

Lemma quiet_flush r v : r <> REG_PTBR0 -> r <> REG_PTBR1 -> quiet (WriteRegister r v).
Proof. intros H0 H1 s. right. exists (EvReg r v). by destruct r. Qed.

Lemma SysBrk_outcome s pcb ext addr :
  user_ok s (current_process s) pcb ext ->
  returns (SysBrk addr) (sysbrk_outcome s (current_process s) pcb ext addr) s.
Proof.
  intros Hok. pose proof (brk_page_bounds _ _ _ _ Hok) as Hbp.
  destruct Hok as [Hp Hnz Hacc Hheap Hbrk Hgap Hun]. set (p := current_process s) in *.
  unfold SysBrk, ProcessCurrent. eapply wp_step; [reflexivity|]. fold p. test_false (p =? 0).
  run_step.
  case_test; [eapply returns_ok; [reflexivity|apply sysbrk_refused; left; unfold heap_request; intuition; bool_to_prop; lia]|].
  assert (Hreq : heap_request pcb addr) by (unfold heap_request; lia).
  fold (brk_page pcb). set (new_page := (UP_TO_PAGE addr - VMEM_1_BASE) ≫ PAGESHIFT).
  assert (Haddr : VMEM_1_BASE <= addr <= VMEM_1_LIMIT) by (unfold heap_request in Hreq; lia).
  pose proof (up_to_page_region1_bounds addr Haddr) as Hnp. fold new_page in Hnp.
  case_test; [eapply returns_ok; [reflexivity|apply sysbrk_refused; lia]|].
  destruct (decide (brk_page pcb <= new_page)) as [Hle|Hgt].
  - eapply returns_bind.
    { apply returns_in_mem, (grow_pages_ok _ _ ext _ _ _ (quiet_flush REG_TLB_FLUSH TLB_FLUSH_1 ltac:(done) ltac:(done)));
        [done| |lia|lia]. intros j Hj. apply Hun. lia. }
    intros [rc|] s1 (m1 & -> & Hm1).
    + pose proof (failed_rc _ _ _ _ _ _ _ Hm1) as ->. eapply returns_ok; [reflexivity|].
      apply sysbrk_no_memory; [done|fold new_page; lia|done].
    + eapply wp_step; [apply in_mem_run, for_range_empty; lia|].
      eapply wp_step; [by apply upd_pcb_run|]. eapply wp_step; [reflexivity|].
      eapply returns_ok; [reflexivity|]. apply (sysbrk_grown s p pcb ext addr m1); [done|fold new_page; lia|done].
  - eapply wp_step; [apply in_mem_run, for_range_ret_empty; lia|]. cbv beta iota.
    eapply returns_bind.
    { apply returns_in_mem, (shrink_pages_ok _ _ ext _ _ Hacc); lia. }
    intros ? s1 (m1 & -> & Hm1). eapply wp_step; [by apply upd_pcb_run|].
    eapply wp_step; [reflexivity|]. eapply returns_ok; [reflexivity|].
    apply (sysbrk_shrunk s p pcb ext addr m1); [done|fold new_page; lia|done].
Qed.

(** The gap of a process whose memory changed: what is left to show. *)
Lemma user_ok_with s p pcb ext pcb' m' :
  user_ok s p pcb ext ->
  region1_pt pcb' = region1_pt pcb -> user_heap_start pcb' = user_heap_start pcb ->
  accounted m' (region1_pt pcb) ext ->
  VMEM_1_BASE <= user_brk pcb' <= VMEM_1_LIMIT ->
  brk_page pcb' <= user_stack_low_page pcb' <= MAX_PT_LEN ->
  unmapped_in m' (region1_pt pcb) (brk_page pcb') (user_stack_low_page pcb') ->
  user_ok (with_pcb p pcb' (write_reg REG_TLB_FLUSH TLB_FLUSH_1 m') s) p pcb' ext.
Proof.
  intros [? ? ? ? ? ? ?] Hpt Hh Ha Hb Hg Hu. split; simpl; rewrite ?Hpt, ?Hh; try done.
  - by rewrite lookup_insert_eq.
  - by apply accounted_log.
Qed.

(** The break of a granted request, in pages. *)
Lemma request_page s p pcb ext addr :
  user_ok s p pcb ext -> heap_request pcb addr ->
  let pcb' := set_user_brk (UP_TO_PAGE addr) pcb in
  brk_page pcb' = (UP_TO_PAGE addr - VMEM_1_BASE) ≫ PAGESHIFT /\ 0 <= brk_page pcb' /\
  VMEM_1_BASE <= user_brk pcb' <= VMEM_1_LIMIT.
Proof.
  intros Hok [Hne Haddr]. simpl. unfold brk_page. simpl.
  assert (Hr : VMEM_1_BASE <= addr <= VMEM_1_LIMIT) by (destruct (user_heap _ _ _ _ Hok); lia).
  pose proof (up_to_page_aligned addr Hr) as [Hb Hi]. rewrite Hi.
  pose proof (up_to_page_region1_bounds addr Hr). done || lia.
Qed.

Lemma sysbrk_keeps s p pcb ext addr rc s' :
  user_ok s p pcb ext -> sysbrk_outcome s p pcb ext addr rc s' ->
  exists pcb', user_ok s' p pcb' ext.
Proof.
  intros Hok Hout. pose proof (user_gap _ _ _ _ Hok) as Hgap.
  pose proof (user_gap_unmapped _ _ _ _ Hok) as Hun.
  destruct Hout as [Hr|m1 np Hq Hr Hg|m1 np Hq Hr Hs|m1 np Hq Hr Hf]; [by exists pcb|..|].
  - pose proof (request_page _ _ _ _ _ Hok Hq) as (Hbp & Hb0 & Hb). fold np in Hbp. simpl in Hbp, Hb0.
    eexists. apply (user_ok_with s p pcb ext _ m1 Hok); try done.
    + apply (grown_accounted _ _ _ _ _ _ Hg).
    + rewrite Hbp. simpl. lia.
    + rewrite Hbp. intros j Hj. simpl in Hj. rewrite (grown_others _ _ _ _ _ _ Hg) by lia. apply Hun. lia.
  - pose proof (request_page _ _ _ _ _ Hok Hq) as (Hbp & Hb0 & Hb). fold np in Hbp. simpl in Hbp, Hb0.
    eexists. apply (user_ok_with s p pcb ext _ m1 Hok); try done.
    + apply (shrunk_accounted _ _ _ _ _ _ Hs).
    + rewrite Hbp. simpl. lia.
    + rewrite Hbp. intros j Hj. simpl in Hj. destruct (decide (j < brk_page pcb)).
      * apply (shrunk_pages _ _ _ _ _ _ Hs). lia.
      * rewrite (shrunk_others _ _ _ _ _ _ Hs) by lia. apply Hun. lia.
  - destruct Hf as [_ [Ha Ho Hp Hs] _ _]. exists pcb.
    destruct Hok as [? ? ? ? ? ? _]. split; simpl; try done.
    intros j Hj. destruct (decide (brk_page pcb <= j < np)); [by apply Hp|].
    rewrite Hs by done. by apply Hun.
Qed.

(** ** Stack growth *)

Definition fault_page (addr : Z) : Z := (addr - VMEM_1_BASE) ≫ PAGESHIFT.

(** The answers of [ProcessGrowStack p addr]. *)
Inductive grow_outcome (s : kst) (p : Z) (pcb : PCB) (ext : list Z) (addr : Z) : Z -> kst -> Prop :=
| grow_refused :
    ~ VMEM_1_BASE <= addr < VMEM_1_LIMIT \/ user_stack_low_page pcb <= fault_page addr \/
      fault_page addr <= brk_page pcb ->
    grow_outcome s p pcb ext addr ERROR s
| grow_done m1 :
    brk_page pcb < fault_page addr < user_stack_low_page pcb ->
    grown (k_mem s) m1 (region1_pt pcb) (fault_page addr) (user_stack_low_page pcb) ext ->
    grow_outcome s p pcb ext addr SUCCESS
      (with_pcb p (set_user_stack_low_page (fault_page addr) pcb)
         (write_reg REG_TLB_FLUSH TLB_FLUSH_1 m1) s)
| grow_no_memory m1 k :
    brk_page pcb < fault_page addr <= k -> k < user_stack_low_page pcb ->
    grown (k_mem s) m1 (region1_pt pcb) (k + 1) (user_stack_low_page pcb) ext ->
    (forall f, 0 <= f < physical_frame_count m1 -> used m1 f) ->
    grow_outcome s p pcb ext addr ERROR (set_k_mem m1 s).

(** The loop of [ProcessGrowStack], over memory alone. *)
Lemma grow_down_loop m pt ext lo hi s :
  k_mem s = m -> accounted m pt ext -> unmapped_in m pt lo hi -> 0 <= lo <= hi -> hi <= MAX_PT_LEN ->
  returns (for_down_ret (Z.to_nat (hi - lo)) (hi - 1) (grow_stack_page pt)) (fun r s' =>
    exists m1, s' = set_k_mem m1 s /\
    match r with
    | None => grown m m1 pt lo hi ext
    | Some rc => rc = ERROR /\ exists k, lo <= k < hi /\ grown m m1 pt (k + 1) hi ext /\
        forall f, 0 <= f < physical_frame_count m1 -> used m1 f
    end) s.
Proof.
  intros Hm Ha Hun Hlo Hhi. eapply returns_mono.
  - apply (wp_for_down_ret
      (fun i s' => exists m1, s' = set_k_mem m1 s /\ grown m m1 pt (i + 1) hi ext)
      (fun rc s' => exists m1, s' = set_k_mem m1 s /\ rc = ERROR /\
         exists k, lo <= k < hi /\ grown m m1 pt (k + 1) hi ext /\
         forall f, 0 <= f < physical_frame_count m1 -> used m1 f)).
    + exists m. split; [subst; by destruct s|]. replace (hi - 1 + 1) with hi by lia.
      split; [done|apply outside_refl|intros j ?; lia|done|]. exists []. split; [simpl; lia|auto].
    + intros k s1 Hk (m1 & -> & Hg). pose proof Hg as [Has Ho Hp Hs Hc]. unfold wp, grow_stack_page.
      destruct (Hun k) as (e0 & He0 & Hv); [lia|]. rewrite <- (Hs k) in He0 by lia.
      destruct (alloc_map_step m1 pt ext k e0 prot_rw FL Has) as
        [(f & m2 & m3 & Hal & Hne & Hf & Hnu & Hmap & Hst & Hu2)|[Hal Hfull]]; [lia|done|done|..].
      * rewrite (bind_ok _ _ _ _ _ (in_mem_run FrameAlloc (set_k_mem m1 s) _ _ Hal)).
        test_false (f =? ERROR).
        rewrite (bind_ok _ _ _ _ _ (in_mem_run (MemoryMapPage pt k f _) (set_k_mem m2 (set_k_mem m1 s)) _ _ Hmap)).
        pose proof error_not_success. test_false (SUCCESS =? ERROR). simpl.
        exists m3. split; [done|]. replace (k - 1 + 1) with k by lia.
        apply (grown_step m m1 m3 pt (k + 1) hi k hi k ext f); try done; try lia.
        intros j Hj. apply Hun. lia.
      * rewrite (bind_ok _ _ _ _ _ (in_mem_run FrameAlloc (set_k_mem m1 s) _ _ Hal)).
        test_true (ERROR =? ERROR). simpl. exists m1. split_and!; [done|done|]. exists k. split; [lia|done].
  - intros [rc|] s' (m1 & -> & Hpost); exists m1; (split; [done|]).
    + exact Hpost.
    + by replace (hi - 1 - Z.of_nat (Z.to_nat (hi - lo)) + 1) with lo in Hpost by lia.
Qed.

Lemma ProcessGrowStack_outcome s p pcb ext addr :
  user_ok s p pcb ext ->
  returns (ProcessGrowStack p addr) (grow_outcome s p pcb ext addr) s.
Proof.
  intros Hok. pose proof (brk_page_bounds _ _ _ _ Hok) as Hbp.
  destruct Hok as [Hp Hnz Hacc Hheap Hbrk Hgap Hun]. unfold ProcessGrowStack. test_false (p =? 0).
  case_test; [eapply returns_ok; [reflexivity|apply grow_refused; left; intuition; bool_to_prop; lia]|].
  run_step. cbv zeta. fold (fault_page addr). fold (brk_page pcb).
  case_test; [eapply returns_ok; [reflexivity|apply grow_refused; lia]|].
  eapply returns_bind.
  { apply (grow_down_loop (k_mem s) (region1_pt pcb) ext (fault_page addr)); [done|done| |lia|lia].
    intros j Hj. apply Hun. lia. }
  intros [rc|] s1 (m1 & -> & Hpost).
  - destruct Hpost as (-> & k & Hk & Hg & Hfull). eapply returns_ok; [reflexivity|].
    apply (grow_no_memory s p pcb ext addr m1 k); [lia|lia|done|done].
  - eapply wp_step; [by apply upd_pcb_run|]. eapply wp_step; [reflexivity|].
    eapply returns_ok; [reflexivity|]. apply (grow_done s p pcb ext addr m1); [lia|done].
Qed.

Lemma grow_keeps s p pcb ext addr rc s' :
  user_ok s p pcb ext -> grow_outcome s p pcb ext addr rc s' -> rc = SUCCESS ->
  exists pcb', user_ok s' p pcb' ext /\ brk_page pcb' < user_stack_low_page pcb'.
Proof.
  intros Hok Hout Hrc. pose proof error_not_success.
  destruct Hout as [Hr|m1 Hr Hg|m1 k Hr Hk Hg Hfull]; [congruence| |congruence].
  exists (set_user_stack_low_page (fault_page addr) pcb).
  split; [|change (brk_page _) with (brk_page pcb); simpl; lia].
  pose proof (user_gap _ _ _ _ Hok) as Hgap. pose proof (user_gap_unmapped _ _ _ _ Hok) as Hun.
  apply (user_ok_with s p pcb ext _ m1 Hok); try done.
  - apply (grown_accounted _ _ _ _ _ _ Hg).
  - apply (user_break _ _ _ _ Hok).
  - change (brk_page _) with (brk_page pcb). simpl. lia.
  - change (brk_page _) with (brk_page pcb). simpl. intros j Hj.
    rewrite (grown_others _ _ _ _ _ _ Hg) by lia. apply Hun. lia.
Qed.

(** ** Properties *)

(** C7: [SysBrk] on every branch.  It refuses an address outside the heap or past the
    stack and changes nothing; it maps exactly the missing pages with fresh frames, or
    unmaps and frees exactly the pages given back; short of frames it undoes all it did.
    In every case the layout invariant of the process holds afterwards. *)
Theorem sysbrk_correct s pcb ext addr :
  user_ok s (current_process s) pcb ext ->
  returns (SysBrk addr) (fun rc s' =>
    sysbrk_outcome s (current_process s) pcb ext addr rc s' /\
    exists pcb', user_ok s' (current_process s) pcb' ext) s.
Proof.
  intros Hok. eapply returns_mono; [by apply SysBrk_outcome|]. intros rc s' Hout.
  split; [done|]. by eapply sysbrk_keeps.
Qed.

(** C8: [ProcessGrowStack] on every branch.  It refuses an address outside Region 1, at
    or above the stack, or not strictly above the page of the break; on success exactly
    the pages from the fault up to the old stack are mapped, with fresh frames, the
    layout invariant holds and the stack has not met the break; when frames run out it
    fails and the pages mapped so far stay mapped, with every frame still accounted for. *)
Theorem grow_stack_correct s p pcb ext addr :
  user_ok s p pcb ext ->
  returns (ProcessGrowStack p addr) (fun rc s' =>
    grow_outcome s p pcb ext addr rc s' /\ accounted (k_mem s') (region1_pt pcb) ext /\
    (rc = SUCCESS -> exists pcb', user_ok s' p pcb' ext /\ brk_page pcb' < user_stack_low_page pcb')) s.
Proof.
  intros Hok. eapply returns_mono; [by apply ProcessGrowStack_outcome|]. intros rc s' Hout.
  split_and!; [done| |intros Hrc; by eapply grow_keeps].
  destruct Hout as [Hr|m1 Hr Hg|m1 k Hr Hk Hg Hfull]; simpl.
  - apply (user_accounted _ _ _ _ Hok).
  - apply accounted_log, (grown_accounted _ _ _ _ _ _ Hg).
  - apply (grown_accounted _ _ _ _ _ _ Hg).
Qed.
End UserMemory.

(** ** Witnesses: the init process after boot *)

Module UserMemoryWitness.
Import Booted.
#[local] Existing Instance tiny.
#[local] Existing Instance tiny_laws.
#[local] Existing Instance walking_mmu.

Definition kernel_frames : list Z := seqZ 0 11 ++ [14; 15].

Lemma init_ok : user_ok booted init (pcb_of init booted) kernel_frames.
Proof.
  split; try (vm_compute; first [reflexivity | discriminate | split; discriminate]).
  - apply accounted_b_sound. vm_compute. reflexivity.
  - left. vm_compute. discriminate.
  - apply unmapped_b_sound. vm_compute. reflexivity.
Qed.

Lemma sysbrk_correct_witness :
  returns (SysBrk 1300) (fun rc s' =>
    sysbrk_outcome booted (current_process booted) (pcb_of init booted) kernel_frames 1300 rc s' /\
    exists pcb', user_ok s' (current_process booted) pcb' kernel_frames) booted /\
  result (SysBrk 1300 booted) = Some SUCCESS.
Proof.
  split; [|vm_compute; reflexivity].
  apply (sysbrk_correct booted (pcb_of init booted) kernel_frames 1300 init_ok).
Defined.

Lemma grow_stack_correct_witness :
  returns (ProcessGrowStack init 1900) (fun rc s' =>
    grow_outcome booted init (pcb_of init booted) kernel_frames 1900 rc s' /\
    accounted (k_mem s') (region1_pt (pcb_of init booted)) kernel_frames /\
    (rc = SUCCESS -> exists pcb', user_ok s' init pcb' kernel_frames /\
       brk_page pcb' < user_stack_low_page pcb')) booted /\
  result (ProcessGrowStack init 1900 booted) = Some SUCCESS.
Proof.
  split; [|vm_compute; reflexivity].
  apply (grow_stack_correct booted init (pcb_of init booted) kernel_frames 1900 init_ok).
Defined.
End UserMemoryWitness.
