(* ===== verification/Scheduler.v ===== *)
(** * The scheduler refines an abstract one

    The abstract scheduler works on the PCBs and on the lists of the queues, with no
    pointers: [spec_make_ready], [spec_wake], [spec_next].  [kq_ok] ties a kernel state
    to the lists: every queue holds the kind of entry it is for, every live PCB owns
    its entries.  The theorems state that the C code computes what the abstract
    scheduler does. *)

From S2P Require Import Prelude Framework Queue Memory Mmu KernelBrk BootMemory State Process Ipc.
From S2P Require Import Exit Tty Loader Syscalls Trap KernelStart Machine.

Abbreviation qlists := (gmap qid (list eid)).

(** Which entries a queue is for. *)
Definition fits (q : qid) (e : eid) : bool :=
  match q, e with
  | QReady, EReady _ | QChildren _, EChild _ | QIpc _, EBlock _ | QTtyRead _, EBlock _
  | QTtyWrite _, EBlock _ | QTtyInput _, ELine _ => true
  | _, _ => false
  end.

(** The process an entry belongs to. *)
Definition entry_proc (e : eid) : option Z :=
  match e with EReady p | EBlock p | EChild p => Some p | ELine _ => None end.

Record kq_ok (s : kst) (c : qlists) : Prop := {
  kq_abs : qabs (k_queues s) c;
  kq_fits : forall q l e, c !! q = Some l -> e ∈ l -> fits q e = true;
  kq_live : forall q l e p, c !! q = Some l -> e ∈ l -> entry_proc e = Some p -> is_Some (pcbs s !! p);
  kq_owner : forall p e, is_Some (pcbs s !! p) -> entry_proc e = Some p ->
    owner_of (k_queues s) (QEnt e) = Some p;
  kq_nonnull : pcbs s !! 0 = None;
  kq_ready : is_Some (c !! QReady)
}.

Section Scheduler.
Context {F : Framework} {T : Mmu}.

(** ** The abstract scheduler *)

(** PCBs and queues, without pointers. *)
Abbreviation sstate := (gmap Z PCB * qlists)%type.

Definition spec_make_ready (idle p : Z) (st : sstate) : sstate :=
  let '(P, c) := st in
  if (p =? 0) || (p =? idle) then st
  else match P !! p with
       | None => st
       | Some pcb =>
           if decide (state pcb = PROC_ZOMBIE) then st
           else (<[p := set_state PROC_READY pcb]> P,
                 if decide (queued c (EReady p)) then c else spec_push QReady (EReady p) c)
       end.

(** Has the delay of a blocked process run out? *)
Definition expired (ticks : Z) (pcb : PCB) : bool :=
  bool_decide (state pcb = PROC_BLOCKED) && negb (delay_until pcb =? 0) && (delay_until pcb <=? ticks).

Definition spec_wake_one (idle ticks p : Z) (st : sstate) : sstate :=
  match st.1 !! p with
  | Some pcb =>
      if expired ticks pcb
      then spec_make_ready idle p (<[p := set_delay_until 0 pcb]> st.1, st.2) else st
  | None => st
  end.
Definition spec_wake (idle ticks : Z) (table : list Z) (st : sstate) : sstate :=
  foldl (fun st p => spec_wake_one idle ticks p st) st table.

(** A running process goes to the back of the ready queue. *)
Definition spec_yield (idle current : Z) (st : sstate) : sstate :=
  match st.1 !! current with
  | Some pcb =>
      if decide (state pcb = PROC_RUNNING) then spec_make_ready idle current st else st
  | None => st
  end.

(** The process to run next, and the queues without it. *)
Definition spec_next (idle : Z) (st : sstate) : Z * sstate :=
  match spec_pop QReady st.2 with
  | (Some (EReady p), c') => (p, (st.1, c'))
  | _ => (idle, st)
  end.

Definition spec_schedule (idle current ticks : Z) (table : list Z) (st : sstate) : Z * sstate :=
  spec_next idle (spec_yield idle current (spec_wake idle ticks table st)).

#[local] Arguments spec_make_ready : simpl never.

(** ** Preservation of [kq_ok] *)

Definition with_sched (P : gmap Z PCB) (h : qheap qid eid) (s : kst) : kst :=
  set_k_queues h (set_pcbs P s).

(** PCB fields may change as long as no PCB comes or goes. *)
Lemma kq_ok_pcbs s c P :
  kq_ok s c -> (forall p, is_Some (P !! p) <-> is_Some (pcbs s !! p)) -> kq_ok (set_pcbs P s) c.
Proof.
  intros [Ha Hf Hl Ho Hn Hr] HP. split; simpl; try done.
  - intros. apply HP. by eapply Hl.
  - intros p e Hp. apply Ho. by apply HP.
  - destruct (P !! 0) eqn:H0; [|done]. assert (is_Some (P !! 0)) as [? ?]%HP by eauto. congruence.
Qed.

Lemma kq_ok_pcb s c p pcb pcb' :
  kq_ok s c -> pcbs s !! p = Some pcb -> kq_ok (set_pcbs (<[p := pcb']> (pcbs s)) s) c.
Proof.
  intros Hk Hp. apply kq_ok_pcbs; [done|]. intros p'. destruct (decide (p = p')) as [<-|Hne].
  - rewrite lookup_insert_eq, Hp. split; eauto.
  - by rewrite lookup_insert_ne.
Qed.

(** The queues moved from [c] to [c'] by operations that keep the owners. *)
Lemma kq_ok_queues s c h' c' :
  kq_ok s c -> qabs h' c' -> same_owners (k_queues s) h' ->
  (forall q l e, c' !! q = Some l -> e ∈ l ->
     (exists l0, c !! q = Some l0 /\ e ∈ l0) \/
     fits q e = true /\ exists p, entry_proc e = Some p /\ is_Some (pcbs s !! p)) ->
  is_Some (c' !! QReady) -> kq_ok (set_k_queues h' s) c'.
Proof.
  intros [Ha Hf Hl Ho Hn Hr] Ha' Hso Hnew Hr'. split; simpl; try done.
  - intros q l e Hq He. destruct (Hnew q l e Hq He) as [(l0 & ? & ?)|[? _]]; [by eapply Hf|done].
  - intros q l e p Hq He Hp. destruct (Hnew q l e Hq He) as [(l0 & ? & ?)|(_ & p' & Hp' & ?)].
    + by eapply Hl.
    + by simplify_eq.
  - intros p e Hp He. rewrite (Hso e). by apply Ho.
Qed.

Lemma kq_cell s c p e :
  kq_ok s c -> is_Some (pcbs s !! p) -> entry_proc e = Some p -> cell_of (k_queues s) e.
Proof.
  intros Hk Hp He. pose proof (kq_owner _ _ Hk p e Hp He) as Ho. unfold owner_of in Ho.
  unfold cell_of. destruct (cells (k_queues s) !! QEnt e); [eauto|done].
Qed.

(** Pushing an entry that is in no queue. *)
Lemma kq_push s c q l e p :
  kq_ok s c -> c !! q = Some l -> ~ queued c e -> fits q e = true -> entry_proc e = Some p ->
  is_Some (pcbs s !! p) ->
  exists h', (in_queues (QueuePushBack q e) : K unit) s = Ok tt (set_k_queues h' s) /\
    kq_ok (set_k_queues h' s) (spec_push q e c).
Proof.
  intros Hk Hq Hnq Hfit Hep Hp.
  destruct (QueuePushBack_ok _ _ q l e (kq_abs _ _ Hk) Hq) as (h' & Hr & Ha & Ho); [by eapply kq_cell|done|].
  exists h'. split; [by apply in_queues_run|].
  assert (Hc : spec_push q e c = <[q := l ++ [e]]> c) by (unfold spec_push; by rewrite (alter_Some _ _ _ _ Hq)).
  rewrite Hc. eapply kq_ok_queues; [done|done|done|..].
  - intros q' l' e'. destruct (decide (q = q')) as [<-|Hne].
    + rewrite lookup_insert_eq. intros [= <-] [?| ->%list_elem_of_singleton]%elem_of_app; [left; eauto|].
      right. eauto.
    + rewrite lookup_insert_ne by done. left. eauto.
  - destruct (decide (q = QReady)) as [->|Hne]; [by rewrite lookup_insert_eq|].
    rewrite lookup_insert_ne by done. apply (kq_ready _ _ Hk).
Qed.

(** Popping the front of a queue of process entries. *)
Lemma kq_pop s c q e l p :
  kq_ok s c -> c !! q = Some (e :: l) -> entry_proc e = Some p ->
  exists h', (in_queues (QueuePopFront q) : K _) s = Ok (Some (QEnt e)) (set_k_queues h' s) /\
    entry_owner (QEnt e) (set_k_queues h' s) = Ok p (set_k_queues h' s) /\
    kq_ok (set_k_queues h' s) (<[q := l]> c) /\ ~ queued (<[q := l]> c) e /\ is_Some (pcbs s !! p).
Proof.
  intros Hk Hq Hep. assert (He : e ∈ e :: l) by set_solver.
  destruct (QueuePopFront_ok _ _ q (kq_abs _ _ Hk)) as (h' & Hr & Ha & Ho); [eauto|].
  unfold spec_pop in *. rewrite Hq in *. simpl in *.
  pose proof (kq_live _ _ Hk _ _ _ _ Hq He Hep) as Hlive.
  exists h'. split_and!; [by apply in_queues_run| | | |done].
  - pose proof (kq_owner _ _ Hk p e Hlive Hep) as Howner. rewrite <- (Ho e) in Howner.
    unfold owner_of in Howner. destruct (cells h' !! QEnt e) as [n|] eqn:Hn; [|done].
    simpl in Howner. simplify_eq. unfold entry_owner.
    rewrite (bind_ok _ _ _ _ _ (in_queues_run (load (QEnt e)) (set_k_queues h' s) n h'
      ltac:(unfold load; simpl; by rewrite Hn))). by destruct s.
  - eapply kq_ok_queues; [done|done|done|..].
    + intros q' l' e'. destruct (decide (q = q')) as [<-|Hne].
      * rewrite lookup_insert_eq. intros [= <-] ?. left. exists (e :: l). set_solver.
      * rewrite lookup_insert_ne by done. left. eauto.
    + destruct (decide (q = QReady)) as [->|Hne]; [by rewrite lookup_insert_eq|].
      rewrite lookup_insert_ne by done. apply (kq_ready _ _ Hk).
  - intros (q' & l' & Hq' & He'). pose proof (qabs_nodup _ _ (kq_abs _ _ Hk) _ _ Hq) as Hnd.
    destruct (decide (q = q')) as [<-|Hne].
    + rewrite lookup_insert_eq in Hq'. simplify_eq. by inversion Hnd.
    + rewrite lookup_insert_ne in Hq' by done. apply Hne.
      by eapply (qabs_disjoint _ _ (kq_abs _ _ Hk)).
Qed.

(** ** MakeReady *)

(** The code computes [spec_make_ready]. *)
Definition sim (s s' : kst) (c' : qlists) (P' : gmap Z PCB) : Prop :=
  exists h', s' = with_sched P' h' s /\ kq_ok s' c'.

Lemma sim_refl s c : kq_ok s c -> sim s s c (pcbs s).
Proof. intros. exists (k_queues s). split; [|done]. by destruct s. Qed.

Lemma sim_trans s s1 s2 c1 P1 c2 P2 : sim s s1 c1 P1 -> sim s1 s2 c2 P2 -> sim s s2 c2 P2.
Proof. intros (h1 & -> & _) (h2 & -> & ?). by exists h2. Qed.

Lemma ProcessMakeReady_ok s c p :
  kq_ok s c -> p = 0 \/ is_Some (pcbs s !! p) ->
  let '(P', c') := spec_make_ready (idle_process s) p (pcbs s, c) in
  returns (ProcessMakeReady p) (fun _ s' => sim s s' c' P') s.
Proof.
  intros Hk Hp. unfold ProcessMakeReady, spec_make_ready.
  case_test; [eapply returns_ok; [rewrite bind_gets; test_true ((p =? 0) || (p =? idle_process s)); reflexivity|by apply sim_refl]|].
  destruct Hp as [?|[pcb Hp]]; [lia|]. rewrite Hp.
  destruct (decide (state pcb = PROC_ZOMBIE)) as [Hz|Hz].
  - eapply wp_step; [reflexivity|]. test_false ((p =? 0) || (p =? idle_process s)).
    run_step. rewrite decide_True by done.
    eapply returns_ok; [reflexivity|by apply sim_refl].
  - eapply wp_step; [reflexivity|]. test_false ((p =? 0) || (p =? idle_process s)).
    run_step. rewrite decide_False by done.
    eapply wp_step; [by apply upd_pcb_run|].
    set (P' := <[p:=set_state PROC_READY pcb]> (pcbs s)).
    assert (Hk1 : kq_ok (set_pcbs P' s) c) by (by eapply kq_ok_pcb).
    destruct (kq_cell s c p (EReady p) Hk ltac:(eauto) eq_refl) as [n Hn].
    eapply wp_step; [apply in_queues_run; unfold load; simpl; by rewrite Hn|].
    destruct (decide (queued c (EReady p))) as [Hq|Hq].
    + destruct (linked_queued _ _ _ (kq_abs _ _ Hk) Hq) as [_ [a Hprv]].
      unfold prv in Hprv. rewrite Hn in Hprv. simpl in Hprv.
      rewrite decide_False by congruence. eapply returns_ok; [reflexivity|].
      exists (k_queues s). by destruct s.
    + destruct (qabs_unlinked _ _ (kq_abs _ _ Hk) _ Hq) as [Hnx Hpv].
      unfold nxt, prv in *. rewrite Hn in *. simpl in *. rewrite Hnx, Hpv, !decide_True by done.
      destruct (kq_ready _ _ Hk) as [l Hl].
      destruct (kq_push (set_pcbs P' s) c QReady l (EReady p) p Hk1 Hl Hq eq_refl eq_refl) as (h' & Hr & Hk').
      { simpl. unfold P'. rewrite lookup_insert_eq. eauto. }
      eapply returns_ok; [by destruct s|]. exists h'. by destruct s.
Qed.

(** What a simulated step leaves alone. *)
Lemma sim_fields s s' c P :
  sim s s' c P -> pcbs s' = P /\ idle_process s' = idle_process s /\
    current_process s' = current_process s /\ clock_ticks s' = clock_ticks s /\
    process_table s' = process_table s /\ k_mem s' = k_mem s.
Proof. by intros (h & -> & _). Qed.

(** ** WakeDelayed *)

Definition table_ok (s : kst) : Prop :=
  length (process_table s) = Z.to_nat MAX_PROCS /\
  forall p, p ∈ process_table s -> p = 0 \/ is_Some (pcbs s !! p).

Lemma spec_make_ready_dom idle p P c q :
  is_Some ((spec_make_ready idle p (P, c)).1 !! q) <-> is_Some (P !! q).
Proof.
  unfold spec_make_ready. destruct (_ || _); [done|]. destruct (P !! p) as [pcb|] eqn:Hp; [|done].
  case_decide; [done|]. simpl. destruct (decide (p = q)) as [<-|?].
  - rewrite lookup_insert_eq, Hp. split; eauto.
  - by rewrite lookup_insert_ne.
Qed.

Lemma wake_one_ok s c p :
  kq_ok s c -> p = 0 \/ is_Some (pcbs s !! p) ->
  let '(P', c') := spec_wake_one (idle_process s) (clock_ticks s) p (pcbs s, c) in
  returns (if p =? 0 then skip
     else
       pcb ← get_pcb p;
       ticks ← gets clock_ticks;
       if bool_decide (state pcb = PROC_BLOCKED) && negb (delay_until pcb =? 0)
            && (delay_until pcb <=? ticks)
       then upd_pcb p (set_delay_until 0) ;; ProcessMakeReady p
       else skip : K unit) (fun _ s' => sim s s' c' P') s.
Proof.
  intros Hk Hp. unfold spec_wake_one. simpl. destruct Hp as [->|[pcb Hp]].
  - rewrite (kq_nonnull _ _ Hk). eapply returns_ok; [reflexivity|by apply sim_refl].
  - assert (p <> 0) by (intros ->; pose proof (kq_nonnull _ _ Hk); congruence).
    rewrite Hp. unfold expired. destruct (_ && _ && _) eqn:Hexp.
    + set (P1 := <[p:=set_delay_until 0 pcb]> (pcbs s)).
      assert (Hk1 : kq_ok (set_pcbs P1 s) c) by (by eapply kq_ok_pcb).
      pose proof (ProcessMakeReady_ok (set_pcbs P1 s) c p Hk1) as Hmr. simpl in Hmr.
      destruct (spec_make_ready _ _ _) as [P' c']. test_false (p =? 0).
      run_step. eapply wp_step; [reflexivity|]. rewrite Hexp.
      eapply wp_step; [by apply upd_pcb_run|]. fold P1.
      eapply returns_mono; [apply Hmr; right; unfold P1; rewrite lookup_insert_eq; eauto|].
      intros ? s' (h' & -> & Hk'). by exists h'.
    + test_false (p =? 0). run_step.
      eapply wp_step; [reflexivity|]. rewrite Hexp. eapply returns_ok; [reflexivity|by apply sim_refl].
Qed.

Lemma spec_wake_one_dom idle ticks p st q :
  is_Some ((spec_wake_one idle ticks p st).1 !! q) <-> is_Some (st.1 !! q).
Proof.
  unfold spec_wake_one. destruct (st.1 !! p) as [pcb|] eqn:Hp; [|done].
  destruct (expired _ _); [|done]. rewrite spec_make_ready_dom.
  destruct (decide (p = q)) as [<-|?]; [rewrite lookup_insert_eq, Hp; split; eauto|by rewrite lookup_insert_ne].
Qed.

Context {FL : FrameworkLaws F}.

Lemma ProcessWakeDelayed_ok s c :
  kq_ok s c -> table_ok s ->
  let '(P', c') := spec_wake (idle_process s) (clock_ticks s) (process_table s) (pcbs s, c) in
  returns ProcessWakeDelayed (fun _ s' => sim s s' c' P') s.
Proof.
  intros Hk [Hlen Htab]. set (tbl := process_table s) in *.
  set (idle := idle_process s). set (ticks := clock_ticks s).
  destruct (spec_wake idle ticks tbl (pcbs s, c)) as [P' c'] eqn:Hspec.
  unfold ProcessWakeDelayed. pose (I := fun (i : Z) s1 =>
    let '(P1, c1) := spec_wake idle ticks (take (Z.to_nat i) tbl) (pcbs s, c) in
    sim s s1 c1 P1 /\ forall q, is_Some (P1 !! q) <-> is_Some (pcbs s !! q)).
  pose proof max_procs_pos.
  eapply returns_mono; [apply (returns_for_range I); [lia|..]|].
  - unfold I. simpl. split; [by apply sim_refl|done].
  - intros k s1 Hk1 HI. unfold I in HI.
    destruct (spec_wake idle ticks (take (Z.to_nat k) tbl) (pcbs s, c)) as [P1 c1] eqn:Hs1.
    destruct HI as [Hsim Hdom]. destruct (sim_fields _ _ _ _ Hsim) as (HP1 & Hi1 & _ & Ht1 & Htb1 & _).
    destruct (lookup_lt_is_Some_2 tbl (Z.to_nat k)) as [p Hp]; [lia|].
    assert (Hstep : spec_wake idle ticks (take (Z.to_nat (k + 1)) tbl) (pcbs s, c) =
      spec_wake_one idle ticks p (P1, c1)).
    { replace (Z.to_nat (k + 1)) with (Datatypes.S (Z.to_nat k)) by lia.
      rewrite (take_S_r _ _ _ Hp). unfold spec_wake in *. rewrite foldl_app, Hs1. done. }
    eapply wp_step.
    { unfold get_slot. rewrite Htb1. fold tbl. rewrite zlookup_nat, Hp by lia. reflexivity. }
    assert (Hpl : p = 0 \/ is_Some (pcbs s1 !! p)).
    { destruct (Htab p) as [?|?]; [by eapply list_elem_of_lookup_2|by left|].
      right. rewrite HP1. by apply Hdom. }
    assert (Hk' : kq_ok s1 c1) by (by destruct Hsim as (? & _ & ?)).
    pose proof (wake_one_ok s1 c1 p Hk' Hpl) as Hone. rewrite Hi1, Ht1, HP1 in Hone.
    fold idle ticks in Hone. rewrite <- Hstep in Hone. unfold I.
    destruct (spec_wake idle ticks (take (Z.to_nat (k + 1)) tbl) (pcbs s, c)) as [P2 c2] eqn:Hs2.
    eapply returns_mono; [exact Hone|]. intros ? s2 Hsim2. split; [by eapply sim_trans|].
    intros q. rewrite <- Hdom. change P2 with (P2, c2).1. rewrite Hstep. apply spec_wake_one_dom.
  - intros ? s1 HI. unfold I in HI. rewrite take_ge, Hspec in HI by lia. by destruct HI.
Qed.

(** ** The whole choice *)

Lemma sim_kq s s' c P : sim s s' c P -> kq_ok s' c.
Proof. by intros (? & _ & ?). Qed.

Lemma spec_wake_dom idle ticks tbl st q :
  is_Some ((spec_wake idle ticks tbl st).1 !! q) <-> is_Some (st.1 !! q).
Proof.
  revert st. unfold spec_wake. induction tbl as [|p tbl IH]; intros st; simpl; [done|].
  by rewrite IH, spec_wake_one_dom.
Qed.

Lemma yield_ok s c :
  kq_ok s c -> current_process s = 0 \/ is_Some (pcbs s !! current_process s) ->
  let '(P', c') := spec_yield (idle_process s) (current_process s) (pcbs s, c) in
  returns (if negb (current_process s =? 0) && negb (current_process s =? idle_process s) then
     o ← get_pcb (current_process s);
     if decide (state o = PROC_RUNNING) then ProcessMakeReady (current_process s) else skip
   else skip : K unit) (fun _ s' => sim s s' c' P') s.
Proof.
  intros Hk Hc. set (cur := current_process s) in *. unfold spec_yield. simpl.
  destruct Hc as [->|[pcb Hp]].
  - rewrite (kq_nonnull _ _ Hk). eapply returns_ok; [reflexivity|by apply sim_refl].
  - rewrite Hp. assert (cur <> 0) by (intros Hz; pose proof (kq_nonnull _ _ Hk); congruence).
    test_false (cur =? 0). simpl. destruct (cur =? idle_process s) eqn:Hidle; simpl.
    + case_decide; [|eapply returns_ok; [reflexivity|by apply sim_refl]].
      unfold spec_make_ready. rewrite Hidle, orb_true_r. eapply returns_ok; [reflexivity|by apply sim_refl].
    + case_decide as Hrun.
      * pose proof (ProcessMakeReady_ok s c cur Hk) as Hmr.
        destruct (spec_make_ready _ _ _) as [P' c'].
        run_step. rewrite decide_True by done. apply Hmr. eauto.
      * run_step. rewrite decide_False by done.
        eapply returns_ok; [reflexivity|by apply sim_refl].
Qed.

Lemma next_ok s c :
  kq_ok s c ->
  let '(n, (P', c')) := spec_next (idle_process s) (pcbs s, c) in
  returns (next ← ProcessNextReady; if next =? 0 then gets idle_process else mret next : K Z)
    (fun r s' => r = n /\ sim s s' c' P' /\ (n = idle_process s \/ is_Some (P' !! n) /\ n <> 0)) s.
Proof.
  intros Hk. unfold spec_next. simpl. destruct (kq_ready _ _ Hk) as [l Hl].
  unfold spec_pop. rewrite Hl. destruct l as [|e l].
  - destruct (QueuePopFront_ok _ _ QReady (kq_abs _ _ Hk)) as (h' & Hr & Ha & Ho); [eauto|].
    unfold spec_pop in *. rewrite Hl in *. simpl in *.
    eapply wp_step; [unfold ProcessNextReady; rewrite (bind_ok _ _ _ _ _ (in_queues_run _ _ _ _ Hr)); reflexivity|].
    eapply returns_ok; [reflexivity|]. split_and!; [done| |by left]. exists h'. split; [by destruct s|].
    eapply kq_ok_queues; [done|done|done| |by rewrite Hl]. eauto.
  - assert (Hf : fits QReady e = true) by (eapply (kq_fits _ _ Hk); [done|set_solver]).
    destruct e as [p| | |]; try done.
    destruct (kq_pop s c QReady (EReady p) l p Hk Hl eq_refl) as (h' & Hr & Hown & Hk' & _ & Hp).
    assert (p <> 0) by (intros ->; rewrite (kq_nonnull _ _ Hk) in Hp; by destruct Hp).
    eapply wp_step; [unfold ProcessNextReady; rewrite (bind_ok _ _ _ _ _ Hr); exact Hown|].
    test_false (p =? 0). eapply returns_ok; [reflexivity|]. split_and!; [done| |by right].
    exists h'. by destruct s.
Qed.

(** The choice of [ProcessSchedule] is the abstract scheduler's. *)
Lemma schedule_next_ok s c :
  kq_ok s c -> table_ok s -> current_process s = 0 \/ is_Some (pcbs s !! current_process s) ->
  let '(n, (P', c')) := spec_schedule (idle_process s) (current_process s) (clock_ticks s)
                          (process_table s) (pcbs s, c) in
  returns schedule_next (fun r s' => r = n /\ sim s s' c' P' /\
    (n = idle_process s \/ is_Some (P' !! n) /\ n <> 0) /\
    (forall q, is_Some (P' !! q) <-> is_Some (pcbs s !! q))) s.
Proof.
  intros Hk Htab Hcur. unfold spec_schedule.
  destruct (spec_wake _ _ _ _) as [P1 c1] eqn:Hw.
  pose proof (ProcessWakeDelayed_ok s c Hk Htab) as H1. rewrite Hw in H1.
  assert (Hd1 : forall q, is_Some (P1 !! q) <-> is_Some (pcbs s !! q)).
  { intros q. change P1 with (P1, c1).1. rewrite <- Hw. apply spec_wake_dom. }
  destruct (spec_yield _ _ _) as [P2 c2] eqn:Hy.
  assert (Hd2 : forall q, is_Some (P2 !! q) <-> is_Some (pcbs s !! q)).
  { intros q. rewrite <- Hd1. change P2 with (P2, c2).1. rewrite <- Hy. unfold spec_yield. simpl.
    destruct (P1 !! _); [|done]. case_decide; [|done]. apply spec_make_ready_dom. }
  destruct (spec_next _ _) as [n [P3 c3]] eqn:Hn.
  unfold schedule_next. eapply returns_bind; [exact H1|]. intros ? s1 Hs1.
  destruct (sim_fields _ _ _ _ Hs1) as (HP1 & Hi1 & Hc1 & _ & _ & _).
  eapply wp_step; [reflexivity|]. eapply wp_step; [reflexivity|].
  pose proof (yield_ok s1 c1 (sim_kq _ _ _ _ Hs1)) as H2. rewrite HP1, Hi1, Hc1, Hy in H2.
  rewrite Hi1, Hc1. eapply returns_bind; [apply H2; rewrite Hd1; done|]. intros ? s2 Hs2.
  destruct (sim_fields _ _ _ _ Hs2) as (HP2 & Hi2 & _).
  pose proof (next_ok s2 c2 (sim_kq _ _ _ _ Hs2)) as H3. rewrite HP2, Hi2, Hi1, Hn in H3.
  eapply returns_mono; [exact H3|]. intros r s3 (-> & Hs3 & Hlive). split_and!; [done| |done|].
  - eapply sim_trans; [exact Hs1|]. eapply sim_trans; [exact Hs2|exact Hs3].
  - intros q. rewrite <- Hd2. unfold spec_next in Hn. destruct (spec_pop _ _) as [[[]|] ?]; by simplify_eq.
Qed.

(** ** The switch itself *)

Lemma kstack_pages : KERNEL_STACK_MAXSIZE / PAGESIZE = 2.
Proof. pose proof pagesize_pos. rewrite kstack_two. by apply Z.div_mul; lia. Qed.

(** The kernel stack pages of Region 0 map the frames [pfns]; all else is as in [m]. *)
Record stack_switched (m m' : mem) (pfns : list Z) : Prop := {
  ss_entries : forall j, table_entry m' (kernel_region0_pt m) j =
    if decide (0 <= j - stack_base_page < 2)
    then Some (mkPte true prot_rw (default 0 (zlookup pfns (j - stack_base_page))))
    else table_entry m (kernel_region0_pt m) j;
  ss_frames : frame_allocated m' = frame_allocated m;
  ss_outside : outside m m' (kernel_region0_pt m)
}.

(** What a switch needs: the two stack pages exist, every process has two stack frames. *)
Record switch_ok (s : kst) : Prop := {
  sw_entries : forall i, 0 <= i < 2 ->
    is_Some (table_entry (k_mem s) (kernel_region0_pt (k_mem s)) (stack_base_page + i));
  sw_stacks : forall p pcb, pcbs s !! p = Some pcb -> length (kernel_stack_pfns pcb) = 2%nat;
  sw_idle : is_Some (pcbs s !! idle_process s)
}.

Definition map_stacks (next : Z) : K unit :=
  for_range 0 (KERNEL_STACK_MAXSIZE / PAGESIZE) (fun i =>
    pt0 ← gets (fun s => kernel_region0_pt (k_mem s));
    pfn ← stack_pfn next i;
    in_mem (pt_write pt0 (KERNEL_STACK_BASE ≫ PAGESHIFT + i)
              (mkPte true (Z.lor PROT_READ PROT_WRITE) pfn))).

Lemma map_stacks_ok s next pcb :
  pcbs s !! next = Some pcb -> length (kernel_stack_pfns pcb) = 2%nat ->
  (forall i, 0 <= i < 2 ->
    is_Some (table_entry (k_mem s) (kernel_region0_pt (k_mem s)) (stack_base_page + i))) ->
  returns (map_stacks next) (fun _ s' => exists m', s' = set_k_mem m' s /\
    stack_switched (k_mem s) m' (kernel_stack_pfns pcb)) s.
Proof.
  intros Hp Hlen Hent. set (m := k_mem s) in *. set (pt0 := kernel_region0_pt m) in *.
  unfold map_stacks. rewrite kstack_pages.
  pose (I := fun (i : Z) s1 => exists m1, s1 = set_k_mem m1 s /\
    frame_allocated m1 = frame_allocated m /\ outside m m1 pt0 /\
    forall j, table_entry m1 pt0 j =
      if decide (0 <= j - stack_base_page < i)
      then Some (mkPte true prot_rw (default 0 (zlookup (kernel_stack_pfns pcb) (j - stack_base_page))))
      else table_entry m pt0 j).
  eapply returns_mono; [apply (returns_for_range I); [lia|..]|].
  - exists m. split_and!; [by destruct s|done|apply outside_refl|]. intros j. by rewrite decide_False by lia.
  - intros k s1 Hk (m1 & -> & Hfr & Ho & He). eapply wp_step; [reflexivity|].
    destruct (zlookup_is_Some (kernel_stack_pfns pcb) k) as [f Hf]; [lia|].
    eapply wp_step.
    { unfold stack_pfn. rewrite (bind_ok _ _ _ _ _ (get_pcb_run (set_k_mem m1 s) next pcb Hp)).
      by rewrite Hf. }
    simpl. rewrite (out_region0 _ _ _ Ho). fold pt0. fold stack_base_page.
    assert (Hse : is_Some (table_entry m1 pt0 (stack_base_page + k))).
    { rewrite He, decide_False by lia. apply Hent. lia. }
    eapply returns_ok; [apply in_mem_run, pt_write_run, Hse|].
    eexists. split_and!; [reflexivity|exact Hfr|eapply outside_trans; [exact Ho|apply put_pte_outside]|].
    intros j. rewrite table_entry_put by done. case_decide as Hj.
    + subst j. rewrite decide_True by lia. replace (stack_base_page + k - stack_base_page) with k by lia.
      by rewrite Hf.
    + rewrite He. destruct (decide (0 <= j - stack_base_page < k));
        [rewrite decide_True by lia|rewrite decide_False by lia]; done.
  - intros ? s1 (m1 & -> & Hfr & Ho & He). exists m1. split; [done|]. by split.
Qed.

(** The memory after [KCSwitch]: the stack pages, then the base registers and the flush. *)
Definition installed (pt1 : Z) (m : mem) : mem :=
  write_reg REG_TLB_FLUSH TLB_FLUSH_ALL (write_reg REG_PTLR1 MAX_PT_LEN (write_reg REG_PTBR1 pt1
    (write_reg REG_PTLR0 MAX_PT_LEN (write_reg REG_PTBR0 (kernel_region0_pt m) m)))).

(** The PCBs after [KCSwitch]: the old process remembers where it was. *)
Definition saved (kc : KernelContext) (old : Z) (P : gmap Z PCB) : gmap Z PCB :=
  if old =? 0 then P else alter (set_kernel_context kc) old P.

Lemma KCSwitch_ok s kc old next pcb :
  switch_ok s -> pcbs s !! next = Some pcb -> old <> next ->
  old = 0 \/ is_Some (pcbs s !! old) ->
  returns (KCSwitch kc old next) (fun kc' s' => kc' = kernel_context pcb /\
    exists m', stack_switched (k_mem s) m' (kernel_stack_pfns pcb) /\
      s' = set_current_process next (set_k_mem (installed (region1_pt pcb) m')
             (set_pcbs (saved kc old (pcbs s)) s))) s.
Proof.
  intros [Hent Hst _] Hn Hne Hold. unfold KCSwitch.
  set (s1 := set_pcbs (saved kc old (pcbs s)) s).
  assert (Hn1 : pcbs s1 !! next = Some pcb).
  { unfold s1, saved. simpl. destruct (old =? 0); [done|]. by rewrite lookup_alter_ne. }
  eapply (wp_step _ _ _ _ _ _ _ s1).
  { unfold s1, saved. destruct (old =? 0) eqn:Ho; [by destruct s|]. simpl.
    destruct Hold as [?|[po Hpo]]; [lia|]. rewrite (alter_Some _ _ _ _ Hpo). by apply upd_pcb_run. }
  cbv zeta. fold (map_stacks next). eapply returns_bind.
  { apply (map_stacks_ok s1 next pcb Hn1); [by eapply Hst|exact Hent]. }
  intros ? s2 (m' & -> & Hsw). eapply wp_step; [reflexivity|].
  run_step. eapply wp_step; [reflexivity|].
  eapply wp_step; [reflexivity|]. run_step.
  eapply returns_ok; [reflexivity|]. split; [done|]. exists m'. split; [exact Hsw|]. by destruct s.
Qed.

(** ** ProcessSchedule *)

(** Where control continues after [ProcessSchedule caller], and in which state. *)
Inductive schedule_outcome (s : kst) (caller : KernelContext) (n : Z) (P : gmap Z PCB) (c : qlists)
  : KernelContext -> kst -> Prop :=
| sched_same s' :
    n = current_process s -> sim s s' c P -> schedule_outcome s caller n P c caller s'
| sched_switch_failed s' pcb :
    n <> current_process s -> P !! n = Some pcb -> switch_fails (log (k_mem s)) = true ->
    k_mem s' = add_log EvSwitch (k_mem s) -> current_process s' = current_process s ->
    pcbs s' = <[n := set_state PROC_RUNNING pcb]> P -> kq_ok s' c ->
    schedule_outcome s caller n P c caller s'
| sched_switched s' pcb m' :
    n <> current_process s -> P !! n = Some pcb -> switch_fails (log (k_mem s)) = false ->
    stack_switched (add_log EvSwitch (k_mem s)) m' (kernel_stack_pfns pcb) ->
    k_mem s' = installed (region1_pt pcb) m' -> current_process s' = n ->
    pcbs s' = saved caller (current_process s) (<[n := set_state PROC_RUNNING pcb]> P) ->
    kq_ok s' c ->
    schedule_outcome s caller n P c (kernel_context pcb) s'.

(** Only the scheduling state of PCBs changed. *)
Definition only_sched (P P' : gmap Z PCB) : Prop :=
  forall q pcb', P' !! q = Some pcb' ->
    exists pcb st d, P !! q = Some pcb /\ pcb' = set_state st (set_delay_until d pcb).

Lemma only_sched_refl P : only_sched P P.
Proof. intros q pcb H. exists pcb, (state pcb), (delay_until pcb). by destruct pcb. Qed.

Lemma only_sched_trans P1 P2 P3 : only_sched P1 P2 -> only_sched P2 P3 -> only_sched P1 P3.
Proof.
  intros H12 H23 q pcb3 H3. destruct (H23 q pcb3 H3) as (pcb2 & st & d & H2 & ->).
  destruct (H12 q pcb2 H2) as (pcb1 & st' & d' & H1 & ->). exists pcb1, st, d. done.
Qed.

Lemma only_sched_insert P p pcb st d :
  P !! p = Some pcb -> only_sched P (<[p := set_state st (set_delay_until d pcb)]> P).
Proof.
  intros Hp q pcb'. destruct (decide (p = q)) as [<-|Hne].
  - rewrite lookup_insert_eq. intros [= <-]. eauto.
  - rewrite lookup_insert_ne by done. apply only_sched_refl.
Qed.

Lemma only_sched_make_ready idle p st : only_sched st.1 (spec_make_ready idle p st).1.
Proof.
  destruct st as [P c]. unfold spec_make_ready. destruct (_ || _); [apply only_sched_refl|].
  destruct (P !! p) as [pcb|] eqn:Hp; [|apply only_sched_refl].
  case_decide; [apply only_sched_refl|]. simpl.
  replace (set_state PROC_READY pcb) with (set_state PROC_READY (set_delay_until (delay_until pcb) pcb))
    by (by destruct pcb).
  by apply only_sched_insert.
Qed.

Lemma only_sched_wake_one idle ticks p st : only_sched st.1 (spec_wake_one idle ticks p st).1.
Proof.
  unfold spec_wake_one. destruct (st.1 !! p) as [pcb|] eqn:Hp; [|apply only_sched_refl].
  destruct (expired _ _); [|apply only_sched_refl].
  eapply only_sched_trans; [|apply only_sched_make_ready]. simpl.
  replace (set_delay_until 0 pcb) with (set_state (state pcb) (set_delay_until 0 pcb)) by (by destruct pcb).
  by apply only_sched_insert.
Qed.

Lemma only_sched_schedule idle cur ticks tbl st :
  only_sched st.1 (spec_schedule idle cur ticks tbl st).2.1.
Proof.
  unfold spec_schedule. set (st1 := spec_wake idle ticks tbl st).
  assert (H1 : only_sched st.1 st1.1).
  { unfold st1, spec_wake. clear. revert st. induction tbl as [|p tbl IH]; intros st; simpl; [apply only_sched_refl|].
    eapply only_sched_trans; [apply only_sched_wake_one|apply IH]. }
  assert (H2 : only_sched st1.1 (spec_yield idle cur st1).1).
  { unfold spec_yield. destruct (st1.1 !! cur); [|apply only_sched_refl].
    case_decide; [apply only_sched_make_ready|apply only_sched_refl]. }
  eapply only_sched_trans; [exact H1|]. eapply only_sched_trans; [exact H2|].
  unfold spec_next. destruct (spec_pop _ _) as [[[]|] ?]; apply only_sched_refl.
Qed.

Lemma kq_ok_saved s c kc old P :
  kq_ok (set_pcbs P s) c -> kq_ok (set_pcbs (saved kc old P) s) c.
Proof.
  intros Hk. change (set_pcbs (saved kc old P) s) with (set_pcbs (saved kc old P) (set_pcbs P s)).
  apply kq_ok_pcbs; [done|]. intros q. unfold saved. simpl. destruct (old =? 0); [done|].
  destruct (decide (old = q)) as [<-|?]; [|by rewrite lookup_alter_ne].
  rewrite lookup_alter_eq. destruct (P !! old); simpl; split; intros [? ?]; simplify_eq; eauto.
Qed.

(** The chosen process marked as running, in a state whose Region 0 table is the same. *)
Lemma switch_ok_running s s2 n P pcb :
  switch_ok s -> only_sched (pcbs s) P -> P !! n = Some pcb ->
  (forall q, is_Some (P !! q) <-> is_Some (pcbs s !! q)) ->
  pcbs s2 = <[n := set_state PROC_RUNNING pcb]> P -> idle_process s2 = idle_process s ->
  k_mem s2 = add_log EvSwitch (k_mem s) -> switch_ok s2.
Proof.
  intros [Hent Hst Hid] Hos Hp Hdom HP Hi Hm. split; rewrite ?HP, ?Hi, ?Hm.
  - exact Hent.
  - intros q pcb2. destruct (decide (n = q)) as [<-|Hne].
    + rewrite lookup_insert_eq. intros [= <-]. destruct (Hos n pcb Hp) as (p0 & ? & ? & ? & ->).
      simpl. by eapply Hst.
    + rewrite lookup_insert_ne by done. intros Hq. destruct (Hos q pcb2 Hq) as (p0 & ? & ? & ? & ->).
      simpl. by eapply Hst.
  - destruct (decide (n = idle_process s)) as [<-|?].
    + rewrite lookup_insert_eq. eauto.
    + rewrite lookup_insert_ne by done. by apply Hdom.
Qed.

(** From the choice on: the switch to [n]. *)
Lemma schedule_switch s s1 caller n P c :
  switch_ok s -> sim s s1 c P -> only_sched (pcbs s) P ->
  n = idle_process s \/ is_Some (P !! n) /\ n <> 0 ->
  (forall q, is_Some (P !! q) <-> is_Some (pcbs s !! q)) ->
  current_process s = 0 \/ is_Some (pcbs s !! current_process s) ->
  wp (cur ← gets current_process;
      (if negb (n =? cur) then ProcessSwitch n caller ;; skip else skip) ;;
      jump caller : K unit)
    (fun _ _ => False) (schedule_outcome s caller n P c) (fun _ _ => False) s1.
Proof.
  intros Hsw Hsim Hos Hlive Hdom Hcur.
  destruct (sim_fields _ _ _ _ Hsim) as (HP & Hi & Hc & _ & _ & Hm).
  pose proof (sim_kq _ _ _ _ Hsim) as Hk1.
  assert (Hn : exists pcb, P !! n = Some pcb /\ n <> 0).
  { assert (is_Some (P !! n)) as [pcb Hp] by (destruct Hlive as [->|[? _]]; [apply Hdom, Hsw|done]).
    exists pcb. split; [done|]. intros ->. pose proof (kq_nonnull _ _ Hk1). congruence. }
  destruct Hn as (pcb & Hp & Hn0).
  eapply wp_step; [reflexivity|]. rewrite Hc. destruct (n =? current_process s) eqn:Heq; bool_to_prop; simpl.
  - eapply wp_step; [reflexivity|]. by apply sched_same.
  - unfold ProcessSwitch. apply wp_bind, wp_bind. eapply wp_step; [reflexivity|]. rewrite Hc.
    test_false ((n =? 0) || (n =? current_process s)).
    eapply wp_step; [apply upd_pcb_run; by rewrite HP|]. rewrite HP.
    set (P1 := <[n:=set_state PROC_RUNNING pcb]> P).
    assert (Hk2 : kq_ok (set_pcbs P1 s1) c).
    { unfold P1. rewrite <- HP. eapply kq_ok_pcb; [done|by rewrite HP]. }
    unfold KernelContextSwitch. eapply wp_step; [reflexivity|]. eapply wp_step; [reflexivity|].
    replace (log (k_mem (set_pcbs P1 s1))) with (log (k_mem s)) by (simpl; by rewrite Hm).
    destruct (switch_fails (log (k_mem s))) eqn:Hf.
    + apply (sched_switch_failed s caller n P c _ pcb); simpl; try done; [by rewrite Hm|].
      destruct Hk2. by split.
    + set (s2 := set_k_mem (add_log EvSwitch (k_mem (set_pcbs P1 s1))) (set_pcbs P1 s1)).
      assert (Hp2 : pcbs s2 !! n = Some (set_state PROC_RUNNING pcb)).
      { unfold s2, P1. simpl. by rewrite lookup_insert_eq. }
      assert (Hsw2 : switch_ok s2).
      { apply (switch_ok_running s s2 n P pcb); try done.
        unfold s2. simpl. by rewrite Hm. }
      apply wp_bind. eapply wp_mono; [apply (KCSwitch_ok s2 caller (current_process s) n _ Hsw2 Hp2)| |done|done].
      * congruence.
      * destruct Hcur as [?|Hcur]; [by left|right]. unfold s2, P1. simpl.
        rewrite lookup_insert_ne by done. by apply Hdom.
      * intros kc s3 (-> & m' & Hst & ->).
        apply (sched_switched s caller n P c _ pcb m'); simpl; try done.
        -- unfold s2 in Hst. simpl in Hst. by rewrite Hm in Hst.
        -- pose proof (kq_ok_saved s1 c caller (current_process s) P1 Hk2) as Hk3.
           destruct Hk3. by split.
Qed.

Lemma ProcessSchedule_ok s c caller :
  kq_ok s c -> table_ok s -> switch_ok s ->
  current_process s = 0 \/ is_Some (pcbs s !! current_process s) ->
  let '(n, (P', c')) := spec_schedule (idle_process s) (current_process s) (clock_ticks s)
                          (process_table s) (pcbs s, c) in
  wp (ProcessSchedule caller : K unit) (fun _ _ => False) (schedule_outcome s caller n P' c')
    (fun _ _ => False) s.
Proof.
  intros Hk Htab Hsw Hcur. pose proof (schedule_next_ok s c Hk Htab Hcur) as Hn.
  pose proof (only_sched_schedule (idle_process s) (current_process s) (clock_ticks s)
    (process_table s) (pcbs s, c)) as Hos.
  destruct (spec_schedule _ _ _ _ _) as [n [P' c']]. simpl in Hos.
  unfold ProcessSchedule. eapply returns_then; [exact Hn|]. intros r s1 (-> & Hs1 & Hlive & Hdom).
  by apply schedule_switch.
Qed.

(** ** What the abstract scheduler does *)

Definition nobody_expired (s : kst) : Prop :=
  forall p pcb, p ∈ process_table s -> pcbs s !! p = Some pcb -> expired (clock_ticks s) pcb = false.

Lemma spec_wake_none idle ticks tbl (st : sstate) :
  (forall p pcb, p ∈ tbl -> st.1 !! p = Some pcb -> expired ticks pcb = false) ->
  spec_wake idle ticks tbl st = st.
Proof.
  unfold spec_wake. induction tbl as [|p tbl IH]; intros He; simpl; [done|].
  assert (spec_wake_one idle ticks p st = st) as ->.
  { unfold spec_wake_one. destruct (st.1 !! p) as [pcb|] eqn:Hp; [|done]. rewrite (He p pcb); [done|set_solver|done]. }
  apply IH. intros p' pcb' Hin. apply He. set_solver.
Qed.

Lemma spec_make_ready_live idle p P c pcb :
  p <> 0 -> p <> idle -> P !! p = Some pcb -> state pcb <> PROC_ZOMBIE -> ~ queued c (EReady p) ->
  spec_make_ready idle p (P, c) = (<[p := set_state PROC_READY pcb]> P, spec_push QReady (EReady p) c).
Proof.
  intros H0 Hi Hp Hz Hq. unfold spec_make_ready. test_false ((p =? 0) || (p =? idle)).
  by rewrite Hp, !decide_False.
Qed.

(** What waking does to one PCB. *)
Definition woken (idle ticks q : Z) (pcb : PCB) : PCB :=
  if expired ticks pcb
  then if q =? idle then set_delay_until 0 pcb else set_state PROC_READY (set_delay_until 0 pcb)
  else pcb.

Lemma woken_not_expired idle ticks q pcb : expired ticks (woken idle ticks q pcb) = false.
Proof.
  unfold woken. destruct (expired ticks pcb) eqn:He; [|done].
  destruct (q =? idle); unfold expired; simpl; by rewrite ?andb_false_r.
Qed.

Lemma woken_idem idle ticks q pcb : woken idle ticks q (woken idle ticks q pcb) = woken idle ticks q pcb.
Proof. unfold woken at 1. by rewrite woken_not_expired. Qed.

Lemma queued_spec_push (c : qlists) (q : qid) (e e' : eid) : queued c e' -> queued (spec_push q e c) e'.
Proof.
  intros (q' & l & Hq & He). exists q'. unfold spec_push. destruct (decide (q = q')) as [<-|?].
  - exists (l ++ [e]). rewrite lookup_alter_eq, Hq. set_solver.
  - exists l. by rewrite lookup_alter_ne.
Qed.

Lemma queued_pushed (c : qlists) (q : qid) (e : eid) : is_Some (c !! q) -> queued (spec_push q e c) e.
Proof.
  intros [l Hl]. exists q, (l ++ [e]). unfold spec_push. rewrite lookup_alter_eq, Hl. set_solver.
Qed.

Lemma spec_wake_one_effect idle ticks p (st : sstate) :
  st.1 !! 0 = None ->
  (forall q, (spec_wake_one idle ticks p st).1 !! q =
     (if decide (p = q) then woken idle ticks q <$> st.1 !! q else st.1 !! q)) /\
  (forall e, queued st.2 e -> queued (spec_wake_one idle ticks p st).2 e) /\
  (is_Some (st.2 !! QReady) -> is_Some ((spec_wake_one idle ticks p st).2 !! QReady)) /\
  (forall pcb, st.1 !! p = Some pcb -> expired ticks pcb = true -> p <> idle ->
     is_Some (st.2 !! QReady) -> queued (spec_wake_one idle ticks p st).2 (EReady p)).
Proof.
  destruct st as [P c]. simpl. intros H0. unfold spec_wake_one. simpl.
  destruct (P !! p) as [pcb|] eqn:Hp.
  2:{ split_and!; try done. intros q. case_decide; [subst; by rewrite Hp|done]. }
  destruct (expired ticks pcb) eqn:He.
  2:{ split_and!; try done; [|intros ? [= <-]; congruence]. intros q. case_decide; [subst|done].
      rewrite Hp. simpl. unfold woken. by rewrite He. }
  assert (p <> 0) by congruence.
  assert (Hz : state (set_delay_until 0 pcb) <> PROC_ZOMBIE).
  { unfold expired in He. simpl. rewrite !andb_true_iff, bool_decide_eq_true in He. destruct He as [[-> _] _]. done. }
  unfold spec_make_ready. test_false (p =? 0). destruct (p =? idle) eqn:Hi; bool_to_prop; simpl.
  - split_and!; try done. intros q. destruct (decide (p = q)) as [<-|?]; [|by rewrite lookup_insert_ne].
    rewrite lookup_insert_eq, Hp. simpl. unfold woken. rewrite He. by test_true (p =? idle).
  - rewrite lookup_insert_eq, decide_False by done. simpl. split_and!.
    + intros q. rewrite insert_insert_eq. destruct (decide (p = q)) as [<-|?]; [|by rewrite lookup_insert_ne].
      rewrite lookup_insert_eq, Hp. simpl. unfold woken. rewrite He. by test_false (p =? idle).
    + intros e Hq. case_decide; [done|]. by apply queued_spec_push.
    + intros [l Hl]. case_decide; [eauto|]. unfold spec_push. rewrite lookup_alter_eq, Hl. simpl. eauto.
    + intros ? _ _ _ Hr. case_decide; [done|]. by apply queued_pushed.
Qed.

Lemma spec_wake_effect idle ticks tbl (st : sstate) :
  st.1 !! 0 = None -> is_Some (st.2 !! QReady) ->
  (forall q, (spec_wake idle ticks tbl st).1 !! q =
     (if decide (q ∈ tbl) then woken idle ticks q <$> st.1 !! q else st.1 !! q)) /\
  (forall e, queued st.2 e -> queued (spec_wake idle ticks tbl st).2 e) /\
  (forall p pcb, p ∈ tbl -> st.1 !! p = Some pcb -> expired ticks pcb = true -> p <> idle ->
     queued (spec_wake idle ticks tbl st).2 (EReady p)).
Proof.
  unfold spec_wake. revert st. induction tbl as [|p tbl IH]; intros st H0 Hr; simpl.
  - split_and!; [done|done|set_solver].
  - destruct (spec_wake_one_effect idle ticks p st H0) as (Hp & Hq & Hr' & Hw).
    set (st1 := spec_wake_one idle ticks p st) in *.
    destruct (IH st1) as (IHp & IHq & IHw); [rewrite Hp, H0; by case_decide|auto|].
    split_and!.
    + intros q. rewrite IHp, Hp. destruct (decide (p = q)) as [->|Hne].
      * rewrite (decide_True (P := q ∈ q :: tbl)) by apply list_elem_of_here.
        destruct (decide (q ∈ tbl)); [|done]. destruct (st.1 !! q); simpl; [|done]. by rewrite woken_idem.
      * destruct (decide (q ∈ tbl)) as [Hin|Hin].
        -- by rewrite decide_True by by apply list_elem_of_further.
        -- rewrite decide_False; [done|]. intros [?|?]%elem_of_cons; congruence.
    + auto.
    + intros q pcb Hin Hst He Hi. destruct (decide (p = q)) as [<-|Hne]; [eauto|].
      apply elem_of_cons in Hin as [?|Hin]; [congruence|].
      apply (IHw q pcb); [done|rewrite Hp; by rewrite decide_False|done..].
Qed.

(** ** Deciding the invariants of a concrete state *)

Definition kq_check (s : kst) (c : qlists) : Prop :=
  qabs_check (k_queues s) c /\
  map_Forall (fun q l => Forall (fun e => fits q e = true /\
    match entry_proc e with Some p => is_Some (pcbs s !! p) | None => True end) l) c /\
  map_Forall (fun p _ => Forall (fun e => owner_of (k_queues s) (QEnt e) = Some p)
    [EReady p; EBlock p; EChild p]) (pcbs s) /\
  pcbs s !! 0 = None /\ is_Some (c !! QReady).

#[export] Instance kq_check_dec s c : Decision (kq_check s c).
Proof.
  unfold kq_check. apply and_dec; [apply qabs_check_dec|]. apply and_dec; [|apply _].
  apply map_Forall_dec. intros q l. apply Forall_dec. intros e. apply and_dec; [apply _|].
  destruct (entry_proc e); apply _.
Defined.

Lemma kq_check_sound s c : kq_check s c -> kq_ok s c.
Proof.
  intros (Hq & Hf & Ho & H0 & Hr). split; [by apply qabs_check_sound|..]; try done.
  - intros q l e Hql He. specialize (Hf q l Hql). rewrite Forall_forall in Hf. by apply Hf.
  - intros q l e p Hql He Hep. specialize (Hf q l Hql). rewrite Forall_forall in Hf.
    destruct (Hf e He) as [_ Hl]. by rewrite Hep in Hl.
  - intros p e [pcb Hp] He. specialize (Ho p pcb Hp). rewrite Forall_forall in Ho. apply Ho.
    destruct e; simpl in He; simplify_eq; rewrite !elem_of_cons; tauto.
Qed.

Definition sched_check (s : kst) : Prop :=
  length (process_table s) = Z.to_nat MAX_PROCS /\
  Forall (fun p => p = 0 \/ is_Some (pcbs s !! p)) (process_table s) /\
  is_Some (table_entry (k_mem s) (kernel_region0_pt (k_mem s)) stack_base_page) /\
  is_Some (table_entry (k_mem s) (kernel_region0_pt (k_mem s)) (stack_base_page + 1)) /\
  map_Forall (fun _ pcb => length (kernel_stack_pfns pcb) = 2%nat) (pcbs s) /\
  is_Some (pcbs s !! idle_process s) /\
  Forall (fun p => match pcbs s !! p with
    | Some pcb => expired (clock_ticks s) pcb = false | None => True end) (process_table s).

#[export] Instance sched_check_dec s : Decision (sched_check s).
Proof.
  unfold sched_check. repeat apply and_dec; try apply _.
  apply Forall_dec. intros p. destruct (pcbs s !! p); apply _.
Defined.

Lemma sched_check_sound s : sched_check s -> table_ok s /\ switch_ok s /\ nobody_expired s.
Proof.
  intros (Hlen & Htab & He0 & He1 & Hst & Hid & Hexp). rewrite Forall_forall in Htab, Hexp.
  split_and!.
  - by split.
  - split; [|done|done]. intros i Hi. assert (i = 0 \/ i = 1) as [-> | ->] by lia; [|done].
    by rewrite Z.add_0_r.
  - intros p pcb Hin Hp. specialize (Hexp p Hin). by rewrite Hp in Hexp.
Qed.

(** ** Properties *)

(** C2: the scheduler refines the abstract one.  From any state whose queues represent
    lists, [ProcessSchedule] runs to its end without a bad access: the processes whose
    delay ran out are woken, a running caller goes to the back of the ready list, the
    front of the list (or the idle process) is taken, and control continues there - in
    the new process's saved context, with its page table and its kernel stack installed
    and the caller's context saved - or in the caller when it was chosen itself or the
    machine's switch failed.  The queues represent the abstract result. *)
Theorem schedule_refines_spec s c caller :
  kq_ok s c -> table_ok s -> switch_ok s ->
  current_process s = 0 \/ is_Some (pcbs s !! current_process s) ->
  let '(n, (P', c')) := spec_schedule (idle_process s) (current_process s) (clock_ticks s)
                          (process_table s) (pcbs s, c) in
  wp (ProcessSchedule caller : K unit) (fun _ _ => False) (schedule_outcome s caller n P' c')
    (fun _ _ => False) s.
Proof. apply ProcessSchedule_ok. Qed.

Lemma not_ready_not_queued s c l p :
  kq_ok s c -> c !! QReady = Some l -> EReady p ∉ l -> ~ queued c (EReady p).
Proof.
  intros Hk Hl Hp (q & l' & Hq & He). pose proof (kq_fits _ _ Hk q l' _ Hq He) as Hf.
  destruct q; try done. congruence.
Qed.

(** The abstract choice when the caller is running and nobody's delay has run out. *)
Lemma spec_schedule_running s c p pcb l :
  kq_ok s c -> nobody_expired s -> current_process s = p -> p <> idle_process s ->
  pcbs s !! p = Some pcb -> state pcb = PROC_RUNNING ->
  c !! QReady = Some l -> EReady p ∉ l ->
  spec_schedule (idle_process s) (current_process s) (clock_ticks s) (process_table s) (pcbs s, c) =
  spec_next (idle_process s) (<[p := set_state PROC_READY pcb]> (pcbs s), <[QReady := l ++ [EReady p]]> c).
Proof.
  intros Hk Hne Hcur Hidle Hp Hst Hl Hnin. unfold spec_schedule. rewrite spec_wake_none by done.
  unfold spec_yield. simpl. rewrite Hcur, Hp, decide_True by done.
  rewrite (spec_make_ready_live _ _ _ _ pcb); try done.
  - unfold spec_push. by rewrite (alter_Some _ _ _ _ Hl).
  - intros ->. pose proof (kq_nonnull _ _ Hk). congruence.
  - by rewrite Hst.
  - by eapply not_ready_not_queued.
Qed.

(** C24: round robin.  When a running process is preempted while others are ready, the one
    at the front of the ready queue runs next, in the context it was suspended in, and the
    preempted process is behind all the others with its own context saved. *)
Theorem schedule_round_robin s c p pcb q rest caller :
  kq_ok s c -> table_ok s -> switch_ok s -> nobody_expired s ->
  current_process s = p -> p <> idle_process s -> pcbs s !! p = Some pcb -> state pcb = PROC_RUNNING ->
  c !! QReady = Some (EReady q :: rest) -> EReady p ∉ EReady q :: rest ->
  switch_fails (log (k_mem s)) = false ->
  wp (ProcessSchedule caller : K unit) (fun _ _ => False)
    (fun kc s' => exists pcbq c', pcbs s !! q = Some pcbq /\ kc = kernel_context pcbq /\
       current_process s' = q /\
       pcbs s' !! q = Some (set_state PROC_RUNNING pcbq) /\
       pcbs s' !! p = Some (set_kernel_context caller (set_state PROC_READY pcb)) /\
       kq_ok s' c' /\ c' !! QReady = Some (rest ++ [EReady p]))
    (fun _ _ => False) s.
Proof.
  intros Hk Htab Hsw Hne Hcur Hidle Hp Hst Hl Hnin Hf.
  pose proof (ProcessSchedule_ok s c caller Hk Htab Hsw) as Hs.
  rewrite (spec_schedule_running s c p pcb _ Hk Hne Hcur Hidle Hp Hst Hl Hnin) in Hs.
  unfold spec_next, spec_pop in Hs. simpl in Hs. rewrite lookup_insert_eq in Hs. simpl in Hs.
  assert (Hqp : q <> p) by set_solver.
  destruct (kq_live _ _ Hk QReady _ (EReady q) q Hl ltac:(set_solver) eq_refl) as [pcbq Hpq].
  eapply wp_mono; [apply Hs; right; rewrite Hcur; eauto|done| |done].
  intros kc s' Hout. destruct Hout as [s' Hn _|s' pcb' _ _ Hf' _ _ _ _|s' pcb' m' Hn Hp' _ Hst' Hm' Hc' HP' Hk'].
  - congruence.
  - congruence.
  - rewrite lookup_insert_ne in Hp' by done. simplify_eq.
    assert (current_process s <> 0) by (intros Hz; rewrite Hz in Hp; pose proof (kq_nonnull _ _ Hk); congruence).
    eexists _, _. split_and!; [done|done|done|..|exact Hk'|].
    + rewrite HP'. unfold saved. test_false (current_process s =? 0).
      rewrite lookup_alter_ne by done. apply lookup_insert_eq.
    + rewrite HP'. unfold saved. test_false (current_process s =? 0).
      rewrite lookup_alter_eq, lookup_insert_ne, lookup_insert_eq by done. done.
    + apply lookup_insert_eq.
Qed.

(** A process that was only marked ready: what the scheduler needs still holds. *)
Lemma marked_ready_ok s s1 c1 p pcb :
  table_ok s -> switch_ok s -> nobody_expired s -> pcbs s !! p = Some pcb ->
  sim s s1 c1 (<[p := set_state PROC_READY pcb]> (pcbs s)) ->
  table_ok s1 /\ switch_ok s1 /\ nobody_expired s1.
Proof.
  intros [Hlen Hin] [He Hs2 Hid] Hne Hp Hsim.
  destruct (sim_fields _ _ _ _ Hsim) as (HP & Hi & Hc & Ht & Htb & Hm).
  set (P1 := <[p:=set_state PROC_READY pcb]> (pcbs s)) in *.
  assert (Hdom : forall q, is_Some (P1 !! q) <-> is_Some (pcbs s !! q)).
  { intros q. unfold P1. destruct (decide (p = q)) as [<-|?]; [rewrite lookup_insert_eq, Hp; split; eauto|].
    by rewrite lookup_insert_ne. }
  split_and!.
  - unfold table_ok. rewrite Htb, HP. split; [done|].
    intros q Hq. destruct (Hin q Hq); [by left|right; by apply Hdom].
  - split; rewrite ?Hm, ?HP, ?Hi; [done| |by apply Hdom].
    intros q pcbq. unfold P1. destruct (decide (p = q)) as [<-|?].
    + rewrite lookup_insert_eq. intros [= <-]. simpl. by eapply Hs2.
    + rewrite lookup_insert_ne by done. apply Hs2.
  - intros q pcbq. rewrite Htb, HP, Ht. intros Hq. unfold P1. destruct (decide (p = q)) as [<-|?].
    + rewrite lookup_insert_eq. by intros [= <-].
    + rewrite lookup_insert_ne by done. by apply Hne.
Qed.

(** C27: a lone running process loses the processor for good.  Preempted with the ready queue
    empty it is chosen again, but is left in state READY and in no queue; at the next
    preemption it is therefore not put back, and the idle process runs although the process
    is ready - and nothing in the scheduler will ever find it again. *)
Theorem lone_process_lost s c p pcb k1 k2 :
  kq_ok s c -> table_ok s -> switch_ok s -> nobody_expired s ->
  current_process s = p -> p <> idle_process s -> pcbs s !! p = Some pcb -> state pcb = PROC_RUNNING ->
  c !! QReady = Some [] -> switch_fails (log (k_mem s)) = false ->
  wp (ProcessSchedule k1 : K unit) (fun _ _ => False)
    (fun kc s1 => kc = k1 /\ current_process s1 = p /\
       pcbs s1 !! p = Some (set_state PROC_READY pcb) /\
       (exists c1, kq_ok s1 c1 /\ ~ queued c1 (EReady p)) /\
       wp (ProcessSchedule k2 : K unit) (fun _ _ => False)
         (fun _ s2 => current_process s2 = idle_process s /\
            (exists pcb2, pcbs s2 !! p = Some pcb2 /\ state pcb2 = PROC_READY) /\
            exists c2, kq_ok s2 c2 /\ c2 !! QReady = Some [] /\ ~ queued c2 (EReady p))
         (fun _ _ => False) s1)
    (fun _ _ => False) s.
Proof.
  intros Hk Htab Hsw Hne Hcur Hidle Hp Hst Hl Hf.
  pose proof (ProcessSchedule_ok s c k1 Hk Htab Hsw) as Hs.
  rewrite (spec_schedule_running s c p pcb [] Hk Hne Hcur Hidle Hp Hst Hl) in Hs by set_solver.
  unfold spec_next, spec_pop in Hs. simpl in Hs. rewrite lookup_insert_eq in Hs. simpl in Hs.
  eapply wp_mono; [apply Hs; right; rewrite Hcur; eauto|done| |done].
  intros kc s1 Hout. destruct Hout as [s1 _ Hsim|s1 pcb' Hn _ _ _ _ _ _|s1 pcb' m' Hn _ _ _ _ _ _ _]; [|congruence..].
  destruct (sim_fields _ _ _ _ Hsim) as (HP & Hi & Hc & Ht & Htb & Hm).
  pose proof (sim_kq _ _ _ _ Hsim) as Hk1.
  set (P1 := <[p:=set_state PROC_READY pcb]> (pcbs s)) in *.
  set (c1 := <[QReady:=[]]> (<[QReady:=[EReady p]]> c)) in *.
  assert (Hp1 : pcbs s1 !! p = Some (set_state PROC_READY pcb)) by (rewrite HP; apply lookup_insert_eq).
  assert (Hl1 : c1 !! QReady = Some []) by apply lookup_insert_eq.
  assert (Hnq : ~ queued c1 (EReady p)) by (apply (not_ready_not_queued s1 c1 [] p Hk1 Hl1), not_elem_of_nil).
  split_and!; [done|congruence|done|by exists c1|].
  destruct (marked_ready_ok s s1 c1 p pcb Htab Hsw Hne Hp Hsim) as (Htab1 & Hsw1 & Hne1).
  pose proof (ProcessSchedule_ok s1 c1 k2 Hk1 Htab1 Hsw1) as Hs1.
  assert (Hspec : spec_schedule (idle_process s1) (current_process s1) (clock_ticks s1)
    (process_table s1) (pcbs s1, c1) = (idle_process s, (pcbs s1, c1))).
  { unfold spec_schedule. rewrite spec_wake_none by done. unfold spec_yield. simpl.
    rewrite Hc, Hcur, Hp1, decide_False by done. unfold spec_next, spec_pop. simpl. by rewrite Hl1, Hi. }
  rewrite Hspec in Hs1.
  eapply wp_mono; [apply Hs1; right; rewrite Hc, Hcur, Hp1; eauto|done| |done].
  intros kc s2 Hout.
  destruct Hout as [s2 Hn _|s2 pcb' Hn _ Hf' _ _ _ _|s2 pcb' m' Hn Hp' _ _ _ Hc2 HP2 Hk2].
  - congruence.
  - rewrite Hm in Hf'. congruence.
  - split_and!; [done| |exists c1; done].
    rewrite HP2. unfold saved. rewrite Hc, Hcur.
    assert (p <> 0) by (intros ->; pose proof (kq_nonnull _ _ Hk); congruence). test_false (p =? 0).
    rewrite lookup_alter_eq, lookup_insert_ne, Hp1 by done. simpl. eauto.
Qed.

(** C28: [ProcessWakeDelayed] wakes exactly the processes it should.  Every process in the
    process table that is blocked with a delay that has run out becomes ready, loses its
    delay and is in the ready queue; every other PCB is untouched, nothing leaves a queue
    and nothing else changes. *)
Theorem wake_delayed_exact s c :
  kq_ok s c -> table_ok s ->
  returns ProcessWakeDelayed (fun _ s' => exists c', kq_ok s' c' /\
    (forall q pcb, pcbs s !! q = Some pcb -> pcbs s' !! q =
       Some (if bool_decide (q ∈ process_table s) then woken (idle_process s) (clock_ticks s) q pcb else pcb)) /\
    (forall e, queued c e -> queued c' e) /\
    (forall q pcb, q ∈ process_table s -> pcbs s !! q = Some pcb -> q <> idle_process s ->
       expired (clock_ticks s) pcb = true -> queued c' (EReady q)) /\
    exists h', s' = set_k_queues h' (set_pcbs (pcbs s') s)) s.
Proof.
  intros Hk Htab. pose proof (ProcessWakeDelayed_ok s c Hk Htab) as Hw.
  destruct (spec_wake_effect (idle_process s) (clock_ticks s) (process_table s) (pcbs s, c)
    (kq_nonnull _ _ Hk) (kq_ready _ _ Hk)) as (Hp & Hq & Hwk).
  destruct (spec_wake _ _ _ _) as [P' c'] eqn:Hs. simpl in *.
  eapply returns_mono; [exact Hw|]. intros ? s' Hsim. exists c'.
  destruct (sim_fields _ _ _ _ Hsim) as (HP & _). split; [exact (sim_kq _ _ _ _ Hsim)|]. split; [|split; [done|split; [eauto|]]].
  - intros q pcb Hqp. rewrite HP, Hp, Hqp. case_bool_decide; case_decide; done.
  - destruct Hsim as (h' & -> & _). exists h'. reflexivity.
Qed.
End Scheduler.

#[global] Arguments spec_make_ready : simpl never.

(** ** Witnesses *)

Module SchedulerWitness.
Import Booted.
#[local] Existing Instance tiny.
#[local] Existing Instance tiny_laws.
#[local] Existing Instance walking_mmu.

(** Init alone, and init after a fork with its child (process 6) ready. *)
Definition forked : kst := Eval vm_compute in
  state_of (run_script 10 [ASyscall YALNIX_FORK []] (Some (inl booted))).
Definition child : Z := 6.
Definition lists0 : qlists := lists_of (k_queues booted).
Definition lists1 : qlists := lists_of (k_queues forked).

Lemma booted_kq : kq_ok booted lists0.
Proof. apply kq_check_sound. by_computing. Qed.
Lemma booted_sched : table_ok booted /\ switch_ok booted /\ nobody_expired booted.
Proof. apply sched_check_sound. by_computing. Qed.
Lemma forked_kq : kq_ok forked lists1.
Proof. apply kq_check_sound. by_computing. Qed.
Lemma forked_sched : table_ok forked /\ switch_ok forked /\ nobody_expired forked.
Proof. apply sched_check_sound. by_computing. Qed.

Lemma schedule_refines_spec_witness :
  let '(n, (P', c')) := spec_schedule (idle_process forked) (current_process forked)
                          (clock_ticks forked) (process_table forked) (pcbs forked, lists1) in
  wp (ProcessSchedule KCClock : K unit) (fun _ _ => False) (schedule_outcome forked KCClock n P' c')
    (fun _ _ => False) forked.
Proof.
  apply (schedule_refines_spec forked lists1 KCClock forked_kq); [apply forked_sched..|].
  right. by_computing.
Defined.

Lemma schedule_round_robin_witness :
  wp (ProcessSchedule KCClock : K unit) (fun _ _ => False)
    (fun kc s' => exists pcbq c', pcbs forked !! child = Some pcbq /\ kc = kernel_context pcbq /\
       current_process s' = child /\
       pcbs s' !! child = Some (set_state PROC_RUNNING pcbq) /\
       pcbs s' !! init = Some (set_kernel_context KCClock (set_state PROC_READY (pcb_of init forked))) /\
       kq_ok s' c' /\ c' !! QReady = Some ([] ++ [EReady init]))
    (fun _ _ => False) forked.
Proof.
  apply (schedule_round_robin forked lists1 init (pcb_of init forked) child [] KCClock forked_kq);
    [apply forked_sched..| | | | | | |]; try (vm_compute; reflexivity).
  - vm_compute. discriminate.
  - by_computing.
Defined.

Lemma lone_process_lost_witness :
  wp (ProcessSchedule KCClock : K unit) (fun _ _ => False)
    (fun kc s1 => kc = KCClock /\ current_process s1 = init /\
       pcbs s1 !! init = Some (set_state PROC_READY (pcb_of init booted)) /\
       (exists c1, kq_ok s1 c1 /\ ~ queued c1 (EReady init)) /\
       wp (ProcessSchedule KCClock : K unit) (fun _ _ => False)
         (fun _ s2 => current_process s2 = idle_process booted /\
            (exists pcb2, pcbs s2 !! init = Some pcb2 /\ state pcb2 = PROC_READY) /\
            exists c2, kq_ok s2 c2 /\ c2 !! QReady = Some [] /\ ~ queued c2 (EReady init))
         (fun _ _ => False) s1)
    (fun _ _ => False) booted.
Proof.
  apply (lone_process_lost booted lists0 init (pcb_of init booted) KCClock KCClock booted_kq);
    [apply booted_sched..| | | | | |]; try (vm_compute; reflexivity).
  vm_compute. discriminate.
Defined.

(** The same bug as a run: three clock ticks after boot the idle process runs while init,
    the only user process, is ready. *)
Lemma lone_process_lost_run :
  let s := state_of (run_script 10 [ATrap TRAP_CLOCK 0 0; ATrap TRAP_CLOCK 0 0; ATrap TRAP_CLOCK 0 0]
                       (Some (inl booted))) in
  current_process s = idle /\ state (pcb_of init s) = PROC_READY.
Proof. vm_compute. split; reflexivity. Qed.

(** Init delays for one tick; at the tick it is due. *)
Definition delayed : kst := Eval vm_compute in
  set_clock_ticks 1 (state_of (run_script 10 [ASyscall YALNIX_DELAY [1]] (Some (inl booted)))).
Definition lists2 : qlists := lists_of (k_queues delayed).

Lemma wake_delayed_exact_witness :
  kq_ok delayed lists2 /\
  returns ProcessWakeDelayed (fun _ s' => exists c', kq_ok s' c' /\
    (forall q pcb, pcbs delayed !! q = Some pcb -> pcbs s' !! q =
       Some (if bool_decide (q ∈ process_table delayed)
             then woken (idle_process delayed) (clock_ticks delayed) q pcb else pcb)) /\
    (forall e, queued lists2 e -> queued c' e) /\
    (forall q pcb, q ∈ process_table delayed -> pcbs delayed !! q = Some pcb -> q <> idle_process delayed ->
       expired (clock_ticks delayed) pcb = true -> queued c' (EReady q)) /\
    exists h', s' = set_k_queues h' (set_pcbs (pcbs s') delayed)) delayed /\
  expired (clock_ticks delayed) (pcb_of init delayed) = true.
Proof.
  assert (H : kq_ok delayed lists2) by (apply kq_check_sound; by_computing).
  split; [exact H|]. split; [|vm_compute; reflexivity].
  apply (wake_delayed_exact delayed lists2 H). split; [reflexivity|].
  rewrite <- Forall_forall. by_computing.
Defined.
End SchedulerWitness.
