(* ===== verification/Waiting.v ===== *)
(** * Waiting queues: blocking, waking one, waking all ([ipc.c])

    [WakeOne] and [WakeAll] against the list model of [Scheduler.v], and
    [BlockOnQueue], which ends in the scheduler.  Pipes, locks and condition
    variables ([Locks.v], [Pipes.v]) are proved from these. *)

From S2P Require Import Prelude Framework Queue Memory Mmu KernelBrk BootMemory State Process Ipc.
From S2P Require Import Exit Tty Loader Syscalls Trap KernelStart Machine Scheduler.

Section Waiting.
Context {F : Framework} {T : Mmu} {FL : FrameworkLaws F}.

(** Queues of blocked processes. *)
Definition wait_queue (q : qid) : Prop :=
  match q with QIpc _ | QTtyRead _ | QTtyWrite _ => True | _ => False end.

(** The PCB of a process taken off a waiting queue. *)
Definition unblocked (pcb : PCB) : PCB :=
  set_user_context (set_reg 0 (to_uint SUCCESS) (user_context pcb)) (set_block_queue None pcb).

Definition spec_unblock (idle p : Z) (st : gmap Z PCB * qlists) : gmap Z PCB * qlists :=
  match st.1 !! p with
  | Some pcb => spec_make_ready idle p (<[p := unblocked pcb]> st.1, st.2)
  | None => st
  end.

(** The first waiter of [q], and the state after it is woken. *)
Definition spec_wake_front (idle : Z) (q : qid) (st : gmap Z PCB * qlists)
  : Z * (gmap Z PCB * qlists) :=
  match spec_pop q st.2 with
  | (Some (EBlock p), c') => (p, spec_unblock idle p (st.1, c'))
  | _ => (0, st)
  end.

Lemma wait_queue_entry s c q l e :
  kq_ok s c -> wait_queue q -> c !! q = Some l -> e ∈ l -> exists p, e = EBlock p.
Proof.
  intros Hk Hw Hq He. pose proof (kq_fits _ _ Hk q l e Hq He). destruct q, e; try done; eauto.
Qed.

Lemma WakeOne_ok s c q :
  kq_ok s c -> wait_queue q -> is_Some (c !! q) ->
  let '(p, (P', c')) := spec_wake_front (idle_process s) q (pcbs s, c) in
  returns (WakeOne q) (fun r s' => r = p /\ sim s s' c' P') s.
Proof.
  intros Hk Hw [l Hq]. unfold spec_wake_front, spec_pop. simpl. rewrite Hq. destruct l as [|e l].
  - destruct (QueuePopFront_ok _ _ q (kq_abs _ _ Hk)) as (h' & Hr & Ha & Ho); [eauto|].
    unfold spec_pop in *. rewrite Hq in *. simpl in *.
    unfold WakeOne. eapply wp_step; [by apply in_queues_run|]. eapply returns_ok; [reflexivity|].
    split; [done|]. exists h'. split; [by destruct s|].
    eapply kq_ok_queues; [done|done|done| |apply (kq_ready _ _ Hk)]. eauto.
  - destruct (wait_queue_entry s c q _ e Hk Hw Hq) as [p ->]; [set_solver|].
    destruct (kq_pop s c q (EBlock p) l p Hk Hq eq_refl) as (h' & Hr & Hown & Hk' & _ & [pcb Hp]).
    unfold spec_unblock. simpl. rewrite Hp.
    set (s1 := set_k_queues h' s) in *. set (P1 := <[p:=unblocked pcb]> (pcbs s)).
    assert (Hk1 : kq_ok (set_pcbs P1 s1) (<[q:=l]> c)) by (by apply (kq_ok_pcb s1 _ p pcb)).
    pose proof (ProcessMakeReady_ok (set_pcbs P1 s1) _ p Hk1) as Hmr.
    change (idle_process (set_pcbs P1 s1)) with (idle_process s) in Hmr.
    change (pcbs (set_pcbs P1 s1)) with P1 in Hmr.
    destruct (spec_make_ready _ _ _) as [P' c'].
    unfold WakeOne. eapply wp_step; [exact Hr|]. cbv beta iota. eapply wp_step; [exact Hown|].
    eapply wp_step; [by apply (upd_pcb_run s1 p pcb)|].
    change (set_pcbs _ s1) with (set_pcbs P1 s1).
    eapply returns_bind; [apply Hmr; right; unfold P1; rewrite lookup_insert_eq; eauto|].
    intros ? s' (h2 & -> & Hk2). eapply returns_ok; [reflexivity|]. split; [done|]. by exists h2.
Qed.

(** All waiters, first to last. *)
Definition waiters (l : list eid) : list Z := omap entry_proc l.
Definition spec_wake_all (idle : Z) (q : qid) (ps : list Z) (st : gmap Z PCB * qlists)
  : gmap Z PCB * qlists :=
  foldl (fun st _ => (spec_wake_front idle q st).2) st ps.

Lemma spec_wake_front_queue idle q p l P c :
  wait_queue q -> c !! q = Some (EBlock p :: l) ->
  (spec_wake_front idle q (P, c)).2.2 !! q = Some l.
Proof.
  intros Hw Hq. unfold spec_wake_front, spec_pop. simpl. rewrite Hq. unfold spec_unblock. simpl.
  assert (q <> QReady) by (by destruct q).
  destruct (P !! p); [|apply lookup_insert_eq]. unfold spec_make_ready.
  destruct (_ || _); [apply lookup_insert_eq|]. rewrite lookup_insert_eq.
  case_decide; [apply lookup_insert_eq|]. simpl. case_decide; [apply lookup_insert_eq|].
  unfold spec_push. rewrite lookup_alter_ne by done. apply lookup_insert_eq.
Qed.

Lemma WakeAll_ok s c q l :
  kq_ok s c -> wait_queue q -> c !! q = Some l ->
  let '(P', c') := spec_wake_all (idle_process s) q (waiters l) (pcbs s, c) in
  returns (WakeAll q) (fun _ s' => sim s s' c' P' /\ c' !! q = Some []) s.
Proof.
  intros Hk Hw Hq. unfold WakeAll, while_queued.
  assert (Hlen : lengths (k_queues s) !! q = Some (Z.of_nat (length l))).
  { by apply (qabs_length _ _ (kq_abs _ _ Hk)). }
  destruct (spec_wake_all (idle_process s) q (waiters l) (pcbs s, c)) as [P' c'] eqn:Hspec.
  eapply wp_step; [apply in_queues_run; unfold load_length; by rewrite Hlen|].
  replace (set_k_queues (k_queues s) s) with s by (by destruct s).
  rewrite Nat2Z.id. clear Hlen. revert s c Hk Hq Hspec. induction l as [|e l IH]; intros s c Hk Hq Hspec; simpl.
  - simpl in Hspec. simplify_eq.
    eapply wp_step; [apply in_queues_run, (QueueIsEmpty_ok _ _ _ _ (kq_abs _ _ Hk) Hq)|].
    rewrite bool_decide_true by done. eapply returns_ok; [reflexivity|]. split; [|done].
    exists (k_queues s). split; [by destruct s|]. by destruct s.
  - eapply wp_step; [apply in_queues_run, (QueueIsEmpty_ok _ _ _ _ (kq_abs _ _ Hk) Hq)|].
    rewrite bool_decide_false by done. replace (set_k_queues (k_queues s) s) with s by (by destruct s).
    destruct (wait_queue_entry s c q _ e Hk Hw Hq) as [p ->]; [set_solver|].
    pose proof (spec_wake_front_queue (idle_process s) q p l (pcbs s) c Hw Hq) as Hq'.
    pose proof (WakeOne_ok s c q Hk Hw) as H1. simpl in Hspec. unfold spec_wake_all in Hspec. simpl in Hspec.
    destruct (spec_wake_front (idle_process s) q (pcbs s, c)) as [r [P1 c1]].
    apply wp_bind. eapply returns_bind; [apply H1; eauto|]. intros ? s1 (-> & Hs1).
    apply (wp_ok _ _ _ _ _ tt s1); [reflexivity|]. destruct (sim_fields _ _ _ _ Hs1) as (HP1 & Hi1 & _).
    eapply returns_mono.
    + apply (IH s1 c1); [by eapply sim_kq|done|]. rewrite HP1, Hi1. exact Hspec.
    + intros ? s2 [Hs2 ?]. split; [|done]. by eapply sim_trans.
Qed.

(** ** What waking leaves alone *)

(** Same processes, same kernel stacks. *)
Definition same_procs (P P' : gmap Z PCB) : Prop :=
  (forall x, is_Some (P' !! x) <-> is_Some (P !! x)) /\
  (forall x pcb', P' !! x = Some pcb' -> exists pcb, P !! x = Some pcb /\
     kernel_stack_pfns pcb' = kernel_stack_pfns pcb).

Lemma same_procs_refl P : same_procs P P.
Proof. split; [done|eauto]. Qed.

Lemma same_procs_trans P1 P2 P3 : same_procs P1 P2 -> same_procs P2 P3 -> same_procs P1 P3.
Proof.
  intros [Hd1 Hp1] [Hd2 Hp2]. split; [intros x; by rewrite Hd2|]. intros x pcb3 H3.
  destruct (Hp2 x pcb3 H3) as (pcb2 & H2 & ->). by apply Hp1.
Qed.

Lemma same_procs_insert P p pcb pcb' :
  P !! p = Some pcb -> kernel_stack_pfns pcb' = kernel_stack_pfns pcb -> same_procs P (<[p := pcb']> P).
Proof.
  intros Hp Hst. split; intros x.
  - destruct (decide (p = x)) as [<-|?]; [rewrite lookup_insert_eq, Hp; split; eauto|by rewrite lookup_insert_ne].
  - intros pcb0. destruct (decide (p = x)) as [<-|?]; [rewrite lookup_insert_eq; intros [= <-]; eauto|].
    rewrite lookup_insert_ne by done. eauto.
Qed.

Lemma same_procs_make_ready idle p st : same_procs st.1 (spec_make_ready idle p st).1.
Proof.
  destruct st as [P c]. split; [intros x; apply spec_make_ready_dom|]. intros x pcb' Hx.
  destruct (only_sched_make_ready idle p (P, c) x pcb' Hx) as (pcb & st & d & Hp & ->). by exists pcb.
Qed.

Lemma spec_make_ready_queues idle p P (c : qlists) :
  (forall q, q <> QReady -> (spec_make_ready idle p (P, c)).2 !! q = c !! q) /\
  (forall q, is_Some (c !! q) -> is_Some ((spec_make_ready idle p (P, c)).2 !! q)) /\
  (forall x, queued (spec_make_ready idle p (P, c)).2 (EBlock x) -> queued c (EBlock x)).
Proof.
  unfold spec_make_ready. destruct (_ || _); [done|]. destruct (P !! p) as [pcb|]; [|done].
  case_decide; [done|]. simpl. case_decide; [done|]. unfold spec_push. split_and!.
  - intros q Hq. by rewrite lookup_alter_ne.
  - intros q [l Hl]. destruct (decide (QReady = q)) as [<-|?].
    + rewrite lookup_alter_eq, Hl. simpl. eauto.
    + rewrite lookup_alter_ne by done. eauto.
  - intros x (q & l & Hq & Hx). destruct (decide (QReady = q)) as [<-|?].
    + rewrite lookup_alter_eq in Hq. destruct (c !! QReady) as [l0|] eqn:Hl; [|done]. simpl in Hq. simplify_eq.
      apply elem_of_app in Hx as [?|Hx%list_elem_of_singleton]; [|done]. by exists QReady, l0.
    + rewrite lookup_alter_ne in Hq by done. by exists q, l.
Qed.

Lemma spec_wake_front_frame idle q P (c : qlists) :
  let '(p, (P', c')) := spec_wake_front idle q (P, c) in
  same_procs P P' /\
  (forall q', q' <> q -> q' <> QReady -> c' !! q' = c !! q') /\
  (forall q', is_Some (c !! q') -> is_Some (c' !! q')) /\
  (forall x, queued c' (EBlock x) -> queued c (EBlock x)).
Proof.
  unfold spec_wake_front, spec_pop. simpl.
  destruct (c !! q) as [[|[p|p|p|l'] l]|] eqn:Hq; try (split_and!; done || apply same_procs_refl).
  set (c0 := <[q:=l]> c).
  assert (H1 : forall q', q' <> q -> c0 !! q' = c !! q') by (intros; by apply lookup_insert_ne).
  assert (H2 : forall q', is_Some (c !! q') -> is_Some (c0 !! q')).
  { intros q' Hs. unfold c0. destruct (decide (q = q')) as [<-|?]; [rewrite lookup_insert_eq; eauto|].
    by rewrite lookup_insert_ne. }
  assert (H3 : forall x, queued c0 (EBlock x) -> queued c (EBlock x)).
  { intros x (q' & l0 & Hq' & Hx). unfold c0 in Hq'. destruct (decide (q = q')) as [<-|?].
    - rewrite lookup_insert_eq in Hq'. simplify_eq. exists q, (EBlock p :: l0). split; [done|set_solver].
    - rewrite lookup_insert_ne in Hq' by done. by exists q', l0. }
  unfold spec_unblock. simpl. destruct (P !! p) as [pcb|] eqn:Hp; [|split_and!; auto using same_procs_refl].
  pose proof (same_procs_make_ready idle p (<[p:=unblocked pcb]> P, c0)) as Hsp. simpl in Hsp.
  destruct (spec_make_ready_queues idle p (<[p:=unblocked pcb]> P) c0) as (Hq1 & Hq2 & Hq3).
  destruct (spec_make_ready _ _ _) as [P' c']. simpl in *. split_and!.
  - eapply same_procs_trans; [|exact Hsp]. by apply same_procs_insert with (pcb := pcb).
  - intros q' Hne Hr. rewrite Hq1 by done. auto.
  - auto.
  - auto.
Qed.
End Waiting.
