(* ===== verification/Locks.v ===== *)
(** * Locks and condition variables ([ipc.c])

    A lock has one owner and a queue of waiters; release hands it to the first waiter.
    The theorems: who owns a lock when a call returns, what release, signal, broadcast
    and wait do to the queues, and that a dying process leaves no lock behind. *)

From S2P Require Import Prelude Framework Queue Memory Mmu KernelBrk BootMemory State Process Ipc.
From S2P Require Import Exit Tty Loader Syscalls Trap KernelStart Machine Scheduler Waiting.

Section Locks.
Context {F : Framework} {T : Mmu} {FL : FrameworkLaws F}.

(** ** Objects *)

Lemma get_object_run s id o : zlookup (objects s) id = Some o -> get_object id s = Ok o s.
Proof. intros H. unfold get_object. by rewrite H. Qed.

#[local] Hint Resolve get_object_run : yalnix.

Lemma upd_object_run s id o f :
  zlookup (objects s) id = Some o ->
  upd_object id f s = Ok tt (set_objects (<[Z.to_nat id := f o]> (objects s)) s).
Proof. intros H. unfold upd_object. by rewrite (bind_ok _ _ _ _ _ (get_object_run _ _ _ H)). Qed.

(** The table of IPC objects has its size, and every object in use has its queue. *)
Definition ipc_ok (s : kst) (c : qlists) : Prop :=
  length (objects s) = Z.to_nat IPC_MAX_OBJECTS /\
  forall id o, zlookup (objects s) id = Some o -> ipc_type o <> IPC_FREE -> is_Some (c !! QIpc id).

Definition is_object (s : kst) (id : Z) (ty : ipc_kind) (o : IpcObject) : Prop :=
  zlookup (objects s) id = Some o /\ ipc_type o = ty.

Lemma object_range s c id o :
  ipc_ok s c -> zlookup (objects s) id = Some o -> 0 <= id < IPC_MAX_OBJECTS.
Proof. intros [Hlen _] H. apply zlookup_Some in H as [? _]. unfold IPC_MAX_OBJECTS in *. lia. Qed.

Lemma GetObject_ok s c id ty :
  ipc_ok s c ->
  exists b, GetObject id ty s = Ok b s /\ (b = true <-> exists o, is_object s id ty o).
Proof.
  intros Hi. unfold GetObject, is_object. case_test.
  - exists false. split; [done|]. split; [done|]. intros (o & Ho & _).
    pose proof (object_range _ _ _ _ Hi Ho). lia.
  - destruct Hi as [Hlen _]. destruct (zlookup_is_Some (objects s) id) as [o Ho].
    { rewrite Hlen. unfold IPC_MAX_OBJECTS in *. lia. }
    eexists. rewrite (bind_ok _ _ _ _ _ (get_object_run _ _ _ Ho)). split; [reflexivity|].
    rewrite bool_decide_eq_true. rewrite Ho. naive_solver.
Qed.

(** ** Release *)

(** The state after lock [id] changed hands: queues and PCBs as given. *)
Definition with_owner (id p : Z) (o : IpcObject) (P : gmap Z PCB) (h : qheap qid eid) (s : kst) : kst :=
  set_objects (<[Z.to_nat id := set_lock_owner p o]> (objects s)) (with_sched P h s).

Lemma kq_ok_objects s c v : kq_ok (set_objects v s) c <-> kq_ok s c.
Proof. split; intros [? ? ? ? ? ?]; by split. Qed.

Lemma spec_wake_front_zero s c q :
  kq_ok s c -> wait_queue q -> (spec_wake_front (idle_process s) q (pcbs s, c)).1 = 0 \/
    exists p l, c !! q = Some (EBlock p :: l) /\
      (spec_wake_front (idle_process s) q (pcbs s, c)).1 = p /\ is_Some (pcbs s !! p) /\ p <> 0.
Proof.
  intros Hk Hw. unfold spec_wake_front, spec_pop. simpl.
  destruct (c !! q) as [[|e l]|] eqn:Hq; simpl; [by left| |by left].
  destruct (wait_queue_entry s c q _ e Hk Hw Hq) as [p ->]; [set_solver|]. right.
  pose proof (kq_live _ _ Hk q _ (EBlock p) p Hq ltac:(set_solver) eq_refl) as Hl.
  exists p, l. split_and!; [done|done|done|]. intros ->. rewrite (kq_nonnull _ _ Hk) in Hl. by destruct Hl.
Qed.

Lemma LockRelease_ok s c id o :
  kq_ok s c -> zlookup (objects s) id = Some o -> is_Some (c !! QIpc id) ->
  let '(p, (P', c')) := spec_wake_front (idle_process s) (QIpc id) (pcbs s, c) in
  returns (LockRelease id) (fun rc s' => rc = SUCCESS /\
    exists h', s' = with_owner id p o P' h' s /\ kq_ok s' c') s.
Proof.
  intros Hk Ho Hq. set (s1 := set_objects (<[Z.to_nat id := set_lock_owner 0 o]> (objects s)) s).
  assert (Hk1 : kq_ok s1 c) by by apply kq_ok_objects.
  pose proof (WakeOne_ok s1 c (QIpc id) Hk1 I Hq) as Hw.
  pose proof (spec_wake_front_zero s c (QIpc id) Hk I) as Hz.
  change (idle_process s1) with (idle_process s) in Hw. change (pcbs s1) with (pcbs s) in Hw.
  destruct (spec_wake_front _ _ _) as [p [P' c']]. simpl in Hz.
  unfold LockRelease. eapply wp_step; [by apply (upd_object_run s id o)|]. fold s1.
  eapply returns_bind; [exact Hw|]. intros r s2 (-> & h' & -> & Hk2).
  assert (Ho2 : zlookup (objects (with_sched P' h' s1)) id = Some (set_lock_owner 0 o)).
  { simpl. rewrite zlookup_insert by eauto. by rewrite decide_True. }
  destruct (p =? 0) eqn:Hp; bool_to_prop; simpl.
  - eapply wp_step; [reflexivity|]. eapply returns_ok; [reflexivity|]. split; [done|].
    exists h'. subst p. split; [done|]. exact Hk2.
  - eapply wp_step; [by apply upd_object_run|]. eapply returns_ok; [reflexivity|]. split; [done|].
    exists h'. split.
    + unfold with_owner, with_sched, s1. simpl. destruct s. unfold set_objects, set_k_queues, set_pcbs. simpl.
      by rewrite list_insert_insert_eq.
    + by apply kq_ok_objects.
Qed.

(** ** Acquire *)

(** [ProcessSchedule] never returns to its caller as a function call. *)
Lemma schedule_never_returns {A} k s :
  wp (ProcessSchedule k : K A) (fun _ _ => False) (fun _ _ => True) (fun _ _ => True) s.
Proof.
  unfold ProcessSchedule. do 3 (apply wp_any; intros). done.
Qed.

Lemma block_never_returns {A} q after s :
  wp (BlockOnQueue q after : K A) (fun _ _ => False) (fun _ _ => True) (fun _ _ => True) s.
Proof.
  unfold BlockOnQueue. do 4 (apply wp_any; intros). apply schedule_never_returns.
Qed.

(** Owned by the current process. *)
Definition owns (s : kst) (id : Z) : Prop :=
  exists o, is_object s id IPC_LOCK o /\ lock_owner o = current_process s.

Lemma lock_wait_owns caller id s o :
  is_object s id IPC_LOCK o ->
  wp (lock_wait caller id) (fun rc s' => owns s' id) (fun _ _ => True) (fun _ _ => True) s.
Proof.
  intros [Ho Hty]. unfold lock_wait. run_step.
  destruct (negb (lock_owner o =? 0)).
  - eapply wp_mono; [apply block_never_returns|done..].
  - eapply wp_step; [reflexivity|]. eapply wp_step; [by apply upd_object_run|].
    unfold wp, mret, M_ret. exists (set_lock_owner (current_process s) o). split; [|done].
    split; [|done]. simpl. rewrite zlookup_insert by eauto. by rewrite decide_True.
Qed.

(** The early returns of [ERROR]. *)
Ltac refused := unfold wp, mret, M_ret; congruence.

Lemma LockAcquire_owns caller id s c :
  ipc_ok s c ->
  wp (LockAcquire caller id) (fun rc s' => rc = SUCCESS -> owns s' id)
    (fun _ _ => True) (fun _ _ => True) s.
Proof.
  intros Hi. pose proof error_not_success. unfold LockAcquire.
  destruct (GetObject_ok s c id IPC_LOCK Hi) as (b & Hb & Hob).
  eapply wp_step; [exact Hb|]. eapply wp_step; [reflexivity|]. eapply wp_step; [reflexivity|].
  case_test; [by refused|]. destruct b; [|done]. destruct Hob as [(o & Hobj) _]; [done|].
  eapply wp_step; [by apply get_object_run, Hobj|].
  case_test; [by refused|]. eapply wp_mono; [by apply (lock_wait_owns _ _ _ o)|auto..].
Qed.

Lemma LockAcquire_woken_owns caller id s c :
  ipc_ok s c ->
  wp (LockAcquire_woken caller id) (fun rc s' => rc = SUCCESS -> owns s' id)
    (fun _ _ => True) (fun _ _ => True) s.
Proof.
  intros Hi. pose proof error_not_success. unfold LockAcquire_woken.
  destruct (GetObject_ok s c id IPC_LOCK Hi) as (b & Hb & Hob).
  eapply wp_step; [exact Hb|]. destruct b; [|by refused]. destruct Hob as [(o & Hobj) _]; [done|]. simpl.
  eapply wp_step; [by apply get_object_run, Hobj|]. eapply wp_step; [reflexivity|].
  case_test; [|eapply wp_mono; [by apply (lock_wait_owns _ _ _ o)|auto..]].
  unfold wp, mret, M_ret. intros _. by exists o.
Qed.

(** ** Blocking *)

Definition blocked_pcb (q : qid) (u : UserContext) (pcb : PCB) : PCB :=
  set_block_queue (Some q) (set_state PROC_BLOCKED (set_user_context u pcb)).

(** The current process is blocked at the back of [q]: the state the scheduler is
    called in. *)
Definition blocked_on (q : qid) (c : qlists) (s s1 : kst) : Prop :=
  exists pcb h', pcbs s !! current_process s = Some pcb /\
    s1 = with_sched (<[current_process s := blocked_pcb q (uctxt s) pcb]> (pcbs s)) h' s /\
    kq_ok s1 (spec_push q (EBlock (current_process s)) c).

(** Control went where the scheduler sent it from [s1], [kc] being saved. *)
Definition scheduled_from (s1 : kst) (c1 : qlists) (kc kc' : KernelContext) (s' : kst) : Prop :=
  let '(n, (P', c')) := spec_schedule (idle_process s1) (current_process s1) (clock_ticks s1)
                          (process_table s1) (pcbs s1, c1) in
  schedule_outcome s1 kc n P' c' kc' s'.

(** Everything the scheduler needs, in one record. *)
Record proc_ok (s : kst) (c : qlists) : Prop := {
  pk_kq : kq_ok s c;
  pk_table : table_ok s;
  pk_switch : switch_ok s;
  pk_current : is_Some (pcbs s !! current_process s)
}.

Lemma proc_ok_pcb s c P h c' :
  proc_ok s c -> (forall q, is_Some (P !! q) <-> is_Some (pcbs s !! q)) ->
  (forall q pcb, P !! q = Some pcb -> exists pcb0, pcbs s !! q = Some pcb0 /\
     kernel_stack_pfns pcb = kernel_stack_pfns pcb0) ->
  kq_ok (with_sched P h s) c' -> proc_ok (with_sched P h s) c'.
Proof.
  intros [Hk [Hlen Htab] [He Hst Hid] Hcur] Hdom Hpf Hk'. split; [done|..].
  - split; [done|]. intros p Hp. destruct (Htab p Hp); [by left|right; by apply Hdom].
  - split; [done| |by apply Hdom]. intros p pcb Hp. destruct (Hpf p pcb Hp) as (pcb0 & H0 & ->). by eapply Hst.
  - by apply Hdom.
Qed.

Lemma proc_ok_insert s c p pcb pcb' h c' :
  proc_ok s c -> pcbs s !! p = Some pcb -> kernel_stack_pfns pcb' = kernel_stack_pfns pcb ->
  kq_ok (with_sched (<[p := pcb']> (pcbs s)) h s) c' ->
  proc_ok (with_sched (<[p := pcb']> (pcbs s)) h s) c'.
Proof.
  intros Hpk Hp Hst. apply proc_ok_pcb with (c := c); [done|..].
  - intros q. destruct (decide (p = q)) as [<-|?]; [rewrite lookup_insert_eq, Hp; split; eauto|].
    by rewrite lookup_insert_ne.
  - intros q pcb0. destruct (decide (p = q)) as [<-|?].
    + rewrite lookup_insert_eq. intros [= <-]. eauto.
    + rewrite lookup_insert_ne by done. eauto.
Qed.

(** The scheduler does not return, whatever type its caller would have it return. *)
Lemma ProcessSchedule_from {A} s c kc :
  proc_ok s c ->
  wp (ProcessSchedule kc : K A) (fun _ _ => False) (fun kc' s' => scheduled_from s c kc kc' s')
    (fun _ _ => False) s.
Proof.
  intros [Hk Htab Hsw Hcur]. pose proof (ProcessSchedule_ok s c kc Hk Htab Hsw (or_intror Hcur)) as Hs.
  unfold scheduled_from. destruct (spec_schedule _ _ _ _ _) as [n [P c']].
  revert Hs. unfold wp, ProcessSchedule, mbind, M_bind.
  destruct (schedule_next _) as [n0 s0| |]; [|done..]. simpl.
  by destruct (if negb _ then _ else _) as [? ?| |].
Qed.

Lemma BlockOnQueue_ok {A} s c q l after :
  proc_ok s c -> wait_queue q -> c !! q = Some l -> ~ queued c (EBlock (current_process s)) ->
  wp (BlockOnQueue q after : K A) (fun _ _ => False)
    (fun kc s' => exists s1, blocked_on q c s s1 /\
       scheduled_from s1 (spec_push q (EBlock (current_process s)) c) (after (current_process s)) kc s')
    (fun _ _ => False) s.
Proof.
  intros Hpk Hw Hq Hnq. pose proof Hpk as [Hk Htab Hsw [pcb Hp]]. set (cur := current_process s) in *.
  unfold BlockOnQueue. eapply wp_step; [reflexivity|]. eapply wp_step; [reflexivity|].
  eapply wp_step; [by apply (upd_pcb_run s cur pcb)|].
  set (P1 := <[cur:=_]> (pcbs s)).
  assert (Hk1 : kq_ok (set_pcbs P1 s) c) by (by eapply kq_ok_pcb).
  destruct (kq_push (set_pcbs P1 s) c q l (EBlock cur) cur Hk1 Hq Hnq) as (h' & Hr & Hk'); [by destruct q|done|..].
  { simpl. unfold P1. rewrite lookup_insert_eq. eauto. }
  eapply wp_step; [exact Hr|].
  change (set_k_queues h' (set_pcbs P1 s)) with (with_sched P1 h' s) in *.
  assert (Hpk1 : proc_ok (with_sched P1 h' s) (spec_push q (EBlock cur) c)).
  { unfold P1. by eapply (proc_ok_insert s c cur pcb). }
  eapply wp_mono; [by apply ProcessSchedule_from|done| |done]. intros kc s' Ho.
  exists (with_sched P1 h' s). split; [|done]. exists pcb, h'. by split_and!.
Qed.

(** ** Properties of locks *)

(** C14: mutual exclusion at the call boundary.  Whenever [Acquire] - at once, after having
    waited, or at the end of a wait on a condition variable - returns SUCCESS, the caller is
    the owner of the lock; it never returns SUCCESS while somebody else owns it. *)
Theorem acquire_success_owns caller id cvar s c :
  ipc_ok s c ->
  wp (SysAcquire caller id) (fun rc s' => rc = SUCCESS -> owns s' id)
    (fun _ _ => True) (fun _ _ => True) s /\
  wp (LockAcquire_woken caller id) (fun rc s' => rc = SUCCESS -> owns s' id)
    (fun _ _ => True) (fun _ _ => True) s /\
  wp (SysCvarWait_woken caller cvar id) (fun rc s' => rc = SUCCESS -> owns s' id)
    (fun _ _ => True) (fun _ _ => True) s.
Proof.
  intros Hi. split_and!.
  - by eapply LockAcquire_owns.
  - by eapply LockAcquire_woken_owns.
  - unfold SysCvarWait_woken. destruct (GetObject_ok s c cvar IPC_CVAR Hi) as (b & Hb & _).
    eapply wp_step; [exact Hb|]. pose proof error_not_success.
    destruct b; simpl; [by eapply LockAcquire_owns|by refused].
Qed.

(** C22: [Acquire] on every branch: ERROR, with nothing changed, for an object that is no
    lock, a caller that is no process, or a lock the caller already holds; a free lock is
    taken and nothing else changes; otherwise the caller is blocked behind all other
    waiters with its context saved, and the scheduler runs. *)
Theorem acquire_outcome caller id s c :
  proc_ok s c -> ipc_ok s c -> ~ queued c (EBlock (current_process s)) ->
  wp (SysAcquire caller id)
    (fun rc s' =>
       (rc = ERROR /\ s' = s /\
          (~ (exists o, is_object s id IPC_LOCK o) \/ current_process s = idle_process s \/ owns s id)) \/
       (rc = SUCCESS /\ exists o, is_object s id IPC_LOCK o /\ lock_owner o = 0 /\
          s' = set_objects (<[Z.to_nat id := set_lock_owner (current_process s) o]> (objects s)) s))
    (fun kc s' => exists o s1, is_object s id IPC_LOCK o /\ lock_owner o <> 0 /\ ~ owns s id /\
       blocked_on (QIpc id) c s s1 /\
       scheduled_from s1 (spec_push (QIpc id) (EBlock (current_process s)) c)
         (KCSys caller (InAcquire (current_process s) id)) kc s')
    (fun _ _ => False) s.
Proof.
  intros Hpk Hi Hnq. unfold SysAcquire, LockAcquire.
  destruct (GetObject_ok s c id IPC_LOCK Hi) as (b & Hb & Hob).
  eapply wp_step; [exact Hb|]. eapply wp_step; [reflexivity|]. eapply wp_step; [reflexivity|].
  assert (Hcur0 : current_process s <> 0).
  { intros H0. destruct (pk_current _ _ Hpk) as [? Hc]. rewrite H0, (kq_nonnull _ _ (pk_kq _ _ Hpk)) in Hc. done. }
  case_test.
  - left. split_and!; [done|done|]. destruct b; [right; left; destruct Ht as [Ht|Ht]; simpl in Ht; bool_to_prop; lia|].
    left. intros Hex. apply Hob in Hex. done.
  - destruct b; [|done]. destruct Hob as [(o & Hobj) _]; [done|].
    eapply wp_step; [by apply get_object_run, Hobj|]. case_test.
    + left. split_and!; [done|done|]. right; right. by exists o.
    + assert (Hnown : ~ owns s id).
      { intros (o' & [Ho' _] & Hown). destruct Hobj as [Ho _]. simplify_eq. }
      unfold lock_wait. eapply wp_step; [by apply get_object_run, Hobj|].
      destruct (lock_owner o =? 0) eqn:Hfree; bool_to_prop; simpl.
      * eapply wp_step; [reflexivity|]. eapply wp_step; [by apply upd_object_run, Hobj|].
        right. split; [done|]. by exists o.
      * destruct Hobj as [Ho Hty]. destruct (proj2 Hi id o Ho) as [l Hl]; [by rewrite Hty|].
        eapply wp_mono; [by eapply BlockOnQueue_ok|done| |done].
        intros kc s' (s1 & Hs1 & Hsch). exists o, s1. done.
Qed.

(** C15: [Release] by the owner hands the lock over in one step: with nobody waiting it
    becomes free; otherwise the first waiter - and no other - leaves the queue, is made
    ready and already owns the lock, so that when it runs its [Acquire] returns SUCCESS
    at once.  Anybody else's [Release] is refused and changes nothing. *)
Theorem release_hands_over id s c :
  kq_ok s c -> ipc_ok s c ->
  returns (SysRelease id) (fun rc s' =>
    (rc = ERROR /\ s' = s /\ ~ owns s id) \/
    (rc = SUCCESS /\ owns s id /\ exists o l P' c' h' p,
       is_object s id IPC_LOCK o /\ c !! QIpc id = Some l /\ kq_ok s' c' /\
       s' = with_owner id p o P' h' s /\
       match l with
       | [] => p = 0 /\ P' = pcbs s /\ c' = c
       | e :: l' => e = EBlock p /\ c' !! QIpc id = Some l' /\
           (P', c') = spec_unblock (idle_process s) p (pcbs s, <[QIpc id := l']> c) /\
           forall caller s2, current_process s2 = p -> objects s2 = objects s' ->
             LockAcquire_woken caller id s2 = Ok SUCCESS s2
       end)) s.
Proof.
  intros Hk Hi. unfold SysRelease. destruct (GetObject_ok s c id IPC_LOCK Hi) as (b & Hb & Hob).
  eapply wp_step; [exact Hb|]. destruct b; simpl.
  2:{ left. split_and!; [done|done|]. intros (o & Ho & _). destruct Hob as [_ Hob]. discriminate Hob. by exists o. }
  destruct Hob as [(o & Hobj) _]; [done|]. pose proof Hobj as [Ho Hty].
  run_step. eapply wp_step; [reflexivity|].
  destruct (lock_owner o =? current_process s) eqn:Hown; bool_to_prop; simpl.
  2:{ left. split_and!; [done|done|]. intros (o' & [Ho' _] & ?). simplify_eq. }
  destruct (proj2 Hi id o Ho) as [l Hl]; [by rewrite Hty|].
  pose proof (LockRelease_ok s c id o Hk Ho ltac:(eauto)) as Hr.
  destruct (spec_wake_front (idle_process s) (QIpc id) (pcbs s, c)) as [p [P' c']] eqn:Hsw.
  eapply returns_mono; [exact Hr|]. intros rc s' (-> & h' & -> & Hk'). right.
  split; [done|]. split; [by exists o|]. exists o, l, P', c', h', p.
  split_and!; [done|done|exact Hk'|done|].
  unfold spec_wake_front, spec_pop in Hsw. simpl in Hsw. rewrite Hl in Hsw.
  destruct l as [|e l]; [by simplify_eq|].
  destruct (wait_queue_entry s c (QIpc id) _ e Hk I Hl) as [p' ->]; [set_solver|].
  pose proof (spec_wake_front_queue (idle_process s) (QIpc id) p' l (pcbs s) c I Hl) as Hq'.
  unfold spec_wake_front, spec_pop in Hq'. simpl in Hq', Hsw. rewrite Hl in Hq'. simpl in Hq', Hsw.
  injection Hsw as <- Hsw. rewrite Hsw in Hq'. simpl in Hq'. split_and!; [done|done|done|].
  intros caller s2 Hcur Hobjs. unfold LockAcquire_woken.
  assert (Ho2 : zlookup (objects s2) id = Some (set_lock_owner p' o)).
  { rewrite Hobjs. simpl. rewrite zlookup_insert by eauto. by rewrite decide_True. }
  assert (Hi2 : ipc_ok s2 c).
  { destruct Hi as [Hlen Hqs]. split; [rewrite Hobjs; simpl; by rewrite length_insert|].
    intros id' o'. rewrite Hobjs. simpl. rewrite zlookup_insert by eauto.
    case_decide; [intros [= <-]; subst; by eauto|by apply Hqs]. }
  destruct (GetObject_ok s2 c id IPC_LOCK Hi2) as (b & Hb2 & Hob2).
  rewrite (bind_ok _ _ _ _ _ Hb2). assert (b = true) as -> by (apply Hob2; by exists (set_lock_owner p' o)). simpl.
  rewrite (bind_ok _ _ _ _ _ (get_object_run _ _ _ Ho2)), bind_gets. simpl.
  rewrite Hcur. by test_true (p' =? p').
Qed.

(** ** Condition variables *)

Lemma proc_ok_owner s c id p o P h c' :
  proc_ok s c -> same_procs (pcbs s) P -> kq_ok (with_owner id p o P h s) c' ->
  proc_ok (with_owner id p o P h s) c'.
Proof.
  intros Hpk [Hd Hp] Hk. destruct (proc_ok_pcb s c P h c' Hpk Hd) as [_ Ht Hs Hc].
  - intros q pcb Hq. destruct (Hp q pcb Hq) as (pcb0 & ? & ?). eauto.
  - exact (proj1 (kq_ok_objects _ _ _) Hk).
  - split; [done|by destruct Ht|by destruct Hs|done].
Qed.

(** C16: waiting on a condition variable is atomic: when the caller owns the lock and both
    objects exist, the lock is released - to its first waiter if there is one - and the
    caller is at the back of the condition variable's queue before the scheduler runs;
    in every other case the call fails and changes nothing. *)
Theorem cvar_wait_atomic caller cvar id s c :
  proc_ok s c -> ipc_ok s c -> ~ queued c (EBlock (current_process s)) ->
  wp (SysCvarWait caller cvar id)
    (fun rc s' => rc = ERROR /\ s' = s /\
       ~ (owns s id /\ exists o, is_object s cvar IPC_CVAR o))
    (fun kc s' => owns s id /\ exists o p P' c' h' s1, is_object s id IPC_LOCK o /\
       spec_wake_front (idle_process s) (QIpc id) (pcbs s, c) = (p, (P', c')) /\
       kq_ok (with_owner id p o P' h' s) c' /\
       blocked_on (QIpc cvar) c' (with_owner id p o P' h' s) s1 /\
       scheduled_from s1 (spec_push (QIpc cvar) (EBlock (current_process s)) c')
         (KCSys caller (InCvarWait (current_process s) cvar id)) kc s')
    (fun _ _ => False) s.
Proof.
  intros Hpk Hi Hnq. pose proof (pk_kq _ _ Hpk) as Hk. unfold SysCvarWait.
  destruct (GetObject_ok s c cvar IPC_CVAR Hi) as (b1 & Hb1 & Hob1).
  destruct (GetObject_ok s c id IPC_LOCK Hi) as (b2 & Hb2 & Hob2).
  eapply wp_step; [exact Hb1|]. eapply wp_step; [exact Hb2|].
  destruct b1; [|by simpl; split_and!; [done|done|intros [_ Hex]; apply Hob1 in Hex]].
  destruct b2; simpl.
  2:{ split_and!; [done|done|]. intros [(o & Ho & _) _].
      destruct Hob2 as [_ Hob2]. discriminate Hob2. by exists o. }
  destruct Hob2 as [(o & Hobj) _]; [done|]. destruct Hob1 as [(oc & Hoc & Htc) _]; [done|].
  pose proof Hobj as [Ho Hty]. run_step. eapply wp_step; [reflexivity|].
  destruct (lock_owner o =? current_process s) eqn:Hown; bool_to_prop; simpl.
  2:{ split_and!; [done|done|]. intros [(o' & [Ho' _] & ?) _]. simplify_eq. }
  destruct (proj2 Hi id o Ho) as [l Hl]; [by rewrite Hty|].
  destruct (proj2 Hi cvar oc Hoc) as [lc Hlc]; [by rewrite Htc|].
  assert (Hne : QIpc cvar <> QIpc id) by (intros [= ->]; congruence).
  pose proof (LockRelease_ok s c id o Hk Ho ltac:(eauto)) as Hr.
  pose proof (spec_wake_front_frame (idle_process s) (QIpc id) (pcbs s) c) as Hfr.
  destruct (spec_wake_front (idle_process s) (QIpc id) (pcbs s, c)) as [p [P' c']] eqn:Hsw.
  destruct Hfr as (Hsp & Hq' & _ & Hqd).
  eapply returns_then; [exact Hr|]. intros rc s2 (-> & h' & -> & Hk'). simpl.
  pose proof error_not_success. test_false (SUCCESS =? ERROR).
  assert (Hpk2 : proc_ok (with_owner id p o P' h' s) c') by by eapply proc_ok_owner.
  eapply wp_mono.
  - apply (BlockOnQueue_ok _ c' (QIpc cvar) lc _ Hpk2 I); [by rewrite Hq'|].
    intros Hq. by apply Hnq, Hqd.
  - done.
  - intros kc s' (s1 & Hb & Hsch). split; [by exists o|]. by exists o, p, P', c', h', s1.
  - done.
Qed.

(** C30: signal wakes the waiter that has waited longest and nobody else (nobody at all when
    none waits); broadcast wakes all of them in the order they came and leaves the queue
    empty; on anything but a condition variable both fail and change nothing. *)
Theorem signal_broadcast cvar s c :
  kq_ok s c -> ipc_ok s c ->
  returns (SysCvarSignal cvar) (fun rc s' =>
    (rc = ERROR /\ s' = s /\ ~ exists o, is_object s cvar IPC_CVAR o) \/
    (rc = SUCCESS /\ let '(p, (P', c')) := spec_wake_front (idle_process s) (QIpc cvar) (pcbs s, c) in
       sim s s' c' P')) s /\
  returns (SysCvarBroadcast cvar) (fun rc s' =>
    (rc = ERROR /\ s' = s /\ ~ exists o, is_object s cvar IPC_CVAR o) \/
    (rc = SUCCESS /\ exists l, c !! QIpc cvar = Some l /\
       let '(P', c') := spec_wake_all (idle_process s) (QIpc cvar) (waiters l) (pcbs s, c) in
       sim s s' c' P' /\ c' !! QIpc cvar = Some [])) s.
Proof.
  intros Hk Hi. destruct (GetObject_ok s c cvar IPC_CVAR Hi) as (b & Hb & Hob).
  unfold SysCvarSignal, SysCvarBroadcast.
  split; (eapply wp_step; [exact Hb|]); (destruct b; simpl;
    [|left; split_and!; [done|done|]; intros Hex; apply Hob in Hex; done]);
    destruct Hob as [(o & Ho & Hty) _]; try done;
    (destruct (proj2 Hi cvar o Ho) as [l Hl]; [by rewrite Hty|]).
  - pose proof (WakeOne_ok s c (QIpc cvar) Hk I ltac:(eauto)) as Hw.
    destruct (spec_wake_front _ _ _) as [p [P' c']]. eapply returns_bind; [exact Hw|].
    intros r s' [_ Hs]. eapply returns_ok; [reflexivity|]. by right.
  - pose proof (WakeAll_ok s c (QIpc cvar) l Hk I Hl) as Hw.
    destruct (spec_wake_all _ _ _ _) as [P' c'] eqn:Hsp. eapply returns_bind; [exact Hw|].
    intros r s' Hs. eapply returns_ok; [reflexivity|]. right. split; [done|]. exists l. by rewrite Hsp.
Qed.

(** ** Exit and reclaim *)

Lemma ipc_ok_owner s c id p o P h c' :
  ipc_ok s c -> zlookup (objects s) id = Some o -> (forall q, is_Some (c !! q) -> is_Some (c' !! q)) ->
  ipc_ok (with_owner id p o P h s) c'.
Proof.
  intros [Hlen Hq] Ho Hdom. split; simpl; [by rewrite length_insert|].
  intros id' o'. rewrite zlookup_insert by eauto. case_decide as Hid.
  - intros [= <-] Hty. subst. apply Hdom. by eapply Hq.
  - intros Ho' Hty. apply Hdom. by eapply Hq.
Qed.

(** Waking others leaves process [p] and the family ties of all alone. *)
Record bystander (p : Z) (P P' : gmap Z PCB) (c c' : qlists) : Prop := {
  by_pcb : P' !! p = P !! p;
  by_dom : forall x, is_Some (P' !! x) <-> is_Some (P !! x);
  by_fields : forall x pcb', P' !! x = Some pcb' -> exists pcb, P !! x = Some pcb /\
    kernel_stack_pfns pcb' = kernel_stack_pfns pcb /\ parent pcb' = parent pcb /\
    waiting_for_child pcb' = waiting_for_child pcb;
  by_ready : queued c' (EReady p) -> queued c (EReady p);
  by_block : forall x, queued c' (EBlock x) -> queued c (EBlock x);
  by_queues : forall q, is_Some (c !! q) -> is_Some (c' !! q);
  by_children : forall x, c' !! QChildren x = c !! QChildren x
}.

Lemma bystander_refl p P c : bystander p P P c c.
Proof. split; eauto 10. Qed.

Lemma bystander_trans p P1 P2 P3 c1 c2 c3 :
  bystander p P1 P2 c1 c2 -> bystander p P2 P3 c2 c3 -> bystander p P1 P3 c1 c3.
Proof.
  intros [] []. split; eauto using eq_trans.
  - intros x. by rewrite by_dom1.
  - intros x pcb3 H3. destruct (by_fields1 x pcb3 H3) as (pcb2 & H2 & -> & -> & ->). by apply by_fields0.
Qed.

Lemma make_ready_bystander idle p q P (c : qlists) :
  p <> q -> let '(P', c') := spec_make_ready idle q (P, c) in bystander p P P' c c'.
Proof.
  intros Hne. destruct (spec_make_ready idle q (P, c)) as [P' c'] eqn:Hs.
  destruct (spec_make_ready_queues idle q P c) as (Hq1 & Hq2 & Hq3). rewrite Hs in *. simpl in *.
  assert (HP : P' = P \/ exists pcb, P !! q = Some pcb /\ P' = <[q := set_state PROC_READY pcb]> P).
  { unfold spec_make_ready in Hs. destruct (_ || _); [simplify_eq; by left|].
    destruct (P !! q) as [pcb|]; [|simplify_eq; by left]. case_decide; simplify_eq; [by left|right; eauto]. }
  split; auto.
  - destruct HP as [->|(pcb & _ & ->)]; [done|by rewrite lookup_insert_ne].
  - intros x. change P' with (P', c').1. rewrite <- Hs. apply spec_make_ready_dom.
  - intros x pcb' Hx. destruct HP as [->|(pcb & Hq & ->)]; [eauto|].
    destruct (decide (q = x)) as [<-|?]; [rewrite lookup_insert_eq in Hx; simplify_eq; eauto|].
    rewrite lookup_insert_ne in Hx by done. eauto.
  - intros Hr. unfold spec_make_ready in Hs. destruct (_ || _); [by simplify_eq|].
    destruct (P !! q) as [pcb|]; [|by simplify_eq]. case_decide; [by simplify_eq|].
    case_decide; simplify_eq; [done|]. destruct Hr as (q' & l & Hq' & Hl). unfold spec_push in Hq'.
    destruct (decide (QReady = q')) as [<-|?]; [|rewrite lookup_alter_ne in Hq' by done; by exists q', l].
    rewrite lookup_alter_eq in Hq'. destruct (c !! QReady) as [l0|] eqn:Hc; [|done]. simpl in Hq'. simplify_eq.
    apply elem_of_app in Hl as [?|Hl%list_elem_of_singleton]; [by exists QReady, l0|congruence].
Qed.

Lemma wake_front_bystander idle q p P (c : qlists) :
  wait_queue q -> ~ queued c (EBlock p) ->
  let '(_, (P', c')) := spec_wake_front idle q (P, c) in bystander p P P' c c'.
Proof.
  intros Hw Hnq. unfold spec_wake_front, spec_pop. simpl.
  destruct (c !! q) as [[|[x|x|x|x] l]|] eqn:Hq; try apply bystander_refl.
  assert (Hx : p <> x) by (intros ->; apply Hnq; exists q, (EBlock x :: l); set_solver).
  assert (Hb : bystander p P P c (<[q:=l]> c)).
  { assert (Hsub : forall e, queued (<[q:=l]> c) e -> queued c e).
    { intros e (q' & l' & Hq' & He). destruct (decide (q = q')) as [<-|?].
      - rewrite lookup_insert_eq in Hq'. simplify_eq. exists q, (EBlock x :: l'). split; [done|set_solver].
      - rewrite lookup_insert_ne in Hq' by done. by exists q', l'. }
    split; eauto 10.
    - intros q' Hs. destruct (decide (q = q')) as [<-|?]; [rewrite lookup_insert_eq; eauto|by rewrite lookup_insert_ne].
    - intros y. rewrite lookup_insert_ne; [done|]. by destruct q. }
  unfold spec_unblock. simpl. destruct (P !! x) as [pcb|] eqn:HPx; [|done].
  assert (Hb2 : bystander p P (<[x:=unblocked pcb]> P) c (<[q:=l]> c)).
  { destruct Hb. split; auto.
    - by rewrite lookup_insert_ne.
    - intros y. destruct (decide (x = y)) as [<-|?]; [rewrite lookup_insert_eq, HPx; split; eauto|by rewrite lookup_insert_ne].
    - intros y pcb'. destruct (decide (x = y)) as [<-|?]; [rewrite lookup_insert_eq; intros [= <-]; eauto|].
      rewrite lookup_insert_ne by done. eauto. }
  pose proof (make_ready_bystander idle p x (<[x:=unblocked pcb]> P) (<[q:=l]> c) Hx) as Hm.
  destruct (spec_make_ready _ _ _) as [P' c']. by eapply bystander_trans.
Qed.

(** The state between two releases: only objects, queues and PCBs moved. *)
Definition released (s s' : kst) : Prop :=
  exists P h objs, s' = set_objects objs (with_sched P h s).

Lemma IpcProcessExit_ok proc s c :
  kq_ok s c -> ipc_ok s c -> proc <> 0 -> ~ queued c (EBlock proc) ->
  returns (IpcProcessExit proc) (fun _ s' => exists c', kq_ok s' c' /\ ipc_ok s' c' /\
    released s s' /\ bystander proc (pcbs s) (pcbs s') c c' /\
    (forall id o, is_object s' id IPC_LOCK o -> lock_owner o <> proc) /\
    (forall id o, zlookup (objects s) id = Some o -> ipc_type o <> IPC_LOCK \/ lock_owner o <> proc ->
       zlookup (objects s') id = Some o)) s.
Proof.
  intros Hk Hi Hp0 Hnq. unfold IpcProcessExit.
  pose (I := fun (i : Z) s1 => exists c1, kq_ok s1 c1 /\ ipc_ok s1 c1 /\
    released s s1 /\ bystander proc (pcbs s) (pcbs s1) c c1 /\
    (forall id o, id < i -> is_object s1 id IPC_LOCK o -> lock_owner o <> proc) /\
    (forall id o, zlookup (objects s) id = Some o -> ipc_type o <> IPC_LOCK \/ lock_owner o <> proc ->
       zlookup (objects s1) id = Some o)).
  eapply returns_mono; [apply (returns_for_range I); [by unfold IPC_MAX_OBJECTS|..]|].
  - exists c. split_and!; try done; [|apply bystander_refl|].
    + exists (pcbs s), (k_queues s), (objects s). by destruct s.
    + intros id o Hlt [Ho _]. pose proof (object_range _ _ _ _ Hi Ho). lia.
  - intros k s1 Hk0 (c1 & Hk1 & Hi1 & (Pr & hr & or & Hrel) & Hby & Hlow & Hsame).
    destruct (zlookup_is_Some (objects s1) k) as [o Ho]; [rewrite (proj1 Hi1); lia|].
    run_step. destruct (_ && _) eqn:Hmine.
    + apply andb_true_iff in Hmine as [Hty%bool_decide_eq_true Hown%Z.eqb_eq].
      assert (Hn1 : ~ queued c1 (EBlock proc)) by (intros Hq; by apply Hnq, (by_block _ _ _ _ _ Hby)).
      pose proof (LockRelease_ok s1 c1 k o Hk1 Ho) as Hr.
      pose proof (spec_wake_front_zero s1 c1 (QIpc k) Hk1 Logic.I) as Hz.
      pose proof (wake_front_bystander (idle_process s1) (QIpc k) proc (pcbs s1) c1 Logic.I Hn1) as Hb1.
      destruct (spec_wake_front _ _ _) as [p [P' c']]. simpl in Hz.
      eapply returns_bind; [apply Hr; eapply (proj2 Hi1); [done|by rewrite Hty]|].
      intros ? s2 (_ & h' & -> & Hk2). eapply returns_ok; [reflexivity|].
      assert (Hpne : p <> proc).
      { destruct Hz as [->|(p' & l & Hq & <- & _)]; [done|]. intros ->. apply Hn1. exists (QIpc k), (EBlock proc :: l).
        split; [done|set_solver]. }
      exists c'. split_and!; [done|by eapply ipc_ok_owner; [| |apply Hb1]|..].
      * rewrite Hrel. unfold released, with_owner, with_sched. eexists _, _, _. reflexivity.
      * by eapply bystander_trans.
      * intros id o' Hlt [Ho' Hty']. simpl in Ho'. rewrite zlookup_insert in Ho' by eauto.
        case_decide; [by simplify_eq|]. apply (Hlow id); [lia|done].
      * intros id o' Ho' Hor. simpl. rewrite zlookup_insert by eauto. case_decide; [subst|by apply Hsame].
        pose proof (Hsame _ _ Ho' Hor). simplify_eq. naive_solver.
    + eapply returns_ok; [reflexivity|]. exists c1. split_and!; try done; [by exists Pr, hr, or|].
      intros id o' Hlt [Ho' Hty']. destruct (decide (id = k)) as [->|]; [|apply (Hlow id); [lia|done]].
      simplify_eq. rewrite bool_decide_true in Hmine by done. simpl in Hmine. by bool_to_prop.
  - intros ? s' (c' & Hk' & Hi' & Hrel & Hby & Hlow & Hsame). exists c'. split_and!; try done.
    intros id o Hobj. apply (Hlow id); [|done]. destruct Hobj as [Ho _].
    pose proof (object_range _ _ _ _ Hi' Ho). lia.
Qed.

(** C23: a dying process leaves no lock behind: after [IpcProcessExit] it owns none (each of
    its locks went to its first waiter or became free), and every other object is as it was. *)
Theorem exit_releases_locks proc s c :
  kq_ok s c -> ipc_ok s c -> proc <> 0 -> ~ queued c (EBlock proc) ->
  returns (IpcProcessExit proc) (fun _ s' => exists c', kq_ok s' c' /\ ipc_ok s' c' /\
    (forall id o, is_object s' id IPC_LOCK o -> lock_owner o <> proc) /\
    (forall id o, zlookup (objects s) id = Some o -> ipc_type o <> IPC_LOCK \/ lock_owner o <> proc ->
       zlookup (objects s') id = Some o)) s.
Proof.
  intros Hk Hi Hp0 Hnq. eapply returns_mono; [by apply (IpcProcessExit_ok proc s c)|].
  intros ? s' (c' & ? & ? & _ & _ & ? & ?). by exists c'.
Qed.

(** What may be reclaimed: an object in use, nobody waiting for it, not a held lock. *)
Definition reclaimable (s : kst) (c : qlists) (id : Z) (o : IpcObject) : Prop :=
  zlookup (objects s) id = Some o /\ ipc_type o <> IPC_FREE /\ c !! QIpc id = Some [] /\
  (ipc_type o = IPC_LOCK -> lock_owner o = 0).

(** The state after [id] was reclaimed. *)
Record reclaimed (s s' : kst) (id : Z) (o : IpcObject) : Prop := {
  rec_free : exists o', zlookup (objects s') id = Some o' /\ ipc_type o' = IPC_FREE;
  rec_others : forall j, j <> id -> zlookup (objects s') j = zlookup (objects s) j;
  rec_heap : inuse (k_mem s') =
    if decide (ipc_type o = IPC_PIPE) then inuse (k_mem s) ∖ {[pipe_buf o]} else inuse (k_mem s);
  rec_rest : k_queues s' = k_queues s /\ pcbs s' = pcbs s
}.

Lemma free_block_run s p :
  p <> 0 -> p ∈ inuse (k_mem s) ->
  free_block p s = Ok tt (set_blocks (delete p (blocks s))
    (set_k_mem (set_inuse (inuse (k_mem s) ∖ {[p]}) (k_mem s)) s)).
Proof.
  intros Hp Hin. unfold free_block, in_mem, zoom, kfree, mbind, M_bind, gets.
  test_false (p =? 0). by rewrite decide_True.
Qed.

(** Setting the type of the object to free. *)
Lemma free_type_run s id o :
  zlookup (objects s) id = Some o ->
  (upd_object id (set_ipc_type IPC_FREE) ;; mret SUCCESS : K Z) s =
    Ok SUCCESS (set_objects (<[Z.to_nat id := set_ipc_type IPC_FREE o]> (objects s)) s).
Proof. intros Ho. by rewrite (bind_ok _ _ _ _ _ (upd_object_run _ _ _ _ Ho)). Qed.

Lemma freed_reclaimed s id o :
  zlookup (objects s) id = Some o -> ipc_type o <> IPC_PIPE ->
  reclaimed s (set_objects (<[Z.to_nat id := set_ipc_type IPC_FREE o]> (objects s)) s) id o.
Proof.
  intros Ho Hty. split; simpl; [..|by rewrite decide_False|done].
  - rewrite zlookup_insert by eauto. rewrite decide_True by done. eauto.
  - intros j Hj. rewrite zlookup_insert by eauto. by rewrite decide_False by done.
Qed.

(** C31: [Reclaim] frees exactly what may be freed.  It succeeds on an object in use with no
    waiter and, for a lock, no owner: the object is free again, a pipe's buffer is given
    back, and nothing else changes.  In every other case it fails and changes nothing. *)
Theorem reclaim_outcome id s c :
  kq_ok s c -> ipc_ok s c ->
  (forall o, is_object s id IPC_PIPE o -> pipe_buf o <> 0 /\ pipe_buf o ∈ inuse (k_mem s)) ->
  returns (SysReclaim id) (fun rc s' =>
    (rc = SUCCESS /\ exists o, reclaimable s c id o /\ reclaimed s s' id o) \/
    (rc = ERROR /\ s' = s /\ ~ exists o, reclaimable s c id o)) s.
Proof.
  intros Hk Hi Hbuf. unfold SysReclaim. case_test.
  { eapply returns_ok; [reflexivity|]. right. split_and!; [done|done|]. intros (o & Ho & _).
    pose proof (object_range _ _ _ _ Hi Ho). lia. }
  destruct (zlookup_is_Some (objects s) id) as [o Ho]; [rewrite (proj1 Hi); lia|].
  run_step.
  assert (Hnot : (forall o', zlookup (objects s) id = Some o' -> reclaimable s c id o' -> False) ->
    ERROR = SUCCESS /\ (exists o, reclaimable s c id o /\ reclaimed s s id o) \/
    ERROR = ERROR /\ s = s /\ ~ exists o, reclaimable s c id o).
  { intros Hno. right. split_and!; [done|done|]. intros (o' & Hr). by apply (Hno o'); [apply Hr|]. }
  destruct (ipc_type o) eqn:Hty.
  { eapply returns_ok; [reflexivity|]. apply Hnot. intros o' Ho' (_ & Hf & _). congruence. }
  all: destruct (proj2 Hi id o Ho) as [l Hl]; [by rewrite Hty|].
  2: destruct (lock_owner o =? 0) eqn:Hown; bool_to_prop; simpl;
    [|eapply returns_ok; [reflexivity|]; apply Hnot; intros o' Ho' (_ & _ & _ & Hfree); simplify_eq; by apply Hown, Hfree].
  all: (eapply wp_step; [apply in_queues_run, (QueueIsEmpty_ok _ _ _ _ (kq_abs _ _ Hk) Hl)|]);
    (replace (set_k_queues (k_queues s) s) with s by (by destruct s));
    (destruct (bool_decide (l = [])) eqn:He; simpl;
      [apply bool_decide_eq_true in He as ->
      |apply bool_decide_eq_false in He; eapply returns_ok; [reflexivity|]; apply Hnot;
       intros o' Ho' (_ & _ & Hemp & _); congruence]).
  - destruct (Hbuf o) as [Hb0 Hbin]; [by split|]. eapply wp_step; [by apply free_block_run|].
    eapply wp_step; [by apply (upd_object_run _ id o)|].
    eapply returns_ok; [apply (free_type_run _ id (set_pipe_buf 0 o))|].
    { simpl. rewrite zlookup_insert by eauto. by rewrite decide_True. }
    left. split; [done|]. exists o. split; [split_and!; [done|by rewrite Hty|done|by rewrite Hty]|].
    split; simpl; rewrite ?list_insert_insert_eq; [..|by rewrite decide_True|done].
    + rewrite zlookup_insert by eauto. rewrite decide_True by done. eauto.
    + intros j Hj. rewrite zlookup_insert by eauto. by rewrite decide_False by done.
  - eapply returns_ok; [by apply free_type_run|]. left. split; [done|]. exists o.
    split; [split_and!; [done|by rewrite Hty|done|done]|]. by apply freed_reclaimed; [|rewrite Hty].
  - eapply returns_ok; [by apply free_type_run|]. left. split; [done|]. exists o.
    split; [split_and!; [done|by rewrite Hty|done|by rewrite Hty]|]. by apply freed_reclaimed; [|rewrite Hty].
Qed.

(** ** Deciding the invariants of a concrete state *)

Definition ipc_check (s : kst) (c : qlists) : Prop :=
  length (objects s) = Z.to_nat IPC_MAX_OBJECTS /\
  Forall (fun id => match zlookup (objects s) id with
    | Some o => ipc_type o = IPC_FREE \/ is_Some (c !! QIpc id)
    | None => True
    end) (seqZ 0 IPC_MAX_OBJECTS).

#[export] Instance ipc_check_dec s c : Decision (ipc_check s c).
Proof.
  unfold ipc_check. apply and_dec; [apply _|]. apply Forall_dec. intros id.
  destruct (zlookup (objects s) id); apply _.
Defined.

Lemma ipc_check_sound s c : ipc_check s c -> ipc_ok s c.
Proof.
  intros [Hlen Hf]. split; [done|]. intros id o Ho Hty. rewrite Forall_forall in Hf.
  specialize (Hf id). rewrite Ho in Hf. destruct Hf as [?|?]; [|done..].
  apply elem_of_seqZ. apply zlookup_Some in Ho as [? _]. unfold IPC_MAX_OBJECTS in *. lia.
Qed.

Lemma proc_check_sound s c :
  kq_check s c -> sched_check s -> is_Some (pcbs s !! current_process s) -> proc_ok s c.
Proof. intros Hk (Ht & Hs & _)%sched_check_sound Hc. split; [by apply kq_check_sound|done..]. Qed.
End Locks.

#[export] Hint Resolve get_object_run : yalnix.

(** ** Witnesses

    Init forks, makes lock 0 and condition variable 1 and takes the lock; its child asks
    for the lock and waits ([contended]); then init waits on the condition variable, which
    hands the lock to the child ([waiting]). *)

Module LocksWitness.
Import Booted.
#[local] Existing Instance tiny.
#[local] Existing Instance tiny_laws.
#[local] Existing Instance walking_mmu.

Definition child : Z := 6.
Definition script : list action :=
  [ASyscall YALNIX_FORK []; ASyscall YALNIX_LOCK_INIT [1152]; ASyscall YALNIX_CVAR_INIT [1156];
   ASyscall YALNIX_LOCK_ACQUIRE [0]; ATrap TRAP_CLOCK 0 0; ASyscall YALNIX_LOCK_ACQUIRE [0]].
Definition contended : kst := Eval vm_compute in state_of (run_script 10 script (Some (inl booted))).
Definition waiting : kst := Eval vm_compute in
  state_of (run_script 10 [ASyscall YALNIX_CVAR_WAIT [1; 0]] (Some (inl contended))).
Definition lists1 : qlists := lists_of (k_queues contended).
Definition lists2 : qlists := lists_of (k_queues waiting).

Lemma contended_proc : proc_ok contended lists1.
Proof. apply proc_check_sound; by_computing. Qed.
Lemma contended_ipc : ipc_ok contended lists1.
Proof. apply ipc_check_sound. by_computing. Qed.
Lemma waiting_kq : kq_ok waiting lists2.
Proof. apply kq_check_sound. by_computing. Qed.
Lemma waiting_ipc : ipc_ok waiting lists2.
Proof. apply ipc_check_sound. by_computing. Qed.

Lemma acquire_success_owns_witness :
  wp (SysAcquire init 0) (fun rc s' => rc = SUCCESS -> owns s' 0)
    (fun _ _ => True) (fun _ _ => True) contended /\
  wp (LockAcquire_woken init 0) (fun rc s' => rc = SUCCESS -> owns s' 0)
    (fun _ _ => True) (fun _ _ => True) contended /\
  wp (SysCvarWait_woken init 1 0) (fun rc s' => rc = SUCCESS -> owns s' 0)
    (fun _ _ => True) (fun _ _ => True) contended.
Proof. apply (acquire_success_owns init 0 1 contended lists1 contended_ipc). Defined.

Lemma acquire_outcome_witness :
  wp (SysAcquire init 0)
    (fun rc s' =>
       (rc = ERROR /\ s' = contended /\
          (~ (exists o, is_object contended 0 IPC_LOCK o) \/
           current_process contended = idle_process contended \/ owns contended 0)) \/
       (rc = SUCCESS /\ exists o, is_object contended 0 IPC_LOCK o /\ lock_owner o = 0 /\
          s' = set_objects (<[Z.to_nat 0 := set_lock_owner (current_process contended) o]>
                 (objects contended)) contended))
    (fun kc s' => exists o s1, is_object contended 0 IPC_LOCK o /\ lock_owner o <> 0 /\ ~ owns contended 0 /\
       blocked_on (QIpc 0) lists1 contended s1 /\
       scheduled_from s1 (spec_push (QIpc 0) (EBlock (current_process contended)) lists1)
         (KCSys init (InAcquire (current_process contended) 0)) kc s')
    (fun _ _ => False) contended.
Proof.
  apply (acquire_outcome init 0 contended lists1 contended_proc contended_ipc). by_computing.
Defined.

Lemma release_hands_over_witness :
  returns (SysRelease 0) (fun rc s' =>
    (rc = ERROR /\ s' = contended /\ ~ owns contended 0) \/
    (rc = SUCCESS /\ owns contended 0 /\ exists o l P' c' h' p,
       is_object contended 0 IPC_LOCK o /\ lists1 !! QIpc 0 = Some l /\ kq_ok s' c' /\
       s' = with_owner 0 p o P' h' contended /\
       match l with
       | [] => p = 0 /\ P' = pcbs contended /\ c' = lists1
       | e :: l' => e = EBlock p /\ c' !! QIpc 0 = Some l' /\
           (P', c') = spec_unblock (idle_process contended) p (pcbs contended, <[QIpc 0 := l']> lists1) /\
           forall caller s2, current_process s2 = p -> objects s2 = objects s' ->
             LockAcquire_woken caller 0 s2 = Ok SUCCESS s2
       end)) contended /\
  lists1 !! QIpc 0 = Some [EBlock child] /\ result (SysRelease 0 contended) = Some SUCCESS.
Proof.
  split; [|split; vm_compute; reflexivity].
  apply (release_hands_over 0 contended lists1 (pk_kq _ _ contended_proc) contended_ipc).
Defined.

Lemma cvar_wait_atomic_witness :
  wp (SysCvarWait init 1 0)
    (fun rc s' => rc = ERROR /\ s' = contended /\
       ~ (owns contended 0 /\ exists o, is_object contended 1 IPC_CVAR o))
    (fun kc s' => owns contended 0 /\ exists o p P' c' h' s1, is_object contended 0 IPC_LOCK o /\
       spec_wake_front (idle_process contended) (QIpc 0) (pcbs contended, lists1) = (p, (P', c')) /\
       kq_ok (with_owner 0 p o P' h' contended) c' /\
       blocked_on (QIpc 1) c' (with_owner 0 p o P' h' contended) s1 /\
       scheduled_from s1 (spec_push (QIpc 1) (EBlock (current_process contended)) c')
         (KCSys init (InCvarWait (current_process contended) 1 0)) kc s')
    (fun _ _ => False) contended /\
  current_process waiting = child /\ lists2 !! QIpc 1 = Some [EBlock init].
Proof.
  split; [|split; vm_compute; reflexivity].
  apply (cvar_wait_atomic init 1 0 contended lists1 contended_proc contended_ipc). by_computing.
Defined.

Lemma signal_broadcast_witness :
  returns (SysCvarSignal 1) (fun rc s' =>
    (rc = ERROR /\ s' = waiting /\ ~ exists o, is_object waiting 1 IPC_CVAR o) \/
    (rc = SUCCESS /\ let '(p, (P', c')) := spec_wake_front (idle_process waiting) (QIpc 1) (pcbs waiting, lists2) in
       sim waiting s' c' P')) waiting /\
  returns (SysCvarBroadcast 1) (fun rc s' =>
    (rc = ERROR /\ s' = waiting /\ ~ exists o, is_object waiting 1 IPC_CVAR o) \/
    (rc = SUCCESS /\ exists l, lists2 !! QIpc 1 = Some l /\
       let '(P', c') := spec_wake_all (idle_process waiting) (QIpc 1) (waiters l) (pcbs waiting, lists2) in
       sim waiting s' c' P' /\ c' !! QIpc 1 = Some [])) waiting.
Proof. apply (signal_broadcast 1 waiting lists2 waiting_kq waiting_ipc). Defined.

Lemma exit_releases_locks_witness :
  returns (IpcProcessExit init) (fun _ s' => exists c', kq_ok s' c' /\ ipc_ok s' c' /\
    (forall id o, is_object s' id IPC_LOCK o -> lock_owner o <> init) /\
    (forall id o, zlookup (objects contended) id = Some o -> ipc_type o <> IPC_LOCK \/ lock_owner o <> init ->
       zlookup (objects s') id = Some o)) contended /\
  owns contended 0.
Proof.
  split; [|eexists; repeat split; vm_compute; reflexivity].
  apply (exit_releases_locks init contended lists1 (pk_kq _ _ contended_proc) contended_ipc);
    [vm_compute; discriminate|by_computing].
Defined.

Lemma reclaim_outcome_witness :
  returns (SysReclaim 1) (fun rc s' =>
    (rc = SUCCESS /\ exists o, reclaimable contended lists1 1 o /\ reclaimed contended s' 1 o) \/
    (rc = ERROR /\ s' = contended /\ ~ exists o, reclaimable contended lists1 1 o)) contended /\
  result (SysReclaim 1 contended) = Some SUCCESS /\ result (SysReclaim 0 contended) = Some ERROR.
Proof.
  split; [|split; vm_compute; reflexivity].
  apply (reclaim_outcome 1 contended lists1 (pk_kq _ _ contended_proc) contended_ipc).
  intros o [Ho Hty]. vm_compute in Ho. injection Ho as <-. discriminate Hty.
Defined.
End LocksWitness.
