(* ===== verification/Exiting.v ===== *)
(** * The death of a process ([ProcessExitCurrent])

    What a process leaves when it exits: children without a parent, no locks, a zombie
    with its status, and a parent that is ready again when it was waiting.  The
    scheduling that follows does not choose the zombie. *)

From S2P Require Import Prelude Framework Queue Memory Mmu KernelBrk BootMemory State Process Ipc.
From S2P Require Import Exit Tty Loader Syscalls Trap KernelStart Machine Scheduler Waiting Locks.

Section Exiting.
Context {F : Framework} {T : Mmu} {FL : FrameworkLaws F}.

(** ** Orphans *)

(** The PCBs after the children in [l] lost their parent. *)
Definition orphaned (l : list eid) (P : gmap Z PCB) : gmap Z PCB :=
  foldl (fun P e => from_option (fun x => alter (set_parent 0) x P) P (entry_proc e)) P l.

Lemma orphaned_lookup l P x :
  (forall e, e ∈ l -> exists y, e = EChild y) ->
  orphaned l P !! x = if decide (EChild x ∈ l) then set_parent 0 <$> P !! x else P !! x.
Proof.
  unfold orphaned. revert P. induction l as [|e l IH]; intros P Hl.
  - case_decide as Hin; [by apply not_elem_of_nil in Hin|done].
  - destruct (Hl e) as [y ->]; [set_solver|]. cbn [foldl entry_proc from_option]. rewrite IH by (intros; apply Hl; set_solver).
    destruct (decide (x = y)) as [->|Hne].
    + rewrite lookup_alter_eq, (decide_True (P := EChild y ∈ EChild y :: l)) by set_solver.
      case_decide; [|done]. rewrite <- option_fmap_compose. by destruct (P !! y) as [[]|].
    + rewrite lookup_alter_ne by done. apply decide_ext. set_solver.
Qed.

Lemma kq_ok_alter s c P x f :
  kq_ok (set_pcbs P s) c -> kq_ok (set_pcbs (alter f x P) s) c.
Proof.
  intros Hk. change (set_pcbs (alter f x P) s) with (set_pcbs (alter f x P) (set_pcbs P s)).
  apply kq_ok_pcbs; [done|]. intros q. simpl. destruct (decide (x = q)) as [<-|?].
  - rewrite lookup_alter_eq. destruct (P !! x); simpl; split; intros [? ?]; simplify_eq; eauto.
  - by rewrite lookup_alter_ne.
Qed.

Lemma orphan_children_ok s c p l :
  kq_ok s c -> c !! QChildren p = Some l ->
  returns (orphan_children p) (fun _ s' => sim s s' (<[QChildren p := []]> c) (orphaned l (pcbs s))) s.
Proof.
  intros Hk Hq. unfold orphan_children, while_queued.
  assert (Hlen : lengths (k_queues s) !! QChildren p = Some (Z.of_nat (length l))).
  { by apply (qabs_length _ _ (kq_abs _ _ Hk)). }
  eapply wp_step; [apply in_queues_run; unfold load_length; by rewrite Hlen|].
  replace (set_k_queues (k_queues s) s) with s by (by destruct s).
  rewrite Nat2Z.id. clear Hlen. revert s c Hk Hq. induction l as [|e l IH]; intros s c Hk Hq; simpl.
  - eapply wp_step; [apply in_queues_run, (QueueIsEmpty_ok _ _ _ _ (kq_abs _ _ Hk) Hq)|].
    rewrite bool_decide_true by done. eapply returns_ok; [reflexivity|].
    rewrite insert_id by done. exists (k_queues s). split; [by destruct s|by destruct s].
  - eapply wp_step; [apply in_queues_run, (QueueIsEmpty_ok _ _ _ _ (kq_abs _ _ Hk) Hq)|].
    rewrite bool_decide_false by done. replace (set_k_queues (k_queues s) s) with s by (by destruct s).
    pose proof (kq_fits _ _ Hk _ _ e Hq ltac:(set_solver)) as Hf. destruct e as [x|x|x|x]; try done.
    destruct (kq_pop s c _ (EChild x) l x Hk Hq eq_refl) as (h' & Hr & Hown & Hk' & _ & [pcb Hx]).
    apply wp_bind. eapply wp_step; [exact Hr|]. eapply wp_step; [reflexivity|].
    eapply wp_step; [exact Hown|]. eapply wp_ok; [by apply (upd_pcb_run _ x pcb)|].
    set (s1 := set_pcbs _ _).
    assert (Hk1 : kq_ok s1 (<[QChildren p:=l]> c)) by (by eapply kq_ok_pcb).
    eapply returns_mono; [apply (IH s1 _ Hk1); by rewrite lookup_insert_eq|].
    intros ? s2 (h2 & -> & Hk2). rewrite insert_insert_eq in Hk2. exists h2.
    change (pcbs s1) with (<[x:=set_parent 0 pcb]> (pcbs s)) in *. unfold orphaned in *. simpl.
    rewrite (alter_Some _ _ _ _ Hx). by split.
Qed.

(** ** The zombie is not chosen *)

Definition gone (z : Z) (pcb : PCB) (st : gmap Z PCB * qlists) : Prop :=
  st.1 !! z = Some pcb /\ ~ queued st.2 (EReady z).

Lemma gone_make_ready idle p z pcb st :
  state pcb = PROC_ZOMBIE -> gone z pcb st -> gone z pcb (spec_make_ready idle p st).
Proof.
  intros Hz [Hp Hnq]. destruct st as [P c]. simpl in *. destruct (decide (z = p)) as [<-|Hne].
  - unfold spec_make_ready. destruct (_ || _); [done|]. rewrite Hp. by rewrite decide_True.
  - pose proof (make_ready_bystander idle z p P c Hne) as Hb. destruct (spec_make_ready _ _ _) as [P' c'].
    split; simpl; [by rewrite (by_pcb _ _ _ _ _ Hb)|]. intros Hq. by apply Hnq, (by_ready _ _ _ _ _ Hb).
Qed.

Lemma gone_wake idle ticks tbl z pcb st :
  state pcb = PROC_ZOMBIE -> gone z pcb st -> gone z pcb (spec_wake idle ticks tbl st).
Proof.
  intros Hz. unfold spec_wake. revert st. induction tbl as [|p tbl IH]; intros st Hg; simpl; [done|].
  apply IH. unfold spec_wake_one. destruct (st.1 !! p) as [q|] eqn:Hp; [|done].
  destruct (expired ticks q) eqn:He; [|done]. apply gone_make_ready; [done|].
  destruct Hg as [Hg Hnq]. split; [|done]. simpl. rewrite lookup_insert_ne; [done|]. intros ->.
  rewrite Hg in Hp. injection Hp as <-. unfold expired in He. by rewrite Hz in He.
Qed.

Lemma zombie_not_chosen idle cur ticks tbl z pcb st :
  state pcb = PROC_ZOMBIE -> z <> idle -> gone z pcb st ->
  (spec_schedule idle cur ticks tbl st).1 <> z /\
  (spec_schedule idle cur ticks tbl st).2.1 !! z = Some pcb.
Proof.
  intros Hz Hi Hg. unfold spec_schedule. pose proof (gone_wake idle ticks tbl z pcb st Hz Hg) as Hw.
  set (st1 := spec_wake idle ticks tbl st) in *.
  assert (Hy : gone z pcb (spec_yield idle cur st1)).
  { unfold spec_yield. destruct (st1.1 !! cur); [|done]. case_decide; [|done]. by apply gone_make_ready. }
  destruct Hy as [Hp Hnq]. unfold spec_next, spec_pop.
  destruct ((spec_yield idle cur st1).2 !! QReady) as [[|[x|x|x|x] l]|] eqn:Hq; simpl; try (split; congruence).
  split; [|done]. intros ->. apply Hnq. exists QReady, (EReady z :: l). split; [done|set_solver].
Qed.

(** ** Exit *)

(** Process [p] is dead: a zombie with its status, in no ready queue, without children,
    owning no lock. *)
Record dead (s : kst) (c : qlists) (p status : Z) : Prop := {
  dead_zombie : exists pcb, pcbs s !! p = Some pcb /\ state pcb = PROC_ZOMBIE /\ exit_status pcb = status;
  dead_queue : ~ queued c (EReady p);
  dead_children : c !! QChildren p = Some [];
  dead_locks : forall id o, is_object s id IPC_LOCK o -> lock_owner o <> p
}.

(** The family of the dead process [p]: its children are orphans, and its parent, if it
    was waiting, waits no more and is ready. *)
Record bereaved (s s1 : kst) (c1 : qlists) (p par : Z) (children : list eid) : Prop := {
  ber_orphans : forall x pcb, EChild x ∈ children -> pcbs s1 !! x = Some pcb -> parent pcb = 0;
  ber_parent : forall pp, pcbs s !! par = Some pp -> waiting_for_child pp = true ->
    exists pp', pcbs s1 !! par = Some pp' /\ waiting_for_child pp' = false /\
      (par = idle_process s \/ state pp' = PROC_ZOMBIE \/ state pp' = PROC_READY /\ queued c1 (EReady par))
}.

Lemma proc_ok_moved s c s1 c1 :
  proc_ok s c -> released s s1 -> kq_ok s1 c1 ->
  (forall x, is_Some (pcbs s1 !! x) <-> is_Some (pcbs s !! x)) ->
  (forall x pcb', pcbs s1 !! x = Some pcb' -> exists pcb, pcbs s !! x = Some pcb /\
     kernel_stack_pfns pcb' = kernel_stack_pfns pcb) ->
  proc_ok s1 c1.
Proof.
  intros Hpk (P & h & objs & ->) Hk Hd Hst. simpl in *.
  assert (Hk1 : kq_ok (with_sched P h s) c1) by (by eapply kq_ok_objects).
  destruct (proc_ok_pcb s c P h c1 Hpk Hd Hst Hk1) as [_ [? ?] [? ? ?] ?]. by split.
Qed.

(** The parent [par] of [p] was woken if it was waiting; [p] itself is as it was. *)
Record parent_woken (s s' : kst) (c c' : qlists) (p par : Z) : Prop := {
  pw_moved : exists P' h', s' = with_sched P' h' s;
  pw_kq : kq_ok s' c';
  pw_self : pcbs s' !! p = pcbs s !! p;
  pw_queue : queued c' (EReady p) -> queued c (EReady p);
  pw_children : forall x, c' !! QChildren x = c !! QChildren x;
  pw_queues : forall q, is_Some (c !! q) -> is_Some (c' !! q);
  pw_dom : forall x, is_Some (pcbs s' !! x) <-> is_Some (pcbs s !! x);
  pw_fields : forall x pcb', pcbs s' !! x = Some pcb' -> exists pcb, pcbs s !! x = Some pcb /\
    kernel_stack_pfns pcb' = kernel_stack_pfns pcb /\ parent pcb' = parent pcb;
  pw_parent : forall pp, pcbs s !! par = Some pp -> waiting_for_child pp = true ->
    exists pp', pcbs s' !! par = Some pp' /\ waiting_for_child pp' = false /\
      (par = idle_process s \/ state pp' = PROC_ZOMBIE \/ state pp' = PROC_READY /\ queued c' (EReady par))
}.

Lemma parent_not_waiting s c p par :
  kq_ok s c -> (forall pp, pcbs s !! par = Some pp -> waiting_for_child pp = false) ->
  parent_woken s s c c p par.
Proof.
  intros Hk Hno. split; try done; [|eauto|].
  - exists (pcbs s), (k_queues s). by destruct s.
  - intros pp Hpp Hw. by rewrite (Hno pp Hpp) in Hw.
Qed.

Lemma spec_make_ready_result idle p P (c : qlists) pcb :
  P !! p = Some pcb -> p <> 0 -> is_Some (c !! QReady) ->
  let '(P', c') := spec_make_ready idle p (P, c) in
  exists pcb', P' !! p = Some pcb' /\ waiting_for_child pcb' = waiting_for_child pcb /\
    (p = idle \/ state pcb' = PROC_ZOMBIE \/ state pcb' = PROC_READY /\ queued c' (EReady p)).
Proof.
  intros Hp H0 Hr. unfold spec_make_ready. destruct (Z.eqb_spec p idle) as [->|Hi].
  { rewrite orb_true_r. eauto. }
  test_false ((p =? 0) || false). rewrite Hp. case_decide as Hz; [eauto 10|].
  eexists. rewrite lookup_insert_eq. split_and!; [done|done|]. right; right. split; [done|].
  case_decide; [done|]. by apply queued_pushed.
Qed.

(** Waking the parent, the last step before the scheduler. *)
Lemma wake_parent_ok s c p par :
  kq_ok s c -> p <> par -> par = 0 \/ is_Some (pcbs s !! par) ->
  returns (if negb (par =? 0) then
     pp ← get_pcb par;
     if waiting_for_child pp then
       upd_pcb par (set_waiting_for_child false) ;; ProcessMakeReady par
     else skip
   else skip : K unit)
    (fun _ s' => exists c', parent_woken s s' c c' p par) s.
Proof.
  intros Hk Hne Hpar. destruct (Z.eqb_spec par 0) as [->|H0]; simpl.
  { eapply returns_ok; [reflexivity|]. exists c. apply parent_not_waiting; [done|].
    intros pp Hpp. by rewrite (kq_nonnull _ _ Hk) in Hpp. }
  destruct Hpar as [?|[pp Hpp]]; [done|]. run_step.
  destruct (waiting_for_child pp) eqn:Hw.
  2:{ eapply returns_ok; [reflexivity|]. exists c. apply parent_not_waiting; [done|]. intros pp' ?. by simplify_eq. }
  eapply wp_step; [by apply (upd_pcb_run s par pp)|]. set (pp1 := set_waiting_for_child false pp).
  set (P1 := <[par:=pp1]> (pcbs s)). assert (Hk1 : kq_ok (set_pcbs P1 s) c) by (by eapply kq_ok_pcb).
  assert (Hp1 : P1 !! par = Some pp1) by apply lookup_insert_eq.
  pose proof (ProcessMakeReady_ok (set_pcbs P1 s) c par Hk1 ltac:(right; eauto)) as Hm.
  change (pcbs (set_pcbs P1 s)) with P1 in Hm. change (idle_process (set_pcbs P1 s)) with (idle_process s) in Hm.
  pose proof (make_ready_bystander (idle_process s) p par P1 c Hne) as Hb.
  pose proof (spec_make_ready_result (idle_process s) par P1 c pp1 Hp1 H0 (kq_ready _ _ Hk)) as Hres.
  destruct (spec_make_ready _ _ _) as [P' c'].
  eapply returns_mono; [exact Hm|]. intros ? s' (h' & -> & Hk'). exists c'. destruct Hb.
  split; simpl; try done.
  - eauto.
  - rewrite by_pcb. unfold P1. by rewrite lookup_insert_ne.
  - intros x. rewrite by_dom. unfold P1. destruct (decide (par = x)) as [<-|?].
    + rewrite lookup_insert_eq, Hpp. split; eauto.
    + by rewrite lookup_insert_ne.
  - intros x pcb' Hx. destruct (by_fields x pcb' Hx) as (pcb & Hx1 & -> & -> & _). unfold P1 in Hx1.
    destruct (decide (par = x)) as [<-|?]; [rewrite lookup_insert_eq in Hx1; simplify_eq; eauto|].
    rewrite lookup_insert_ne in Hx1 by done. eauto.
Qed.

(** The PCB of the dead process. *)
Definition zombie (status : Z) (pcb : PCB) : PCB := set_state PROC_ZOMBIE (set_exit_status status pcb).

(** The state in which the scheduler is called, and its queues. *)
Record exited (s s1 : kst) (c1 : qlists) (p status : Z) (pcb : PCB) (children : list eid) : Prop := {
  ex_proc : proc_ok s1 c1;
  ex_ipc : ipc_ok s1 c1;
  ex_dead : dead s1 c1 p status;
  ex_family : bereaved s s1 c1 p (parent pcb) children;
  ex_others : current_process s1 = current_process s /\ idle_process s1 = idle_process s
}.

(** The part before the parent is woken. *)
Lemma exit_releases s c p pcb l status :
  proc_ok s c -> ipc_ok s c -> current_process s = p -> p <> 0 -> pcbs s !! p = Some pcb ->
  c !! QChildren p = Some l -> ~ EChild p ∈ l -> ~ queued c (EBlock p) -> ~ queued c (EReady p) ->
  returns (orphan_children p ;; IpcProcessExit p ;; upd_pcb p (set_exit_status status) ;;
           upd_pcb p (set_state PROC_ZOMBIE) : K unit)
    (fun _ s1 => exists c1, kq_ok s1 c1 /\ ipc_ok s1 c1 /\ released s s1 /\
       pcbs s1 !! p = Some (zombie status pcb) /\ ~ queued c1 (EReady p) /\
       c1 !! QChildren p = Some [] /\
       (forall id o, is_object s1 id IPC_LOCK o -> lock_owner o <> p) /\
       (forall x, is_Some (pcbs s1 !! x) <-> is_Some (pcbs s !! x)) /\
       forall x pcb', pcbs s1 !! x = Some pcb' -> exists pcb0, pcbs s !! x = Some pcb0 /\
         kernel_stack_pfns pcb' = kernel_stack_pfns pcb0 /\
         (x <> p -> waiting_for_child pcb' = waiting_for_child pcb0) /\
         (EChild x ∈ l -> parent pcb' = 0)) s.
Proof.
  intros [Hk _ _ _] Hi Hcur Hp0 Hp Hl Hself Hnb Hnr.
  pose proof (kq_fits _ _ Hk (QChildren p) l) as Hfits.
  assert (Hch : forall e, e ∈ l -> exists y, e = EChild y).
  { intros e He. specialize (Hfits e Hl He). destruct e; try done. eauto. }
  eapply returns_bind; [by apply (orphan_children_ok s c p l)|]. intros ? s1 (h1 & -> & Hk1).
  set (c0 := <[QChildren p:=[]]> c) in *. set (P1 := orphaned l (pcbs s)) in *.
  assert (Hq0 : forall e, queued c0 e -> queued c e).
  { intros e (q & l' & Hq & He). unfold c0 in Hq. destruct (decide (QChildren p = q)) as [<-|?].
    - rewrite lookup_insert_eq in Hq. simplify_eq. by apply not_elem_of_nil in He.
    - rewrite lookup_insert_ne in Hq by done. by exists q, l'. }
  assert (Hi1 : ipc_ok (with_sched P1 h1 s) c0).
  { destruct Hi as [Hlen Hq]. split; [done|]. intros id o Ho Hty. unfold c0. rewrite lookup_insert_ne by done. by eapply Hq. }
  eapply returns_bind; [apply (IpcProcessExit_ok p _ c0 Hk1 Hi1 Hp0); intros Hq; by apply Hnb, Hq0|].
  intros ? s2 (c1 & Hk2 & Hi2 & (P2 & h2 & objs & ->) & Hby & Hlocks & _). destruct Hby. simpl in *.
  assert (Hp1 : P1 !! p = Some pcb) by (unfold P1; rewrite orphaned_lookup, decide_False; done).
  rewrite Hp1 in by_pcb.
  eapply wp_step; [by apply (upd_pcb_run _ p pcb)|].
  eapply returns_ok; [apply (upd_pcb_run _ p (set_exit_status status pcb)); simpl; by rewrite lookup_insert_eq|].
  simpl. rewrite insert_insert_eq. fold (zombie status pcb).
  assert (Hcell : kq_ok (set_pcbs (<[p:=zombie status pcb]> P2) (set_objects objs (with_sched P2 h2 (with_sched P1 h1 s)))) c1)
    by (by eapply kq_ok_pcb).
  exists c1. split_and!.
  - exact Hcell.
  - destruct Hi2 as [? ?]. by split.
  - by exists (<[p:=zombie status pcb]> P2), h2, objs.
  - apply lookup_insert_eq.
  - intros Hq. by apply Hnr, Hq0, by_ready.
  - rewrite by_children. apply lookup_insert_eq.
  - exact Hlocks.
  - intros x. destruct (decide (p = x)) as [<-|?]; [rewrite lookup_insert_eq, Hp; split; eauto|].
    rewrite lookup_insert_ne by done. rewrite by_dom. unfold P1. rewrite orphaned_lookup by done.
    case_decide; [|done]. destruct (pcbs s !! x); simpl; split; intros [? ?]; simplify_eq; eauto.
  - intros x pcb'. destruct (decide (p = x)) as [<-|Hne].
    + rewrite lookup_insert_eq. intros [= <-]. exists pcb. by split_and!.
    + rewrite lookup_insert_ne by done. intros Hx. destruct (by_fields x pcb' Hx) as (pcb1 & Hx1 & -> & -> & ->).
      unfold P1 in Hx1. rewrite orphaned_lookup in Hx1 by done. case_decide as Hin.
      * apply fmap_Some in Hx1 as (pcb0 & Hx0 & ->). exists pcb0. by split_and!.
      * exists pcb1. by split_and!.
Qed.

(** The parent woken, everything is as [exited] says. *)
Lemma exited_intro s c s1 c1 s2 c2 p pcb l status :
  proc_ok s c -> p <> parent pcb -> kq_ok s1 c1 -> ipc_ok s1 c1 -> released s s1 -> current_process s = p ->
  pcbs s1 !! p = Some (zombie status pcb) -> ~ queued c1 (EReady p) -> c1 !! QChildren p = Some [] ->
  (forall id o, is_object s1 id IPC_LOCK o -> lock_owner o <> p) ->
  (forall x, is_Some (pcbs s1 !! x) <-> is_Some (pcbs s !! x)) ->
  (forall x pcb', pcbs s1 !! x = Some pcb' -> exists pcb0, pcbs s !! x = Some pcb0 /\
     kernel_stack_pfns pcb' = kernel_stack_pfns pcb0 /\
     (x <> p -> waiting_for_child pcb' = waiting_for_child pcb0) /\
     (EChild x ∈ l -> parent pcb' = 0)) ->
  parent_woken s1 s2 c1 c2 p (parent pcb) ->
  exited s s2 c2 p status pcb l.
Proof.
  intros Hpk Hne Hk1 Hi1 (P1 & h1 & objs & ->) Hcur Hz Hnr Hch Hlocks Hdom Hf [(P2 & h2 & ->) Hk2 Hself Hready Hchn Hq Hd2 Hf2 Hpar].
  simpl in *. split.
  - eapply (proc_ok_moved s c); [done|by exists P2, h2, objs|done|..]; simpl.
    + intros x. by rewrite Hd2.
    + intros x pcb' Hx. destruct (Hf2 x pcb' Hx) as (pcb1 & Hx1 & -> & _).
      destruct (Hf x pcb1 Hx1) as (pcb0 & Hx0 & -> & _). eauto.
  - destruct Hi1 as [Hlen Hqs]. split; [done|]. intros id o Ho Hty. apply Hq. by eapply Hqs.
  - split; simpl; [|tauto|by rewrite Hchn|done]. rewrite Hself, Hz. by eexists.
  - split; simpl.
    + intros x pcb' Hin Hx. destruct (Hf2 x pcb' Hx) as (pcb1 & Hx1 & _ & ->).
      destruct (Hf x pcb1 Hx1) as (_ & _ & _ & _ & Ho). by apply Ho.
    + intros pp Hpp Hw. destruct (proj2 (Hdom (parent pcb))) as [pp1 Hpp1]; [eauto|].
      destruct (Hf _ _ Hpp1) as (pp0 & Hpp0 & _ & Hwf & _). simplify_eq. apply (Hpar pp1); [done|].
      rewrite Hwf; [done|congruence].
  - done.
Qed.

(** The statements before the parent is looked up, taken together. *)
Lemma exit_prefix {A} p status (rest : K A) Q E X s :
  wp (mbind (fun _ => rest) (orphan_children p ;; IpcProcessExit p ;; upd_pcb p (set_exit_status status) ;;
                  upd_pcb p (set_state PROC_ZOMBIE))) Q E X s ->
  wp (orphan_children p ;; IpcProcessExit p ;; upd_pcb p (set_exit_status status) ;;
      upd_pcb p (set_state PROC_ZOMBIE) ;; rest) Q E X s.
Proof.
  unfold wp, mbind, M_bind. destruct (orphan_children p s) as [[] s1|? ?|? ?]; [|done..].
  destruct (IpcProcessExit p s1) as [[] s2|? ?|? ?]; [|done..].
  destruct (upd_pcb p (set_exit_status status) s2) as [[] s3|? ?|? ?]; [|done..].
  by destruct (upd_pcb p (set_state PROC_ZOMBIE) s3) as [[] s4|? ?|? ?].
Qed.

(** C4: [Exit] on a process that is neither idle nor init.  When the scheduler is called,
    the caller is a zombie with its exit status, in no ready queue and owning no lock; its
    children are orphans; its parent, if it was waiting for a child, waits no more and is
    ready.  Control never returns to the caller, and the scheduler does not choose it. *)
Theorem exit_leaves_zombie {A} status s c pcb l :
  let p := current_process s in
  proc_ok s c -> ipc_ok s c -> p <> idle_process s -> p <> init_process s ->
  pcbs s !! p = Some pcb -> c !! QChildren p = Some l -> ~ EChild p ∈ l ->
  ~ queued c (EBlock p) -> ~ queued c (EReady p) ->
  parent pcb <> p -> parent pcb = 0 \/ is_Some (pcbs s !! parent pcb) ->
  wp (ProcessExitCurrent status : K A) (fun _ _ => False)
    (fun kc s' => exists s1 c1, exited s s1 c1 p status pcb l /\ scheduled_from s1 c1 KCZombie kc s' /\
       (spec_schedule (idle_process s1) (current_process s1) (clock_ticks s1) (process_table s1) (pcbs s1, c1)).1 <> p)
    (fun _ _ => False) s.
Proof.
  intros p Hpk Hi Hidle Hinit Hp Hl Hself Hnb Hnr Hpne Hpar.
  assert (Hp0 : p <> 0) by (intros H0; rewrite H0, (kq_nonnull _ _ (pk_kq _ _ Hpk)) in Hp; done).
  unfold ProcessExitCurrent. eapply wp_step; [reflexivity|]. eapply wp_step; [reflexivity|]. fold p.
  test_false ((p =? 0) || (p =? idle_process s)). eapply wp_step; [reflexivity|]. eapply wp_step; [reflexivity|].
  test_false (p =? init_process s). eapply wp_step; [reflexivity|].
  pose proof (exit_releases s c p pcb l status Hpk Hi eq_refl Hp0 Hp Hl Hself Hnb Hnr) as Hrel.
  apply exit_prefix. eapply returns_then; [exact Hrel|].
  intros [] s1 (c1 & Hk1 & Hi1 & Hmv & Hz & Hnr1 & Hch & Hlocks & Hdom & Hf).
  run_step. change (parent (zombie status pcb)) with (parent pcb).
  eapply returns_then; [apply (wake_parent_ok s1 c1 p (parent pcb) Hk1); [congruence|by rewrite Hdom]|].
  intros ? s2 (c2 & Hpw).
  assert (Hex : exited s s2 c2 p status pcb l) by (by eapply exited_intro).
  pose proof (ex_proc _ _ _ _ _ _ _ Hex) as [Hk2 Htab2 Hsw2 Hcur2].
  destruct (ex_dead _ _ _ _ _ _ _ Hex) as [(pcb2 & Hp2 & Hz2 & _) Hq2 _ _].
  pose proof (zombie_not_chosen (idle_process s2) (current_process s2) (clock_ticks s2) (process_table s2) p pcb2
    (pcbs s2, c2) Hz2) as Hnot.
  eapply wp_mono; [by apply (ProcessSchedule_from s2 c2)|done| |done]. intros kc s' Hout.
  exists s2, c2. split_and!; [done|done|]. apply Hnot; [|by split].
  destruct (ex_others _ _ _ _ _ _ _ Hex) as [_ ->]. exact Hidle.
Qed.
End Exiting.

(** ** Witness: init waits for its child, which holds a lock and exits *)

Module ExitingWitness.
Import Booted.
#[local] Existing Instance tiny.
#[local] Existing Instance tiny_laws.
#[local] Existing Instance walking_mmu.

Definition script : list action :=
  [ASyscall YALNIX_LOCK_INIT [1152]; ASyscall YALNIX_FORK []; ASyscall YALNIX_WAIT [0];
   ASyscall YALNIX_LOCK_ACQUIRE [0]].
Definition last_breath : kst := Eval vm_compute in state_of (run_script 10 script (Some (inl booted))).
Definition lists1 : qlists := lists_of (k_queues last_breath).
Definition child : Z := Eval vm_compute in current_process last_breath.

Lemma exit_leaves_zombie_witness :
  wp (ProcessExitCurrent 7 : K unit) (fun _ _ => False)
    (fun kc s' => exists s1 c1, exited last_breath s1 c1 child 7 (pcb_of child last_breath) [] /\
       scheduled_from s1 c1 KCZombie kc s' /\
       (spec_schedule (idle_process s1) (current_process s1) (clock_ticks s1) (process_table s1) (pcbs s1, c1)).1 <> child)
    (fun _ _ => False) last_breath /\
  parent (pcb_of child last_breath) = init /\ waiting_for_child (pcb_of init last_breath) = true.
Proof.
  split; [|split; vm_compute; reflexivity].
  apply (exit_leaves_zombie 7 last_breath lists1 (pcb_of child last_breath) []).
  - apply proc_check_sound; by_computing.
  - apply ipc_check_sound. by_computing.
  - by vm_compute.
  - by vm_compute.
  - by vm_compute.
  - by vm_compute.
  - apply not_elem_of_nil.
  - by_computing.
  - by_computing.
  - by vm_compute.
  - right. by_computing.
Defined.
End ExitingWitness.
