(* ===== verification/Traps.v ===== *)
(** * Traps: the vector table, dispatch and preemption

    Which handler a trap reaches, which function a system call code selects and what an
    unknown code does, and that a process that was preempted does not notice. *)

From S2P Require Import Prelude Framework Queue Memory Mmu KernelBrk BootMemory State Process Ipc.
From S2P Require Import Exit Tty Loader Syscalls Trap KernelStart Machine Scheduler Waiting Locks.

Section Traps.
Context {F : Framework} {T : Mmu} {FL : FrameworkLaws F}.

(** ** The vector table *)

(** The handler each trap is meant for. *)
Definition handler_for (t : trap) : TrapHandler :=
  match t with
  | TRAP_KERNEL => HTrapKernel
  | TRAP_CLOCK => HTrapClock
  | TRAP_ILLEGAL | TRAP_MATH => HTrapAbort
  | TRAP_MEMORY => HTrapMemory
  | TRAP_TTY_RECEIVE => HTrapTtyReceive
  | TRAP_TTY_TRANSMIT => HTrapTtyTransmit
  | TRAP_DISK => HTrapDisk
  end.

(** A table of full length that sends trap [t], and no other, to [h]. *)
Lemma set_vector_lookup t h v i :
  length v = Z.to_nat TRAP_VECTOR_SIZE ->
  zlookup (set_vector t h v) i = if decide (trap_number t = i) then Some h else zlookup v i.
Proof.
  intros Hl. apply zlookup_insert, zlookup_is_Some. rewrite Hl. pose proof (trap_number_range t). lia.
Qed.

Lemma set_vector_length t h v : length (set_vector t h v) = length v.
Proof. apply length_insert. Qed.

Lemma trap_table_lookup i :
  0 <= i < TRAP_VECTOR_SIZE ->
  zlookup trap_table i =
    Some (from_option handler_for HTrapUnhandled
      (List.find (fun t => trap_number t =? i)
        [TRAP_DISK; TRAP_TTY_TRANSMIT; TRAP_TTY_RECEIVE; TRAP_MATH; TRAP_ILLEGAL; TRAP_MEMORY;
         TRAP_KERNEL; TRAP_CLOCK])).
Proof.
  intros Hi. unfold trap_table.
  rewrite !set_vector_lookup by (rewrite ?set_vector_length; apply length_replicate). simpl.
  repeat (let Hd := fresh in case_decide as Hd;
    [by rewrite (proj2 (Z.eqb_eq _ _) Hd)|rewrite (proj2 (Z.eqb_neq _ _) Hd)]).
  simpl. rewrite zlookup_nat by lia. apply lookup_replicate_2. lia.
Qed.

(** ** Dispatch *)

Lemma find_number {A} (f : A -> Z) `{Hinj : !Inj eq eq f} (l : list A) x :
  x ∈ l -> List.find (fun y => f y =? f x) l = Some x.
Proof.
  induction l as [|y l IH]; intros Hx; [by apply not_elem_of_nil in Hx|]. simpl.
  destruct (Z.eqb_spec (f y) (f x)) as [Heq|Hne]; [by apply Hinj in Heq as ->|].
  apply IH. apply elem_of_cons in Hx as [->|?]; done.
Qed.

Lemma decode_number c : decode (syscall_number c) = Some c.
Proof.
  pose proof syscall_number_inj. apply (find_number syscall_number). unfold all_syscalls.
  destruct c; set_solver.
Qed.

Lemma decode_Some code c : decode code = Some c -> code = syscall_number c.
Proof. intros H. apply List.find_some in H as [_ H%Z.eqb_eq]. done. Qed.

(** C25: [TrapInit] fills the whole vector table and swaps nothing: every trap of the
    machine reaches the handler written for it, and every other vector the one that only
    reports it. *)
Theorem trap_table_exact :
  (forall t u s, handle_trap (trap_number t) (set_uctxt u s) = run_handler (handler_for t) (set_uctxt u s)) /\
  (forall v s, (forall t, v <> trap_number t) -> handle_trap v s = Ok tt s).
Proof.
  split.
  - intros t u s. unfold handle_trap. rewrite trap_table_lookup by apply trap_number_range.
    pose proof trap_number_inj. rewrite (find_number trap_number); [done|]. destruct t; set_solver.
  - intros v s Hv. unfold handle_trap. destruct (decide (0 <= v < TRAP_VECTOR_SIZE)) as [Hr|Hr].
    + rewrite trap_table_lookup by done. destruct (List.find _ _) as [t|] eqn:Hf; [|done].
      apply List.find_some in Hf as [_ Hf%Z.eqb_eq]. exfalso. by apply (Hv t).
    + replace (zlookup trap_table v) with (@None TrapHandler); [done|]. symmetry.
      unfold zlookup. case_test; [done|]. apply lookup_ge_None. unfold trap_table, set_vector.
      rewrite !length_insert, length_replicate. lia.
Qed.

(** ** Saving and restoring the user context *)

Lemma save_current_run s pcb :
  current_process s <> 0 -> pcbs s !! current_process s = Some pcb ->
  save_current s = Ok tt (set_pcbs (<[current_process s := set_user_context (uctxt s) pcb]> (pcbs s)) s).
Proof.
  intros Hc Hp. unfold save_current. rewrite !bind_gets. test_false (current_process s =? 0). simpl.
  by apply (upd_pcb_run s _ pcb).
Qed.

Lemma load_current_run s pcb :
  current_process s <> 0 -> pcbs s !! current_process s = Some pcb ->
  load_current s = Ok tt (set_uctxt (user_context pcb) s).
Proof.
  intros Hc Hp. unfold load_current, load_user_context. rewrite bind_gets. test_false (current_process s =? 0). simpl.
  by rewrite (bind_ok _ _ _ _ _ (get_pcb_run _ _ _ Hp)).
Qed.

Lemma set_user_context_twice u v pcb : set_user_context u (set_user_context v pcb) = set_user_context u pcb.
Proof. by destruct pcb. Qed.

(** *** One function per call *)

(** What each call is: its function, on the registers that hold its arguments - pointers and
    addresses as they are, [int]s converted. *)
Definition syscall_of (caller : Z) (u : UserContext) (c : syscall) : K Z :=
  let ptr := reg u in
  let int i := to_int (reg u i) in
  match c with
  | YALNIX_FORK => SysFork caller
  | YALNIX_EXEC => SysExec (ptr 0%nat) (ptr 1%nat)
  | YALNIX_EXIT => SysExit (int 0%nat)
  | YALNIX_WAIT => SysWait caller (ptr 0%nat)
  | YALNIX_GETPID => SysGetPid
  | YALNIX_BRK => SysBrk (ptr 0%nat)
  | YALNIX_DELAY => SysDelay caller (int 0%nat)
  | YALNIX_TTY_READ => SysTtyRead caller (int 0%nat) (ptr 1%nat) (int 2%nat)
  | YALNIX_TTY_WRITE => SysTtyWrite caller (int 0%nat) (ptr 1%nat) (int 2%nat)
  | YALNIX_PIPE_INIT => SysPipeInit (ptr 0%nat)
  | YALNIX_PIPE_READ => SysPipeRead caller (int 0%nat) (ptr 1%nat) (int 2%nat)
  | YALNIX_PIPE_WRITE => SysPipeWrite (int 0%nat) (ptr 1%nat) (int 2%nat)
  | YALNIX_LOCK_INIT => SysLockInit (ptr 0%nat)
  | YALNIX_LOCK_ACQUIRE => SysAcquire caller (int 0%nat)
  | YALNIX_LOCK_RELEASE => SysRelease (int 0%nat)
  | YALNIX_CVAR_INIT => SysCvarInit (ptr 0%nat)
  | YALNIX_CVAR_SIGNAL => SysCvarSignal (int 0%nat)
  | YALNIX_CVAR_BROADCAST => SysCvarBroadcast (int 0%nat)
  | YALNIX_CVAR_WAIT => SysCvarWait caller (int 0%nat) (int 1%nat)
  | YALNIX_RECLAIM => SysReclaim (int 0%nat)
  end.

(** The context a process continues in when its call returned [rc]: [rc] in register 0; after
    a successful exec, the one the loader made for the new program. *)
Definition result_context (c : syscall) (rc : Z) (u : UserContext) (pcb : PCB) : UserContext :=
  if decide (c = YALNIX_EXEC)
  then if rc =? SUCCESS then user_context pcb else set_reg 0 (to_uint ERROR) u
  else set_reg 0 (to_uint rc) u.

(** A call that returned, switched away or stopped. *)
Definition call_ends (call : outcome kst KernelContext Z) (whole : outcome kst KernelContext unit)
    (returned : Z -> kst -> Prop) : Prop :=
  match call with
  | Ok rc s => returned rc s
  | Jump kc s => whole = Jump kc s
  | Stop r s => whole = Stop r s
  end.

Lemma call_ends_bind (call : K Z) (rest : Z -> K unit) s (Q : Z -> kst -> Prop) :
  (forall rc s2, call s = Ok rc s2 -> (mbind rest call) s = rest rc s2 -> Q rc s2) ->
  call_ends (call s) ((mbind rest call) s) Q.
Proof. unfold call_ends, mbind, M_bind. destruct (call s) as [rc s2| |]; auto. Qed.

Lemma dispatch_ends caller c s :
  uc_code (uctxt s) = syscall_number c ->
  call_ends (syscall_of caller (uctxt s) c s) (SyscallDispatch caller s) (fun rc s2 =>
    forall pcb, pcbs s2 !! current_process s2 = Some pcb ->
    SyscallDispatch caller s = Ok tt (set_uctxt (result_context c rc (uctxt s2) pcb) s2)).
Proof.
  intros Hc. unfold SyscallDispatch. rewrite !bind_gets, Hc, decode_number.
  destruct c; unfold syscall_of, result_context;
    try (apply call_ends_bind; intros rc s2 _ -> pcb _; by rewrite decide_False).
  - apply call_ends_bind. intros rc s2 _ -> pcb Hp. rewrite decide_True by done.
    destruct (rc =? SUCCESS); [|done]. rewrite bind_gets. unfold load_user_context.
    by rewrite (bind_ok _ _ _ _ _ (get_pcb_run _ _ _ Hp)).
  - unfold call_ends, SysExit, mbind, M_bind. by destruct (ProcessExitCurrent _ _).
Qed.

(** [TrapKernel] when the dispatch came back to the caller. *)
Lemma TrapKernel_back s pcb u s2 pcb2 :
  let cur := current_process s in
  cur <> 0 -> pcbs s !! cur = Some pcb -> current_process s2 = cur -> pcbs s2 !! cur = Some pcb2 ->
  SyscallDispatch cur (set_pcbs (<[cur := set_user_context (uctxt s) pcb]> (pcbs s)) s) = Ok tt (set_uctxt u s2) ->
  TrapKernel s = Ok tt (set_uctxt u (set_pcbs (<[cur := set_user_context u pcb2]> (pcbs s2)) s2)).
Proof.
  intros cur Hc Hp Hcur Hp2 Hd. unfold TrapKernel. rewrite bind_gets.
  rewrite (bind_ok _ _ _ _ _ (save_current_run s pcb Hc Hp)). fold cur.
  rewrite (bind_ok _ _ _ _ _ Hd). unfold TrapKernel_end. rewrite !bind_gets.
  change (current_process (set_uctxt u s2)) with (current_process s2). rewrite Hcur.
  test_true ((cur =? cur) && negb (cur =? 0)).
  rewrite (bind_ok _ _ _ _ _ (upd_pcb_run (set_uctxt u s2) _ pcb2 _ Hp2)).
  rewrite (load_current_run _ (set_user_context u pcb2)); simpl; rewrite ?Hcur; [done..|].
  by rewrite lookup_insert_eq.
Qed.

(** C26: a system call trap does what its number says.  The trapped context is saved; each of
    the 20 call numbers runs its own function, on its own argument registers
    ([syscall_of]).  When that returns to the caller, its result is in register 0 of the
    context the caller continues in, and of the saved one (after a successful exec both are
    the new program's); when it switches to another process or stops the machine, so does
    the trap.  A number that stands for no call puts ERROR in register 0 and does nothing
    else. *)
Theorem syscall_dispatch_exact s pcb :
  let cur := current_process s in
  let entered := set_pcbs (<[cur := set_user_context (uctxt s) pcb]> (pcbs s)) s in
  let back u p s2 := TrapKernel s =
    Ok tt (set_uctxt u (set_pcbs (<[cur := set_user_context u p]> (pcbs s2)) s2)) in
  cur <> 0 -> pcbs s !! cur = Some pcb ->
  (forall c, uc_code (uctxt s) = syscall_number c ->
     call_ends (syscall_of cur (uctxt s) c entered) (TrapKernel s) (fun rc s2 =>
       forall pcb2, current_process s2 = cur -> pcbs s2 !! cur = Some pcb2 ->
       back (result_context c rc (uctxt s2) pcb2) pcb2 s2)) /\
  ((forall c, uc_code (uctxt s) <> syscall_number c) ->
     back (set_reg 0 (to_uint ERROR) (uctxt s)) pcb s).
Proof.
  intros cur entered back Hc Hp. split.
  - intros c Hcode. pose proof (dispatch_ends cur c entered Hcode) as Hd.
    change (uctxt entered) with (uctxt s) in Hd.
    assert (Hrun : forall o, SyscallDispatch cur entered = o ->
      TrapKernel s = match o with Ok _ s2 => TrapKernel_end cur s2 | Jump kc s2 => Jump kc s2 | Stop r s2 => Stop r s2 end).
    { intros o <-. unfold TrapKernel. rewrite bind_gets.
      by rewrite (bind_ok _ _ _ _ _ (save_current_run s pcb Hc Hp)). }
    destruct (syscall_of _ _ _ _) as [rc s2|kc s2|r s2]; simpl in *; [|by rewrite (Hrun _ Hd)..].
    intros pcb2 Hcur Hp2. unfold back. apply (TrapKernel_back s pcb); try done.
    apply Hd. by rewrite Hcur.
  - intros Hcode. unfold back.
    replace (set_pcbs (<[cur := set_user_context _ pcb]> (pcbs s)) s)
      with (set_pcbs (<[cur := set_user_context (set_reg 0 (to_uint ERROR) (uctxt s)) (set_user_context (uctxt s) pcb)]>
        (pcbs entered)) entered) by (unfold entered; simpl; by rewrite insert_insert_eq).
    apply (TrapKernel_back s pcb); [done..|simpl; by rewrite lookup_insert_eq|].
    fold cur entered. unfold SyscallDispatch. rewrite bind_gets. change (uctxt entered) with (uctxt s).
    destruct (decode (uc_code (uctxt s))) as [c|] eqn:Hd; [by apply decode_Some, Hcode in Hd|done].
Qed.

(** ** Preemption *)

Definition context_of (P : gmap Z PCB) (p : Z) : option UserContext := user_context <$> P !! p.

Lemma only_sched_context P P' p :
  only_sched P P' -> (forall q, is_Some (P' !! q) <-> is_Some (P !! q)) -> context_of P' p = context_of P p.
Proof.
  intros Hos Hd. unfold context_of. destruct (P' !! p) as [pcb'|] eqn:Hp'; simpl.
  - destruct (Hos p pcb' Hp') as (pcb & st & d & -> & ->). done.
  - destruct (P !! p) eqn:Hp; [|done]. assert (is_Some (P' !! p)) as [? ?] by (apply Hd; eauto). congruence.
Qed.

Lemma schedule_outcome_context s kc n P c kc' s' p :
  schedule_outcome s kc n P c kc' s' -> context_of (pcbs s') p = context_of P p.
Proof.
  intros [s1 _ Hs|s1 pcb _ Hn _ _ _ Hp _|s1 pcb m1 _ Hn _ _ _ _ Hp _].
  - by destruct (sim_fields _ _ _ _ Hs) as [-> _].
  - rewrite Hp. unfold context_of. destruct (decide (n = p)) as [<-|?]; [|by rewrite lookup_insert_ne].
    by rewrite lookup_insert_eq, Hn.
  - rewrite Hp. unfold context_of, saved.
    assert (H : user_context <$> <[n:=set_state PROC_RUNNING pcb]> P !! p = user_context <$> P !! p).
    { destruct (decide (n = p)) as [<-|?]; [|by rewrite lookup_insert_ne]. by rewrite lookup_insert_eq, Hn. }
    destruct (_ =? 0); [done|]. rewrite <- H.
    destruct (decide (current_process s = p)) as [<-|?]; [|by rewrite lookup_alter_ne].
    rewrite lookup_alter_eq. by destruct (<[n:=set_state PROC_RUNNING pcb]> P !! current_process s).
Qed.

(** The scheduler leaves the saved user contexts alone. *)
Lemma scheduled_context s c kc kc' s' p :
  scheduled_from s c kc kc' s' ->
  (forall q, is_Some ((spec_schedule (idle_process s) (current_process s) (clock_ticks s)
      (process_table s) (pcbs s, c)).2.1 !! q) <-> is_Some (pcbs s !! q)) ->
  context_of (pcbs s') p = context_of (pcbs s) p.
Proof.
  unfold scheduled_from. intros Hs Hd.
  pose proof (only_sched_schedule (idle_process s) (current_process s) (clock_ticks s) (process_table s) (pcbs s, c)) as Hos.
  destruct (spec_schedule _ _ _ _ _) as [n [P c']]. simpl in *.
  rewrite (schedule_outcome_context _ _ _ _ _ _ _ _ Hs). by apply only_sched_context.
Qed.

Lemma spec_schedule_dom idle cur ticks tbl st q :
  is_Some ((spec_schedule idle cur ticks tbl st).2.1 !! q) <-> is_Some (st.1 !! q).
Proof.
  unfold spec_schedule. rewrite <- (spec_wake_dom idle ticks tbl st q).
  set (st1 := spec_wake idle ticks tbl st). unfold spec_next.
  assert (H : is_Some ((spec_yield idle cur st1).1 !! q) <-> is_Some (st1.1 !! q)).
  { unfold spec_yield. destruct (st1.1 !! cur); [|done]. case_decide; [|done].
    destruct st1. apply spec_make_ready_dom. }
  destruct (spec_pop _ _) as [[[]|] ?]; done.
Qed.

(** The state of a clock trap when the scheduler is called. *)
Definition ticked (s : kst) (pcb : PCB) : kst :=
  set_clock_ticks (to_uint (clock_ticks s + 1))
    (set_pcbs (<[current_process s := set_user_context (uctxt s) pcb]> (pcbs s)) s).

(** C17: a clock trap is invisible to the processes.  The trapped context is saved in the
    current PCB, the tick counted and the scheduler run; whichever process runs next, the
    saved user context of every process - the preempted one's is the trapped one - is
    unchanged by that; and a process resumed after a clock trap continues in the
    context that was saved for it. *)
Theorem preemption_transparent s c :
  proc_ok s c ->
  wp TrapClock (fun _ _ => False)
    (fun kc s' => exists pcb, pcbs s !! current_process s = Some pcb /\
       scheduled_from (ticked s pcb) c KCClock kc s' /\
       forall p, context_of (pcbs s') p =
         if decide (p = current_process s) then Some (uctxt s) else context_of (pcbs s) p)
    (fun _ _ => False) s /\
  forall s2 pcb, current_process s2 <> 0 -> pcbs s2 !! current_process s2 = Some pcb ->
    resume KCClock s2 = Ok tt (set_uctxt (user_context pcb) s2).
Proof.
  intros Hpk. split; [|intros; by apply load_current_run].
  pose proof Hpk as [Hk [Hlen Htab] Hsw [pcb Hp]].
  assert (Hcur : current_process s <> 0).
  { intros H0. by rewrite H0, (kq_nonnull _ _ Hk) in Hp. }
  unfold TrapClock. eapply wp_step; [by apply save_current_run|]. eapply wp_step; [reflexivity|].
  change (set_clock_ticks _ _) with (ticked s pcb).
  assert (Hpk1 : proc_ok (set_pcbs (<[current_process s := set_user_context (uctxt s) pcb]> (pcbs s)) s) c).
  { replace (set_pcbs _ s) with (with_sched (<[current_process s := set_user_context (uctxt s) pcb]> (pcbs s)) (k_queues s) s)
      by (by destruct s).
    apply (proc_ok_insert s c _ pcb); [done|done|done|]. unfold with_sched.
    replace (set_k_queues (k_queues s) _) with (set_pcbs (<[current_process s := set_user_context (uctxt s) pcb]> (pcbs s)) s)
      by (by destruct s).
    by eapply kq_ok_pcb. }
  assert (Hpk2 : proc_ok (ticked s pcb) c).
  { destruct Hpk1 as [[? ? ? ? ? ?] [? ?] [? ? ?] ?]. by split; [split|split|split|]. }
  eapply wp_mono; [by apply (ProcessSchedule_from (ticked s pcb) c)|done| |done].
  intros kc s' Hout. exists pcb. split_and!; [done|done|].
  intros p. rewrite (scheduled_context _ _ _ _ _ p Hout) by (intros; apply spec_schedule_dom).
  unfold context_of, ticked. simpl. case_decide as Hpc; [subst; by rewrite lookup_insert_eq|].
  by rewrite lookup_insert_ne.
Qed.
End Traps.

(** ** Witnesses: the small machine after boot *)

Module TrapsWitness.
Import Booted.
#[local] Existing Instance tiny.
#[local] Existing Instance tiny_laws.
#[local] Existing Instance walking_mmu.

Definition lists0 : qlists := lists_of (k_queues booted).
(** [booted], about to make a call whose number means nothing. *)
Definition strange : kst := Eval vm_compute in set_uctxt (set_uc_code 12345 (uctxt booted)) booted.

Lemma booted_proc : proc_ok booted lists0.
Proof. apply proc_check_sound; by_computing. Qed.

Lemma trap_table_exact_witness :
  handle_trap (trap_number TRAP_DISK) (set_uctxt uc_zero booted) = Ok tt (set_uctxt uc_zero booted) /\
  handle_trap 12 booted = Ok tt booted.
Proof.
  split; [apply (proj1 trap_table_exact TRAP_DISK)|apply (proj2 trap_table_exact)].
  intros []; by vm_compute.
Defined.

(** [booted], about to ask for its pid. *)
Definition asking : kst := Eval vm_compute in
  set_uctxt (set_uc_code (syscall_number YALNIX_GETPID) (uctxt booted)) booted.

Lemma syscall_dispatch_exact_witness :
  let back s u := TrapKernel s = Ok tt (set_uctxt u
    (set_pcbs (<[current_process s := set_user_context u (pcb_of init s)]> (pcbs s)) s)) in
  call_ends (SysGetPid (set_pcbs (<[init := set_user_context (uctxt asking) (pcb_of init asking)]> (pcbs asking)) asking))
    (TrapKernel asking) (fun rc s2 => forall pcb2, current_process s2 = init -> pcbs s2 !! init = Some pcb2 ->
      let u := set_reg 0 (to_uint rc) (uctxt s2) in
      TrapKernel asking = Ok tt (set_uctxt u (set_pcbs (<[init := set_user_context u pcb2]> (pcbs s2)) s2))) /\
  reg (uctxt (final (TrapKernel asking))) 0 = pid (pcb_of init asking) /\
  back strange (set_reg 0 (to_uint ERROR) (uctxt strange)).
Proof.
  split_and!; [|by vm_compute|].
  - apply (proj1 (syscall_dispatch_exact asking (pcb_of init asking) ltac:(by vm_compute) ltac:(by vm_compute))
      YALNIX_GETPID). by vm_compute.
  - apply (proj2 (syscall_dispatch_exact strange (pcb_of init strange) ltac:(by vm_compute) ltac:(by vm_compute))).
    intros []; by vm_compute.
Defined.

Lemma preemption_transparent_witness :
  wp TrapClock (fun _ _ => False)
    (fun kc s' => exists pcb, pcbs booted !! current_process booted = Some pcb /\
       scheduled_from (ticked booted pcb) lists0 KCClock kc s' /\
       forall p, context_of (pcbs s') p =
         if decide (p = current_process booted) then Some (uctxt booted) else context_of (pcbs booted) p)
    (fun _ _ => False) booted.
Proof. apply (proj1 (preemption_transparent booted lists0 booted_proc)). Defined.
End TrapsWitness.
