(* ===== verification/Pipes.v ===== *)
(** * Pipes ([ipc.c])

    A pipe is a first-in first-out sequence of bytes in a growing kernel buffer.  The
    theorems: a read takes bytes from the front, a write appends them and wakes every
    reader, growing the buffer keeps its bytes, and one request size no buffer can
    reach. *)

From S2P Require Import Prelude Framework Queue Memory Mmu UserBytes KernelBrk BootMemory State Process Ipc.
From S2P Require Import Exit Tty Loader Syscalls Trap KernelStart Machine Scheduler Waiting Locks.

(** ** The kernel heap in the running machine *)

(** A call of the allocator may have moved the kernel break: user memory is as it was. *)
Record heap_moved (m m' : mem) : Prop := {
  hm_count : physical_frame_count m' = physical_frame_count m;
  hm_region0 : kernel_region0_pt m' = kernel_region0_pt m;
  hm_vm : vm_enabled m' = vm_enabled m;
  hm_tables : forall pt, pt <> kernel_region0_pt m -> page_tables m' !! pt = page_tables m !! pt;
  hm_ptbr0 : ptbr0 m' = ptbr0 m;
  hm_ptbr1 : ptbr1 m' = ptbr1 m;
  hm_ram : ram m' = ram m
}.

Lemma heap_moved_refl m : heap_moved m m.
Proof. done. Qed.

Lemma heap_moved_trans m1 m2 m3 : heap_moved m1 m2 -> heap_moved m2 m3 -> heap_moved m1 m3.
Proof. intros [] []. split; try congruence. intros pt Hpt. rewrite hm_tables1 by congruence. auto. Qed.

Section Pipes.
Context {F : Framework} {T : Mmu} {FL : FrameworkLaws F} {TL : MmuLaws T}.

Lemma outside_moved m m' : outside m m' (kernel_region0_pt m) -> heap_moved m m'.
Proof. by intros []. Qed.

Lemma brk_outcome_moved m ext addr rc m' :
  brk_outcome m ext addr rc m' -> heap_moved m m' /\ inuse m' = inuse m.
Proof.
  intros [m1 _ Hg|m1 _ Hs|_|m1 _ Hf].
  - pose proof (grown_outside _ _ _ _ _ _ Hg) as Ho. split; [|by destruct Ho]. by apply outside_moved in Ho as [].
  - pose proof (shrunk_outside _ _ _ _ _ _ Hs) as Ho. split; [|by destruct Ho]. by apply outside_moved in Ho as [].
  - by split.
  - destruct Hf as [_ Hs _ _]. pose proof (shrunk_outside _ _ _ _ _ _ Hs) as Ho.
    split; [by apply outside_moved|by destruct Ho].
Qed.

Lemma heap_ok_log m ext ev : heap_ok m ext -> heap_ok (add_log ev m) ext.
Proof. intros [? ? Ha ?]. split; try done. by apply accounted_log. Qed.

Lemma heap_ok_inuse m ext v : heap_ok m ext -> heap_ok (set_inuse v m) ext.
Proof. intros [? ? [? ? ? ? ?] ?]. by split. Qed.

Lemma kmalloc_ok m ext n :
  heap_ok m ext ->
  returns (kmalloc n) (fun r m' => heap_ok m' ext /\ heap_moved m m' /\
    match r with
    | Some p => p <> 0 /\ p ∉ inuse m /\ inuse m' = {[p]} ∪ inuse m
    | None => inuse m' = inuse m
    end) m.
Proof.
  intros Hh. unfold kmalloc. eapply wp_step; [reflexivity|]. eapply wp_step; [reflexivity|].
  set (m0 := add_log (EvMalloc n) m). assert (Hh0 : heap_ok m0 ext) by by apply heap_ok_log.
  apply wp_bind.
  eapply returns_mono with (Q := fun _ m1 => heap_ok m1 ext /\ heap_moved m m1 /\ inuse m1 = inuse m).
  - destruct (malloc_brk _ _) as [addr|]; [|by eapply returns_ok].
    eapply returns_bind; [by apply (SetKernelBrk_outcome m0 ext addr Hh0)|].
    intros rc m1 Hout. eapply returns_ok; [reflexivity|]. split_and!.
    + apply heap_ok_log. by eapply brk_outcome_heap_ok.
    + by destruct (brk_outcome_moved _ _ _ _ _ Hout) as [[] _].
    + by destruct (brk_outcome_moved _ _ _ _ _ Hout) as [_ Hi].
  - intros ? m1 (Hh1 & Hm1 & Hi1). eapply wp_step; [reflexivity|].
    destruct (malloc_ptr _ _ _) as [p|] eqn:Hp; [|by eapply returns_ok].
    apply malloc_fresh in Hp as [Hp0 Hpi].
    eapply wp_step; [reflexivity|]. eapply returns_ok; [reflexivity|]. rewrite Hi1 in Hpi. split_and!.
    + by apply heap_ok_inuse.
    + by destruct Hm1.
    + done.
    + done.
    + simpl. by rewrite Hi1.
Qed.

Lemma kfree_run m p : p <> 0 -> p ∈ inuse m -> kfree p m = Ok tt (set_inuse (inuse m ∖ {[p]}) m).
Proof. intros Hp Hin. unfold kfree. rewrite bind_gets. test_false (p =? 0). by rewrite decide_True. Qed.

(** The queues do not depend on the rest of the state. *)
Lemma kq_ok_same s s' c : kq_ok s c -> k_queues s' = k_queues s -> pcbs s' = pcbs s -> kq_ok s' c.
Proof. intros [? ? ? ? ? ?] Hq Hp. split; by rewrite ?Hq, ?Hp. Qed.

(** ** The pipe's buffer *)

(** Pipe [id] is object [o] with buffer [b]. *)
Record pipe_ok (s : kst) (id : Z) (o : IpcObject) (b : list Z) : Prop := {
  pipe_obj : is_object s id IPC_PIPE o;
  pipe_block : blocks s !! pipe_buf o = Some b;
  pipe_size : Z.of_nat (length b) = pipe_cap o;
  pipe_fits : 0 <= pipe_len o <= pipe_cap o;
  pipe_cap_pos : 0 < pipe_cap o;
  pipe_nonnull : pipe_buf o <> 0;
  pipe_inuse : pipe_buf o ∈ inuse (k_mem s)
}.

(** The bytes in the pipe, oldest first. *)
Definition contents (o : IpcObject) (b : list Z) : list Z := take (Z.to_nat (pipe_len o)) b.

Lemma contents_length s id o b : pipe_ok s id o b -> length (contents o b) = Z.to_nat (pipe_len o).
Proof. intros [? ? ? ? ? ? ?]. unfold contents. rewrite length_take. lia. Qed.

Lemma block_read_run s p b off n :
  blocks s !! p = Some b -> 0 <= off -> 0 <= n -> off + n <= Z.of_nat (length b) ->
  block_read p off n s = Ok (take (Z.to_nat n) (drop (Z.to_nat off) b)) s.
Proof.
  intros Hb Ho Hn Hl. unfold block_read. rewrite (bind_ok _ _ _ b s) by (unfold get_block; by rewrite Hb).
  by test_true ((0 <=? off) && (0 <=? n) && (off + n <=? Z.of_nat (length b))).
Qed.

Lemma block_write_run s p b off l :
  blocks s !! p = Some b -> 0 <= off -> off + Z.of_nat (length l) <= Z.of_nat (length b) ->
  block_write p off l s = Ok tt (set_blocks (<[p := take (Z.to_nat off) b ++ l ++
    drop (Z.to_nat (off + Z.of_nat (length l))) b]> (blocks s)) s).
Proof.
  intros Hb Ho Hl. unfold block_write. rewrite (bind_ok _ _ _ b s) by (unfold get_block; by rewrite Hb).
  by test_true ((0 <=? off) && (off + Z.of_nat (length l) <=? Z.of_nat (length b))).
Qed.

(** ** Growing the buffer *)

Lemma int_op_run v s : INT_MIN <= v <= INT_MAX -> (int_op v : K Z) s = Ok v s.
Proof. intros. unfold int_op. by test_true ((INT_MIN <=? v) && (v <=? INT_MAX)). Qed.

(** The capacity that doubling [cap] finds for [needed] bytes: no further than needed. *)
Definition grown_cap (cap needed c : Z) : Prop :=
  exists k : nat, c = cap * 2 ^ Z.of_nat k /\ needed <= c < 2 * needed.

(** Doubling reaches any size up to 2^30 without overflow. *)
Lemma double_cap_ok fuel cap needed s :
  0 < cap < 2 * needed -> needed <= 2 ^ 30 -> needed <= cap * 2 ^ Z.of_nat fuel ->
  exists c, double_cap fuel cap needed s = Ok c s /\ grown_cap cap needed c.
Proof.
  revert cap. induction fuel as [|fuel IH]; intros cap Hc Hn Hf; cbn [double_cap].
  - rewrite Z.mul_1_r in Hf. test_false (cap <? needed). exists cap. split; [done|]. exists 0%nat. simpl. lia.
  - destruct (Z.ltb_spec cap needed) as [Hlt|Hge].
    2:{ exists cap. split; [done|]. exists 0%nat. simpl. lia. }
    rewrite (bind_ok _ _ _ _ _ (int_op_run (cap * 2) s ltac:(unfold INT_MIN, INT_MAX; lia))).
    rewrite Nat2Z.inj_succ, Z.pow_succ_r in Hf by lia.
    destruct (IH (cap * 2)) as (c & Hr & k & Hk & Hcn); [lia|done|lia|].
    exists c. split; [done|]. exists (Datatypes.S k). split; [|done].
    rewrite Nat2Z.inj_succ, Z.pow_succ_r by lia. lia.
Qed.

(** The allocator, asked for that capacity, returned null; only its own doings are left. *)
Definition malloc_refused (s s' : kst) (cap needed : Z) : Prop :=
  exists c m', grown_cap cap needed c /\ kmalloc c (k_mem s) = Ok None m' /\ s' = set_k_mem m' s.

(** A power of two never reaches a size above 2^30: the next doubling overflows. *)
Lemma double_cap_overflow fuel k needed s :
  2 ^ 30 < needed -> 0 <= k <= 30 -> 30 - k < Z.of_nat fuel ->
  double_cap fuel (2 ^ k) needed s = Stop (Fault "signed overflow") s.
Proof.
  revert k. induction fuel as [|fuel IH]; intros k Hn Hk Hf; [lia|]. cbn [double_cap].
  assert (2 ^ k <= 2 ^ 30) by (apply Z.pow_le_mono_r; lia). test_true (2 ^ k <? needed).
  replace (2 ^ k * 2) with (2 ^ (k + 1)) by (rewrite Z.pow_add_r; lia).
  destruct (decide (k = 30)) as [->|Hne].
  - unfold mbind, M_bind, int_op, INT_MIN, INT_MAX. reflexivity.
  - assert (2 ^ (k + 1) <= 2 ^ 30) by (apply Z.pow_le_mono_r; lia).
    assert (0 < 2 ^ (k + 1)) by (apply Z.pow_pos_nonneg; lia).
    rewrite (bind_ok _ _ _ _ _ (int_op_run (2 ^ (k + 1)) s ltac:(unfold INT_MIN, INT_MAX; lia))). apply IH; lia.
Qed.

(** Only the kernel heap, the buffers and the object table changed. *)
Definition pipe_moved (s s' : kst) : Prop :=
  exists m objs blks, s' = set_objects objs (set_blocks blks (set_k_mem m s)) /\ heap_moved (k_mem s) m.

(** The other objects and the other blocks are as they were. *)
Definition others_kept (s s' : kst) (id : Z) (o : IpcObject) : Prop :=
  length (objects s') = length (objects s) /\
  (forall j, j <> id -> zlookup (objects s') j = zlookup (objects s) j) /\
  (forall q, q ∈ inuse (k_mem s) -> q <> pipe_buf o -> blocks s' !! q = blocks s !! q).

Lemma malloc_block_ok s ext n :
  heap_ok (k_mem s) ext -> 0 <= n ->
  returns (malloc_block n) (fun r s' => heap_ok (k_mem s') ext /\
    match r with
    | None => exists m', s' = set_k_mem m' s /\ heap_moved (k_mem s) m' /\ kmalloc n (k_mem s) = Ok None m'
    | Some p => exists m' l, s' = set_blocks (<[p := l]> (blocks s)) (set_k_mem m' s) /\
        heap_moved (k_mem s) m' /\ inuse m' = {[p]} ∪ inuse (k_mem s) /\
        p <> 0 /\ p ∉ inuse (k_mem s) /\ Z.of_nat (length l) = n
    end) s.
Proof.
  intros Hh Hn. unfold malloc_block. eapply wp_step; [reflexivity|].
  destruct (wp_returns _ _ _ (kmalloc_ok _ ext n Hh)) as (r & m' & Hrun & Hh' & Hm & Hr).
  eapply wp_step; [by apply in_mem_run|]. destruct r as [p|].
  - destruct Hr as (Hp & Hf & Hi). eapply wp_step; [reflexivity|]. eapply returns_ok; [reflexivity|].
    split; [done|]. eexists m', _. split_and!; try done. rewrite malloc_bytes_len by done. lia.
  - eapply returns_ok; [reflexivity|]. split; [done|]. by exists m'.
Qed.

(** What growing promises: the pipe has room, its bytes, and the others are untouched. *)
Definition room_made (s s' : kst) (id : Z) (o : IpcObject) (b : list Z) (needed : Z) : Prop :=
  exists o' b', pipe_ok s' id o' b' /\ needed <= pipe_cap o' /\
    (pipe_buf o' = pipe_buf o \/ pipe_buf o' ∉ inuse (k_mem s)) /\
    pipe_len o' = pipe_len o /\ contents o' b' = contents o b /\ others_kept s s' id o.

(** The bytes moved to the new block [nb] of [c] bytes, and the old one freed. *)
Lemma move_buffer_ok s s1 id o b ext nb l c m' :
  pipe_ok s id o b -> heap_ok m' ext -> heap_moved (k_mem s) m' -> inuse m' = {[nb]} ∪ inuse (k_mem s) ->
  nb <> 0 -> nb ∉ inuse (k_mem s) -> Z.of_nat (length l) = c -> pipe_cap o <= c ->
  s1 = set_blocks (<[nb := l]> (blocks s)) (set_k_mem m' s) ->
  returns (o ← get_object id;
    l ← block_read (pipe_buf o) 0 (pipe_len o);
    block_write nb 0 l ;;
    free_block (pipe_buf o) ;;
    upd_object id (set_pipe_cap c ∘ set_pipe_buf nb) ;;
    mret SUCCESS : K Z)
    (fun rc s' => rc = SUCCESS /\ pipe_moved s s' /\ heap_ok (k_mem s') ext /\
       forall needed, needed <= c -> room_made s s' id o b needed) s1.
Proof.
  intros Hp Hh1 Hm Hi Hnb Hfresh Hlen Hge ->. pose proof Hp as [[Ho Hty] Hb Hsz Hfit Hpos Hnz Hin].
  assert (Hne : nb <> pipe_buf o) by (intros ->; done).
  set (s1 := set_blocks _ _). assert (Ho1 : zlookup (objects s1) id = Some o) by done.
  run_step.
  eapply wp_step; [apply (block_read_run s1 _ b); [simpl; by rewrite lookup_insert_ne|lia..]|].
  change (drop (Z.to_nat 0) b) with b. fold (contents o b). pose proof (contents_length _ _ _ _ Hp) as Hcl.
  eapply wp_step; [apply (block_write_run s1 nb l); [simpl; by rewrite lookup_insert_eq|lia..]|].
  set (l' := take (Z.to_nat 0) l ++ _).
  assert (Hl' : l' = contents o b ++ drop (Z.to_nat (pipe_len o)) l).
  { unfold l'. rewrite Hcl. simpl. repeat f_equal. lia. }
  clearbody l'. set (s2 := set_blocks _ s1).
  eapply wp_step; [apply (free_block_run s2); [done|simpl; rewrite Hi; set_solver]|].
  set (s3 := set_blocks _ _). assert (Ho3 : zlookup (objects s3) id = Some o) by done.
  eapply wp_step; [by apply (upd_object_run s3 id o)|]. eapply returns_ok; [reflexivity|].
  set (o' := (set_pipe_cap c ∘ set_pipe_buf nb) o).
  assert (Hlen' : Z.of_nat (length l') = c) by (rewrite Hl', length_app, length_drop, Hcl; lia).
  split_and!; [done| |simpl; by apply heap_ok_inuse|].
  { eexists _, _, _. split; [reflexivity|]. by destruct Hm. }
  intros needed Hneed. exists o', l'. split; [|split_and!; [done|by right|done|..]].
  - split; simpl; [split; [|done]|by rewrite lookup_delete_ne, lookup_insert_eq|lia..|done|rewrite Hi; set_solver].
    simpl. rewrite zlookup_insert by eauto. by rewrite decide_True.
  - unfold contents at 1. change (pipe_len o') with (pipe_len o). rewrite Hl', take_app_le by lia.
    by rewrite take_ge by lia.
  - split_and!; [simpl; by rewrite length_insert|..].
    + intros j Hj. simpl. rewrite zlookup_insert by eauto. by rewrite decide_False.
    + intros q Hq Hqo. simpl. rewrite lookup_delete_ne, !lookup_insert_ne; [done|intros ->; done..|done].
Qed.

Lemma PipeEnsureCapacity_ok s id o b ext needed :
  pipe_ok s id o b -> heap_ok (k_mem s) ext -> needed <= 2 ^ 30 ->
  returns (PipeEnsureCapacity id needed) (fun rc s' =>
    pipe_moved s s' /\ heap_ok (k_mem s') ext /\
    ((rc = ERROR /\ pipe_cap o < needed /\ malloc_refused s s' (pipe_cap o) needed) \/
     (rc = SUCCESS /\ room_made s s' id o b needed))) s.
Proof.
  intros Hp Hh Hn. pose proof Hp as [[Ho Hty] _ _ _ Hpos _ _].
  unfold PipeEnsureCapacity. run_step.
  destruct (Z.leb_spec needed (pipe_cap o)) as [Hle|Hgt].
  { eapply returns_ok; [reflexivity|]. split; [|split; [done|]].
    - exists (k_mem s), (objects s), (blocks s). split; [by destruct s|done].
    - right. split; [done|]. exists o, b. split_and!; try done. by left. }
  destruct (double_cap_ok 32 (pipe_cap o) needed s ltac:(lia) Hn) as (c & Hc & Hgrown).
  { change (Z.of_nat 32) with 32. lia. }
  assert (Hcn : needed <= c) by (destruct Hgrown as (? & ? & ?); lia).
  eapply wp_step; [exact Hc|].
  eapply returns_bind; [apply (malloc_block_ok s ext c Hh); lia|].
  intros [nb|] s1 [Hh1 Hr].
  - destruct Hr as (m' & l & -> & Hm & Hi & Hnb & Hfresh & Hlen).
    eapply returns_mono; [apply (move_buffer_ok s _ id o b ext nb l c m'); try done; lia|].
    intros rc s' (-> & ? & ? & Hroom). split_and!; [done|done|]. right. split; [done|]. by apply Hroom.
  - destruct Hr as (m' & -> & Hm & Hrun). eapply returns_ok; [reflexivity|].
    split; [|split; [done|left; split_and!; [done|done|by exists c, m']]].
    exists m', (objects s), (blocks s). split; [by destruct s|done].
Qed.

(** ** Reading *)

(** The buffer after [n] bytes were taken off its front: the rest is moved there with
    [memcpy].  What the rest then is the C standard says only when the two ranges do not
    overlap, that is, when no more bytes are left than were taken. *)
Definition moved_front (o : IpcObject) (b : list Z) (n : Z) : list Z :=
  let rest := pipe_len o - n in if 0 <? rest then memcpy_within b 0 n rest else b.

Lemma moved_front_contents o b n :
  Z.of_nat (length b) = pipe_cap o -> pipe_len o <= pipe_cap o -> 0 <= n <= pipe_len o ->
  pipe_len o - n <= n ->
  length (moved_front o b n) = length b /\
  take (Z.to_nat (pipe_len o - n)) (moved_front o b n) = drop (Z.to_nat n) (contents o b).
Proof.
  intros Hsz Hfit Hn Hle. unfold moved_front, contents. destruct (Z.ltb_spec 0 (pipe_len o - n)) as [Hr|Hr].
  - rewrite memcpy_disjoint by lia. rewrite Z.add_0_l. simpl. split.
    + rewrite length_app, length_take, !length_drop. lia.
    + rewrite take_app_le, take_take by (rewrite length_take, length_drop; lia).
      rewrite take_drop_commute. repeat f_equal; lia.
  - split; [done|]. rewrite drop_ge by (rewrite length_take; lia). by replace (Z.to_nat (pipe_len o - n)) with 0%nat by lia.
Qed.

(** [n] bytes were taken from the front of the pipe into user memory at [buf]. *)
Definition taken (s s' : kst) (id buf n : Z) (o : IpcObject) (b : list Z) : Prop :=
  exists r, let o' := set_pipe_len (pipe_len o - n) o in let b' := moved_front o b n in
    user_bytes (k_mem s') buf n = take (Z.to_nat n) (contents o b) /\
    s' = set_blocks (<[pipe_buf o := b']> (blocks s))
           (set_objects (<[Z.to_nat id := o']> (objects s)) (set_k_mem (set_ram r (k_mem s)) s)) /\
    is_object s' id IPC_PIPE o' /\
    (pipe_len o - n <= n -> pipe_ok s' id o' b' /\ contents o' b' = drop (Z.to_nat n) (contents o b)).

(** A reader's buffer: mapped, writable user memory of the running process. *)
Record user_buffer (s : kst) (w : bool) (buf n : Z) : Prop := {
  ub_vm : vm_enabled (k_mem s) = true;
  ub_user : VMEM_1_BASE <= buf;
  ub_mapped : forall i, 0 <= i < n -> accessible (k_mem s) w (buf + i)
}.

Lemma pipe_take_ok s id o b buf len ext :
  let n := Z.min len (pipe_len o) in
  pipe_ok s id o b -> 0 < len -> 0 < pipe_len o ->
  Forall (fun v => 0 <= v < 256) (contents o b) ->
  accounted (k_mem s) (ptbr1 (k_mem s)) ext -> user_buffer s true buf n ->
  returns (pipe_take id buf len) (fun rc s' => rc = n /\ taken s s' id buf n o b) s.
Proof.
  intros n Hp Hlen Hpl Hby Hacc [Hvm Hbuf Hmap].
  assert (Hn : 0 < n <= pipe_len o) by (subst n; lia).
  pose proof (contents_length _ _ _ _ Hp) as Hcl.
  destruct Hp as [[Ho Hty] Hb Hsz Hfit Hpos Hnz Hin].
  unfold pipe_take. run_step.
  replace (if len <? pipe_len o then len else pipe_len o) with n by (subst n; case_test; lia).
  eapply wp_step; [apply (block_read_run s _ b); [done|lia..]|]. change (drop (Z.to_nat 0) b) with b.
  set (l := take (Z.to_nat n) b).
  assert (Hl : l = take (Z.to_nat n) (contents o b)).
  { unfold contents. rewrite take_take. unfold l. f_equal. lia. }
  assert (Hll : Z.of_nat (length l) = n) by (unfold l; rewrite length_take; lia).
  destruct (user_store_ok (k_mem s) ext buf l Hvm Hacc Hbuf) as (r & Hr & Hub).
  { rewrite Hl. by apply Forall_take. }
  { by rewrite Hll. }
  eapply wp_step; [by apply in_mem_run|]. rewrite Hll in Hub.
  set (s1 := set_k_mem _ s). eapply wp_step; [by apply (upd_object_run s1 id o)|].
  set (o' := set_pipe_len (pipe_len o - n) o). set (s2 := set_objects _ s1).
  assert (Ho2 : zlookup (objects s2) id = Some o').
  { simpl. rewrite zlookup_insert by eauto. by rewrite decide_True. }
  run_step. rewrite Hl in Hub.
  change (pipe_len o') with (pipe_len o - n). change (pipe_buf o') with (pipe_buf o).
  assert (Htaken : taken s (set_blocks (<[pipe_buf o := moved_front o b n]> (blocks s)) s2) id buf n o b).
  { exists r. split_and!; [done..|by split|]. intros Hle.
    destruct (moved_front_contents o b n) as [Hl' Hc']; [lia..|]. split; [|done].
    split; simpl; [by split|by rewrite lookup_insert_eq|lia|lia|done..]. }
  unfold moved_front in Htaken.
  apply wp_bind. destruct (Z.ltb_spec 0 (pipe_len o - n)) as [Hrest|Hrest].
  - eapply wp_step; [apply (block_read_run s2 _ b); [done|lia..]|].
    eapply wp_step; [unfold get_block; simpl; rewrite Hb; reflexivity|].
    eapply wp_ok; [reflexivity|]. by eapply wp_ok.
  - eapply wp_ok; [reflexivity|]. eapply wp_ok; [reflexivity|]. split; [done|].
    replace s2 with (set_blocks (<[pipe_buf o:=b]> (blocks s)) s2) by (rewrite insert_id by done; by destruct s).
    done.
Qed.

Lemma pipe_wait_ok caller id buf len s c o b ext :
  let n := Z.min len (pipe_len o) in
  proc_ok s c -> ipc_ok s c -> ~ queued c (EBlock (current_process s)) ->
  pipe_ok s id o b -> 0 < len ->
  Forall (fun v => 0 <= v < 256) (contents o b) ->
  accounted (k_mem s) (ptbr1 (k_mem s)) ext -> user_buffer s true buf n ->
  wp (pipe_wait caller id buf len)
    (fun rc s' => 0 < pipe_len o /\ rc = n /\ taken s s' id buf n o b)
    (fun kc s' => pipe_len o = 0 /\ exists s1, blocked_on (QIpc id) c s s1 /\
       scheduled_from s1 (spec_push (QIpc id) (EBlock (current_process s)) c)
         (KCSys caller (InPipeRead (current_process s) id buf len)) kc s')
    (fun _ _ => False) s.
Proof.
  intros n Hpk Hi Hnq Hp Hlen Hby Hacc Hub. pose proof Hp as [[Ho Hty] _ _ Hfit _ _ _].
  unfold pipe_wait. run_step.
  destruct (Z.eqb_spec (pipe_len o) 0) as [Hz|Hnz].
  - destruct (proj2 Hi id o Ho) as [l Hl]; [by rewrite Hty|].
    eapply wp_mono; [by eapply BlockOnQueue_ok|done| |done]. done.
  - eapply wp_mono; [apply (pipe_take_ok s id o b buf len ext); try done; lia| |done..].
    intros rc s' [-> Ht]. split; [lia|done].
Qed.

Lemma GetObject_pipe s c id o b : ipc_ok s c -> pipe_ok s id o b -> GetObject id IPC_PIPE s = Ok true s.
Proof.
  intros Hi Hp. destruct (GetObject_ok s c id IPC_PIPE Hi) as (r & Hr & Hb).
  rewrite Hr. f_equal. apply Hb. exists o. apply (pipe_obj _ _ _ _ Hp).
Qed.

(** ** Writing *)

Lemma kq_ok_moved s s' c : pipe_moved s s' -> kq_ok s' c <-> kq_ok s c.
Proof. intros (m & objs & blks & -> & _). split; intros [? ? ? ? ? ?]; by split. Qed.

(** User memory is where it was when only the kernel heap moved. *)
Lemma user_buffer_moved s s' w buf n :
  ptbr1 (k_mem s) <> kernel_region0_pt (k_mem s) -> pipe_moved s s' ->
  user_buffer s w buf n ->
  user_buffer s' w buf n /\ user_bytes (k_mem s') buf n = user_bytes (k_mem s) buf n.
Proof.
  intros Hpt (m & objs & blks & -> & Hm) [Hvm Hu Hmap]. simpl.
  assert (Hw : forall a, VMEM_1_BASE <= a -> walk m a = walk (k_mem s) a).
  { intros a Ha. destruct (decide (a < VMEM_1_LIMIT)).
    - rewrite !walk_region1 by lia. unfold table_entry. rewrite (hm_ptbr1 _ _ Hm).
      by rewrite (hm_tables _ _ Hm).
    - by rewrite !walk_above by lia. }
  split.
  - split; simpl; [by rewrite (hm_vm _ _ Hm)|done|]. intros i Hi.
    destruct (Hmap i Hi) as (e & He & ?). exists e. by rewrite Hw, (hm_count _ _ Hm) by lia.
  - unfold user_bytes. apply list_fmap_ext. intros k i Hi. apply list_elem_of_lookup_2, elem_of_seqZ in Hi.
    unfold user_byte. rewrite Hw by lia. by rewrite (hm_ram _ _ Hm).
Qed.

(** The bytes were appended to the pipe and every reader was woken, in order. *)
Definition appended (s s' : kst) (c : qlists) (id : Z) (o : IpcObject) (b bytes : list Z) : Prop :=
  exists o' b' l P' c', pipe_ok s' id o' b' /\ contents o' b' = contents o b ++ bytes /\
    others_kept s s' id o /\ c !! QIpc id = Some l /\
    spec_wake_all (idle_process s) (QIpc id) (waiters l) (pcbs s, c) = (P', c') /\
    pcbs s' = P' /\ kq_ok s' c' /\ c' !! QIpc id = Some [].

(** The end of [SysPipeWrite], once there is room. *)
Lemma pipe_append_ok s c id o b l bytes n :
  kq_ok s c -> pipe_ok s id o b -> c !! QIpc id = Some l ->
  n = Z.of_nat (length bytes) -> pipe_len o + n <= pipe_cap o ->
  let '(P', c') := spec_wake_all (idle_process s) (QIpc id) (waiters l) (pcbs s, c) in
  returns (block_write (pipe_buf o) (pipe_len o) bytes ;;
           upd_object id (set_pipe_len (pipe_len o + n)) ;;
           WakeAll (QIpc id) ;; mret n : K Z)
    (fun rc s' => rc = n /\ kq_ok s' c' /\ c' !! QIpc id = Some [] /\ exists b' h,
       let o' := set_pipe_len (pipe_len o + n) o in
       s' = with_sched P' h (set_objects (<[Z.to_nat id := o']> (objects s))
              (set_blocks (<[pipe_buf o := b']> (blocks s)) s)) /\
       pipe_ok s' id o' b' /\ contents o' b' = contents o b ++ bytes) s.
Proof.
  intros Hk Hp Hl Hn Hfits. pose proof (contents_length _ _ _ _ Hp) as Hcl.
  destruct (spec_wake_all _ _ _ _) as [P' c'] eqn:Hspec.
  destruct Hp as [[Ho Hty] Hb Hsz Hfit Hpos Hnz Hin].
  eapply wp_step; [apply (block_write_run s _ b); [done|lia..]|].
  set (b' := take _ b ++ _). fold (contents o b) in b'. set (s1 := set_blocks _ s).
  eapply wp_step; [by apply (upd_object_run s1 id o)|].
  set (o' := set_pipe_len (pipe_len o + n) o). set (s2 := set_objects _ s1).
  assert (Hk2 : kq_ok s2 c) by (destruct Hk as [? ? ? ? ? ?]; by split).
  pose proof (WakeAll_ok s2 c (QIpc id) l Hk2 I Hl) as Hw.
  change (idle_process s2) with (idle_process s) in Hw. change (pcbs s2) with (pcbs s) in Hw.
  rewrite Hspec in Hw.
  eapply returns_bind; [exact Hw|]. intros ? s3 [(h & -> & Hk3) He].
  eapply returns_ok; [reflexivity|]. split_and!; [done|done|done|]. exists b', h.
  assert (Hb' : length b' = length b) by (unfold b'; rewrite !length_app, length_drop; lia).
  split_and!; [done|..].
  - split; simpl; [|by rewrite lookup_insert_eq|lia|lia|done..]. split; [|done]. simpl.
    rewrite zlookup_insert by eauto. by rewrite decide_True.
  - unfold contents at 1, b'. simpl. rewrite app_assoc, take_app_le by (rewrite length_app; lia).
    apply take_ge. rewrite length_app. lia.
Qed.

(** Writing after the buffer was grown: from [s], through [s1], to [s2]. *)
Lemma others_kept_write s s1 id o o1 o2 b2 P h :
  others_kept s s1 id o -> is_Some (zlookup (objects s1) id) ->
  pipe_buf o1 = pipe_buf o \/ pipe_buf o1 ∉ inuse (k_mem s) ->
  others_kept s (with_sched P h (set_objects (<[Z.to_nat id := o2]> (objects s1))
    (set_blocks (<[pipe_buf o1 := b2]> (blocks s1)) s1))) id o.
Proof.
  intros (Hlen & Hobj & Hblk) Hid Hbuf. split_and!.
  - simpl. by rewrite length_insert.
  - intros j Hj. simpl. rewrite zlookup_insert by done. rewrite decide_False by done. by apply Hobj.
  - intros q Hq Hqo. simpl. rewrite lookup_insert_ne; [by apply Hblk|]. intros <-. by destruct Hbuf.
Qed.

(** ** Deciding the hypotheses on a concrete state *)

Definition accessible_b (m : mem) (w : bool) (a : Z) : bool :=
  match walk m a with
  | Some e => valid e && permits w (prot e) && (0 <=? pfn e) && (pfn e <? physical_frame_count m)
  | None => false
  end.

Lemma user_buffer_sound s w buf n :
  vm_enabled (k_mem s) = true -> VMEM_1_BASE <= buf ->
  forallb (fun i => accessible_b (k_mem s) w (buf + i)) (seqZ 0 n) = true -> user_buffer s w buf n.
Proof.
  intros Hvm Hu Hall. rewrite forallb_forall in Hall. split; [done..|]. intros i Hi.
  specialize (Hall i). rewrite <- list_elem_of_In, elem_of_seqZ in Hall. specialize (Hall ltac:(lia)).
  unfold accessible_b in Hall. destruct (walk _ _) as [e|] eqn:He; [|done]. bool_to_prop.
  exists e. split_and!; try done; lia.
Qed.

(** The frames in use that are not mapped by table [pt]. *)
Definition frames_outside (m : mem) (pt : Z) : list Z :=
  List.filter (fun f => used_b m f && negb (bool_decide (f ∈ table_frames m pt)))
    (seqZ 0 (physical_frame_count m)).

(** ** Properties *)

(** C9: a pipe is first-in first-out, at the call and after having waited.  A read of a
    pipe with bytes returns as many of its oldest bytes as fit the reader's buffer, writes
    exactly those into user memory, takes their number off the length and touches no other
    object; when no more bytes are left than were taken, so that the [memcpy] that moves
    them to the front has disjoint ranges, the rest stays in the pipe in order (what is
    left otherwise is whatever that [memcpy] makes of overlapping ranges).  A read of an
    empty pipe puts the caller behind the other readers and changes nothing else before
    it runs the scheduler. *)
Theorem pipe_read_fifo caller id buf len s c o b ext :
  let n := Z.min len (pipe_len o) in
  proc_ok s c -> ipc_ok s c -> ~ queued c (EBlock (current_process s)) ->
  current_process s <> idle_process s ->
  pipe_ok s id o b -> 0 < len ->
  Forall (fun v => 0 <= v < 256) (contents o b) ->
  accounted (k_mem s) (ptbr1 (k_mem s)) ext -> user_buffer s true buf n ->
  Forall (fun read : K Z =>
    wp read
      (fun rc s' => 0 < pipe_len o /\ rc = n /\ taken s s' id buf n o b)
      (fun kc s' => pipe_len o = 0 /\ exists s1, blocked_on (QIpc id) c s s1 /\
         scheduled_from s1 (spec_push (QIpc id) (EBlock (current_process s)) c)
           (KCSys caller (InPipeRead (current_process s) id buf len)) kc s')
      (fun _ _ => False) s)
    [SysPipeRead caller id buf len; SysPipeRead_woken caller id buf len].
Proof.
  intros n Hpk Hi Hnq Hidle Hp Hlen Hby Hacc Hub.
  pose proof (pipe_wait_ok caller id buf len s c o b ext Hpk Hi Hnq Hp Hlen Hby Hacc Hub) as Hw.
  pose proof (GetObject_pipe s c id o b Hi Hp) as Hg.
  assert (Hbuf : buf <> 0).
  { pose proof (ub_user _ _ _ _ Hub). pose proof region0_size. pose proof max_pt_len_pos.
    pose proof pagesize_pos. nia. }
  assert (Hcur : current_process s <> 0).
  { intros H0. destruct (pk_current _ _ Hpk) as [? Hc]. by rewrite H0, (kq_nonnull _ _ (pk_kq _ _ Hpk)) in Hc. }
  repeat constructor; unfold SysPipeRead, SysPipeRead_woken.
  - test_false ((len <? 0) || ((buf =? 0) && (0 <? len))). test_false (len =? 0).
    eapply wp_step; [reflexivity|]. eapply wp_step; [reflexivity|].
    test_false ((current_process s =? 0) || (current_process s =? idle_process s)).
    by eapply wp_step; [exact Hg|].
  - by eapply wp_step; [exact Hg|].
Qed.

(** C10: a write appends all its bytes behind those in the pipe, growing the buffer without
    losing a byte when they do not fit, keeps every other object and block, and wakes
    every waiting reader in order.  It returns ERROR only when the bytes do not fit and
    the allocator, asked for the capacity that doubling finds (at least what is needed and
    less than twice that), returned the null pointer; then the pipe is untouched and the
    state differs only by what the allocator did.  The size must stay within 2^30 bytes. *)
Theorem pipe_write_appends id buf len s c o b ext :
  kq_ok s c -> ipc_ok s c -> heap_ok (k_mem s) ext ->
  ptbr1 (k_mem s) <> kernel_region0_pt (k_mem s) ->
  pipe_ok s id o b -> 0 < len -> pipe_len o + len <= 2 ^ 30 -> user_buffer s false buf len ->
  returns (SysPipeWrite id buf len) (fun rc s' =>
    (rc = ERROR /\ pipe_cap o < pipe_len o + len /\ pipe_moved s s' /\
       malloc_refused s s' (pipe_cap o) (pipe_len o + len)) \/
    (rc = len /\ appended s s' c id o b (user_bytes (k_mem s) buf len))) s.
Proof.
  intros Hk Hi Hh Hpt Hp Hlen Hmax Hub.
  assert (Hbuf : buf <> 0).
  { pose proof (ub_user _ _ _ _ Hub). pose proof region0_size. pose proof max_pt_len_pos.
    pose proof pagesize_pos. nia. }
  pose proof Hp as [[Ho Hty] _ _ Hfit _ _ _].
  unfold SysPipeWrite. test_false ((len <? 0) || ((buf =? 0) && (0 <? len))). test_false (len =? 0).
  eapply wp_step; [by eapply GetObject_pipe|]. run_step.
  eapply wp_step; [apply int_op_run; unfold INT_MIN, INT_MAX; lia|].
  eapply returns_bind; [by apply (PipeEnsureCapacity_ok s id o b ext)|]. pose proof error_not_success.
  intros rc s1 (Hm & Hh1 & [(-> & Hcap & Hno)|(-> & o1 & b1 & Hp1 & Hroom & Hbo & Hl1 & Hc1 & Hoth)]).
  { test_true (ERROR =? ERROR). eapply returns_ok; [reflexivity|]. left. done. }
  test_false (SUCCESS =? ERROR). pose proof Hp1 as [[Ho1 _] _ _ _ _ _ _].
  run_step.
  destruct (user_buffer_moved s s1 false buf len Hpt Hm Hub) as [[Hvm Hu Hmap] Hbytes].
  eapply wp_step; [apply in_mem_run, user_load_ok; [done|done|lia|done]|]. rewrite Hbytes.
  replace (set_k_mem (k_mem s1) s1) with s1 by (by destruct s1).
  assert (Hk1 : kq_ok s1 c) by by apply (kq_ok_moved s).
  destruct (proj2 Hi id o Ho) as [l Hl]; [by rewrite Hty|].
  pose proof (pipe_append_ok s1 c id o1 b1 l (user_bytes (k_mem s) buf len) len Hk1 Hp1 Hl) as Hw.
  assert (Hsame : idle_process s1 = idle_process s /\ pcbs s1 = pcbs s) by (by destruct Hm as (? & ? & ? & -> & _)).
  rewrite (proj1 Hsame), (proj2 Hsame) in Hw.
  destruct (spec_wake_all _ _ _ _) as [P2 c2] eqn:Hspec.
  eapply returns_mono; [apply Hw; [rewrite user_bytes_length; lia|lia]|].
  intros rc s2 (-> & Hk2 & He2 & b2 & h & -> & Hp2 & Hc2).
  right. split; [done|]. eexists _, b2, l, P2, c2. split_and!; [exact Hp2|by rewrite Hc2, Hc1| |done..].
  apply others_kept_write; [done|by eauto|done].
Qed.

(** C33: a request no buffer can reach.  The doubling in [PipeEnsureCapacity] is only guarded
    by [new_cap < needed].  When the capacity is a power of two (as it is when
    [PIPE_BUFFER_LEN] is one) and the bytes in the pipe and the written ones are together
    more than 2^30, though still an [int], the doubled capacity overflows, which is
    undefined in C: that is where [SysPipeWrite] ends, in the state of the call - nothing
    allocated, no byte looked at - whether or not the user's buffer is mapped. *)
Theorem pipe_write_overflow id buf len s c o b k :
  ipc_ok s c -> pipe_ok s id o b -> pipe_cap o = 2 ^ k -> 0 <= k <= 30 ->
  buf <> 0 -> 0 < len -> 2 ^ 30 < pipe_len o + len <= INT_MAX ->
  double_cap 32 (pipe_cap o) (pipe_len o + len) s = Stop (Fault "signed overflow") s /\
  PipeEnsureCapacity id (pipe_len o + len) s = Stop (Fault "signed overflow") s /\
  SysPipeWrite id buf len s = Stop (Fault "signed overflow") s.
Proof.
  intros Hi Hp Hcap Hk Hbuf Hlen Hbig. pose proof Hp as [[Ho Hty] _ _ Hfit _ _ _].
  assert (2 ^ k <= 2 ^ 30) by (apply Z.pow_le_mono_r; lia).
  assert (Hd : double_cap 32 (pipe_cap o) (pipe_len o + len) s = Stop (Fault "signed overflow") s).
  { rewrite Hcap. apply double_cap_overflow; lia. }
  assert (He : PipeEnsureCapacity id (pipe_len o + len) s = Stop (Fault "signed overflow") s).
  { unfold PipeEnsureCapacity. rewrite (bind_ok _ _ _ _ _ (get_object_run _ _ _ Ho)).
    test_false (pipe_len o + len <=? pipe_cap o). unfold mbind, M_bind. by rewrite Hd. }
  split_and!; [done..|]. unfold SysPipeWrite.
  test_false ((len <? 0) || ((buf =? 0) && (0 <? len))). test_false (len =? 0).
  rewrite (bind_ok _ _ _ _ _ (GetObject_pipe s c id o b Hi Hp)). cbn [negb].
  rewrite (bind_ok _ _ _ _ _ (get_object_run _ _ _ Ho)).
  rewrite (bind_ok _ _ _ _ _ (int_op_run (pipe_len o + len) s ltac:(unfold INT_MIN; lia))).
  unfold mbind, M_bind. by rewrite He.
Qed.
End Pipes.

(** ** Witnesses

    Init makes a pipe of four bytes and forks; the child reads and waits ([empty]); init
    writes three bytes, so that the child is ready again and the pipe not empty ([full]). *)

Module PipesWitness.
Import Booted.
#[local] Existing Instance tiny.
#[local] Existing Instance tiny_laws.
#[local] Existing Instance walking_mmu.
#[local] Existing Instance walking_mmu_laws.

Definition script : list action :=
  [ASyscall YALNIX_PIPE_INIT [1152]; ASyscall YALNIX_FORK []; ATrap TRAP_CLOCK 0 0;
   ASyscall YALNIX_PIPE_READ [0; 1156; 2]].
Definition empty : kst := Eval vm_compute in state_of (run_script 10 script (Some (inl booted))).
Definition full : kst := Eval vm_compute in
  state_of (run_script 10 [ASyscall YALNIX_PIPE_WRITE [0; 1088; 3]] (Some (inl empty))).
Definition lists1 : qlists := lists_of (k_queues empty).
Definition lists2 : qlists := lists_of (k_queues full).
Definition pipe_of (s : kst) : IpcObject := default ipc_zero (objects s !! 0%nat).
Definition buffer_of (s : kst) : list Z := default [] (blocks s !! pipe_buf (pipe_of s)).
Definition user_frames : list Z := frames_outside (k_mem full) (ptbr1 (k_mem full)).
Definition heap_frames : list Z := frames_outside (k_mem empty) (kernel_region0_pt (k_mem empty)).

Lemma empty_kq : kq_ok empty lists1.
Proof. apply kq_check_sound. by_computing. Qed.
Lemma empty_ipc : ipc_ok empty lists1.
Proof. apply ipc_check_sound. by_computing. Qed.
Lemma full_proc : proc_ok full lists2.
Proof. apply proc_check_sound; by_computing. Qed.
Lemma full_ipc : ipc_ok full lists2.
Proof. apply ipc_check_sound. by_computing. Qed.

Lemma empty_pipe : pipe_ok empty 0 (pipe_of empty) (buffer_of empty).
Proof. by split; vm_compute. Qed.
Lemma full_pipe : pipe_ok full 0 (pipe_of full) (buffer_of full).
Proof. by split; vm_compute. Qed.
Lemma empty_heap : heap_ok (k_mem empty) heap_frames.
Proof.
  split; [by vm_compute|by vm_compute| |].
  - apply accounted_b_sound. by vm_compute.
  - apply unmapped_b_sound. by vm_compute.
Qed.

Lemma pipe_read_fifo_witness :
  Forall (fun read : K Z =>
    wp read
      (fun rc s' => 0 < pipe_len (pipe_of full) /\ rc = Z.min 2 (pipe_len (pipe_of full)) /\
         taken full s' 0 1156 (Z.min 2 (pipe_len (pipe_of full))) (pipe_of full) (buffer_of full))
      (fun kc s' => pipe_len (pipe_of full) = 0 /\ exists s1, blocked_on (QIpc 0) lists2 full s1 /\
         scheduled_from s1 (spec_push (QIpc 0) (EBlock (current_process full)) lists2)
           (KCSys init (InPipeRead (current_process full) 0 1156 2)) kc s')
      (fun _ _ => False) full)
    [SysPipeRead init 0 1156 2; SysPipeRead_woken init 0 1156 2] /\
  contents (pipe_of full) (buffer_of full) = [7; 7; 7] /\
  result (SysPipeRead init 0 1156 2 full) = Some 2.
Proof.
  split; [|split; vm_compute; reflexivity].
  apply (pipe_read_fifo init 0 1156 2 full lists2 (pipe_of full) (buffer_of full) user_frames
    full_proc full_ipc); [by_computing|by vm_compute|exact full_pipe|done| | |].
  - by_computing.
  - apply accounted_b_sound. by vm_compute.
  - by apply user_buffer_sound; vm_compute.
Defined.

Lemma pipe_write_appends_witness :
  returns (SysPipeWrite 0 1088 6) (fun rc s' =>
    (rc = ERROR /\ pipe_cap (pipe_of empty) < pipe_len (pipe_of empty) + 6 /\ pipe_moved empty s' /\
       malloc_refused empty s' (pipe_cap (pipe_of empty)) (pipe_len (pipe_of empty) + 6)) \/
    (rc = 6 /\ appended empty s' lists1 0 (pipe_of empty) (buffer_of empty) (user_bytes (k_mem empty) 1088 6)))
    empty /\
  user_bytes (k_mem empty) 1088 6 = replicate 6 7 /\ result (SysPipeWrite 0 1088 6 empty) = Some 6.
Proof.
  split; [|split; vm_compute; reflexivity].
  apply (pipe_write_appends 0 1088 6 empty lists1 (pipe_of empty) (buffer_of empty) heap_frames
    empty_kq empty_ipc empty_heap); [by vm_compute|exact empty_pipe|done|by vm_compute|].
  by apply user_buffer_sound; vm_compute.
Defined.

Lemma pipe_write_overflow_witness :
  double_cap 32 4 (2 ^ 30 + 1) empty = Stop (Fault "signed overflow") empty /\
  PipeEnsureCapacity 0 (2 ^ 30 + 1) empty = Stop (Fault "signed overflow") empty /\
  SysPipeWrite 0 1088 (2 ^ 30 + 1) empty = Stop (Fault "signed overflow") empty.
Proof.
  apply (pipe_write_overflow 0 1088 (2 ^ 30 + 1) empty lists1 (pipe_of empty) (buffer_of empty) 2
    empty_ipc empty_pipe); by vm_compute.
Defined.
End PipesWitness.
