(* ===== verification/Terminals.v ===== *)
(** * Terminals ([tty.c])

    A write hands its bytes to the terminal in pieces, one per transmit trap, in order and
    each once, and then passes the terminal on.  A read takes a line, or what an earlier
    read left of one. *)

From S2P Require Import Prelude Framework Queue Memory Mmu UserBytes KernelBrk BootMemory State Process Ipc.
From S2P Require Import Exit Tty Loader Syscalls Trap KernelStart Machine Scheduler Waiting Locks Pipes.

Section Terminals.
Context {F : Framework} {T : Mmu} {FL : FrameworkLaws F} {TL : MmuLaws T}.

(** ** Terminals *)

Lemma get_tty_run s t ts : zlookup (terminals s) t = Some ts -> get_tty t s = Ok ts s.
Proof. intros H. unfold get_tty. by rewrite H. Qed.

#[local] Hint Resolve get_tty_run : yalnix.

Lemma upd_tty_run s t ts f :
  zlookup (terminals s) t = Some ts ->
  upd_tty t f s = Ok tt (set_terminals (<[Z.to_nat t := f ts]> (terminals s)) s).
Proof. intros H. unfold upd_tty. by rewrite (bind_ok _ _ _ _ _ (get_tty_run _ _ _ H)). Qed.

Lemma get_line_run s l ln : tty_lines s !! l = Some ln -> get_line l s = Ok ln s.
Proof. intros H. unfold get_line. by rewrite H. Qed.

#[local] Hint Resolve get_line_run : yalnix.

Lemma upd_line_run s l ln f :
  tty_lines s !! l = Some ln -> upd_line l f s = Ok tt (set_tty_lines (<[l := f ln]> (tty_lines s)) s).
Proof. intros H. unfold upd_line. by rewrite (bind_ok _ _ _ _ _ (get_line_run _ _ _ H)). Qed.

Lemma kq_ok_terminals s c v : kq_ok s c -> kq_ok (set_terminals v s) c.
Proof. intros [? ? ? ? ? ?]. by split. Qed.

(** Everything sent to terminal [t], oldest first. *)
Definition output (t : Z) (s : kst) : list Z :=
  concat ((fun e => match e with EvTtyTransmit t' bytes => if t' =? t then bytes else [] | _ => [] end)
            <$> log (k_mem s)).

(** Process [w], with PCB [p], is writing the buffer [b] to terminal [t]. *)
Record writing (s : kst) (t : Z) (ts : TtyState) (w : Z) (p : PCB) (b : list Z) : Prop := {
  wr_tty : zlookup (terminals s) t = Some ts;
  wr_writer : tty_writer ts = w;
  wr_nonnull : w <> 0;
  wr_pcb : pcbs s !! w = Some p;
  wr_buffer : blocks s !! tty_write_buf p = Some b;
  wr_length : Z.of_nat (length b) = tty_write_len p;
  wr_offset : 0 <= tty_write_offset p <= tty_write_len p
}.

(** The next piece, and the state after it was handed to the terminal. *)
Definition piece (p : PCB) : Z := Z.min TERMINAL_MAX_LINE (tty_write_len p - tty_write_offset p).
Definition sent (s : kst) (t : Z) (ts : TtyState) (w : Z) (p : PCB) (b : list Z) : kst :=
  set_pcbs (<[w := set_tty_write_offset (tty_write_offset p + piece p) p]> (pcbs s))
    (set_k_mem (add_log (EvTtyTransmit t (take (Z.to_nat (piece p)) (drop (Z.to_nat (tty_write_offset p)) b))) (k_mem s))
      (set_terminals (<[Z.to_nat t := set_tty_busy true ts]> (terminals s)) s)).

Lemma piece_pos p : tty_write_offset p < tty_write_len p -> 0 < piece p <= tty_write_len p - tty_write_offset p.
Proof. unfold piece. pose proof terminal_max_line_pos. lia. Qed.

(** [TtyStartWrite] on an idle terminal whose writer has bytes left. *)
Lemma TtyStartWrite_n_sends fuel s t ts w p b :
  writing s t ts w p b -> tty_busy ts = false -> tty_write_offset p < tty_write_len p ->
  TtyStartWrite_n (S fuel) t s = Ok tt (sent s t ts w p b).
Proof.
  intros [Ht Hw Hw0 Hp Hb Hl Ho] Hbusy Hoff. pose proof (piece_pos p Hoff) as Hpc. cbn [TtyStartWrite_n].
  rewrite (bind_ok _ _ _ _ _ (get_tty_run _ _ _ Ht)), Hbusy, Hw. test_false (w =? 0).
  rewrite bind_ret. cbn [negb]. rewrite (bind_ok _ _ _ _ _ (get_tty_run _ _ _ Ht)), Hw.
  rewrite (bind_ok _ _ _ _ _ (get_pcb_run _ _ _ Hp)). test_false (tty_write_len p <=? tty_write_offset p).
  replace (if TERMINAL_MAX_LINE <? _ then _ else _) with (piece p) by (unfold piece; case_test; lia).
  rewrite (bind_ok _ _ _ _ _ (upd_tty_run _ _ _ _ Ht)). set (s1 := set_terminals _ s).
  rewrite (bind_ok _ _ _ _ _ (block_read_run s1 (tty_write_buf p) b (tty_write_offset p) (piece p) Hb ltac:(lia) ltac:(lia) ltac:(lia))).
  set (e := EvTtyTransmit t _).
  assert (He : external e s1 = Ok tt (set_k_mem (add_log e (k_mem s1)) s1)) by done.
  rewrite (bind_ok _ _ _ _ _ He). by rewrite (upd_pcb_run _ w p).
Qed.

Lemma TtyStartWrite_sends s t ts w p b :
  writing s t ts w p b -> tty_busy ts = false -> tty_write_offset p < tty_write_len p ->
  is_Some (lengths (k_queues s) !! QTtyWrite t) ->
  TtyStartWrite t s = Ok tt (sent s t ts w p b).
Proof.
  intros Hwr Hbusy Hoff [len Hlen]. unfold TtyStartWrite.
  assert (Hq : (in_queues (load_length (QTtyWrite t)) : K Z) s = Ok len s).
  { rewrite (in_queues_run _ s len (k_queues s)); [by destruct s|]. unfold load_length. by rewrite Hlen. }
  rewrite (bind_ok _ _ _ _ _ Hq), Nat.add_comm. by apply TtyStartWrite_n_sends.
Qed.

(** The transmit trap in the middle of a write. *)
Lemma TrapTtyTransmit_sends s t ts w p b :
  writing s t ts w p b -> tty_write_offset p < tty_write_len p ->
  is_Some (lengths (k_queues s) !! QTtyWrite t) -> uc_code (uctxt s) = t -> TtyValid t = true ->
  TrapTtyTransmit s = Ok tt (sent s t ts w p b).
Proof.
  intros Hwr Hoff Hlen Hcode Hvalid. pose proof Hwr as [Ht Hw Hw0 Hp Hb Hl Ho].
  unfold TrapTtyTransmit. rewrite bind_gets, Hcode, Hvalid. cbn [negb].
  rewrite (bind_ok _ _ _ _ _ (upd_tty_run _ _ _ _ Ht)). set (s1 := set_terminals _ s).
  assert (Ht1 : zlookup (terminals s1) t = Some (set_tty_busy false ts)).
  { simpl. rewrite zlookup_insert by eauto. by rewrite decide_True. }
  assert (Hwr1 : writing s1 t (set_tty_busy false ts) w p b) by by split.
  rewrite (bind_ok _ _ _ _ _ (get_tty_run _ _ _ Ht1)). change (tty_writer (set_tty_busy false ts)) with (tty_writer ts).
  rewrite Hw. test_false (w =? 0). rewrite (bind_ok _ _ _ _ _ (get_pcb_run s1 _ _ Hp)).
  test_false (tty_write_len p <=? tty_write_offset p). unfold skip. rewrite bind_ret.
  rewrite (TtyStartWrite_sends s1 t _ w p b Hwr1 eq_refl Hoff Hlen). unfold sent, s1. simpl.
  by rewrite list_insert_insert_eq.
Qed.

Lemma sent_writing s t ts w p b :
  writing s t ts w p b -> tty_write_offset p < tty_write_len p ->
  writing (sent s t ts w p b) t (set_tty_busy true ts) w (set_tty_write_offset (tty_write_offset p + piece p) p) b.
Proof.
  intros [Ht Hw Hw0 Hp Hb Hl Ho] Hoff. pose proof (piece_pos p Hoff). split; simpl; try done; [..|lia].
  - rewrite zlookup_insert by eauto. by rewrite decide_True.
  - apply lookup_insert_eq.
Qed.

(** ** A whole write *)

(** [n] transmit traps of the terminal named in the trap frame. *)
Fixpoint transmits (n : nat) : K unit :=
  match n with O => mret tt | S n' => TrapTtyTransmit ;; transmits n' end.

Lemma output_sent s t ts w p b :
  output t (sent s t ts w p b) =
    output t s ++ take (Z.to_nat (piece p)) (drop (Z.to_nat (tty_write_offset p)) b).
Proof.
  unfold output, sent. simpl. rewrite fmap_app, concat_app. simpl. test_true (t =? t). by rewrite app_nil_r.
Qed.

(** The terminal has taken everything from the offset of [p] on. *)
Definition all_sent (s s' : kst) (t w : Z) (p : PCB) (b : list Z) : Prop :=
  (exists ts' p', writing s' t ts' w p' b /\ tty_write_offset p' = tty_write_len p' /\
     tty_write_len p' = tty_write_len p) /\
  output t s' = output t s ++ drop (Z.to_nat (tty_write_offset p)) b.

Lemma transmits_all n s t ts w p b :
  writing s t ts w p b -> is_Some (lengths (k_queues s) !! QTtyWrite t) ->
  uc_code (uctxt s) = t -> TtyValid t = true ->
  (Z.of_nat n - 1) * TERMINAL_MAX_LINE < tty_write_len p - tty_write_offset p <= Z.of_nat n * TERMINAL_MAX_LINE ->
  exists s', transmits n s = Ok tt s' /\ all_sent s s' t w p b.
Proof.
  pose proof terminal_max_line_pos as Hmax. revert s ts p. induction n as [|n IH]; intros s ts p Hwr Hq Hcode Hv Hn.
  - pose proof (wr_offset _ _ _ _ _ _ Hwr). pose proof (wr_length _ _ _ _ _ _ Hwr). exists s. split; [done|]. split.
    + exists ts, p. split_and!; [done|lia|done].
    + rewrite drop_ge by lia. by rewrite app_nil_r.
  - rewrite Nat2Z.inj_succ in Hn.
    assert (Hoff : tty_write_offset p < tty_write_len p) by nia.
    pose proof (piece_pos p Hoff) as Hpc.
    cbn [transmits]. rewrite (bind_ok _ _ _ _ _ (TrapTtyTransmit_sends s t ts w p b Hwr Hoff Hq Hcode Hv)).
    pose proof (sent_writing s t ts w p b Hwr Hoff) as Hwr'.
    pose proof (wr_offset _ _ _ _ _ _ Hwr). pose proof (wr_length _ _ _ _ _ _ Hwr).
    destruct (IH _ _ _ Hwr' Hq Hcode Hv) as (s' & Hr & (ts' & p' & Hw' & Ho' & Hl') & Hout).
    { simpl. unfold piece in *. destruct (Z.le_gt_cases TERMINAL_MAX_LINE (tty_write_len p - tty_write_offset p)); nia. }
    exists s'. split; [done|]. split; [by exists ts', p'|].
    rewrite Hout, output_sent, <- app_assoc. f_equal. simpl.
    rewrite <- (take_drop (Z.to_nat (piece p)) (drop (Z.to_nat (tty_write_offset p)) b)) at 2.
    f_equal. rewrite drop_drop. f_equal. lia.
Qed.

(** ** The end of a write *)

(** The PCB of a writer whose bytes are all sent: it will return their number. *)
Definition written (p : PCB) : PCB :=
  set_user_context (set_reg 0 (to_uint (tty_write_len p)) (user_context p)) p.

(** The writers behind the current one, as [SysTtyWrite] left them. *)
Definition waiting_writer (s : kst) (e : eid) (w2 : Z) (p2 : PCB) (b2 : list Z) : Prop :=
  e = EBlock w2 /\ pcbs s !! w2 = Some p2 /\ blocks s !! tty_write_buf p2 = Some b2 /\
  Z.of_nat (length b2) = tty_write_len p2 /\ tty_write_offset p2 = 0 /\ 0 < tty_write_len p2.

(** [TtyStartWrite] on an idle terminal without a writer takes the next from the queue. *)
Lemma TtyStartWrite_next s c t ts l :
  kq_ok s c -> zlookup (terminals s) t = Some ts -> tty_writer ts = 0 -> tty_busy ts = false ->
  c !! QTtyWrite t = Some l ->
  (forall e l', l = e :: l' -> exists w2 p2 b2, waiting_writer s e w2 p2 b2) ->
  returns (TtyStartWrite t) (fun _ s' =>
    match l with
    | [] => sim s s' c (pcbs s)
    | e :: l' => exists w2 p2 b2 s2, waiting_writer s e w2 p2 b2 /\
        sim s s2 (<[QTtyWrite t := l']> c) (<[w2 := set_block_queue None p2]> (pcbs s)) /\
        s' = sent s2 t (set_tty_writer w2 ts) w2 (set_block_queue None p2) b2
    end) s.
Proof.
  intros Hk Ht Hw Hbusy Hl Hnext. unfold TtyStartWrite.
  assert (Hlen : lengths (k_queues s) !! QTtyWrite t = Some (Z.of_nat (length l))).
  { by apply (qabs_length _ _ (kq_abs _ _ Hk)). }
  eapply wp_step; [apply in_queues_run; unfold load_length; by rewrite Hlen|].
  replace (set_k_queues (k_queues s) s) with s by (by destruct s).
  rewrite Nat.add_comm. cbn [Nat.add TtyStartWrite_n].
  run_step. rewrite Hbusy, Hw. test_true (0 =? 0).
  destruct l as [|e l'].
  - destruct (QueuePopFront_ok _ _ (QTtyWrite t) (kq_abs _ _ Hk)) as (h' & Hr & Ha & Ho); [eauto|].
    unfold spec_pop in *. rewrite Hl in *. simpl in *.
    apply wp_bind. eapply wp_step; [by apply in_queues_run|]. eapply wp_ok; [reflexivity|].
    eapply returns_ok; [reflexivity|]. exists h'. split; [by destruct s|].
    eapply kq_ok_queues; [done|done|done| |apply (kq_ready _ _ Hk)]. eauto.
  - destruct (Hnext e l' eq_refl) as (w2 & p2 & b2 & Hww). pose proof Hww as (-> & Hp2 & Hb2 & Hl2 & Ho2 & Hpos).
    destruct (kq_pop s c _ (EBlock w2) l' w2 Hk Hl eq_refl) as (h' & Hr & Hown & Hk' & _ & _).
    set (s1 := set_k_queues h' s) in *. assert (Ht1 : zlookup (terminals s1) t = Some ts) by done.
    assert (Hw2 : w2 <> 0) by (intros ->; by rewrite (kq_nonnull _ _ Hk) in Hp2).
    apply wp_bind. eapply wp_step; [exact Hr|]. cbv beta iota. eapply wp_step; [exact Hown|].
    eapply wp_step; [by apply upd_tty_run|]. set (s2 := set_terminals _ s1).
    eapply wp_step; [by apply (upd_pcb_run s2 w2 p2)|]. set (p2' := set_block_queue None p2).
    set (s3 := set_pcbs _ s2). eapply wp_ok; [reflexivity|]. cbn [negb].
    assert (Hwr : writing s3 t (set_tty_writer w2 ts) w2 p2' b2).
    { split; simpl; try done; [|by rewrite lookup_insert_eq|lia].
      rewrite zlookup_insert by eauto. by rewrite decide_True. }
    pose proof (TtyStartWrite_n_sends (S (Z.to_nat (Z.of_nat (length (EBlock w2 :: l'))))) s3 t
      (set_tty_writer w2 ts) w2 p2' b2 Hwr Hbusy ltac:(simpl; lia)) as Hsend.
    cbn [TtyStartWrite_n] in Hsend. pose proof (wr_tty _ _ _ _ _ _ Hwr) as Ht3.
    rewrite (bind_ok _ _ _ _ _ (get_tty_run _ _ _ Ht3)) in Hsend.
    change (tty_busy (set_tty_writer w2 ts)) with (tty_busy ts) in Hsend. rewrite Hbusy in Hsend.
    change (tty_writer (set_tty_writer w2 ts)) with w2 in Hsend.
    replace (w2 =? 0) with false in Hsend by (symmetry; lia). rewrite bind_ret in Hsend. cbn [negb] in Hsend.
    eapply returns_ok; [exact Hsend|]. exists w2, p2, b2, (with_sched (<[w2:=p2']> (pcbs s)) h' s).
    split_and!; [done| |].
    + exists h'. split; [done|].
      change (with_sched (<[w2:=p2']> (pcbs s)) h' s) with (set_k_queues h' (set_pcbs (<[w2:=p2']> (pcbs s)) s)).
      by apply (kq_ok_pcb s1 _ w2 p2).
    + unfold sent, s3, s2, s1, with_sched. simpl. by rewrite list_insert_insert_eq.
Qed.

(** ** Reading a line *)

(** Line [l] of the kernel heap, with bytes left from its position on. *)
Record line_ok (s : kst) (l : Z) (ln : TtyLine) : Prop := {
  ln_at : tty_lines s !! l = Some ln;
  ln_nonnull : l <> 0;
  ln_inuse : l ∈ inuse (k_mem s);
  ln_bounds : 0 <= line_pos ln <= line_len ln /\ line_len ln <= Z.of_nat (length (line_data ln));
  ln_bytes : Forall (fun b => 0 <= b < 256) (line_data ln)
}.

(** The bytes of a line that were not read yet. *)
Definition unread (ln : TtyLine) : list Z :=
  take (Z.to_nat (line_len ln - line_pos ln)) (drop (Z.to_nat (line_pos ln)) (line_data ln)).

(** [n] bytes of line [l] went to the reader's buffer: what remains of the line is the
    terminal's, or the line is freed. *)
Definition line_read (s s' : kst) (t r l n : Z) (p : PCB) (ln : TtyLine) : Prop :=
  user_bytes (k_mem s') (tty_read_buf p) n = take (Z.to_nat n) (unread ln) /\
  pcbs s' = <[r := set_tty_read_line 0 p]> (pcbs s) /\
  (forall l', l' <> l -> tty_lines s' !! l' = tty_lines s !! l') /\
  if n <? line_len ln - line_pos ln
  then exists ln' ts', tty_lines s' !! l = Some ln' /\ unread ln' = drop (Z.to_nat n) (unread ln) /\
         zlookup (terminals s') t = Some ts' /\ tty_line ts' = l /\ inuse (k_mem s') = inuse (k_mem s)
  else tty_lines s' !! l = None /\ terminals s' = terminals s /\ inuse (k_mem s') = inuse (k_mem s) ∖ {[l]}.

(** [TtyCopyLine] once it has the line. *)
Lemma copy_tail s t r p l ln ts ext :
  let n := Z.min (tty_read_len p) (line_len ln - line_pos ln) in
  line_ok s l ln -> pcbs s !! r = Some p -> zlookup (terminals s) t = Some ts -> 0 <= tty_read_len p ->
  accounted (k_mem s) (ptbr1 (k_mem s)) ext -> user_buffer s true (tty_read_buf p) n ->
  returns (l0 ← get_line l;
    let count := if tty_read_len p <? line_len l0 - line_pos l0
                 then tty_read_len p else line_len l0 - line_pos l0 in
    (if Z.of_nat (length (line_data l0)) <? line_pos l0 + count
     then fault "read past the line" else skip) ;;
    in_mem (user_store (tty_read_buf p)
              (take (Z.to_nat count) (drop (Z.to_nat (line_pos l0)) (line_data l0)))) ;;
    upd_line l (set_line_pos (line_pos l0 + count)) ;;
    upd_pcb r (set_tty_read_line 0) ;;
    (if line_pos l0 + count <? line_len l0 then upd_tty t (set_tty_line l)
     else free_line l) ;;
    mret count : K Z)
    (fun rc s' => rc = n /\ line_read s s' t r l n p ln) s.
Proof.
  intros n [Hl Hl0 Hin Hb Hby] Hp Ht Hlen Hacc [Hvm Hu Hmap].
  run_step. cbv zeta.
  replace (if tty_read_len p <? line_len ln - line_pos ln then _ else _) with n by (unfold n; case_test; lia).
  assert (Hn : 0 <= n <= line_len ln - line_pos ln) by (unfold n; lia).
  test_false (Z.of_nat (length (line_data ln)) <? line_pos ln + n). eapply wp_step; [reflexivity|].
  set (bytes := take (Z.to_nat n) (drop (Z.to_nat (line_pos ln)) (line_data ln))).
  assert (Hbl : Z.of_nat (length bytes) = n) by (unfold bytes; rewrite length_take, length_drop; lia).
  assert (Hbu : bytes = take (Z.to_nat n) (unread ln)) by (unfold bytes, unread; rewrite take_take; f_equal; lia).
  destruct (user_store_ok (k_mem s) ext (tty_read_buf p) bytes Hvm Hacc Hu) as (ram' & Hr & Hub).
  { by apply Forall_take, Forall_drop. }
  { by rewrite Hbl. }
  rewrite Hbl in Hub.
  eapply wp_step; [by apply in_mem_run|]. set (s1 := set_k_mem _ s).
  eapply wp_step; [by apply (upd_line_run s1 l ln)|]. set (ln' := set_line_pos _ ln).
  set (s2 := set_tty_lines _ s1). eapply wp_step; [by apply (upd_pcb_run s2 r p)|]. set (s3 := set_pcbs _ s2).
  assert (Hun : unread ln' = drop (Z.to_nat n) (unread ln)).
  { unfold unread. simpl. rewrite skipn_firstn_comm, drop_drop. f_equal; [lia|]. f_equal. lia. }
  apply wp_bind. destruct (Z.ltb_spec (line_pos ln + n) (line_len ln)) as [Hlt|Hge].
  - eapply wp_ok; [by apply (upd_tty_run s3 t ts)|]. eapply returns_ok; [reflexivity|]. split; [done|].
    split_and!; [by rewrite <- Hbu|done|intros l' Hl'; simpl; by rewrite lookup_insert_ne|].
    test_true (n <? line_len ln - line_pos ln). exists ln', (set_tty_line l ts). simpl.
    split_and!; [by rewrite lookup_insert_eq|done| |done|done].
    rewrite zlookup_insert by eauto. by rewrite decide_True.
  - eapply wp_ok.
    { unfold free_line, in_mem, zoom, kfree. unfold mbind, M_bind, gets. simpl. test_false (l =? 0).
      rewrite decide_True by done. reflexivity. }
    eapply returns_ok; [reflexivity|]. split; [done|].
    split_and!; [by rewrite <- Hbu|done|intros l' Hl'; simpl; by rewrite lookup_delete_ne, lookup_insert_ne|].
    test_false (n <? line_len ln - line_pos ln). simpl. by rewrite lookup_delete_eq.
Qed.

(** Where a read takes its line from, in the order the code looks: the line the trap handler
    left this reader, else what an earlier read left of one, else the oldest in the input
    queue [q].  That is not the order of typing when the first two both exist. *)
Definition next_line (p : PCB) (ts : TtyState) (q : list eid) : option Z :=
  if negb (tty_read_line p =? 0) then Some (tty_read_line p)
  else if negb (tty_line ts =? 0) then Some (tty_line ts)
  else match q with ELine l :: _ => Some l | _ => None end.

(** The state once the line is taken. *)
Inductive line_from (s : kst) (c : qlists) (t : Z) (p : PCB) (ts : TtyState) : Z -> kst -> Prop :=
| from_trap :
    tty_read_line p <> 0 -> line_from s c t p ts (tty_read_line p) s
| from_rest :
    tty_read_line p = 0 -> tty_line ts <> 0 ->
    line_from s c t p ts (tty_line ts) (set_terminals (<[Z.to_nat t := set_tty_line 0 ts]> (terminals s)) s)
| from_queue l q h :
    tty_read_line p = 0 -> tty_line ts = 0 -> c !! QTtyInput t = Some (ELine l :: q) ->
    kq_ok (set_k_queues h s) (<[QTtyInput t := q]> c) ->
    line_from s c t p ts l (set_k_queues h s).

Lemma pop_line s c t l q :
  kq_ok s c -> c !! QTtyInput t = Some (ELine l :: q) -> owner_of (k_queues s) (QEnt (ELine l)) = Some l ->
  exists h, (in_queues (QueuePopFront (QTtyInput t)) : K _) s = Ok (Some (QEnt (ELine l))) (set_k_queues h s) /\
    entry_owner (QEnt (ELine l)) (set_k_queues h s) = Ok l (set_k_queues h s) /\
    kq_ok (set_k_queues h s) (<[QTtyInput t := q]> c).
Proof.
  intros Hk Hq Hown. destruct (QueuePopFront_ok _ _ (QTtyInput t) (kq_abs _ _ Hk)) as (h & Hr & Ha & Ho); [eauto|].
  unfold spec_pop in *. rewrite Hq in *. simpl in *. exists h. split_and!.
  - by apply in_queues_run.
  - rewrite <- (Ho (ELine l)) in Hown. unfold owner_of in Hown.
    destruct (cells h !! QEnt (ELine l)) as [n|] eqn:Hn; [|done]. simpl in Hown. injection Hown as Hown. unfold entry_owner.
    rewrite (bind_ok _ _ _ _ _ (in_queues_run (load (QEnt (ELine l))) (set_k_queues h s) n h
      ltac:(unfold load; simpl; by rewrite Hn))). rewrite Hown. by destruct s.
  - eapply kq_ok_queues; [done|done|done|..].
    + intros q' l' e'. destruct (decide (QTtyInput t = q')) as [<-|Hne].
      * rewrite lookup_insert_eq. intros [= <-] ?. left. exists (ELine l :: q). set_solver.
      * rewrite lookup_insert_ne by done. left. eauto.
    + rewrite lookup_insert_ne by done. apply (kq_ready _ _ Hk).
Qed.

Lemma choose_line s c t r p ts q l :
  kq_ok s c -> pcbs s !! r = Some p -> zlookup (terminals s) t = Some ts -> c !! QTtyInput t = Some q ->
  (forall l', ELine l' ∈ q -> owner_of (k_queues s) (QEnt (ELine l')) = Some l') ->
  next_line p ts q = Some l ->
  exists s1, (if tty_read_line p =? 0 then TtyNextLine t else mret (tty_read_line p) : K Z) s = Ok l s1 /\
    line_from s c t p ts l s1.
Proof.
  intros Hk Hp Ht Hq Hown. unfold next_line, TtyNextLine.
  destruct (Z.eqb_spec (tty_read_line p) 0) as [H0|H0]; simpl.
  - rewrite (bind_ok _ _ _ _ _ (get_tty_run _ _ _ Ht)).
    destruct (Z.eqb_spec (tty_line ts) 0) as [H1|H1]; simpl.
    + destruct q as [|[| | |l'] q]; try done. intros [= ->].
      destruct (pop_line s c t l q Hk Hq) as (h & Hr & Hw & Hk'); [apply Hown; set_solver|].
      exists (set_k_queues h s). rewrite (bind_ok _ _ _ _ _ Hr). split; [done|]. by eapply from_queue.
    + intros [= <-]. rewrite (bind_ok _ _ _ _ _ (upd_tty_run _ _ _ _ Ht)). eexists. split; [reflexivity|]. by apply from_rest.
  - intros [= <-]. exists s. split; [done|]. by apply from_trap.
Qed.

(** C20: a read returns a line, or what fits of it.  With a line to read - taken from where
    [next_line] says: first the line the trap handler gave this reader, then what the
    terminal kept of a line read in part, then the front of the input queue, which is the
    order of preference of the code, not always the order of typing - [TtyCopyLine] returns the smaller of the two lengths, puts exactly the first
    unread bytes into the reader's buffer, and keeps the rest of the line for the next
    read, or frees the line when nothing is left; no other line is touched. *)
Theorem tty_read_takes_line s c t r p ts q l ln ext :
  let n := Z.min (tty_read_len p) (line_len ln - line_pos ln) in
  kq_ok s c -> pcbs s !! r = Some p -> zlookup (terminals s) t = Some ts -> c !! QTtyInput t = Some q ->
  (forall l', ELine l' ∈ q -> owner_of (k_queues s) (QEnt (ELine l')) = Some l') ->
  next_line p ts q = Some l -> line_ok s l ln -> 0 <= tty_read_len p ->
  accounted (k_mem s) (ptbr1 (k_mem s)) ext -> user_buffer s true (tty_read_buf p) n ->
  returns (TtyCopyLine t r) (fun rc s' => rc = n /\ exists s1, line_from s c t p ts l s1 /\
    line_read s1 s' t r l n p ln) s.
Proof.
  intros n Hk Hp Ht Hq Hown Hnext Hln Hlen Hacc Hub.
  destruct (choose_line s c t r p ts q l Hk Hp Ht Hq Hown Hnext) as (s1 & Hr & Hfrom).
  unfold TtyCopyLine. run_step. eapply wp_step; [exact Hr|].
  pose proof (ln_nonnull _ _ _ Hln). test_false (l =? 0).
  assert (Hs1 : k_mem s1 = k_mem s /\ pcbs s1 = pcbs s /\ tty_lines s1 = tty_lines s /\ exists ts1, zlookup (terminals s1) t = Some ts1).
  { destruct Hfrom; simpl; split_and!; eauto. rewrite zlookup_insert by eauto. rewrite decide_True by done. eauto. }
  destruct Hs1 as (Hm & HP & Hls & ts1 & Ht1).
  eapply returns_mono.
  - apply (copy_tail s1 t r p l ln ts1 ext); try done; [|by rewrite HP|by rewrite Hm|].
    + destruct Hln. by split; rewrite ?Hm, ?Hls.
    + destruct Hub as [? ? ?]. split; rewrite ?Hm; done.
  - intros rc s' [-> Hread]. split; [done|]. by exists s1.
Qed.

(** C32: a leftover can be lost.  When a reader that was handed a line [l] by the trap handler
    reads only part of it while the terminal still keeps the rest [l0] of another line,
    the rest of [l] takes the place of [l0]: the block of [l0] stays allocated, but no
    process, queue or terminal knows it and no later read can return its bytes. *)
Theorem tty_leftover_lost s t r p ts q l l0 ln ext :
  pcbs s !! r = Some p -> zlookup (terminals s) t = Some ts ->
  tty_read_line p = l -> tty_line ts = l0 -> l0 <> 0 -> l0 <> l -> l0 ∈ inuse (k_mem s) ->
  (forall r' p', pcbs s !! r' = Some p' -> tty_read_line p' <> l0) -> ~ ELine l0 ∈ q ->
  line_ok s l ln -> 0 <= tty_read_len p < line_len ln - line_pos ln ->
  accounted (k_mem s) (ptbr1 (k_mem s)) ext -> user_buffer s true (tty_read_buf p) (tty_read_len p) ->
  returns (TtyCopyLine t r) (fun rc s' => rc = tty_read_len p /\
    l0 ∈ inuse (k_mem s') /\ tty_lines s' !! l0 = tty_lines s !! l0 /\
    forall r' p' ts', pcbs s' !! r' = Some p' -> zlookup (terminals s') t = Some ts' ->
      next_line p' ts' q <> Some l0) s.
Proof.
  intros Hp Ht Hpl Htl Hl0 Hne Hin Hpcbs Hq Hln Hlen Hacc Hub. pose proof (ln_nonnull _ _ _ Hln) as Hl.
  assert (Hn : Z.min (tty_read_len p) (line_len ln - line_pos ln) = tty_read_len p) by lia.
  unfold TtyCopyLine. run_step. rewrite Hpl. test_false (l =? 0).
  eapply wp_step; [reflexivity|]. test_false (l =? 0).
  eapply returns_mono.
  - apply (copy_tail s t r p l ln ts ext); try done; [lia|by rewrite Hn].
  - intros rc s' (-> & _ & HP & Hothers & Hrest). rewrite Hn in *. split; [done|].
    replace (tty_read_len p <? line_len ln - line_pos ln) with true in Hrest by (symmetry; lia).
    destruct Hrest as (ln' & ts1 & _ & _ & Ht1 & Hts1 & Hi). rewrite Hi. split_and!; [done|by apply Hothers|].
    intros r' p' ts' Hp' Hts'. rewrite Ht1 in Hts'. injection Hts' as <-. rewrite HP in Hp'.
    assert (Hno : tty_read_line p' <> l0).
    { destruct (decide (r = r')) as [<-|?]; [rewrite lookup_insert_eq in Hp'|rewrite lookup_insert_ne in Hp' by done; by eapply Hpcbs].
      injection Hp' as <-. simpl. congruence. }
    unfold next_line. rewrite Hts1. destruct (tty_read_line p' =? 0); simpl; [|congruence].
    test_false (l =? 0). simpl. congruence.
Qed.

(** The terminal is idle, the PCBs and queues as given. *)
Definition idle_tty (s : kst) (t : Z) (ts : TtyState) (P : gmap Z PCB) (h : qheap qid eid) : kst :=
  with_sched P h (set_terminals (<[Z.to_nat t := set_tty_writer 0 (set_tty_busy false ts)]> (terminals s)) s).

(** C18: a terminal takes a whole write.  From any offset, the transmit traps that
    [TERMINAL_MAX_LINE] makes necessary - no more and no fewer - send every remaining byte
    of the writer's buffer once and in order, nothing else, and leave it at its end. *)
Theorem tty_write_transmits_all n s t ts w p b :
  writing s t ts w p b -> is_Some (lengths (k_queues s) !! QTtyWrite t) ->
  uc_code (uctxt s) = t -> TtyValid t = true ->
  (Z.of_nat n - 1) * TERMINAL_MAX_LINE < tty_write_len p - tty_write_offset p <= Z.of_nat n * TERMINAL_MAX_LINE ->
  exists s', transmits n s = Ok tt s' /\ all_sent s s' t w p b.
Proof. apply transmits_all. Qed.

(** C19: the trap after the last byte ends the write and passes the terminal on.  The
    writer is made ready and will return the number of bytes it gave; the process that
    waited longest for the terminal, and no other, becomes the writer and its first bytes
    are sent; with nobody waiting the terminal is left idle. *)
Theorem tty_write_hands_over s c t ts w p b l :
  kq_ok s c -> writing s t ts w p b -> tty_write_offset p = tty_write_len p ->
  uc_code (uctxt s) = t -> TtyValid t = true -> c !! QTtyWrite t = Some l ->
  (forall e l', l = e :: l' -> exists w2 p2 b2, waiting_writer s e w2 p2 b2 /\ w2 <> w) ->
  returns TrapTtyTransmit (fun _ s' => exists P1 c1 h1,
    spec_make_ready (idle_process s) w (<[w := written p]> (pcbs s), c) = (P1, c1) /\
    kq_ok (idle_tty s t ts P1 h1) c1 /\
    match l with
    | [] => sim (idle_tty s t ts P1 h1) s' c1 P1
    | e :: l' => exists w2 p2 b2 s2, waiting_writer s e w2 p2 b2 /\
        sim (idle_tty s t ts P1 h1) s2 (<[QTtyWrite t := l']> c1) (<[w2 := set_block_queue None p2]> P1) /\
        s' = sent s2 t (set_tty_writer w2 (set_tty_busy false ts)) w2 (set_block_queue None p2) b2
    end) s.
Proof.
  intros Hk [Ht Hw Hw0 Hp Hb Hlen Ho] Hoff Hcode Hvalid Hl Hnext.
  unfold TrapTtyTransmit. eapply wp_step; [reflexivity|]. rewrite Hcode, Hvalid. cbn [negb].
  eapply wp_step; [by apply upd_tty_run|]. set (ts1 := set_tty_busy false ts). set (s1 := set_terminals _ s).
  assert (Ht1 : zlookup (terminals s1) t = Some ts1).
  { simpl. rewrite zlookup_insert by eauto. by rewrite decide_True. }
  run_step. change (tty_writer ts1) with (tty_writer ts). rewrite Hw. test_false (w =? 0).
  eapply wp_step; [by apply (get_pcb_run s1 w p)|]. test_true (tty_write_len p <=? tty_write_offset p).
  apply wp_bind. eapply wp_step; [by apply (upd_pcb_run s1 w p)|]. fold (written p).
  set (P := <[w:=written p]> (pcbs s)). set (s2 := set_pcbs _ s1).
  eapply wp_step; [by apply (upd_tty_run s2 t ts1)|]. set (ts2 := set_tty_writer 0 ts1). set (s3 := set_terminals _ s2).
  assert (Hk3 : kq_ok s3 c) by (apply kq_ok_terminals, (kq_ok_pcb s1 c w p); [by apply kq_ok_terminals|done]).
  pose proof (ProcessMakeReady_ok s3 c w Hk3) as Hm.
  pose proof (fun q => make_ready_bystander (idle_process s) q w P c) as Hby.
  change (pcbs s3) with P in Hm. change (idle_process s3) with (idle_process s) in Hm.
  pose proof (spec_make_ready_queues (idle_process s) w P c) as (Hq & _ & _).
  destruct (spec_make_ready (idle_process s) w (P, c)) as [P1 c1].
  eapply returns_mono; [apply Hm; right; unfold P; rewrite lookup_insert_eq; eauto|].
  intros ? s4 (h1 & -> & Hk4).
  assert (Hid : with_sched P1 h1 s3 = idle_tty s t ts P1 h1).
  { unfold idle_tty, with_sched, s3, s2, s1. simpl. by rewrite list_insert_insert_eq. }
  rewrite Hid in *. eapply returns_mono.
  - apply (TtyStartWrite_next _ c1 t ts2 l Hk4); [|done|done|by rewrite <- Hl; apply Hq|].
    + simpl. rewrite zlookup_insert by eauto. by rewrite decide_True.
    + intros e l' Hel. destruct (Hnext e l' Hel) as (w2 & p2 & b2 & (He & Hp2 & Hrest) & Hne). exists w2, p2, b2.
      split; [done|]. split; [|done]. simpl. specialize (Hby w2 Hne). rewrite (by_pcb _ _ _ _ _ Hby).
      unfold P. by rewrite lookup_insert_ne.
  - intros ? s' Hs'. exists P1, c1, h1. split_and!; [done|done|]. destruct l as [|e l']; [done|].
    destruct Hs' as (w2 & p2 & b2 & s5 & Hww & Hsim & ->).
    destruct (Hnext e l' eq_refl) as (w2' & p2' & b2' & Hww' & Hne).
    assert (w2' = w2) as -> by (destruct Hww as [-> _], Hww' as [? _]; congruence).
    assert (Hp2 : pcbs s !! w2 = Some p2).
    { destruct Hww as (_ & Hp2 & _). simpl in Hp2. rewrite (by_pcb _ _ _ _ _ (Hby w2 Hne)) in Hp2.
      unfold P in Hp2. by rewrite lookup_insert_ne in Hp2. }
    exists w2, p2, b2, s5. destruct Hww as (He & _ & Hrest). done.
Qed.
End Terminals.

#[export] Hint Resolve get_tty_run get_line_run : yalnix.

(** ** Witnesses

    Init writes twenty bytes and its child eight more ([writers]; [last_piece] is after
    the first two transmit traps); or both read one byte of the two lines typed meanwhile
    ([readers], as init is about to continue). *)

Module TerminalsWitness.
Import Booted.
#[local] Existing Instance tiny.
#[local] Existing Instance tiny_laws.
#[local] Existing Instance walking_mmu.
#[local] Existing Instance walking_mmu_laws.

Definition child : Z := 6.
Definition write_script : list action :=
  [ASyscall YALNIX_FORK []; ASyscall YALNIX_TTY_WRITE [0; 1088; 20]; ASyscall YALNIX_TTY_WRITE [0; 1088; 5]].
Definition at_transmit (s : kst) : kst := set_uctxt (set_uc_code 0 (uctxt s)) s.
Definition writers : kst := Eval vm_compute in
  at_transmit (state_of (run_script 10 write_script (Some (inl booted)))).
Definition last_piece : kst := Eval vm_compute in final (transmits 2 writers).
Definition read_script : list action :=
  [ASyscall YALNIX_FORK []; ASyscall YALNIX_TTY_READ [0; 1152; 1]; ATrap TRAP_TTY_RECEIVE 0 0;
   ATrap TRAP_TTY_RECEIVE 0 0; ASyscall YALNIX_TTY_READ [0; 1152; 1]].
Definition readers : kst := Eval vm_compute in
  final (handle_trap (trap_number TRAP_CLOCK) (state_of (run_script 10 read_script (Some (inl booted))))).

Definition tty0 (s : kst) : TtyState := default tty_zero (terminals s !! 0%nat).
Definition line_of (l : Z) (s : kst) : TtyLine := default (mkTtyLine 0 0 []) (tty_lines s !! l).
Definition buffer_of (p : Z) (s : kst) : list Z := default [] (blocks s !! tty_write_buf (pcb_of p s)).
Definition lists1 : qlists := lists_of (k_queues last_piece).
Definition lists2 : qlists := lists_of (k_queues readers).
Definition user_frames : list Z := frames_outside (k_mem readers) (ptbr1 (k_mem readers)).

Lemma writers_writing : writing writers 0 (tty0 writers) init (pcb_of init writers) (buffer_of init writers).
Proof. by split; vm_compute. Qed.
Lemma last_writing : writing last_piece 0 (tty0 last_piece) init (pcb_of init last_piece) (buffer_of init last_piece).
Proof. by split; vm_compute. Qed.
Lemma last_kq : kq_ok last_piece lists1.
Proof. apply kq_check_sound. by_computing. Qed.
Lemma readers_kq : kq_ok readers lists2.
Proof. apply kq_check_sound. by_computing. Qed.
Lemma readers_line : line_ok readers 8 (line_of 8 readers).
Proof. split; [by vm_compute|by vm_compute|by_computing|by_computing|by_computing]. Qed.
Lemma readers_frames : accounted (k_mem readers) (ptbr1 (k_mem readers)) user_frames.
Proof. apply accounted_b_sound. by vm_compute. Qed.
Lemma readers_buffer : user_buffer readers true (tty_read_buf (pcb_of init readers)) 1.
Proof. by apply user_buffer_sound; vm_compute. Qed.

Lemma tty_write_transmits_all_witness :
  exists s', transmits 2 writers = Ok tt s' /\
    all_sent writers s' 0 init (pcb_of init writers) (buffer_of init writers).
Proof.
  apply (tty_write_transmits_all 2 writers 0 (tty0 writers) init (pcb_of init writers) (buffer_of init writers)
    writers_writing); [by_computing|by vm_compute|by vm_compute|by vm_compute].
Defined.

Lemma tty_write_hands_over_witness :
  returns TrapTtyTransmit (fun _ s' => exists P1 c1 h1,
    spec_make_ready (idle_process last_piece) init (<[init := written (pcb_of init last_piece)]> (pcbs last_piece), lists1)
      = (P1, c1) /\
    kq_ok (idle_tty last_piece 0 (tty0 last_piece) P1 h1) c1 /\
    exists w2 p2 b2 s2, waiting_writer last_piece (EBlock child) w2 p2 b2 /\
      sim (idle_tty last_piece 0 (tty0 last_piece) P1 h1) s2 (<[QTtyWrite 0 := []]> c1)
        (<[w2 := set_block_queue None p2]> P1) /\
      s' = sent s2 0 (set_tty_writer w2 (set_tty_busy false (tty0 last_piece))) w2 (set_block_queue None p2) b2) last_piece.
Proof.
  apply (tty_write_hands_over last_piece lists1 0 (tty0 last_piece) init (pcb_of init last_piece)
    (buffer_of init last_piece) [EBlock child] last_kq last_writing); [by vm_compute..|].
  intros e l' [= <- <-]. exists child, (pcb_of child last_piece), (buffer_of child last_piece).
  split; [by split_and!; vm_compute|by vm_compute].
Defined.

Lemma tty_read_takes_line_witness :
  returns (TtyCopyLine 0 init) (fun rc s' => rc = Z.min (tty_read_len (pcb_of init readers)) 3 /\
    exists s1, line_from readers lists2 0 (pcb_of init readers) (tty0 readers) 8 s1 /\
      line_read s1 s' 0 init 8 (Z.min (tty_read_len (pcb_of init readers)) 3) (pcb_of init readers) (line_of 8 readers))
    readers /\
  result (TtyCopyLine 0 init readers) = Some 1.
Proof.
  split; [|vm_compute; reflexivity].
  apply (tty_read_takes_line readers lists2 0 init (pcb_of init readers) (tty0 readers) [] 8 (line_of 8 readers)
    user_frames readers_kq); [by vm_compute..| |by vm_compute|exact readers_line|by vm_compute|exact readers_frames|exact readers_buffer].
  intros l' Hl'. by apply not_elem_of_nil in Hl'.
Defined.

Lemma tty_leftover_lost_witness :
  returns (TtyCopyLine 0 init) (fun rc s' => rc = tty_read_len (pcb_of init readers) /\
    9 ∈ inuse (k_mem s') /\ tty_lines s' !! 9 = tty_lines readers !! 9 /\
    forall r' p' ts', pcbs s' !! r' = Some p' -> zlookup (terminals s') 0 = Some ts' ->
      next_line p' ts' [] <> Some 9) readers /\
  unread (line_of 9 readers) = [98; 10].
Proof.
  split; [|vm_compute; reflexivity].
  apply (tty_leftover_lost readers 0 init (pcb_of init readers) (tty0 readers) [] 8 9 (line_of 8 readers) user_frames);
    [by vm_compute..|by_computing| |apply not_elem_of_nil|exact readers_line|by vm_compute|exact readers_frames|exact readers_buffer].
  intros r' p'. revert r' p'. change (map_Forall (fun _ p' => tty_read_line p' <> 9) (pcbs readers)). by_computing.
Defined.
End TerminalsWitness.
