(* ===== verification/Copying.v ===== *)
(** * Copying memory between address spaces ([ProcessCopyRegion1])

    The kernel copies a page it cannot see - a page of the child - by mapping the
    child's frame at the scratch page, the last page of Region 0 below the kernel stack,
    and copying through that address.  The theorem: after a fork the child's pages have
    the parent's bytes and protections, in frames of its own. *)

From S2P Require Import Prelude Framework Queue Memory Mmu UserBytes KernelBrk BootMemory State Process.
From S2P Require Import Ipc Exit Tty Loader Syscalls Trap KernelStart Machine.

Section Copying.
Context {F : Framework} {T : Mmu} {FL : FrameworkLaws F} {TL : MmuLaws T}.

(** ** The bytes of a frame *)

Definition frame_bytes (m : mem) (f : Z) : list Z :=
  (fun i => default 0 (ram m !! (f * PAGESIZE + i))) <$> seqZ 0 PAGESIZE.

Definition ram_ok (m : mem) : Prop := forall pa b, ram m !! pa = Some b -> 0 <= b < 256.

(** [a] is the first address of a page mapped by [e]. *)
Definition page_at (m : mem) (a : Z) (e : pte) : Prop :=
  a mod PAGESIZE = 0 /\ valid e = true /\ 0 <= pfn e < physical_frame_count m /\
  forall i, 0 <= i < PAGESIZE -> walk m (a + i) = Some e.

Lemma phys_page e a i : a mod PAGESIZE = 0 -> 0 <= i < PAGESIZE -> phys e (a + i) = pfn e * PAGESIZE + i.
Proof.
  intros Ha Hi. unfold phys. pose proof pagesize_pos. rewrite <- Zplus_mod_idemp_l, Ha, Z.add_0_l.
  by rewrite Z.mod_small.
Qed.

Lemma user_bytes_page m a e : page_at m a e -> user_bytes m a PAGESIZE = frame_bytes m (pfn e).
Proof.
  intros (Ha & _ & _ & Hw). unfold user_bytes, frame_bytes. apply list_fmap_ext. intros k i Hi.
  apply list_elem_of_lookup_2, elem_of_seqZ in Hi. unfold user_byte. rewrite Hw by lia.
  by rewrite phys_page by (done || lia).
Qed.

Lemma frame_bytes_ok m f : ram_ok m -> Forall (fun b => 0 <= b < 256) (frame_bytes m f).
Proof.
  intros Hr. apply Forall_fmap, Forall_forall. intros i _. simpl.
  destruct (ram m !! _) as [b|] eqn:Hb; simpl; [by eapply Hr|lia].
Qed.

Lemma frame_bytes_length m f : Z.of_nat (length (frame_bytes m f)) = PAGESIZE.
Proof. unfold frame_bytes. rewrite length_fmap, length_seqZ. pose proof pagesize_pos. lia. Qed.

(** Two frames have no byte in common. *)
Lemma frames_disjoint f g i j :
  f <> g -> 0 <= i < PAGESIZE -> 0 <= j < PAGESIZE -> f * PAGESIZE + i <> g * PAGESIZE + j.
Proof. intros Hne Hi Hj Heq. apply Hne. nia. Qed.

Lemma store_bytes_ram_ok l a m m' : store_bytes a l m = Ok tt m' -> ram_ok m -> ram_ok m'.
Proof.
  revert a m. induction l as [|v l IH]; intros a m; simpl; [by intros [= <-]|].
  unfold mbind, M_bind, store_byte. destruct (translate m true a) as [pa|]; [|done]. simpl.
  intros Hs Hr. eapply IH; [exact Hs|]. intros pa' b. simpl.
  destruct (decide (pa = pa')) as [<-|Hne]; [|rewrite lookup_insert_ne by done; apply Hr].
  rewrite lookup_insert_eq. intros [= <-]. apply Z.mod_pos_bound. lia.
Qed.

Lemma page_accessible m w a e :
  page_at m a e -> permits w (prot e) = true ->
  forall i, 0 <= i < PAGESIZE -> accessible m w (a + i).
Proof. intros (_ & Hv & Hf & Hw) Hp i Hi. exists e. auto. Qed.

(** [memcpy] of one whole page to another. *)
Lemma copy_page_ok m dst src ed es :
  vm_enabled m = true -> ram_ok m ->
  page_at m src es -> permits false (prot es) = true ->
  page_at m dst ed -> permits true (prot ed) = true ->
  exists r, memcpy dst src PAGESIZE m = Ok tt (set_ram r m) /\
    frame_bytes (set_ram r m) (pfn ed) = frame_bytes m (pfn es) /\
    (forall g, g <> pfn ed -> frame_bytes (set_ram r m) g = frame_bytes m g) /\ ram_ok (set_ram r m).
Proof.
  intros Hvm Hram Hsrc Hps Hdst Hpd. pose proof (frame_bytes_length m (pfn es)) as Hlen.
  pose proof Hdst as (Ha & _ & _ & Hw).
  set (l := frame_bytes m (pfn es)) in *.
  assert (Hload : load_bytes src PAGESIZE m = Ok l m).
  { unfold load_bytes. pose proof pagesize_pos. rewrite load_bytes_n_ok; rewrite ?Z2Nat.id by lia; [|done|].
    - unfold l. by rewrite (user_bytes_page m src es).
    - by eapply page_accessible. }
  destruct (store_bytes_ok l m dst Hvm) as (r & Hr & Hb & Hout); rewrite ?Hlen in *.
  - by apply frame_bytes_ok.
  - by eapply page_accessible.
  - intros i j ei ej Hi Hj Hwi Hwj Heq. rewrite Hw in Hwi, Hwj by done. simplify_eq.
    rewrite !phys_page in Heq by done. lia.
  - exists r. split_and!.
    + unfold memcpy. by rewrite (bind_ok _ _ _ _ _ Hload).
    + rewrite <- Hb. by rewrite (user_bytes_page (set_ram r m) dst ed).
    + intros g Hg. unfold frame_bytes. apply list_fmap_ext. intros k i Hi.
      apply list_elem_of_lookup_2, elem_of_seqZ in Hi. simpl. f_equal. apply Hout.
      intros j e Hj He. rewrite Hw in He by done. simplify_eq. rewrite phys_page by done.
      by apply frames_disjoint; [|lia|].
    + by eapply store_bytes_ram_ok.
Qed.

(** ** The scratch page *)

Lemma scratch_bounds : 0 <= scratch_page < MAX_PT_LEN /\ scratch_page + 1 = stack_base_page.
Proof. pose proof stack_base_bounds. unfold scratch_page. fold stack_base_page. lia. Qed.

(** A page of Region 0. *)
Lemma region0_page_at m j e :
  ptbr0 m = kernel_region0_pt m -> 0 <= j < MAX_PT_LEN -> valid e = true ->
  0 <= pfn e < physical_frame_count m -> table_entry m (kernel_region0_pt m) j = Some e ->
  page_at m (j * PAGESIZE) e.
Proof.
  intros H0 Hj Hv Hf He. pose proof pagesize_pos. pose proof region0_size.
  split_and!; [apply Z.mod_mul; lia|done|lia|lia|].
  assert (0 <= j * PAGESIZE /\ j * PAGESIZE + PAGESIZE <= MAX_PT_LEN * PAGESIZE) by nia.
  intros i Hi. unfold walk. test_false (j * PAGESIZE + i <? 0). test_true (j * PAGESIZE + i <? VMEM_1_BASE).
  rewrite shiftr_page, (Z.add_comm (_ * _)), Z.div_add, Z.div_small by lia. by rewrite H0.
Qed.

Lemma scratch_page_at m f pr :
  ptbr0 m = kernel_region0_pt m -> 0 <= f < physical_frame_count m ->
  table_entry m (kernel_region0_pt m) scratch_page = Some (mkPte true pr f) ->
  page_at m scratch_addr (mkPte true pr f).
Proof.
  intros H0 Hf He. pose proof scratch_bounds as [Hs _]. unfold scratch_addr. rewrite shiftl_page.
  by apply region0_page_at.
Qed.

Lemma user_page_at m i e :
  0 <= i < MAX_PT_LEN -> valid e = true -> 0 <= pfn e < physical_frame_count m ->
  table_entry m (ptbr1 m) i = Some e -> page_at m (VMEM_1_BASE + i ≪ PAGESHIFT) e.
Proof.
  intros Hi Hv Hf He. pose proof pagesize_pos. pose proof region0_size. pose proof region1_size.
  rewrite shiftl_page. split_and!; [|done|lia|lia|].
  - rewrite region0_size, <- Z.mul_add_distr_r. apply Z.mod_mul; lia.
  - intros j Hj. rewrite walk_region1 by nia.
    replace (VMEM_1_BASE + i * PAGESIZE + j - VMEM_1_BASE) with (j + i * PAGESIZE) by lia.
    by rewrite Z.div_add, Z.div_small by lia.
Qed.

(** ** Copying Region 1 *)

(** The parent [sp] is running; the child [d] has an empty table. *)
Record copy_ready (m : mem) (d sp : PCB) (ext : list Z) : Prop := {
  cr_vm : vm_enabled m = true;
  cr_ram : ram_ok m;
  cr_child : accounted m (region1_pt d) ext;
  cr_empty : all_unmapped m (region1_pt d);
  cr_region0 : ptbr0 m = kernel_region0_pt m;
  cr_region1 : ptbr1 m = region1_pt sp;
  cr_distinct : region1_pt d <> region1_pt sp /\ region1_pt d <> kernel_region0_pt m /\
                region1_pt sp <> kernel_region0_pt m /\ kernel_region0_pt m <> 0;
  cr_scratch : is_Some (table_entry m (kernel_region0_pt m) scratch_page);
  cr_parent : forall i, 0 <= i < MAX_PT_LEN -> exists e, table_entry m (region1_pt sp) i = Some e /\
    (valid e = true -> pfn e ∈ ext /\ permits false (prot e) = true)
}.

(** Entry [j] of the child is a copy of the parent's: same protection, a frame of its own
    with the same bytes, or unmapped as the parent's is. *)
Definition copied_entry (m m1 : mem) (d sp : PCB) (j : Z) : Prop :=
  forall e, table_entry m (region1_pt sp) j = Some e ->
  if valid e
  then exists f, table_entry m1 (region1_pt d) j = Some (mkPte true (prot e) f) /\
         frame_bytes m1 f = frame_bytes m (pfn e)
  else exists e', table_entry m1 (region1_pt d) j = Some e' /\ valid e' = false.

(** What copying leaves alone: all tables but the child's and the scratch entry, and the
    bytes of every frame that is not the child's. *)
Record copy_frame (m m1 : mem) (d : PCB) (ext : list Z) : Prop := {
  cf_count : physical_frame_count m1 = physical_frame_count m;
  cf_region0 : kernel_region0_pt m1 = kernel_region0_pt m;
  cf_vm : vm_enabled m1 = vm_enabled m;
  cf_ptbr0 : ptbr0 m1 = ptbr0 m;
  cf_ptbr1 : ptbr1 m1 = ptbr1 m;
  cf_tables : forall pt, pt <> region1_pt d -> pt <> kernel_region0_pt m -> page_tables m1 !! pt = page_tables m !! pt;
  cf_kernel : forall j, j <> scratch_page ->
    table_entry m1 (kernel_region0_pt m) j = table_entry m (kernel_region0_pt m) j;
  cf_bytes : forall f, f ∈ ext -> frame_bytes m1 f = frame_bytes m f
}.

(** After the turns below [k]. *)
Record copied_upto (m m1 : mem) (d sp : PCB) (ext : list Z) (k : Z) : Prop := {
  cu_accounted : accounted m1 (region1_pt d) ext;
  cu_ram : ram_ok m1;
  cu_frame : copy_frame m m1 d ext;
  cu_copied : forall j, 0 <= j < k -> copied_entry m m1 d sp j;
  cu_rest : forall j, k <= j < MAX_PT_LEN ->
    exists e', table_entry m1 (region1_pt d) j = Some e' /\ valid e' = false;
  cu_scratch : table_entry m1 (kernel_region0_pt m) scratch_page = table_entry m (kernel_region0_pt m) scratch_page \/
    exists f, table_entry m1 (kernel_region0_pt m) scratch_page = Some (mkPte true (Z.lor PROT_READ PROT_WRITE) f) /\
      f ∈ table_frames m1 (region1_pt d)
}.

Lemma accounted_transfer m m' pt ext :
  frame_allocated m' = frame_allocated m -> physical_frame_count m' = physical_frame_count m ->
  page_tables m' !! pt = page_tables m !! pt -> accounted m pt ext -> accounted m' pt ext.
Proof.
  intros Hf Hc Ht [? ? ? ? Hu].
  assert (Htf : table_frames m' pt = table_frames m pt) by (unfold table_frames; by rewrite Ht).
  split; rewrite ?Htf, ?Ht; try done.
  - unfold mem_wf in *. by rewrite Hf, Hc.
  - intros f. rewrite (used_same m m'); done.
Qed.

(** The scratch page mapped to frame [f]. *)
Definition scratch_mapped (f : Z) (m : mem) : mem :=
  page_changed (kernel_region0_pt m) scratch_page (mkPte true (Z.lor PROT_READ PROT_WRITE) f) m.

(** A page copied to frame [f] through the scratch page. *)
Lemma copy_via_scratch m f src e :
  vm_enabled m = true -> ram_ok m -> ptbr0 m = kernel_region0_pt m -> kernel_region0_pt m <> 0 ->
  is_Some (table_entry m (kernel_region0_pt m) scratch_page) -> 0 <= f < physical_frame_count m ->
  page_at (scratch_mapped f m) src e -> permits false (prot e) = true ->
  exists r, MemoryMapPage (kernel_region0_pt m) scratch_page f (Z.lor PROT_READ PROT_WRITE) m =
      Ok SUCCESS (scratch_mapped f m) /\
    memcpy scratch_addr src PAGESIZE (scratch_mapped f m) = Ok tt (set_ram r (scratch_mapped f m)) /\
    frame_bytes (set_ram r (scratch_mapped f m)) f = frame_bytes m (pfn e) /\
    (forall g, g <> f -> frame_bytes (set_ram r (scratch_mapped f m)) g = frame_bytes m g) /\
    ram_ok (set_ram r (scratch_mapped f m)).
Proof.
  intros Hvm Hram H0 Hnz Hsc Hf Hsrc Hp. pose proof scratch_bounds as [Hsb _].
  set (ed := mkPte true (Z.lor PROT_READ PROT_WRITE) f). set (m3 := scratch_mapped f m) in *.
  assert (Ho : outside m m3 (kernel_region0_pt m)) by apply page_changed_outside.
  assert (Hb3 : forall g, frame_bytes m3 g = frame_bytes m g).
  { intros g. unfold frame_bytes. by rewrite (out_ram _ _ _ Ho). }
  destruct (copy_page_ok m3 scratch_addr src ed e) as (r & Hr & Hbd & Hbo & Hro).
  - by rewrite (out_vm _ _ _ Ho).
  - unfold ram_ok. by rewrite (out_ram _ _ _ Ho).
  - done.
  - done.
  - apply scratch_page_at; [by rewrite (out_ptbr0 _ _ _ Ho), (out_region0 _ _ _ Ho)|by rewrite (out_count _ _ _ Ho)|].
    rewrite (out_region0 _ _ _ Ho). unfold m3, scratch_mapped. rewrite table_entry_changed by done. by rewrite decide_True.
  - unfold permits. simpl. pose proof prot_rw_write. apply negb_true_iff. lia.
  - exists r. split_and!; [apply MemoryMapPage_run; [done|done|lia|done]|done|..].
    + change f with (pfn ed) at 1. by rewrite Hbd, Hb3.
    + intros g Hg. by rewrite Hbo, Hb3.
    + done.
Qed.

(** The scratch page mapped to frame [f] and the parent's page copied there. *)
Lemma copy_through_scratch m sp i e f :
  vm_enabled m = true -> ram_ok m -> ptbr0 m = kernel_region0_pt m -> ptbr1 m = region1_pt sp ->
  region1_pt sp <> kernel_region0_pt m -> kernel_region0_pt m <> 0 ->
  is_Some (table_entry m (kernel_region0_pt m) scratch_page) ->
  0 <= i < MAX_PT_LEN -> table_entry m (region1_pt sp) i = Some e -> valid e = true ->
  permits false (prot e) = true -> 0 <= pfn e < physical_frame_count m -> 0 <= f < physical_frame_count m ->
  exists m3 r, m3 = scratch_mapped f m /\
    MemoryMapPage (kernel_region0_pt m) scratch_page f (Z.lor PROT_READ PROT_WRITE) m = Ok SUCCESS m3 /\
    memcpy scratch_addr (VMEM_1_BASE + i ≪ PAGESHIFT) PAGESIZE m3 = Ok tt (set_ram r m3) /\
    frame_bytes (set_ram r m3) f = frame_bytes m (pfn e) /\
    (forall g, g <> f -> frame_bytes (set_ram r m3) g = frame_bytes m g) /\ ram_ok (set_ram r m3).
Proof.
  intros Hvm Hram H0 H1 Hne Hnz Hsc Hi He Hv Hp Hfe Hf.
  assert (Ho : outside m (scratch_mapped f m) (kernel_region0_pt m)) by apply page_changed_outside.
  destruct (copy_via_scratch m f (VMEM_1_BASE + i ≪ PAGESHIFT) e) as (r & Hr); try done.
  - apply user_page_at; [done|done|by rewrite (out_count _ _ _ Ho)|].
    rewrite (out_ptbr1 _ _ _ Ho), H1. unfold table_entry. by rewrite (out_tables _ _ _ Ho).
  - by exists (scratch_mapped f m), r.
Qed.

(** A step that touches only the child's table. *)
Lemma copy_frame_child m m1 m2 d ext :
  region1_pt d <> kernel_region0_pt m ->
  copy_frame m m1 d ext -> outside m1 m2 (region1_pt d) -> copy_frame m m2 d ext.
Proof.
  intros Hne [] []. split; try congruence.
  - intros pt H1 H2. rewrite out_tables by done. by apply cf_tables0.
  - intros j Hj. rewrite <- cf_kernel0 by done. unfold table_entry. by rewrite out_tables by congruence.
  - intros f Hf. rewrite <- cf_bytes0 by done. unfold frame_bytes. by rewrite out_ram.
Qed.

(** The page of the child mapped through the scratch page and filled. *)
Lemma copy_frame_scratch m m1 d ext e r f :
  region1_pt d <> kernel_region0_pt m -> is_Some (table_entry m1 (kernel_region0_pt m) scratch_page) ->
  copy_frame m m1 d ext ->
  (forall g, g <> f -> frame_bytes (set_ram r (page_changed (kernel_region0_pt m) scratch_page e m1)) g = frame_bytes m1 g) ->
  ~ f ∈ ext ->
  copy_frame m (set_ram r (page_changed (kernel_region0_pt m) scratch_page e m1)) d ext.
Proof.
  intros Hne Hsc [] Hb Hf. destruct (page_changed_outside (kernel_region0_pt m) scratch_page e m1).
  split; simpl; try congruence.
  - intros pt H1 H2. rewrite out_tables by done. by apply cf_tables0.
  - intros j Hj. change (table_entry (set_ram r ?x)) with (table_entry x).
    rewrite table_entry_changed, decide_False by done. auto.
  - intros g Hg. rewrite Hb by (intros ->; done). auto.
Qed.

Lemma fresh_not_ext m pt ext f : accounted m pt ext -> ~ used m f -> ~ f ∈ table_frames m pt /\ ~ f ∈ ext.
Proof. intros Hacc Hu. rewrite (acc_used _ _ _ Hacc) in Hu. set_solver. Qed.

(** The invariant after a page was copied: [m2] has the new mapping, [m3] the scratch
    mapping, [r] the bytes. *)
Lemma copied_next m m1 m2 d sp ext k e f r :
  let m3 := page_changed (kernel_region0_pt m) scratch_page (mkPte true (Z.lor PROT_READ PROT_WRITE) f) m2 in
  region1_pt d <> kernel_region0_pt m -> is_Some (table_entry m2 (kernel_region0_pt m) scratch_page) ->
  copied_upto m m1 d sp ext k -> table_entry m (region1_pt sp) k = Some e -> valid e = true -> pfn e ∈ ext ->
  ~ used m1 f -> entry_step m1 m2 (region1_pt d) k (mkPte true (prot e) f) ext ->
  frame_bytes (set_ram r m3) f = frame_bytes m1 (pfn e) ->
  (forall g, g <> f -> frame_bytes (set_ram r m3) g = frame_bytes m1 g) -> ram_ok (set_ram r m3) ->
  copied_upto m (set_ram r m3) d sp ext (k + 1).
Proof.
  intros m3 Hd2 Hsc2 [Hacc Hram Hcf Hcop Hrest Hscr] He Hv Hext Hfu [Ha2 Ho2 He2] Hbf Hbo Hro.
  pose proof (copy_frame_child m m1 m2 d ext Hd2 Hcf Ho2) as Hcf2.
  destruct (fresh_not_ext _ _ _ _ Hacc Hfu) as [Hft Hfe].
  pose proof (page_changed_outside (kernel_region0_pt m) scratch_page (mkPte true (Z.lor PROT_READ PROT_WRITE) f) m2) as Ho3.
  fold m3 in Ho3.
  assert (Hent : forall j, table_entry (set_ram r m3) (region1_pt d) j =
    if decide (k = j) then Some (mkPte true (prot e) f) else table_entry m1 (region1_pt d) j).
  { intros j. rewrite <- He2. unfold table_entry. simpl. by rewrite (out_tables _ _ _ Ho3). }
  split.
  - apply (accounted_transfer m2); [apply page_changed_frames|by rewrite <- (out_count _ _ _ Ho3)|by rewrite <- (out_tables _ _ _ Ho3)|done].
  - done.
  - apply (copy_frame_scratch m m2 d ext _ r f); try done. intros g Hg. fold m3. rewrite Hbo by done.
    unfold frame_bytes. by rewrite (out_ram _ _ _ Ho2).
  - intros j Hj e0 He0. destruct (decide (j = k)) as [->|Hjk].
    + rewrite He in He0. injection He0 as <-. rewrite Hv. exists f. rewrite Hent, decide_True by done.
      split; [done|]. by rewrite Hbf, (cf_bytes _ _ _ _ Hcf).
    + specialize (Hcop j ltac:(lia) e0 He0). destruct (valid e0).
      * destruct Hcop as (g & Hg & Hbg). exists g. rewrite Hent, decide_False by done. split; [done|].
        rewrite Hbo; [done|]. intros ->. apply Hft, elem_of_table_frames. by eexists j, _.
      * destruct Hcop as (e' & He' & ?). exists e'. by rewrite Hent, decide_False.
  - intros j Hj. rewrite Hent, decide_False by lia. apply Hrest. lia.
  - right. exists f. split.
    + change (table_entry (set_ram r m3)) with (table_entry m3). unfold m3. rewrite table_entry_changed by done.
      by rewrite decide_True.
    + apply elem_of_table_frames. eexists k, _. rewrite Hent, decide_True by done. done.
Qed.

(** One copied page: frame, mapping, scratch mapping and bytes. *)
Lemma copy_turn m m1 d sp ext k e f m2 :
  copy_ready m d sp ext -> copied_upto m m1 d sp ext k -> 0 <= k < MAX_PT_LEN ->
  table_entry m (region1_pt sp) k = Some e -> valid e = true ->
  ~ used m1 f -> 0 <= f < physical_frame_count m1 ->
  entry_step m1 m2 (region1_pt d) k (mkPte true (prot e) f) ext ->
  exists m3 r, MemoryMapPage (kernel_region0_pt m) scratch_page f (Z.lor PROT_READ PROT_WRITE) m2 = Ok SUCCESS m3 /\
    memcpy scratch_addr (VMEM_1_BASE + k ≪ PAGESHIFT) PAGESIZE m3 = Ok tt (set_ram r m3) /\
    copied_upto m (set_ram r m3) d sp ext (k + 1).
Proof.
  intros [Hvm _ _ _ Hr0 Hr1 (Hd1 & Hd2 & Hd3 & Hd4) Hsc Hpar] Hcu Hk He Hv Hfu Hfr Hstep.
  destruct (Hpar k Hk) as (e' & He' & Hve). rewrite He in He'. injection He' as <-.
  destruct (Hve Hv) as [Hext Hp]. clear Hve.
  pose proof Hcu as [_ Hram Hcf _ _ Hscr]. pose proof Hstep as [Ha2 Ho2 _].
  assert (Hb2 : forall g, frame_bytes m2 g = frame_bytes m1 g) by (intros g; unfold frame_bytes; by rewrite (out_ram _ _ _ Ho2)).
  pose proof (copy_frame_child m m1 m2 d ext Hd2 Hcf Ho2) as Hcf2. pose proof (cf_region0 _ _ _ _ Hcf2) as Hr2.
  assert (Hsc2 : is_Some (table_entry m2 (kernel_region0_pt m) scratch_page)).
  { unfold table_entry. rewrite (out_tables _ _ _ Ho2) by done. change (is_Some (table_entry m1 (kernel_region0_pt m) scratch_page)).
    destruct Hscr as [->|(g & -> & _)]; eauto. }
  assert (Hpe : 0 <= pfn e < physical_frame_count m2) by (apply used_range, (acc_used _ _ _ Ha2); set_solver).
  destruct (copy_through_scratch m2 sp k e f) as (m3 & r & Hm3 & Hmap & Hcpy & Hbf & Hbo & Hro); rewrite ?Hr2 in *; try done.
  - by rewrite (cf_vm _ _ _ _ Hcf2).
  - unfold ram_ok. by rewrite (out_ram _ _ _ Ho2).
  - by rewrite (cf_ptbr0 _ _ _ _ Hcf2).
  - by rewrite (cf_ptbr1 _ _ _ _ Hcf2).
  - unfold table_entry. by rewrite (cf_tables _ _ _ _ Hcf2).
  - by rewrite (out_count _ _ _ Ho2).
  - exists m3, r. split; [done|]. split; [done|]. subst m3. unfold scratch_mapped in *. rewrite Hr2 in *.
    apply (copied_next m m1 m2 d sp ext k e f r); try done.
    + by rewrite Hbf, Hb2.
    + intros g Hg. by rewrite Hbo, Hb2.
Qed.

(** ** What [ProcessCopyRegion1] did *)

Record copied (m m' : mem) (d sp : PCB) (ext : list Z) : Prop := {
  cp_accounted : accounted m' (region1_pt d) ext;
  cp_frame : copy_frame m m' d ext;
  cp_pages : forall j, 0 <= j < MAX_PT_LEN -> copied_entry m m' d sp j;
  cp_scratch : table_entry m' (kernel_region0_pt m) scratch_page = Some (mkPte false PROT_NONE 0)
}.

(** Giving up: the child is as empty as before, and there was a reason, fewer free frames
    than the parent has pages mapped. *)
Record copy_undone (m m' : mem) (d sp : PCB) (ext : list Z) : Prop := {
  cx_short : short_of_frames m (Z.of_nat (length (table_frames m (region1_pt sp))));
  cx_accounted : accounted m' (region1_pt d) ext;
  cx_frame : copy_frame m m' d ext;
  cx_empty : all_unmapped m' (region1_pt d);
  cx_used : forall f, used m' f <-> f ∈ ext;
  cx_scratch : table_entry m' (kernel_region0_pt m) scratch_page = table_entry m (kernel_region0_pt m) scratch_page \/
    exists f, table_entry m' (kernel_region0_pt m) scratch_page = Some (mkPte true (Z.lor PROT_READ PROT_WRITE) f) /\
      ~ used m' f
}.

(** All frames are used by the child's copies and by what was used before. *)
Lemma copy_short m m1 d sp ext k e :
  copy_ready m d sp ext -> copied_upto m m1 d sp ext k -> 0 <= k < MAX_PT_LEN ->
  table_entry m (region1_pt sp) k = Some e -> valid e = true ->
  (forall g, 0 <= g < physical_frame_count m1 -> used m1 g) ->
  short_of_frames m (Z.of_nat (length (table_frames m (region1_pt sp)))).
Proof.
  intros [_ _ Hacc0 _ _ _ _ _ Hpar] [Hacc _ Hcf Hcop Hrest _] Hk He Hv Hall.
  exists (table_frames m1 (region1_pt d)). split.
  - apply inj_lt. destruct (Hrest k ltac:(lia)) as (e0 & He0 & Hv0).
    apply (table_frames_lt _ _ _ _ k e e0); try done. intros i a' Ha Hva.
    assert (Hi : 0 <= i < MAX_PT_LEN) by by eapply accounted_entry_range.
    destruct (Hpar i Hi) as (a & Hpa & _). exists a. split; [done|].
    destruct (decide (i < k)) as [Hik|Hik].
    + specialize (Hcop i ltac:(lia) a Hpa). destruct (valid a); [done|]. destruct Hcop as (? & ? & ?). congruence.
    + destruct (Hrest i ltac:(lia)) as (? & ? & ?). congruence.
  - intros f Hf. rewrite <- (cf_count _ _ _ _ Hcf) in Hf. apply Hall in Hf.
    apply (acc_used _ _ _ Hacc), elem_of_app in Hf as [Hf|Hf]; [by right|left].
    apply (acc_used _ _ _ Hacc0), elem_of_app. by right.
Qed.

Lemma copy_gives_up m m1 d sp ext k :
  region1_pt d <> kernel_region0_pt m -> copied_upto m m1 d sp ext k ->
  short_of_frames m (Z.of_nat (length (table_frames m (region1_pt sp)))) ->
  exists m2, MemoryFreePageTableFrames (region1_pt d) m1 = Ok tt m2 /\ copy_undone m m2 d sp ext.
Proof.
  intros Hne [Hacc Hram Hcf _ _ Hscr] Hshort.
  destruct (MemoryFreePageTableFrames_ok m1 _ ext Hacc) as (m2 & Hr & Ha & Ho & Hall & Hu).
  exists m2. split; [done|]. split; [done|done|by eapply copy_frame_child|done|done|].
  unfold table_entry in *. rewrite (out_tables _ _ _ Ho) by done.
  destruct Hscr as [->|(f & -> & Hf)]; [by left|right]. exists f. split; [done|]. rewrite Hu.
  pose proof (acc_nodup _ _ _ Hacc) as Hnd. apply NoDup_app in Hnd as (_ & Hd & _). by apply Hd.
Qed.

Lemma copy_ready_upto m d sp ext : copy_ready m d sp ext -> copied_upto m m d sp ext 0.
Proof.
  intros [Hvm Hram Hacc Hall _ _ _ _ _]. split; [done|done|done|lia| |by left].
  intros j Hj. destruct (accounted_entry m _ ext j Hacc Hj) as [e He]. exists e. split; [done|]. by eapply Hall.
Qed.

Definition copy_turn_post (s : kst) (d sp : PCB) (ext : list Z) (k : Z) (r : option Z) (s' : kst) : Prop :=
  exists m', s' = set_k_mem m' s /\
    match r with
    | Some rc => rc = ERROR /\ copy_undone (k_mem s) m' d sp ext
    | None => copied_upto (k_mem s) m' d sp ext k
    end.

Lemma copy_region1_page_ok s m1 d sp ext k :
  copy_ready (k_mem s) d sp ext -> copied_upto (k_mem s) m1 d sp ext k -> 0 <= k < MAX_PT_LEN ->
  returns (copy_region1_page d sp k) (copy_turn_post s d sp ext (k + 1)) (set_k_mem m1 s).
Proof.
  intros Hready Hcu Hk. pose proof Hready as [_ _ _ _ _ _ (Hd1 & Hd2 & Hd3 & Hd4) _ Hpar].
  destruct (Hpar k Hk) as (e & He & _). pose proof Hcu as [Hacc _ Hcf _ Hrest _].
  unfold copy_region1_page. eapply wp_step.
  { apply in_mem_run. unfold pt_read, table_entry. simpl. rewrite (cf_tables _ _ _ _ Hcf) by done.
    fold (table_entry (k_mem s) (region1_pt sp) k). rewrite He. reflexivity. }
  change (set_k_mem (k_mem (set_k_mem m1 s)) (set_k_mem m1 s)) with (set_k_mem m1 s).
  destruct (valid e) eqn:Hv; simpl.
  - destruct (Hrest k ltac:(lia)) as (e0 & He0 & Hv0). pose proof error_not_success.
    destruct (alloc_map_step m1 _ ext k e0 (prot e) FL Hacc Hk He0 Hv0)
      as [(f & m2 & m3 & Hf & Hfe & Hf0 & Hfu & Hmap & Hstep & _)|[Hf Hall]].
    + eapply wp_step; [by apply in_mem_run|]. test_false (f =? ERROR).
      eapply wp_step; [by apply in_mem_run|]. test_false (SUCCESS =? ERROR).
      assert (Hfr : 0 <= f < physical_frame_count m1).
      { destruct (FrameAlloc_spec m1 (acc_wf _ _ _ Hacc)) as [(f' & Hf' & ? & _)|[Hf' _]]; congruence. }
      destruct (copy_turn _ _ _ _ _ _ _ _ _ Hready Hcu Hk He Hv Hfu Hfr Hstep) as (m4 & r & Hm4 & Hcpy & Hnext).
      eapply wp_step; [reflexivity|]. simpl. rewrite (out_region0 _ _ _ (step_outside _ _ _ _ _ _ Hstep)), (cf_region0 _ _ _ _ Hcf).
      eapply wp_step; [by apply in_mem_run|]. eapply wp_step; [by apply in_mem_run|].
      eapply returns_ok; [reflexivity|]. by eexists.
    + eapply wp_step; [by apply in_mem_run|]. test_true (ERROR =? ERROR).
      destruct (copy_gives_up _ _ _ _ _ _ Hd2 Hcu) as (m2 & Hm2 & Hun); [by eapply copy_short|].
      eapply wp_step; [by apply in_mem_run|]. eapply returns_ok; [reflexivity|]. by exists m2.
  - eapply returns_ok; [reflexivity|]. exists m1. split; [done|]. destruct Hcu as [? ? ? Hcop ? ?].
    split; try done; [|intros j Hj; apply Hrest; lia].
    intros j Hj e0 He0. destruct (decide (j = k)) as [->|]; [|apply Hcop; [lia|done]].
    rewrite He in He0. injection He0 as <-. rewrite Hv. apply Hrest. lia.
Qed.

(** The scratch page is unmapped at the end. *)
Lemma copy_finish m m1 d sp ext :
  region1_pt d <> kernel_region0_pt m -> kernel_region0_pt m <> 0 ->
  is_Some (table_entry m (kernel_region0_pt m) scratch_page) ->
  copied_upto m m1 d sp ext MAX_PT_LEN ->
  exists m2, MemoryUnmapPage (kernel_region0_pt m) scratch_page m1 = Ok tt m2 /\
    copied m (write_reg REG_TLB_FLUSH TLB_FLUSH_ALL m2) d sp ext.
Proof.
  intros Hne Hnz Hsc [Hacc Hram Hcf Hcop _ Hscr]. pose proof scratch_bounds as [Hsb _].
  assert (Hsc1 : is_Some (table_entry m1 (kernel_region0_pt m) scratch_page)).
  { destruct Hscr as [->|(g & -> & _)]; eauto. }
  eexists. split; [by apply MemoryUnmapPage_run|].
  set (m2 := page_changed _ _ _ m1).
  pose proof (page_changed_outside (kernel_region0_pt m) scratch_page (mkPte false PROT_NONE 0) m1) as Ho. fold m2 in Ho.
  assert (Hram2 : ram (write_reg REG_TLB_FLUSH TLB_FLUSH_ALL m2) = ram m1) by apply (out_ram _ _ _ Ho).
  assert (Hcf2 : copy_frame m (set_ram (ram m1) m2) d ext).
  { apply (copy_frame_scratch m m1 d ext _ _ (-1)); try done.
    intros Hin. assert (Hu : used m1 (-1)) by (apply (acc_used _ _ _ Hacc); set_solver).
    apply used_range in Hu. lia. }
  split.
  - apply accounted_log, (accounted_transfer m1); [apply page_changed_frames|by destruct Ho|by destruct Ho; auto|done].
  - replace (set_ram (ram m1) m2) with m2 in Hcf2 by (rewrite <- (out_ram _ _ _ Ho); by destruct m2).
    by destruct Hcf2; split.
  - intros j Hj e He. specialize (Hcop j Hj e He).
    change (table_entry (write_reg ?a ?b m2)) with (table_entry m2).
    unfold table_entry in *. rewrite (out_tables _ _ _ Ho) by done. destruct (valid e); [|done].
    destruct Hcop as (f & Hf & Hb). exists f. split; [done|]. rewrite <- Hb. unfold frame_bytes. by rewrite Hram2.
  - change (table_entry (write_reg ?a ?b m2)) with (table_entry m2). unfold m2.
    rewrite table_entry_changed by done. by rewrite decide_True.
Qed.

(** C3: after a fork the child has a copy of the parent's memory.  When
    [ProcessCopyRegion1] succeeds, every page the parent has mapped is mapped in the
    child with the same protection, in a frame that was free and now belongs to the
    child, with the same bytes; every other page of the child is unmapped; the parent,
    every other table and the bytes of every other frame are as before, and the scratch
    page is unmapped again.  It fails only when fewer frames are free than the parent has
    pages mapped: then the child's frames are all given back and its table is empty, but
    the scratch page may still map one of those frames. *)
Theorem fork_copies_memory s dst src d sp ext :
  pcbs s !! dst = Some d -> pcbs s !! src = Some sp -> copy_ready (k_mem s) d sp ext ->
  returns (ProcessCopyRegion1 dst src) (fun rc s' => exists m', s' = set_k_mem m' s /\
    ((rc = SUCCESS /\ copied (k_mem s) m' d sp ext) \/
     (rc = ERROR /\ copy_undone (k_mem s) m' d sp ext))) s.
Proof.
  intros Hd Hs Hready. pose proof max_pt_len_pos. pose proof (copy_ready_upto _ _ _ _ Hready) as H0.
  pose proof Hready as [_ _ _ _ _ _ (Hd1 & Hd2 & Hd3 & Hd4) Hsc Hpar].
  unfold ProcessCopyRegion1. run_step. run_step.
  eapply returns_bind.
  - apply (returns_for_range_ret
      (fun k => copy_turn_post s d sp ext k None) (fun rc => copy_turn_post s d sp ext 0 (Some rc))); [lia|..].
    { exists (k_mem s). split; [by destruct s|done]. }
    intros k s1 Hk (m1 & -> & Hcu).
    eapply returns_mono; [by apply (copy_region1_page_ok s m1 d sp ext k)|]. by intros [rc|] s2.
  - intros [rc|] s1 (m1 & -> & Hp).
    + eapply returns_ok; [reflexivity|]. exists m1. split; [done|]. by right.
    + destruct (copy_finish _ _ _ _ _ Hd2 Hd4 Hsc Hp) as (m2 & Hm2 & Hcp).
      eapply wp_step; [reflexivity|]. simpl. rewrite (cf_region0 _ _ _ _ (cu_frame _ _ _ _ _ _ Hp)).
      eapply wp_step; [by apply in_mem_run|]. eapply wp_step; [apply in_mem_run; reflexivity|].
      eapply returns_ok; [reflexivity|]. eexists. split; [reflexivity|]. by left.
Qed.
End Copying.

(** ** Deciding the hypotheses on a concrete state *)

Section Deciding.
Context {F : Framework} {FL : FrameworkLaws F}.

Definition ram_check (m : mem) : Prop := map_Forall (fun _ b => 0 <= b < 256) (ram m).

Definition parent_check (m : mem) (sp : PCB) (ext : list Z) : Prop :=
  Forall (fun i => match table_entry m (region1_pt sp) i with
    | Some e => valid e = true -> pfn e ∈ ext /\ permits false (prot e) = true
    | None => False
    end) (seqZ 0 MAX_PT_LEN).

#[export] Instance ram_check_dec m : Decision (ram_check m).
Proof. unfold ram_check. apply _. Defined.
#[export] Instance parent_check_dec m sp ext : Decision (parent_check m sp ext).
Proof.
  unfold parent_check. apply Forall_dec. intros i. destruct (table_entry _ _ i); [|apply _].
  apply impl_dec; apply _.
Defined.

Lemma parent_check_sound m sp ext :
  parent_check m sp ext -> forall i, 0 <= i < MAX_PT_LEN ->
  exists e, table_entry m (region1_pt sp) i = Some e /\
    (valid e = true -> pfn e ∈ ext /\ permits false (prot e) = true).
Proof.
  intros Hc i Hi. unfold parent_check in Hc. rewrite Forall_forall in Hc.
  specialize (Hc i ltac:(apply elem_of_seqZ; lia)). destruct (table_entry _ _ i) as [e|]; [eauto|done].
Qed.

Lemma all_unmapped_sound m pt :
  Forall (fun e => valid e = false) (default [] (page_tables m !! pt)) -> all_unmapped m pt.
Proof.
  intros Hc i e. unfold table_entry. destruct (page_tables m !! pt) as [l|]; simpl in *; [|done].
  rewrite Forall_forall in Hc. intros He. apply zlookup_Some in He as [_ He].
  by eapply Hc, list_elem_of_lookup_2.
Qed.
End Deciding.

(** ** Witness: init's memory copied to a new process *)

Module CopyingWitness.
Import Booted.
#[local] Existing Instance tiny.
#[local] Existing Instance tiny_laws.
#[local] Existing Instance walking_mmu.
#[local] Existing Instance walking_mmu_laws.

(** [booted] after the first lines of [ProcessCreateChild]. *)
Definition with_child : outcome kst KernelContext Z := Eval vm_compute in
  (child ← calloc_pcb; pt ← in_mem MemoryAllocPageTable;
   upd_pcb child (set_region1_pt pt) ;; mret child : K Z) booted.
Definition child : Z := default 0 (result with_child).
Definition before : kst := Eval vm_compute in final with_child.
Definition others : list Z :=
  List.filter (used_b (k_mem before)) (seqZ 0 (physical_frame_count (k_mem before))).

Lemma before_ready : copy_ready (k_mem before) (pcb_of child before) (pcb_of init before) others.
Proof.
  split; try by vm_compute.
  - by_computing.
  - apply accounted_b_sound. by vm_compute.
  - apply all_unmapped_sound. by_computing.
  - by_computing.
  - apply parent_check_sound. by_computing.
Qed.

Lemma fork_copies_memory_witness :
  returns (ProcessCopyRegion1 child init) (fun rc s' => exists m', s' = set_k_mem m' before /\
    ((rc = SUCCESS /\ copied (k_mem before) m' (pcb_of child before) (pcb_of init before) others) \/
     (rc = ERROR /\ copy_undone (k_mem before) m' (pcb_of child before) (pcb_of init before) others))) before /\
  result (ProcessCopyRegion1 child init before) = Some SUCCESS.
Proof.
  split; [|vm_compute; reflexivity].
  apply (fork_copies_memory before child init (pcb_of child before) (pcb_of init before) others);
    [by vm_compute|by vm_compute|exact before_ready].
Defined.
End CopyingWitness.
