(* ===== verification/Delays.v ===== *)
(** * Delays ([SysDelay] of [syscalls.c], [ProcessWakeDelayed] of [process.c])

    A process that delays sleeps until the clock reaches the sum of the current tick and
    its argument.  The theorems: it sleeps exactly that long while the sum fits an
    [unsigned int]; when the sum wraps around it is woken at once, or, when it wraps to
    zero, which stands for no delay, never. *)

From S2P Require Import Prelude Framework Queue Memory Mmu KernelBrk BootMemory State Process Ipc.
From S2P Require Import Exit Tty Loader Syscalls Trap KernelStart Machine Scheduler Waiting Locks.

Section Delays.
Context {F : Framework} {T : Mmu} {FL : FrameworkLaws F}.

(** The PCB of the process that called [SysDelay] in state [s]. *)
Definition asleep (s : kst) (ticks : Z) (pcb : PCB) : PCB :=
  set_state PROC_BLOCKED (set_user_context (set_reg 0 (to_uint SUCCESS) (uctxt s))
    (set_delay_until (to_uint (clock_ticks s + ticks)) pcb)).

(** The state the scheduler is called in. *)
Definition fell_asleep (s : kst) (ticks : Z) (pcb : PCB) : kst :=
  set_pcbs (<[current_process s := asleep s ticks pcb]> (pcbs s)) s.

Lemma to_uint_id z : 0 <= z < 2 ^ 32 -> to_uint z = z.
Proof. intros. by apply Z.mod_small. Qed.

Lemma SysDelay_sleeps caller ticks s c pcb :
  proc_ok s c -> current_process s <> idle_process s -> pcbs s !! current_process s = Some pcb ->
  0 < ticks <= INT_MAX ->
  wp (SysDelay caller ticks) (fun _ _ => False)
    (fun kc s' => proc_ok (fell_asleep s ticks pcb) c /\
       scheduled_from (fell_asleep s ticks pcb) c (KCSys caller (InDelay (current_process s))) kc s')
    (fun _ _ => False) s.
Proof.
  intros Hpk Hidle Hp Ht. unfold INT_MAX in Ht.
  assert (Hcur : current_process s <> 0).
  { intros H0. by rewrite H0, (kq_nonnull _ _ (pk_kq _ _ Hpk)) in Hp. }
  unfold SysDelay. test_false (ticks <? 0). test_false (ticks =? 0).
  eapply wp_step; [reflexivity|]. eapply wp_step; [reflexivity|].
  test_false ((current_process s =? 0) || (current_process s =? idle_process s)).
  eapply wp_step; [reflexivity|]. eapply wp_step; [reflexivity|].
  eapply wp_step; [by apply (upd_pcb_run s _ pcb)|]. rewrite (to_uint_id ticks) by lia.
  change (set_pcbs _ s) with (fell_asleep s ticks pcb).
  assert (Hpk1 : proc_ok (fell_asleep s ticks pcb) c).
  { replace (fell_asleep s ticks pcb)
      with (with_sched (<[current_process s := asleep s ticks pcb]> (pcbs s)) (k_queues s) s) by (by destruct s).
    apply (proc_ok_insert s c _ pcb); [done..|].
    replace (with_sched _ _ s) with (fell_asleep s ticks pcb) by (by destruct s).
    apply (kq_ok_pcb s c _ pcb); [apply Hpk|done]. }
  eapply wp_mono; [by apply (ProcessSchedule_from _ c)|done| |done]. done.
Qed.

(** One look of the scheduler at a sleeping process [p]: awake, or as it was. *)
Definition looked_at (p : Z) (wakes : bool) (s : kst) (pcb : PCB) : Prop :=
  returns ProcessWakeDelayed (fun _ s' => exists c', kq_ok s' c' /\
    if wakes
    then pcbs s' !! p = Some (set_state PROC_READY (set_delay_until 0 pcb)) /\ queued c' (EReady p)
    else pcbs s' !! p = Some pcb) s.

Lemma wake_look s c p pcb wakes :
  kq_ok s c -> table_ok s -> p ∈ process_table s -> p <> idle_process s -> pcbs s !! p = Some pcb ->
  expired (clock_ticks s) pcb = wakes -> looked_at p wakes s pcb.
Proof.
  intros Hk Htab Hin Hidle Hp He. unfold looked_at. pose proof (ProcessWakeDelayed_ok s c Hk Htab) as Hw.
  destruct (spec_wake_effect (idle_process s) (clock_ticks s) (process_table s) (pcbs s, c)
    (kq_nonnull _ _ Hk) (kq_ready _ _ Hk)) as (Hpcb & _ & Hq).
  specialize (Hpcb p). rewrite decide_True in Hpcb by done. simpl in Hpcb. rewrite Hp in Hpcb. simpl in Hpcb.
  specialize (Hq p pcb Hin Hp). destruct (spec_wake _ _ _ _) as [P' c']. simpl in *.
  eapply returns_mono; [exact Hw|]. intros ? s' Hs. destruct (sim_fields _ _ _ _ Hs) as (HP & _).
  exists c'. split; [exact (sim_kq _ _ _ _ Hs)|]. rewrite HP, Hpcb. unfold woken. rewrite He.
  destruct wakes; [|done]. test_false (p =? idle_process s). auto.
Qed.

Lemma asleep_expired s ticks pcb kc t :
  expired t (set_kernel_context kc (asleep s ticks pcb)) =
    negb (to_uint (clock_ticks s + ticks) =? 0) && (to_uint (clock_ticks s + ticks) <=? t).
Proof. reflexivity. Qed.

(** The process that fell asleep in [s] still sleeps in a later state [s2]: its PCB is the one
    it fell asleep with, but for the kernel context that the switch saved. *)
Record sleeping (s : kst) (ticks : Z) (pcb : PCB) (s2 : kst) (c2 : qlists) (pcb2 : PCB) : Prop := {
  sl_kq : kq_ok s2 c2;
  sl_table : table_ok s2;
  sl_listed : current_process s ∈ process_table s2;
  sl_not_idle : current_process s <> idle_process s2;
  sl_pcb : pcbs s2 !! current_process s = Some pcb2;
  sl_asleep : exists kc, pcb2 = set_kernel_context kc (asleep s ticks pcb)
}.

(** C29: [Delay(n)] sleeps for [n] ticks.  A negative [n] is refused and 0 returns at once,
    both without any effect, and the idle process may not delay.  Any other caller is
    blocked with the tick at which it is due and the scheduler is run.  While the due tick
    does not wrap around, every later look of the scheduler leaves the caller as it is
    before that tick, and from that tick on makes it ready and queues it (it must be in the
    process table).  When it runs again the call returns SUCCESS in the saved context. *)
Theorem delay_until_due caller ticks s c pcb :
  let p := current_process s in
  proc_ok s c -> pcbs s !! p = Some pcb -> INT_MIN <= ticks <= INT_MAX ->
  if ticks <? 0 then SysDelay caller ticks s = Ok ERROR s
  else if ticks =? 0 then SysDelay caller ticks s = Ok SUCCESS s
  else if p =? idle_process s then SysDelay caller ticks s = Ok ERROR s
  else
    wp (SysDelay caller ticks) (fun _ _ => False)
      (fun kc s' => proc_ok (fell_asleep s ticks pcb) c /\
         scheduled_from (fell_asleep s ticks pcb) c (KCSys caller (InDelay p)) kc s')
      (fun _ _ => False) s /\
    (forall s2 c2 pcb2, sleeping s ticks pcb s2 c2 pcb2 -> 0 <= clock_ticks s -> clock_ticks s + ticks < 2 ^ 32 ->
       looked_at p (clock_ticks s + ticks <=? clock_ticks s2) s2 pcb2) /\
    (forall s2 pcb2, pcbs s2 !! p = Some pcb2 ->
       resume_sys caller (InDelay p) s2 = Ok SUCCESS (set_uctxt (user_context pcb2) s2)).
Proof.
  intros p Hpk Hp Ht.
  assert (Hcur : p <> 0) by (intros H0; by rewrite H0, (kq_nonnull _ _ (pk_kq _ _ Hpk)) in Hp).
  destruct (Z.ltb_spec ticks 0) as [Hneg|Hpos]; [unfold SysDelay; by test_true (ticks <? 0)|].
  destruct (Z.eqb_spec ticks 0) as [->|Hnz]; [done|].
  destruct (Z.eqb_spec p (idle_process s)) as [Heq|Hidle].
  - unfold SysDelay. test_false (ticks <? 0). test_false (ticks =? 0). unfold ProcessCurrent. rewrite !bind_gets.
    fold p. by test_true ((p =? 0) || (p =? idle_process s)).
  - split_and!.
    + apply SysDelay_sleeps; [done..|lia].
    + intros s2 c2 pcb2 [Hk2 Htab2 Hin Hid2 Hp2 [kc ->]] H0 Hmax. eapply wake_look; [done..|].
      rewrite asleep_expired, to_uint_id by lia. by test_false (clock_ticks s + ticks =? 0).
    + intros s2 pcb2 Hp2. unfold resume_sys, load_user_context, mbind, M_bind.
      by rewrite (get_pcb_run _ _ _ Hp2).
Qed.

(** C34: the due tick wraps around.  [clock_ticks + ticks] is an [unsigned int]: when the sum
    is 2^32 the caller's [delay_until] becomes 0, which means that there is no delay, and no
    look of the scheduler at any later tick ever wakes it; when the sum is larger, the due
    tick is already in the past, and the very call of the scheduler that should put the
    caller to sleep finds it expired. *)
Theorem delay_wraps_around caller ticks s c pcb :
  let p := current_process s in
  proc_ok s c -> pcbs s !! p = Some pcb -> p <> idle_process s -> p ∈ process_table s ->
  0 < ticks <= INT_MAX -> clock_ticks s < 2 ^ 32 <= clock_ticks s + ticks ->
  wp (SysDelay caller ticks) (fun _ _ => False)
    (fun kc s' => scheduled_from (fell_asleep s ticks pcb) c (KCSys caller (InDelay p)) kc s')
    (fun _ _ => False) s /\
  if clock_ticks s + ticks =? 2 ^ 32
  then forall s2 c2 pcb2, sleeping s ticks pcb s2 c2 pcb2 -> looked_at p false s2 pcb2
  else looked_at p true (fell_asleep s ticks pcb) (asleep s ticks pcb).
Proof.
  intros p Hpk Hp Hidle Hin Ht Hwrap. pose proof (SysDelay_sleeps caller ticks s c pcb Hpk Hidle Hp Ht) as Hs.
  split; [eapply wp_mono; [exact Hs|done|by intros ? ? [_ ?]|done]|]. unfold INT_MAX in Ht.
  assert (Hd : to_uint (clock_ticks s + ticks) = clock_ticks s + ticks - 2 ^ 32).
  { unfold to_uint. rewrite <- (Z.mod_small (clock_ticks s + ticks - 2 ^ 32) (2 ^ 32)) by lia.
    by rewrite <- (Z_mod_plus_full (clock_ticks s + ticks - 2 ^ 32) 1), Z.mul_1_l, Z.sub_add. }
  destruct (Z.eqb_spec (clock_ticks s + ticks) (2 ^ 32)) as [Heq|Hne].
  - intros s2 c2 pcb2 [Hk2 Htab2 Hin2 Hid2 Hp2 [kc ->]]. eapply wake_look; [done..|]. by rewrite asleep_expired, Hd, Heq.
  - destruct Hpk as [Hk Htab _ _]. eapply (wake_look _ c).
    + by apply (kq_ok_pcb s c p pcb).
    + destruct Htab as [Hlen Htab]. split; [done|]. intros q Hq. destruct (Htab q Hq) as [?|Hs1]; [by left|right].
      simpl. destruct (decide (p = q)) as [<-|?]; [unfold p; rewrite lookup_insert_eq; eauto|by rewrite lookup_insert_ne].
    + done.
    + done.
    + simpl. by rewrite lookup_insert_eq.
    + pose proof (asleep_expired s ticks pcb (kernel_context pcb) (clock_ticks s)) as He. rewrite Hd in He.
      etransitivity; [exact He|]. apply andb_true_iff. split; [apply negb_true_iff; lia|lia].
Qed.
End Delays.

(** ** Witnesses *)

Module DelaysWitness.
Import Booted.
#[local] Existing Instance tiny.
#[local] Existing Instance tiny_laws.
#[local] Existing Instance walking_mmu.

Definition lists0 : qlists := lists_of (k_queues booted).
Definition the_pcb : PCB := pcb_of init booted.

(** Init delays for two ticks from [booted]; the idle process runs, and the clock says 2. *)
Definition due : kst := Eval vm_compute in
  set_clock_ticks 2 (match (SysDelay init 2 : K Z) booted with Jump _ s => s | _ => booted end).
Definition lists2 : qlists := lists_of (k_queues due).

(** The clock is about to wrap. *)
Definition late : kst := Eval vm_compute in set_clock_ticks (2 ^ 32 - 1) booted.
Definition dozing : kst := Eval vm_compute in
  match (SysDelay init 1 : K Z) late with Jump _ s => s | _ => late end.
Definition lists3 : qlists := lists_of (k_queues dozing).

Lemma idle_free_proc : proc_ok booted lists0.
Proof. apply proc_check_sound; by_computing. Qed.
Lemma late_proc : proc_ok late lists0.
Proof. apply proc_check_sound; by_computing. Qed.

Lemma due_sleeping : sleeping booted 2 the_pcb due lists2 (pcb_of init due).
Proof.
  split; [apply kq_check_sound; by_computing| |by_computing|by vm_compute..|].
  - split; [reflexivity|]. rewrite <- Forall_forall. by_computing.
  - by exists (kernel_context (pcb_of init due)).
Qed.
Lemma dozing_sleeping : sleeping late 1 (pcb_of init late) dozing lists3 (pcb_of init dozing).
Proof.
  split; [apply kq_check_sound; by_computing| |by_computing|by vm_compute..|].
  - split; [reflexivity|]. rewrite <- Forall_forall. by_computing.
  - by exists (kernel_context (pcb_of init dozing)).
Qed.

Lemma delay_until_due_witness :
  SysDelay init (-3) booted = Ok ERROR booted /\
  wp (SysDelay init 2) (fun _ _ => False)
    (fun kc s' => proc_ok (fell_asleep booted 2 the_pcb) lists0 /\
       scheduled_from (fell_asleep booted 2 the_pcb) lists0 (KCSys init (InDelay init)) kc s')
    (fun _ _ => False) booted /\
  looked_at init true due (pcb_of init due).
Proof.
  assert (Hp : pcbs booted !! init = Some the_pcb) by by vm_compute.
  split; [exact (delay_until_due init (-3) booted lists0 the_pcb idle_free_proc Hp ltac:(by vm_compute))|].
  destruct (delay_until_due init 2 booted lists0 the_pcb idle_free_proc Hp ltac:(by vm_compute)) as (Hs & Hl & _).
  split; [exact Hs|].
  exact (Hl due lists2 (pcb_of init due) due_sleeping ltac:(by vm_compute) ltac:(by vm_compute)).
Defined.

Lemma delay_wraps_around_witness :
  looked_at init false dozing (pcb_of init dozing) /\
  looked_at init true (fell_asleep late 2 (pcb_of init late)) (asleep late 2 (pcb_of init late)).
Proof.
  assert (Hp : pcbs late !! init = Some (pcb_of init late)) by by vm_compute.
  assert (Hi : init <> idle_process late) by by vm_compute.
  assert (Hin : init ∈ process_table late) by by_computing.
  assert (H1 : (clock_ticks late + 1 =? 2 ^ 32) = true) by by vm_compute.
  assert (H2 : (clock_ticks late + 2 =? 2 ^ 32) = false) by by vm_compute.
  split.
  - destruct (delay_wraps_around init 1 late lists0 (pcb_of init late) late_proc Hp Hi Hin
      ltac:(by vm_compute) ltac:(by vm_compute)) as [_ H]. rewrite H1 in H.
    exact (H dozing lists3 (pcb_of init dozing) dozing_sleeping).
  - destruct (delay_wraps_around init 2 late lists0 (pcb_of init late) late_proc Hp Hi Hin
      ltac:(by vm_compute) ltac:(by vm_compute)) as [_ H]. rewrite H2 in H. exact H.
Defined.
End DelaysWitness.
