(* ===== verification/Cloning.v ===== *)
(** * Cloning a kernel thread ([ProcessCloneKernelContext], [KCCopy] of [process.c])

    Fork and boot give a new process a copy of the kernel stack of the running one,
    through the scratch page, and the kernel context of the caller.  The theorem: the
    child's stack frames get the bytes the stack has at its virtual address, nothing else
    changes, and control goes on in the caller's context. *)

From S2P Require Import Prelude Framework Queue Memory Mmu UserBytes KernelBrk BootMemory State Process.
From S2P Require Import Ipc Exit Tty Loader Syscalls Trap KernelStart Machine Scheduler Waiting Locks Copying.

Section Cloning.
Context {F : Framework} {T : Mmu} {FL : FrameworkLaws F} {TL : MmuLaws T}.

(** Page [i] of the kernel stack. *)
Definition stack_addr (i : Z) : Z := KERNEL_STACK_BASE + i * PAGESIZE.

(** The frame behind it. *)
Definition stack_frame (m : mem) (i : Z) : option Z :=
  pfn <$> table_entry m (kernel_region0_pt m) (stack_base_page + i).

(** The kernel runs on its stack, and process [p] with PCB [pcb] has two frames of its own. *)
Record clone_ready (s : kst) (p : Z) (pcb : PCB) : Prop := {
  cl_pcb : pcbs s !! p = Some pcb;
  cl_vm : vm_enabled (k_mem s) = true;
  cl_ram : ram_ok (k_mem s);
  cl_region0 : ptbr0 (k_mem s) = kernel_region0_pt (k_mem s) /\ kernel_region0_pt (k_mem s) <> 0;
  cl_scratch : is_Some (table_entry (k_mem s) (kernel_region0_pt (k_mem s)) scratch_page);
  cl_stack : forall i, 0 <= i < 2 -> exists e,
    table_entry (k_mem s) (kernel_region0_pt (k_mem s)) (stack_base_page + i) = Some e /\
    valid e = true /\ permits false (prot e) = true /\
    0 <= pfn e < physical_frame_count (k_mem s) /\ pfn e ∉ kernel_stack_pfns pcb;
  cl_frames : length (kernel_stack_pfns pcb) = 2%nat /\ NoDup (kernel_stack_pfns pcb) /\
    Forall (fun f => 0 <= f < physical_frame_count (k_mem s)) (kernel_stack_pfns pcb)
}.

(** What copying the stack into the frames [fs] leaves alone. *)
Record clone_frame (m m' : mem) (fs : list Z) : Prop := {
  cn_frames : frame_allocated m' = frame_allocated m /\ physical_frame_count m' = physical_frame_count m;
  cn_region0 : kernel_region0_pt m' = kernel_region0_pt m;
  cn_regs : ptbr0 m' = ptbr0 m /\ ptbr1 m' = ptbr1 m /\ vm_enabled m' = vm_enabled m;
  cn_tables : forall pt, pt <> kernel_region0_pt m -> page_tables m' !! pt = page_tables m !! pt;
  cn_entries : forall j, j <> scratch_page ->
    table_entry m' (kernel_region0_pt m) j = table_entry m (kernel_region0_pt m) j;
  cn_bytes : forall g, g ∉ fs -> frame_bytes m' g = frame_bytes m g;
  cn_ram : ram_ok m'
}.

(** After the pages below [k]. *)
Definition cloned_upto (m m' : mem) (fs : list Z) (k : Z) : Prop :=
  clone_frame m m' fs /\ is_Some (table_entry m' (kernel_region0_pt m) scratch_page) /\
  forall i f, 0 <= i < k -> zlookup fs i = Some f ->
    frame_bytes m' f = user_bytes m (stack_addr i) PAGESIZE.

Lemma stack_addr_page i : stack_addr i = (stack_base_page + i) * PAGESIZE.
Proof. unfold stack_addr. rewrite kstack_aligned. fold stack_base_page. lia. Qed.

Lemma stack_page_at m i e :
  ptbr0 m = kernel_region0_pt m -> 0 <= i < 2 -> valid e = true -> 0 <= pfn e < physical_frame_count m ->
  table_entry m (kernel_region0_pt m) (stack_base_page + i) = Some e -> page_at m (stack_addr i) e.
Proof.
  intros H0 Hi Hv Hf He. pose proof stack_base_bounds as [? ?]. rewrite stack_addr_page.
  apply region0_page_at; [done|lia|done..].
Qed.

Lemma clone_frame_scratch m m1 fs f r :
  clone_frame m m1 fs -> is_Some (table_entry m1 (kernel_region0_pt m) scratch_page) -> f ∈ fs ->
  (forall g, g <> f -> frame_bytes (set_ram r (scratch_mapped f m1)) g = frame_bytes m1 g) ->
  ram_ok (set_ram r (scratch_mapped f m1)) ->
  clone_frame m (set_ram r (scratch_mapped f m1)) fs /\
  is_Some (table_entry (set_ram r (scratch_mapped f m1)) (kernel_region0_pt m) scratch_page).
Proof.
  intros [[Hfr Hct] Hr0 (Hp0 & Hp1 & Hvm) Htb Hen Hby Hram] Hsc Hin Hb Hok.
  pose proof (page_changed_outside (kernel_region0_pt m1) scratch_page
    (mkPte true (Z.lor PROT_READ PROT_WRITE) f) m1) as Ho. fold (scratch_mapped f m1) in Ho.
  assert (Hent : forall j, table_entry (scratch_mapped f m1) (kernel_region0_pt m) j =
    if decide (scratch_page = j) then Some (mkPte true (Z.lor PROT_READ PROT_WRITE) f)
    else table_entry m1 (kernel_region0_pt m) j).
  { intros j. rewrite <- Hr0. apply table_entry_changed. by rewrite Hr0. }
  split; [|change (table_entry (set_ram r ?x)) with (table_entry x); rewrite Hent, decide_True by done; eauto].
  split; simpl.
  - split; [|by rewrite (out_count _ _ _ Ho)]. rewrite <- Hfr. apply page_changed_frames.
  - by rewrite (out_region0 _ _ _ Ho).
  - by rewrite (out_ptbr0 _ _ _ Ho), (out_ptbr1 _ _ _ Ho), (out_vm _ _ _ Ho).
  - intros pt Hpt. rewrite (out_tables _ _ _ Ho) by congruence. auto.
  - intros j Hj. change (table_entry (set_ram r ?x)) with (table_entry x). rewrite Hent, decide_False by done. auto.
  - intros g Hg. rewrite Hb by (intros ->; done). auto.
  - done.
Qed.

(** One turn of [KCCopy]. *)
Lemma clone_turn m m1 fs k f e :
  ptbr0 m = kernel_region0_pt m -> kernel_region0_pt m <> 0 -> vm_enabled m = true ->
  0 <= k < 2 -> zlookup fs k = Some f -> NoDup fs -> 0 <= f < physical_frame_count m ->
  table_entry m (kernel_region0_pt m) (stack_base_page + k) = Some e -> valid e = true ->
  permits false (prot e) = true -> 0 <= pfn e < physical_frame_count m -> pfn e ∉ fs ->
  cloned_upto m m1 fs k ->
  exists m2 r, MemoryMapPage (kernel_region0_pt m) scratch_page f (Z.lor PROT_READ PROT_WRITE) m1 = Ok SUCCESS m2 /\
    memcpy scratch_addr (stack_addr k) PAGESIZE m2 = Ok tt (set_ram r m2) /\
    cloned_upto m (set_ram r m2) fs (k + 1).
Proof.
  intros H0 Hnz Hvm Hk Hf Hnd Hfr He Hv Hp Hpe Hne (Hcf & Hsc & Hby).
  pose proof Hcf as [[_ Hct] Hr0 (Hp0 & _ & Hvm1) _ Hen Hkeep Hram]. pose proof scratch_bounds as [_ Hsb].
  assert (Hin : f ∈ fs) by (by apply zlookup_Some in Hf as [_ ?%list_elem_of_lookup_2]).
  assert (Ho : outside m1 (scratch_mapped f m1) (kernel_region0_pt m1)) by apply page_changed_outside.
  destruct (copy_via_scratch m1 f (stack_addr k) e) as (r & Hmap & Hcpy & Hbf & Hbo & Hro);
    rewrite ?Hr0, ?Hct, ?Hp0, ?Hvm1; try done.
  { apply stack_page_at; [by rewrite (out_ptbr0 _ _ _ Ho), (out_region0 _ _ _ Ho), Hp0, Hr0|done..| |].
    - by rewrite (out_count _ _ _ Ho), Hct.
    - rewrite (out_region0 _ _ _ Ho), Hr0. unfold scratch_mapped. rewrite <- Hr0.
      rewrite table_entry_changed by by rewrite Hr0. rewrite decide_False by lia. rewrite Hr0. by rewrite Hen by lia. }
  rewrite Hr0 in Hmap. exists (scratch_mapped f m1), r. split; [done|]. split; [done|].
  destruct (clone_frame_scratch m m1 fs f r Hcf Hsc Hin Hbo Hro) as [Hcf2 Hsc2].
  split; [done|]. split; [done|]. intros i g Hi Hg. destruct (decide (i = k)) as [->|Hik].
  - rewrite Hf in Hg. injection Hg as <-. rewrite Hbf, Hkeep by done. symmetry.
    by apply user_bytes_page, stack_page_at.
  - rewrite Hbo; [apply Hby; [lia|done]|]. intros ->. apply zlookup_Some in Hf as [_ Hf], Hg as [_ Hg].
    apply Hik. pose proof (NoDup_lookup _ _ _ _ Hnd Hf Hg). lia.
Qed.

(** The copy is complete: the new frames hold the stack, the scratch page is unmapped. *)
Record stack_cloned (m m' : mem) (fs : list Z) : Prop := {
  sc_frame : clone_frame m m' fs;
  sc_bytes : forall i f, 0 <= i < 2 -> zlookup fs i = Some f ->
    frame_bytes m' f = user_bytes m (stack_addr i) PAGESIZE;
  sc_scratch : table_entry m' (kernel_region0_pt m) scratch_page = Some (mkPte false PROT_NONE 0)
}.

Lemma clone_finish m m1 fs :
  kernel_region0_pt m <> 0 -> cloned_upto m m1 fs 2 ->
  exists m2, MemoryUnmapPage (kernel_region0_pt m) scratch_page m1 = Ok tt m2 /\
    kernel_region0_pt m2 = kernel_region0_pt m /\
    stack_cloned m (write_reg REG_TLB_FLUSH TLB_FLUSH_KSTACK m2) fs.
Proof.
  intros Hnz (Hcf & Hsc & Hby). pose proof scratch_bounds as [Hsb _].
  pose proof Hcf as [[Hfr Hct] Hr0 (Hp0 & Hp1 & Hvm) Htb Hen Hkeep Hram].
  eexists. split; [by apply MemoryUnmapPage_run|].
  set (m2 := page_changed _ _ _ m1). assert (Ho : outside m1 m2 (kernel_region0_pt m)) by apply page_changed_outside.
  split; [by rewrite (out_region0 _ _ _ Ho)|].
  assert (Hb2 : forall g, frame_bytes (write_reg REG_TLB_FLUSH TLB_FLUSH_KSTACK m2) g = frame_bytes m1 g).
  { intros g. unfold frame_bytes. simpl. by rewrite (out_ram _ _ _ Ho). }
  assert (Hent : forall j, table_entry (write_reg REG_TLB_FLUSH TLB_FLUSH_KSTACK m2) (kernel_region0_pt m) j =
    if decide (scratch_page = j) then Some (mkPte false PROT_NONE 0) else table_entry m1 (kernel_region0_pt m) j).
  { intros j. by apply (table_entry_changed (kernel_region0_pt m) scratch_page). }
  split; [split| |].
  - simpl. split; [|by rewrite (out_count _ _ _ Ho)]. rewrite <- Hfr. apply page_changed_frames.
  - simpl. by rewrite (out_region0 _ _ _ Ho).
  - simpl. by rewrite (out_ptbr0 _ _ _ Ho), (out_ptbr1 _ _ _ Ho), (out_vm _ _ _ Ho).
  - simpl. intros pt Hpt. rewrite (out_tables _ _ _ Ho) by done. auto.
  - intros j Hj. rewrite Hent, decide_False by done. auto.
  - intros g Hg. rewrite Hb2. auto.
  - unfold ram_ok. simpl. by rewrite (out_ram _ _ _ Ho).
  - intros i f Hi Hf. rewrite Hb2. auto.
  - by rewrite Hent, decide_True.
Qed.

Lemma KCCopy_ok s kc p pcb :
  clone_ready s p pcb ->
  returns (KCCopy kc p) (fun kc' s' => kc' = kc /\ exists m',
    s' = set_k_mem m' (set_pcbs (<[p := set_kernel_context kc pcb]> (pcbs s)) s) /\
    stack_cloned (k_mem s) m' (kernel_stack_pfns pcb)) s.
Proof.
  intros [Hp Hvm Hram [H0 Hnz] Hsc Hst (Hlen & Hnd & Hfs)]. set (m := k_mem s) in *. set (fs := kernel_stack_pfns pcb) in *.
  unfold KCCopy. eapply wp_step; [by apply (upd_pcb_run s p pcb)|].
  set (P := <[p := set_kernel_context kc pcb]> (pcbs s)). rewrite kstack_pages.
  assert (HpP : P !! p = Some (set_kernel_context kc pcb)) by apply lookup_insert_eq.
  eapply returns_bind.
  { apply (returns_for_range (fun k s1 => exists m1, s1 = set_k_mem m1 (set_pcbs P s) /\ cloned_upto m m1 fs k)); [lia|..].
    - exists m. split; [by destruct s|]. split; [by split|]. split; [done|lia].
    - intros k s1 Hk (m1 & -> & Hcl). destruct (zlookup_is_Some fs k) as [f Hf]; [lia|].
      destruct (Hst k Hk) as (e & He & Hv & Hpe & Hfe & Hne).
      assert (Hfr : 0 <= f < physical_frame_count m).
      { rewrite Forall_forall in Hfs. apply Hfs. by apply zlookup_Some in Hf as [_ ?%list_elem_of_lookup_2]. }
      destruct (clone_turn m m1 fs k f e) as (m2 & r & Hmap & Hcpy & Hnext); try done.
      eapply wp_step; [reflexivity|]. simpl. rewrite (cn_region0 _ _ _ (proj1 Hcl)).
      eapply wp_step.
      { unfold stack_pfn. rewrite (bind_ok _ _ _ _ _ (get_pcb_run (set_k_mem m1 (set_pcbs P s)) p _ HpP)). simpl. fold fs. by rewrite Hf. }
      eapply wp_step; [by apply in_mem_run|]. eapply returns_ok; [by apply in_mem_run|]. by eexists. }
  intros ? s1 (m1 & -> & Hcl). destruct (clone_finish m m1 fs Hnz Hcl) as (m2 & Hun & Hr2 & Hsd).
  eapply wp_step; [reflexivity|]. simpl. rewrite (cn_region0 _ _ _ (proj1 Hcl)).
  eapply wp_step; [by apply in_mem_run|]. eapply wp_step; [apply in_mem_run; reflexivity|].
  eapply returns_ok; [reflexivity|]. split; [done|]. eexists. split; [reflexivity|done].
Qed.

(** C12: a cloned kernel thread has the caller's stack.  Unless the machine refuses the context
    switch (then ERROR is returned and nothing has changed), [ProcessCloneKernelContext]
    saves the caller's context in the new process and copies, page by page, the bytes
    the kernel stack has at its virtual address into the two frames of the new process;
    the bytes of every other frame, the frame table, all page tables and registers are as
    before, but for the scratch page, which ends unmapped; and the caller goes on. *)
Theorem clone_copies_kernel_stack s kc p pcb :
  clone_ready s p pcb ->
  let s0 := set_k_mem (add_log EvSwitch (k_mem s)) s in
  wp (ProcessCloneKernelContext p kc)
    (fun rc s' => switch_fails (log (k_mem s)) = true /\ rc = ERROR /\ s' = s0)
    (fun kc' s' => switch_fails (log (k_mem s)) = false /\ kc' = kc /\ exists m',
       s' = set_k_mem m' (set_pcbs (<[p := set_kernel_context kc pcb]> (pcbs s)) s) /\
       stack_cloned (k_mem s0) m' (kernel_stack_pfns pcb))
    (fun _ _ => False) s.
Proof.
  intros Hcl s0. unfold ProcessCloneKernelContext, KernelContextSwitch.
  eapply wp_step; [reflexivity|]. eapply wp_step; [reflexivity|]. fold s0.
  destruct (switch_fails (log (k_mem s))); [by eapply wp_ok|].
  assert (Hcl0 : clone_ready s0 p pcb) by by destruct Hcl.
  eapply returns_then; [by apply (KCCopy_ok s0 kc p pcb)|].
  intros kc' s' (-> & m' & -> & Hsd). unfold wp, jump. split; [done|]. split; [done|]. by exists m'.
Qed.
End Cloning.

(** ** Witness: the stack of init cloned for a new child *)

Module CloningWitness.
Import Booted.
#[local] Existing Instance tiny.
#[local] Existing Instance tiny_laws.
#[local] Existing Instance walking_mmu.
#[local] Existing Instance walking_mmu_laws.

Definition creation : outcome kst KernelContext Z := Eval vm_compute in ProcessCreateChild init booted.
Definition child : Z := default 0 (result creation).
Definition created : kst := Eval vm_compute in final creation.
Definition kc0 : KernelContext := KCSys init (InFork child).

Definition stack_check (m : mem) (fs : list Z) : Prop :=
  Forall (fun i => match table_entry m (kernel_region0_pt m) (stack_base_page + i) with
    | Some e => valid e = true /\ permits false (prot e) = true /\
        0 <= pfn e < physical_frame_count m /\ pfn e ∉ fs
    | None => False
    end) [0; 1].
#[local] Instance stack_check_dec m fs : Decision (stack_check m fs).
Proof. apply Forall_dec. intros i. destruct (table_entry _ _ _); apply _. Defined.

Lemma created_ready : clone_ready created child (pcb_of child created).
Proof.
  split; try by vm_compute.
  - by_computing.
  - by_computing.
  - assert (Hc : stack_check (k_mem created) (kernel_stack_pfns (pcb_of child created))) by by_computing.
    unfold stack_check in Hc. rewrite Forall_forall in Hc. intros i Hi.
    specialize (Hc i ltac:(apply list_elem_of_In; simpl; lia)). destruct (table_entry _ _ _) as [e|]; [eauto|done].
  - split_and!; by_computing.
Qed.

Lemma clone_copies_kernel_stack_witness :
  let s0 := set_k_mem (add_log EvSwitch (k_mem created)) created in
  wp (ProcessCloneKernelContext child kc0)
    (fun rc s' => switch_fails (log (k_mem created)) = true /\ rc = ERROR /\ s' = s0)
    (fun kc' s' => switch_fails (log (k_mem created)) = false /\ kc' = kc0 /\ exists m',
       s' = set_k_mem m' (set_pcbs (<[child := set_kernel_context kc0 (pcb_of child created)]> (pcbs created)) created) /\
       stack_cloned (k_mem s0) m' (kernel_stack_pfns (pcb_of child created)))
    (fun _ _ => False) created /\ kernel_stack_pfns (pcb_of child created) <> [0; 0].
Proof.
  split; [|by vm_compute].
  apply (clone_copies_kernel_stack created kc0 child (pcb_of child created) created_ready).
Defined.
End CloningWitness.
