(* ===== verification/Receiving.v ===== *)
(** * Terminal input ([TrapTtyReceive] of [tty.c])

    A typed line becomes a [TtyLine] of its own, which goes to the process that has waited
    longest for one, or to the back of the terminal's input queue. *)

From S2P Require Import Prelude Framework Queue Memory Mmu UserBytes KernelBrk BootMemory State Process Ipc.
From S2P Require Import Exit Tty Loader Syscalls Trap KernelStart Machine Scheduler Waiting Locks Pipes Terminals.

(** ** Entries that come and go *)

(** The entry of a new line, not yet in any queue. *)
Lemma kq_init_line s c l :
  kq_ok s c -> ~ queued c (ELine l) ->
  exists h, (in_queues (QueueEntryInit (ELine l) l) : K unit) s = Ok tt (set_k_queues h s) /\
    kq_ok (set_k_queues h s) c /\ owner_of h (QEnt (ELine l)) = Some l.
Proof.
  intros Hk Hq. destruct (QueueEntryInit_ok _ _ (ELine l) l (kq_abs _ _ Hk) Hq) as (h & Hr & Ha & Ho & Hoth).
  exists h. split; [by apply in_queues_run|]. split; [|done]. destruct Hk as [_ Hf Hl Hown Hn Hrd].
  split; simpl; try done. intros p e Hp He. rewrite Hoth; [by apply Hown|]. by intros ->.
Qed.

Lemma kq_push_line s c t q l :
  kq_ok s c -> c !! QTtyInput t = Some q -> ~ queued c (ELine l) -> owner_of (k_queues s) (QEnt (ELine l)) = Some l ->
  exists h, (in_queues (QueuePushBack (QTtyInput t) (ELine l)) : K unit) s = Ok tt (set_k_queues h s) /\
    kq_ok (set_k_queues h s) (spec_push (QTtyInput t) (ELine l) c) /\ owner_of h (QEnt (ELine l)) = Some l.
Proof.
  intros Hk Hq Hnq Hown.
  assert (Hcell : cell_of (k_queues s) (ELine l)).
  { unfold cell_of. unfold owner_of in Hown. destruct (cells (k_queues s) !! QEnt (ELine l)); [eauto|done]. }
  destruct (QueuePushBack_ok _ _ _ q (ELine l) (kq_abs _ _ Hk) Hq Hcell Hnq) as (h & Hr & Ha & Ho).
  exists h. split; [by apply in_queues_run|]. split; [|by rewrite (Ho (ELine l))].
  assert (Hc : spec_push (QTtyInput t) (ELine l) c = <[QTtyInput t := q ++ [ELine l]]> c).
  { unfold spec_push. by rewrite (alter_Some _ _ _ _ Hq). }
  assert (Hin : forall q' l' e, <[QTtyInput t := q ++ [ELine l]]> c !! q' = Some l' -> e ∈ l' ->
    (exists l0, c !! q' = Some l0 /\ e ∈ l0) \/ q' = QTtyInput t /\ e = ELine l).
  { intros q' l' e. destruct (decide (QTtyInput t = q')) as [<-|?].
    - rewrite lookup_insert_eq. intros [= <-] [?| ->%list_elem_of_singleton]%elem_of_app; eauto.
    - rewrite lookup_insert_ne by done. eauto. }
  rewrite Hc. destruct Hk as [_ Hf Hl Howner Hn Hrd]. split; simpl; [done|..|done|].
  - intros q' l' e Hq' He. destruct (Hin q' l' e Hq' He) as [(l0 & Hl0 & ?)|[-> ->]]; [by eapply Hf|done].
  - intros q' l' e p Hq' He Hp. destruct (Hin q' l' e Hq' He) as [(l0 & Hl0 & ?)|[-> ->]]; [by eapply Hl|done].
  - intros p e Hp He. rewrite (Ho e). by apply Howner.
  - by rewrite lookup_insert_ne.
Qed.

(** The entry of a line that is freed. *)
Lemma kq_forget_line s c l :
  kq_ok s c -> ~ queued c (ELine l) ->
  exists h, (forget [] [ELine l] : K unit) s = Ok tt (set_k_queues h s) /\ kq_ok (set_k_queues h s) c.
Proof.
  intros [[Hr Hlen Hnd Hd Hu] Hf Hl Howner Hn Hrd] Hq. eexists. split; [reflexivity|].
  assert (Hne : forall a, a <> QEnt (ELine l) -> delete (QEnt (ELine l)) (cells (k_queues s)) !! a = cells (k_queues s) !! a).
  { intros a Ha. by rewrite lookup_delete_ne. }
  split; simpl; try done.
  - split; simpl; try done.
    + intros q l0 Hql. eapply linked_frame; [| |by apply Hr];
      intros a [->|(x & -> & Hx)%list_elem_of_fmap]%elem_of_cons; unfold nxt, prv; simpl; rewrite Hne; try done;
      intros [= ->]; apply Hq; by exists q, l0.
    + intros e He. unfold nxt, prv. simpl. destruct (decide (QEnt (ELine l) = (QEnt e : qaddr qid eid))) as [Heq|?].
      * by rewrite <- Heq, lookup_delete_eq.
      * rewrite Hne by congruence. by apply Hu.
  - intros p e Hp He. unfold owner_of. simpl. rewrite Hne by (intros [= ->]; done). by apply Howner.
Qed.

Section Receiving.
Context {F : Framework} {T : Mmu} {FL : FrameworkLaws F}.

Lemma calloc_line_run s r m' :
  kmalloc (sizeof "TtyLine") (k_mem s) = Ok r m' ->
  calloc_line s = match r with
    | None => Ok 0 (set_k_mem m' s)
    | Some l => Ok l (set_tty_lines
        (<[l := mkTtyLine 0 0 (replicate (Z.to_nat TERMINAL_MAX_LINE) 0)]> (tty_lines s)) (set_k_mem m' s))
    end.
Proof. intros Hr. unfold calloc_line. rewrite (bind_ok _ _ _ _ _ (in_mem_run _ _ _ _ Hr)). by destruct r. Qed.

(** The PCB of a reader that is handed line [l]. *)
Definition handed (l : Z) (p : PCB) : PCB := set_tty_read_line l (set_block_queue None p).

(** Where a new line [l] goes: to the first reader, who becomes ready, or to the input queue. *)
Definition spec_deliver (idle t l : Z) (st : gmap Z PCB * qlists) : gmap Z PCB * qlists :=
  match st.2 !! QTtyRead t with
  | Some (EBlock r :: rest) =>
      spec_make_ready idle r (alter (handed l) r st.1, <[QTtyRead t := rest]> st.2)
  | _ => (st.1, spec_push (QTtyInput t) (ELine l) st.2)
  end.

(** The end of [TrapTtyReceive], with the line filled. *)
Lemma deliver_ok s c t l readers q :
  kq_ok s c -> c !! QTtyRead t = Some readers -> c !! QTtyInput t = Some q ->
  ~ queued c (ELine l) -> owner_of (k_queues s) (QEnt (ELine l)) = Some l ->
  let '(P', c') := spec_deliver (idle_process s) t l (pcbs s, c) in
  returns (empty ← in_queues (QueueIsEmpty (QTtyRead t));
    if negb empty then
      entry ← in_queues (QueuePopFront (QTtyRead t));
      a ← deref "null entry" entry;
      reader ← entry_owner a;
      upd_pcb reader (set_tty_read_line l ∘ set_block_queue None) ;;
      ProcessMakeReady reader
    else in_queues (QueuePushBack (QTtyInput t) (ELine l)) : K unit)
    (fun _ s' => sim s s' c' P') s.
Proof.
  intros Hk Hr Hi Hnq Hown. unfold spec_deliver. simpl. rewrite Hr. destruct readers as [|e rest].
  - destruct (kq_push_line s c t q l Hk Hi Hnq Hown) as (h & Hpush & Hk' & _).
    eapply wp_step; [apply in_queues_run, (QueueIsEmpty_ok _ _ _ _ (kq_abs _ _ Hk) Hr)|].
    replace (set_k_queues (k_queues s) s) with s by (by destruct s). simpl.
    eapply returns_ok; [exact Hpush|]. exists h. split; [by destruct s|done].
  - destruct (wait_queue_entry s c (QTtyRead t) _ e Hk I Hr) as [r ->]; [set_solver|].
    destruct (kq_pop s c (QTtyRead t) (EBlock r) rest r Hk Hr eq_refl) as (h & Hpop & Howner & Hk' & _ & [p Hp]).
    rewrite (alter_Some _ _ _ _ Hp). set (P1 := <[r:=handed l p]> (pcbs s)). set (s1 := set_k_queues h s) in *.
    assert (Hk1 : kq_ok (set_pcbs P1 s1) (<[QTtyRead t:=rest]> c)) by (by apply (kq_ok_pcb s1 _ r p)).
    pose proof (ProcessMakeReady_ok (set_pcbs P1 s1) _ r Hk1) as Hmr.
    change (idle_process (set_pcbs P1 s1)) with (idle_process s) in Hmr.
    change (pcbs (set_pcbs P1 s1)) with P1 in Hmr.
    destruct (spec_make_ready _ _ _) as [P' c'].
    eapply wp_step; [apply in_queues_run, (QueueIsEmpty_ok _ _ _ _ (kq_abs _ _ Hk) Hr)|].
    replace (set_k_queues (k_queues s) s) with s by (by destruct s). simpl.
    eapply wp_step; [exact Hpop|]. eapply wp_step; [reflexivity|]. eapply wp_step; [exact Howner|].
    eapply wp_step; [by apply (upd_pcb_run s1 r p)|].
    eapply returns_mono; [apply Hmr; right; unfold P1; rewrite lookup_insert_eq; eauto|].
    intros ? s' (h2 & -> & Hk2). exists h2. split; [by destruct s|done].
Qed.

(** The new line, as [TrapTtyReceive] leaves it. *)
Definition typed_line (len : Z) (bytes : list Z) : TtyLine :=
  mkTtyLine len 0 (bytes ++ drop (length bytes) (replicate (Z.to_nat TERMINAL_MAX_LINE) 0)).

Lemma unread_typed len bytes : len = Z.of_nat (length bytes) -> unread (typed_line len bytes) = bytes.
Proof.
  intros ->. unfold unread, typed_line. simpl. rewrite Z.sub_0_r, Nat2Z.id, drop_0. by rewrite take_app_length.
Qed.

(** C21: a typed line is delivered once.  The receive trap of a terminal takes a line from the
    hardware into a fresh block - if [calloc] has none, nothing happens and the input is
    lost, and if the hardware has no line the block is freed again - with all its bytes
    unread.  If a process waits on the terminal, the one that has waited longest gets the
    line, waits no more and is ready; otherwise the line goes behind the others in the
    input queue.  Nothing else changes. *)
Theorem receive_delivers s c t readers q ext :
  let start := kmalloc (sizeof "TtyLine") (k_mem s) in
  kq_ok s c -> heap_ok (k_mem s) ext -> uc_code (uctxt s) = t -> TtyValid t = true ->
  c !! QTtyRead t = Some readers -> c !! QTtyInput t = Some q ->
  (forall l, queued c (ELine l) -> l ∈ inuse (k_mem s)) ->
  returns TrapTtyReceive (fun _ s' => exists m',
    (start = Ok None m' /\ s' = set_k_mem m' s) \/
    exists l h, start = Ok (Some l) m' /\ l <> 0 /\ l ∉ inuse (k_mem s) /\
      let '(len, bytes) := tty_receive (log m') t in let m2 := add_log (EvTtyReceive t) m' in
      if len <? 0
      then kq_ok s' c /\ s' = set_k_queues h (set_tty_lines (delete l (tty_lines s))
             (set_k_mem (set_inuse (inuse m' ∖ {[l]}) m2) s))
      else let '(P', c') := spec_deliver (idle_process s) t l (pcbs s, c) in
           kq_ok s' c' /\ unread (typed_line len bytes) = bytes /\
           s' = with_sched P' h (set_tty_lines (<[l := typed_line len bytes]> (tty_lines s)) (set_k_mem m2 s))) s.
Proof.
  intros start Hk Hh Ht Hval Hrd Hin Hlines. unfold TrapTtyReceive.
  eapply wp_step; [reflexivity|]. rewrite Ht, Hval. cbn [negb].
  destruct (wp_returns _ _ _ (kmalloc_ok _ ext (sizeof "TtyLine") Hh)) as (r & m' & Hrun & _ & _ & Hr).
  pose proof (calloc_line_run s r m' Hrun) as Hcl.
  destruct r as [l|]; [|eapply wp_step; [exact Hcl|]; by eapply returns_ok; [reflexivity|exists m'; left]].
  destruct Hr as (Hl0 & Hfresh & Hinuse). eapply wp_step; [exact Hcl|].
  test_false (l =? 0). set (s1 := set_tty_lines _ _).
  assert (Hnq : ~ queued c (ELine l)) by (by intros ?%Hlines).
  assert (Hk1 : kq_ok s1 c) by (by apply (kq_ok_same s)).
  destruct (kq_init_line s1 c l Hk1 Hnq) as (h & Hini & Hk2 & Hown). eapply wp_step; [exact Hini|].
  eapply wp_step; [reflexivity|]. eapply wp_step; [reflexivity|].
  set (s2 := set_k_mem _ _). change (log (k_mem (set_k_queues h s1))) with (log m').
  destruct (tty_receive (log m') t) as [len bytes] eqn:Hrec.
  eapply wp_step; [apply (upd_line_run s2 l); simpl; apply lookup_insert_eq|].
  set (s3 := set_tty_lines _ s2). destruct (Z.ltb_spec len 0) as [Hneg|Hpos].
  - assert (Hk3 : kq_ok (set_tty_lines (delete l (tty_lines s3))
      (set_k_mem (set_inuse (inuse m' ∖ {[l]}) (k_mem s3)) s3)) c) by (by apply (kq_ok_same (set_k_queues h s1))).
    destruct (kq_forget_line _ c l Hk3 Hnq) as (h' & Hfg & Hk4). unfold free_line.
    eapply wp_step; [apply in_mem_run, (kfree_run _ l); [done|simpl; rewrite Hinuse; set_solver]|].
    eapply wp_step; [reflexivity|]. eapply returns_ok; [exact Hfg|].
    exists m'. right. exists l, h'. split_and!; [done..|]. rewrite Hrec. test_true (len <? 0).
    split; [exact Hk4|]. simpl. by rewrite insert_insert_eq, delete_insert_eq.
  - eapply wp_step; [apply (upd_line_run s3 l); simpl; apply lookup_insert_eq|]. set (s4 := set_tty_lines _ s3).
    assert (Hk4 : kq_ok s4 c) by (by apply (kq_ok_same (set_k_queues h s1))).
    pose proof (deliver_ok s4 c t l readers q Hk4 Hrd Hin Hnq Hown) as Hd.
    change (idle_process s4) with (idle_process s) in Hd. change (pcbs s4) with (pcbs s) in Hd.
    destruct (spec_deliver (idle_process s) t l (pcbs s, c)) as [P' c'] eqn:Hsp.
    eapply returns_mono; [exact Hd|]. intros ? s' (h' & -> & Hk5).
    exists m'. right. exists l, h'. split_and!; [done..|]. rewrite Hrec, Hsp. test_false (len <? 0).
    split; [exact Hk5|]. split.
    + apply unread_typed. destruct (tty_receive_len _ _ _ _ Hrec); lia.
    + unfold s4, s3, s2, s1. simpl. by rewrite !insert_insert_eq.
Qed.
End Receiving.

(** ** Witness: init waits for a line, its child runs, and a line is typed *)

Definition lines_check (s : kst) (c : qlists) : Prop :=
  map_Forall (fun _ l => Forall (fun e => match e with ELine l => l ∈ inuse (k_mem s) | _ => True end) l) c.
#[export] Instance lines_check_dec s c : Decision (lines_check s c).
Proof. apply map_Forall_dec. intros q l. apply Forall_dec. intros []; apply _. Defined.
Lemma lines_check_sound s c l : lines_check s c -> queued c (ELine l) -> l ∈ inuse (k_mem s).
Proof. intros Hc (q & l0 & Hq & Hl). pose proof (Hc q l0 Hq) as Hf. rewrite Forall_forall in Hf. exact (Hf _ Hl). Qed.

Module ReceivingWitness.
Import Booted.
#[local] Existing Instance tiny.
#[local] Existing Instance tiny_laws.
#[local] Existing Instance walking_mmu.

Definition script : list action := [ASyscall YALNIX_FORK []; ASyscall YALNIX_TTY_READ [0; 1152; 1]].
Definition listening : kst := Eval vm_compute in
  let s := state_of (run_script 10 script (Some (inl booted))) in set_uctxt (set_uc_code 0 (uctxt s)) s.
Definition lists1 : qlists := lists_of (k_queues listening).
Definition heap_frames : list Z := frames_outside (k_mem listening) (kernel_region0_pt (k_mem listening)).

Lemma listening_heap : heap_ok (k_mem listening) heap_frames.
Proof.
  split; [by vm_compute|by vm_compute| |].
  - apply accounted_b_sound. by vm_compute.
  - apply unmapped_b_sound. by vm_compute.
Qed.

Lemma receive_delivers_witness :
  returns TrapTtyReceive (fun _ s' => exists m',
    (kmalloc (sizeof "TtyLine") (k_mem listening) = Ok None m' /\ s' = set_k_mem m' listening) \/
    exists l h, kmalloc (sizeof "TtyLine") (k_mem listening) = Ok (Some l) m' /\ l <> 0 /\ l ∉ inuse (k_mem listening) /\
      let '(len, bytes) := tty_receive (log m') 0 in let m2 := add_log (EvTtyReceive 0) m' in
      if len <? 0
      then kq_ok s' lists1 /\ s' = set_k_queues h (set_tty_lines (delete l (tty_lines listening))
             (set_k_mem (set_inuse (inuse m' ∖ {[l]}) m2) listening))
      else let '(P', c') := spec_deliver (idle_process listening) 0 l (pcbs listening, lists1) in
           kq_ok s' c' /\ unread (typed_line len bytes) = bytes /\
           s' = with_sched P' h (set_tty_lines (<[l := typed_line len bytes]> (tty_lines listening))
                  (set_k_mem m2 listening))) listening /\
  lists1 !! QTtyRead 0 = Some [EBlock init].
Proof.
  split; [|by vm_compute].
  apply (receive_delivers listening lists1 0 [EBlock init] [] heap_frames).
  - apply kq_check_sound. by_computing.
  - exact listening_heap.
  - reflexivity.
  - reflexivity.
  - by vm_compute.
  - by vm_compute.
  - intros l. apply lines_check_sound. by_computing.
Defined.
End ReceivingWitness.
