(* ===== verification/Reaping.v ===== *)
(** * Waiting for a child and its destruction ([SysWait], [ProcessDestroy])

    A parent that waits is given the first of its children that is a zombie: the status is
    stored, and everything the child still held - its page table and frames, its kernel
    stack, its slot in the process table, its PCB - is released. *)

From S2P Require Import Prelude Framework Queue Memory Mmu UserBytes KernelBrk BootMemory State Process Ipc.
From S2P Require Import Exit Tty Loader Syscalls Trap KernelStart Machine Scheduler Waiting Locks Exiting.
From S2P Require Import Pipes Copying.

(** ** Entries of live processes *)

Lemma set_same_queues s : set_k_queues (k_queues s) s = s.
Proof. by destruct s. Qed.

Lemma entry_linked_run s c p e :
  kq_ok s c -> is_Some (pcbs s !! p) -> entry_proc e = Some p ->
  entry_linked e s = Ok (bool_decide (queued c e)) s.
Proof.
  intros Hk Hp He. destruct (kq_cell s c p e Hk Hp He) as [n Hn].
  unfold entry_linked. rewrite (bind_ok _ _ _ _ _ (in_queues_run (load (QEnt e)) s n (k_queues s)
    ltac:(unfold load; by rewrite Hn))), set_same_queues. unfold mret, M_ret. f_equal.
  pose proof (queued_dec_linked _ _ e (kq_abs _ _ Hk)) as Hq. unfold prv in Hq. rewrite Hn in Hq. simpl in Hq.
  apply bool_decide_ext. destruct (decide (queued c e)); [naive_solver|].
  rewrite (proj2 Hq) by done. naive_solver.
Qed.

Lemma owner_run s c p e :
  kq_ok s c -> is_Some (pcbs s !! p) -> entry_proc e = Some p -> entry_owner (QEnt e) s = Ok p s.
Proof.
  intros Hk Hp He. pose proof (kq_owner _ _ Hk p e Hp He) as Ho. unfold owner_of in Ho.
  destruct (cells (k_queues s) !! QEnt e) as [n|] eqn:Hn; [|done]. simpl in Ho. injection Ho as Ho. unfold entry_owner.
  rewrite (bind_ok _ _ _ _ _ (in_queues_run (load (QEnt e)) s n (k_queues s) ltac:(unfold load; by rewrite Hn))).
  by rewrite set_same_queues, Ho.
Qed.

Lemma kq_remove s c q l e :
  kq_ok s c -> c !! q = Some l -> e ∈ l ->
  exists h, (in_queues (QueueRemove q (QEnt e)) : K unit) s = Ok tt (set_k_queues h s) /\
    kq_ok (set_k_queues h s) (spec_remove q e c).
Proof.
  intros Hk Hq He. destruct (QueueRemove_ok _ _ q l e (kq_abs _ _ Hk) Hq He) as (h & Hr & Ha & Ho).
  exists h. split; [by apply in_queues_run|]. eapply kq_ok_queues; [done|done|done|..]; unfold spec_remove.
  - intros q' l' e'. destruct (decide (q = q')) as [<-|Hne].
    + rewrite lookup_alter_eq, Hq. simpl. intros [= <-] [_ ?]%list_elem_of_filter. left. eauto.
    + rewrite lookup_alter_ne by done. left. eauto.
  - destruct (kq_ready _ _ Hk) as [l0 Hl0]. destruct (decide (q = QReady)) as [->|Hne].
    + rewrite lookup_alter_eq, Hl0. simpl. eauto.
    + rewrite lookup_alter_ne by done. eauto.
Qed.

Lemma spec_remove_gone (c : qlists) (q : qid) (e : eid) h :
  qabs h c -> is_Some (c !! q) -> (forall q' l, c !! q' = Some l -> e ∈ l -> q' = q) -> ~ queued (spec_remove q e c) e.
Proof.
  intros Ha [l Hl] Hq (q' & l' & Hq' & He). unfold spec_remove in Hq'. destruct (decide (q = q')) as [<-|Hne].
  - rewrite lookup_alter_eq, Hl in Hq'. simpl in Hq'. simplify_eq. by apply list_elem_of_filter in He as [? _].
  - rewrite lookup_alter_ne in Hq' by done. by rewrite (Hq _ _ Hq' He) in Hne.
Qed.

Section Reaping.
Context {F : Framework} {T : Mmu} {FL : FrameworkLaws F} {TL : MmuLaws T}.

(** ** Looking for a zombie *)

(** The first zombie among the entries of a list of children. *)
Fixpoint first_zombie (P : gmap Z PCB) (l : list eid) : Z :=
  match l with
  | EChild x :: l' =>
      if decide (state <$> P !! x = Some PROC_ZOMBIE) then x else first_zombie P l'
  | _ => 0
  end.

(** The cell the search is at when the children [l] are left. *)
Definition ring_at (q : qid) (l : list eid) : qaddr qid eid :=
  match l with [] => QHead q | e :: _ => QEnt e end.

Lemma ring_at_next h c q l1 e l2 :
  qabs h c -> c !! q = Some (l1 ++ e :: l2) -> nxt h (QEnt e) = Some (ring_at q l2).
Proof.
  intros Ha Hq. pose proof (qabs_ring _ _ Ha _ _ Hq) as Hr.
  rewrite fmap_app, fmap_cons in Hr. apply linked_app in Hr as [_ Hr]. apply linked_next in Hr.
  rewrite Hr. by destruct l2.
Qed.

Lemma find_zombie_ok fuel s c p l1 l2 :
  kq_ok s c -> c !! QChildren p = Some (l1 ++ l2) -> (length l2 <= fuel)%nat ->
  find_zombie fuel p (Some (ring_at (QChildren p) l2)) s = Ok (first_zombie (pcbs s) l2) s.
Proof.
  intros Hk. revert l1 fuel. induction l2 as [|e l2 IH]; intros l1 fuel Hq Hf.
  - destruct fuel; simpl; by rewrite decide_True.
  - assert (He : e ∈ l1 ++ e :: l2) by set_solver.
    pose proof (kq_fits _ _ Hk _ _ e Hq He) as Hfit. destruct e as [x|x|x|x]; try done.
    pose proof (kq_live _ _ Hk _ _ _ x Hq He eq_refl) as [pcb Hx].
    pose proof (ring_at_next _ _ _ _ _ _ (kq_abs _ _ Hk) Hq) as Hn.
    unfold nxt in Hn. destruct (cells (k_queues s) !! QEnt (EChild x)) as [n|] eqn:Hc; [|done]. simpl in Hn.
    assert (Hstep : find_zombie fuel p (Some (ring_at (QChildren p) (EChild x :: l2))) s =
      if decide (state pcb = PROC_ZOMBIE) then Ok x s
      else match fuel with
           | O => Stop (Fault "children longer than their number") s
           | S fuel' => find_zombie fuel' p (next n) s
           end).
    { destruct fuel; cbn [find_zombie ring_at]; rewrite (decide_False (P := Some (QEnt (EChild x)) = Some (QHead (QChildren p)))) by done; cbn [deref]; rewrite bind_ret;
      rewrite (bind_ok _ _ _ _ _ (owner_run s c x (EChild x) Hk ltac:(eauto) eq_refl));
      rewrite (bind_ok _ _ _ _ _ (get_pcb_run s x pcb Hx)); case_decide; try done;
      by rewrite (bind_ok _ _ _ _ _ (in_queues_run (load (QEnt (EChild x))) s n (k_queues s)
        ltac:(unfold load; by rewrite Hc))), set_same_queues. }
    rewrite Hstep, Hn. simpl. rewrite Hx. simpl. destruct (decide (state pcb = PROC_ZOMBIE)) as [Hz|Hz].
    + by rewrite decide_True by by rewrite Hz.
    + rewrite decide_False by congruence. destruct fuel as [|fuel]; [simpl in Hf; lia|].
      apply (IH (l1 ++ [EChild x])); [by rewrite <- app_assoc|simpl in Hf; lia].
Qed.

Lemma first_zombie_in P l x : first_zombie P l = x -> x <> 0 -> EChild x ∈ l /\ state <$> P !! x = Some PROC_ZOMBIE.
Proof.
  intros <-. induction l as [|[y|y|y|y] l IH]; simpl; try done. case_decide as Hz; [set_solver|].
  intros Hne. destruct (IH Hne). set_solver.
Qed.

(** ** Releasing the memory of a process *)

Definition unregistered (ch pid : Z) (tbl : list Z) : list Z :=
  if (0 <=? pid) && (pid <? MAX_PROCS) && bool_decide (zlookup tbl pid = Some ch)
  then <[Z.to_nat pid := 0]> tbl else tbl.

(** The kernel stack's frames given back. *)
Lemma free_stack_ok s p pcb f0 f1 :
  p <> idle_process s -> pcbs s !! p = Some pcb -> kernel_stack_pfns pcb = [f0; f1] -> f0 <> 0 -> f1 <> 0 ->
  mem_wf (k_mem s) -> used (k_mem s) f0 -> used (k_mem s) f1 ->
  ProcessFreeKernelStack p s = Ok tt
    (set_k_mem (mark_frame f1 false (mark_frame f0 false (k_mem s)))
      (set_pcbs (<[p := set_kernel_stack_pfns [0; 0] pcb]> (pcbs s)) s)).
Proof.
  intros Hidle Hp Hfs H0 H1 Hwf [Hr0 _] [Hr1 _]. unfold ProcessFreeKernelStack. rewrite bind_gets.
  test_false (p =? idle_process s). rewrite kstack_pages.
  assert (Hpfn : forall s1 pcb1 i f, pcbs s1 !! p = Some pcb1 -> zlookup (kernel_stack_pfns pcb1) i = Some f ->
    stack_pfn p i s1 = Ok f s1).
  { intros s1 pcb1 i f Hp1 Hf. unfold stack_pfn. rewrite (bind_ok _ _ _ _ _ (get_pcb_run _ _ _ Hp1)). by rewrite Hf. }
  assert (Hturn : forall s1 pcb1 i f, pcbs s1 !! p = Some pcb1 -> zlookup (kernel_stack_pfns pcb1) i = Some f ->
    f <> 0 -> mem_wf (k_mem s1) -> 0 <= f < physical_frame_count (k_mem s1) ->
    (f ← stack_pfn p i; if negb (f =? 0) then in_mem (FrameFree f) ;; set_stack_pfn p i 0 else skip : K unit) s1 =
    Ok tt (set_pcbs (<[p := set_kernel_stack_pfns (<[Z.to_nat i := 0]> (kernel_stack_pfns pcb1)) pcb1]> (pcbs s1))
      (set_k_mem (mark_frame f false (k_mem s1)) s1))).
  { intros s1 pcb1 i f Hp1 Hf Hf0 Hw Hr. rewrite (bind_ok _ _ _ _ _ (Hpfn s1 pcb1 i f Hp1 Hf)). test_false (f =? 0). simpl.
    rewrite (bind_ok _ _ _ _ _ (in_mem_run _ _ _ _ (FrameFree_run _ f Hw Hr))). unfold set_stack_pfn.
    rewrite (bind_ok _ _ _ _ _ (Hpfn (set_k_mem (mark_frame f false (k_mem s1)) s1) pcb1 i f Hp1 Hf)).
    by rewrite (upd_pcb_run _ p pcb1). }
  unfold for_range. change (Z.to_nat (2 - 0)) with 2%nat. cbn [for_n].
  rewrite (bind_ok _ _ _ _ _ (Hturn s pcb 0 f0 Hp ltac:(by rewrite Hfs) H0 Hwf Hr0)).
  set (s1 := set_pcbs _ _). set (pcb1 := set_kernel_stack_pfns _ pcb) in s1.
  assert (Hp1 : pcbs s1 !! p = Some pcb1) by (unfold s1; simpl; apply lookup_insert_eq).
  rewrite (bind_ok _ _ _ _ _ (Hturn s1 pcb1 1 f1 Hp1 ltac:(unfold pcb1; by rewrite Hfs) H1 (mem_wf_mark _ _ _ Hwf) Hr1)).
  unfold mret, M_ret. unfold s1, pcb1. simpl. rewrite Hfs. simpl. by rewrite insert_insert_eq.
Qed.

(** ** Forgetting a PCB *)

Lemma kq_forget_pcb s c p :
  kq_ok s c -> c !! QChildren p = Some [] -> (forall e, entry_proc e = Some p -> ~ queued c e) ->
  let s1 := set_pcbs (delete p (pcbs s)) s in
  exists h, (forget [QChildren p] [EReady p; EBlock p; EChild p] : K unit) s1 = Ok tt (set_k_queues h s1) /\
    kq_ok (set_k_queues h s1) (delete (QChildren p) c).
Proof.
  intros [[Hr Hlen Hnd Hd Hu] Hf Hl Howner Hn Hrd] Hch Hnq s1. eexists. split; [reflexivity|].
  set (h := mkHeap _ _).
  assert (Hsub : forall q l, delete (QChildren p) c !! q = Some l -> q <> QChildren p /\ c !! q = Some l).
  { intros q l [? ?]%lookup_delete_Some. by split. }
  assert (Hcell : forall e, entry_proc e <> Some p -> cells h !! QEnt e = cells (k_queues s) !! QEnt e).
  { intros e He. unfold h. simpl. by rewrite !lookup_delete_ne by (intros [= <-]; done). }
  assert (Hhead : forall q, q <> QChildren p -> cells h !! QHead q = cells (k_queues s) !! QHead q).
  { intros q Hq. unfold h. simpl. by rewrite !lookup_delete_ne by congruence. }
  assert (Hq' : forall e, ~ queued (delete (QChildren p) c) e -> ~ queued c e).
  { intros e He (q & l & Hq & Hel). apply He. exists q, l. split; [|done]. apply lookup_delete_Some. split; [|done].
    intros <-. rewrite Hch in Hq. injection Hq as <-. by apply not_elem_of_nil in Hel. }
  split; simpl; fold h.
  - split.
    + intros q l [Hne Hq]%Hsub. eapply linked_frame; [| |by apply Hr];
      (intros a [->|(x & -> & Hx)%list_elem_of_fmap]%elem_of_cons; unfold nxt, prv; [by rewrite Hhead|];
       rewrite Hcell; [done|]; intros He; by apply (Hnq x He); exists q, l).
    + intros q l [Hne Hq]%Hsub. unfold h. simpl. rewrite lookup_delete_ne by congruence. by apply Hlen.
    + intros q l [_ Hq]%Hsub. by eapply Hnd.
    + intros q1 q2 l1 l2 e [_ H1]%Hsub [_ H2]%Hsub. by eapply Hd.
    + intros e He. unfold nxt, prv. destruct (decide (entry_proc e = Some p)) as [Hep|Hep].
      * assert (Hno : cells h !! QEnt e = None); [|by rewrite Hno].
        unfold h. simpl. destruct e as [x|x|x|x]; simpl in Hep; try done; injection Hep as ->.
        -- rewrite lookup_delete_ne by done. apply lookup_delete_eq.
        -- do 2 rewrite lookup_delete_ne by done. apply lookup_delete_eq.
        -- do 3 rewrite lookup_delete_ne by done. apply lookup_delete_eq.
      * rewrite Hcell by done. by apply Hu, Hq'.
  - intros q l e [_ Hq]%Hsub. by eapply Hf.
  - intros q l e x [_ Hq]%Hsub He Hx. apply lookup_delete_is_Some. split; [|by eapply Hl].
    intros ->. apply (Hnq e Hx). by exists q, l.
  - intros x e [Hne Hx]%lookup_delete_is_Some He. unfold owner_of. rewrite Hcell by congruence. by apply Howner.
  - apply lookup_delete_None. by right.
  - by rewrite lookup_delete_ne.
Qed.

(** ** Destroying a process *)

(** What [ProcessDestroy] is called on: a child of a live parent, without children of its own,
    neither ready nor waiting, whose memory is in the accounts. *)
Record reapable (s : kst) (c : qlists) (ch : Z) (pcb : PCB) (ext : list Z) : Prop := {
  rp_kq : kq_ok s c;
  rp_slots : length (process_table s) = Z.to_nat MAX_PROCS;
  rp_pcb : pcbs s !! ch = Some pcb;
  rp_not_idle : ch <> idle_process s;
  rp_parent : parent pcb <> 0 /\ parent pcb <> ch;
  rp_child : exists l, c !! QChildren (parent pcb) = Some l /\ EChild ch ∈ l;
  rp_childless : c !! QChildren ch = Some [];
  rp_unqueued : ~ queued c (EReady ch) /\ ~ queued c (EBlock ch);
  rp_memory : accounted (k_mem s) (region1_pt pcb) ext;
  rp_stack : exists f0 f1, kernel_stack_pfns pcb = [f0; f1] /\ f0 <> 0 /\ f1 <> 0 /\ f0 <> f1 /\
    f0 ∈ ext /\ f1 ∈ ext;
  rp_blocks : region1_pt pcb ∈ inuse (k_mem s) /\ ch ∈ inuse (k_mem s) /\ region1_pt pcb <> ch
}.

(** The memory without a process: its frames and blocks are free, the rest is as it was. *)
Record memory_released (m m' : mem) (ch : Z) (pcb : PCB) (ext : list Z) : Prop := {
  mr_used : forall f, used m' f <-> f ∈ ext /\ f ∉ kernel_stack_pfns pcb;
  mr_inuse : inuse m' = inuse m ∖ {[region1_pt pcb]} ∖ {[ch]};
  mr_table : page_tables m' !! region1_pt pcb = None;
  mr_tables : forall pt, pt <> region1_pt pcb -> page_tables m' !! pt = page_tables m !! pt;
  mr_count : physical_frame_count m' = physical_frame_count m;
  mr_regs : ptbr0 m' = ptbr0 m /\ ptbr1 m' = ptbr1 m /\ vm_enabled m' = vm_enabled m /\
    kernel_region0_pt m' = kernel_region0_pt m;
  mr_ram : ram m' = ram m
}.

(** The queues without it. *)
Definition unlinked_child (c : qlists) (ch par : Z) : qlists :=
  delete (QChildren ch) (spec_remove (QChildren par) (EChild ch) c).

Definition destroyed (s s' : kst) (c : qlists) (ch : Z) (pcb : PCB) (ext : list Z) : Prop :=
  exists h m', kq_ok s' (unlinked_child c ch (parent pcb)) /\ memory_released (k_mem s) m' ch pcb ext /\
    s' = set_k_queues h (set_process_table (unregistered ch (pid pcb) (process_table s))
           (set_pcbs (delete ch (pcbs s)) (set_k_mem m' s))).

Lemma unregister_run s ch pid :
  length (process_table s) = Z.to_nat MAX_PROCS ->
  (if (0 <=? pid) && (pid <? MAX_PROCS) then
     slot ← get_slot pid; if slot =? ch then set_slot pid 0 else skip
   else skip : K unit) s = Ok tt (set_process_table (unregistered ch pid (process_table s)) s).
Proof.
  intros Hlen. unfold unregistered. destruct ((0 <=? pid) && (pid <? MAX_PROCS)) eqn:Hr; simpl; [|by destruct s].
  bool_to_prop. destruct (zlookup_is_Some (process_table s) pid) as [q Hq]; [lia|].
  assert (Hg : get_slot pid s = Ok q s) by (unfold get_slot; by rewrite Hq).
  rewrite (bind_ok _ _ _ _ _ Hg), Hq. destruct (Z.eqb_spec q ch) as [->|Hne].
  - rewrite bool_decide_true by done. unfold set_slot. by rewrite (bind_ok _ _ _ _ _ Hg).
  - rewrite bool_decide_false by congruence. by destruct s.
Qed.

(** The memory side: the page table's frames, the two stack frames, the table, the PCB. *)
Lemma memory_released_ok m ch pcb ext f0 f1 :
  accounted m (region1_pt pcb) ext -> kernel_stack_pfns pcb = [f0; f1] -> f0 <> f1 -> f0 ∈ ext -> f1 ∈ ext ->
  exists m2, MemoryFreePageTableFrames (region1_pt pcb) m = Ok tt m2 /\ mem_wf m2 /\ inuse m2 = inuse m /\
    used m2 f0 /\ used m2 f1 /\
    let m3 := mark_frame f1 false (mark_frame f0 false m2) in
    memory_released m (set_inuse (inuse m ∖ {[region1_pt pcb]} ∖ {[ch]})
      (set_tables (delete (region1_pt pcb) (page_tables m3)) m3)) ch pcb ext.
Proof.
  intros Hacc Hfs Hne H0 H1. destruct (MemoryFreePageTableFrames_ok m _ ext Hacc) as (m2 & Hr & Ha & Ho & _ & Hu).
  pose proof (acc_wf _ _ _ Ha) as Hwf. exists m2. split_and!; [done|done|by destruct Ho|by apply Hu|by apply Hu|].
  intros m3. assert (Hu0 : used m2 f0) by by apply Hu. assert (Hu1 : used m2 f1) by by apply Hu.
  pose proof (mem_wf_mark m2 f0 false Hwf) as Hwf1.
  assert (Hm3 : forall f, used m3 f <-> f ∈ ext /\ f ∉ [f0; f1]).
  { intros f. destruct (decide (0 <= f < physical_frame_count m2)) as [Hf|Hf].
    - unfold m3. rewrite used_mark by (done || apply Hu1).
      destruct (decide (f1 = f)) as [->|]; [set_solver|]. rewrite used_mark by (done || apply Hu0).
      destruct (decide (f0 = f)) as [->|]; [set_solver|]. rewrite Hu. set_solver.
    - split; [by intros [? _]|]. intros [Hin%Hu _]. by destruct Hin. }
  destruct Ho. rewrite <- Hfs in Hm3. split; try done.
  - simpl. apply lookup_delete_eq.
  - intros pt Hpt. simpl. rewrite lookup_delete_ne by done. auto.
Qed.

(** Taking an entry off the one queue it is in. *)
Lemma spec_remove_queued s c q l e x :
  kq_ok s c -> c !! q = Some l -> e ∈ l -> queued (spec_remove q e c) x -> queued c x /\ x <> e.
Proof.
  intros Hk Hl Hin (q' & l' & Hq & Hx). unfold spec_remove in Hq. destruct (decide (q = q')) as [<-|Hne].
  - rewrite lookup_alter_eq, Hl in Hq. simpl in Hq. injection Hq as <-.
    apply list_elem_of_filter in Hx as [? ?]. split; [by exists q, l|done].
  - rewrite lookup_alter_ne in Hq by done. split; [by exists q', l'|]. intros ->. apply Hne.
    by eapply (qabs_disjoint _ _ (kq_abs _ _ Hk)).
Qed.

(** The second half of [ProcessDestroy], once the process is in no queue. *)
Lemma destroy_memory_ok s c ch pcb ext f0 f1 :
  kq_ok s c -> c !! QChildren ch = Some [] -> (forall e, entry_proc e = Some ch -> ~ queued c e) ->
  pcbs s !! ch = Some pcb -> ch <> 0 -> ch <> idle_process s -> accounted (k_mem s) (region1_pt pcb) ext ->
  kernel_stack_pfns pcb = [f0; f1] -> f0 <> 0 -> f1 <> 0 -> f0 <> f1 -> f0 ∈ ext -> f1 ∈ ext ->
  region1_pt pcb ∈ inuse (k_mem s) -> ch ∈ inuse (k_mem s) -> region1_pt pcb <> ch ->
  returns (retire_pid (pid pcb) ;;
    in_mem (MemoryFreePageTableFrames (region1_pt pcb)) ;;
    ProcessFreeKernelStack ch ;;
    in_mem (free_page_table (region1_pt pcb)) ;;
    free_pcb ch : K unit)
    (fun _ s' => exists h m', kq_ok s' (delete (QChildren ch) c) /\ memory_released (k_mem s) m' ch pcb ext /\
       s' = set_k_queues h (set_pcbs (delete ch (pcbs s)) (set_k_mem m' s))) s.
Proof.
  intros Hk Hch Hnq Hp Hch0 Hidle Hacc Hfs H0 H1 Hne Hf0 Hf1 Hpt Hchi Hptch.
  eapply wp_step; [reflexivity|]. set (m0 := add_log (EvRetirePid (pid pcb)) (k_mem s)).
  destruct (memory_released_ok m0 ch pcb ext f0 f1) as (m2 & Hfree & Hwf & Hinu & Hu0 & Hu1 & Hrel);
    [by apply accounted_log|done..|].
  eapply wp_step; [apply in_mem_run; exact Hfree|]. set (s4 := set_k_mem m2 _).
  eapply wp_step; [by apply (free_stack_ok s4 ch pcb f0 f1)|]. set (m3 := mark_frame f1 false _) in *.
  set (s5 := set_k_mem m3 _). pose proof (acc_ptr _ _ _ Hacc) as Hptz.
  eapply wp_step.
  { apply in_mem_run. unfold free_page_table.
    rewrite (bind_ok _ _ _ _ _ (kfree_run (k_mem s5) (region1_pt pcb) Hptz ltac:(simpl; by rewrite Hinu))). reflexivity. }
  set (s6 := set_k_mem _ s5). unfold free_pcb.
  eapply wp_step; [apply in_mem_run, kfree_run; [done|simpl; rewrite Hinu; set_solver]|].
  eapply wp_step; [reflexivity|]. set (s7 := set_k_mem _ s6).
  assert (Hk7 : kq_ok s7 c).
  { apply (kq_ok_same (set_pcbs (<[ch := set_kernel_stack_pfns [0; 0] pcb]> (pcbs s)) s)); [|done..].
    by apply (kq_ok_pcb s c ch pcb). }
  destruct (kq_forget_pcb s7 c ch Hk7 Hch Hnq) as (h' & Hfg & Hk8).
  eapply returns_ok; [exact Hfg|]. exists h'. eexists. split; [exact Hk8|]. split; [destruct Hrel; by split|].
  unfold s7, s6, s5, s4, m3. simpl. rewrite delete_insert_eq, Hinu. reflexivity.
Qed.

Lemma ProcessDestroy_ok s c ch pcb ext :
  reapable s c ch pcb ext -> returns (ProcessDestroy ch) (fun _ s' => destroyed s s' c ch pcb ext) s.
Proof.
  intros [Hk Hlen Hp Hidle [Hpar Hself] (l & Hl & Hin) Hch [Hnr Hnb] Hacc (f0 & f1 & Hfs & H0 & H1 & Hne & Hf0 & Hf1) (Hpt & Hchi & Hptch)].
  assert (Hch0 : ch <> 0) by (intros ->; by rewrite (kq_nonnull _ _ Hk) in Hp).
  unfold ProcessDestroy. test_false (ch =? 0). run_step. test_false (parent pcb =? 0). cbn [negb].
  (* off the parent's list *)
  destruct (kq_remove s c _ l (EChild ch) Hk Hl Hin) as (h1 & Hrm & Hk1). set (c1 := spec_remove _ _ c) in *.
  set (s1 := set_k_queues h1 s) in *.
  eapply wp_step.
  { rewrite (bind_ok _ _ _ _ _ (entry_linked_run s c ch (EChild ch) Hk ltac:(eauto) eq_refl)).
    rewrite bool_decide_true by (by exists (QChildren (parent pcb)), l). exact Hrm. }
  assert (Hsub : forall e, queued c1 e -> queued c e /\ e <> EChild ch) by (intros e; by eapply spec_remove_queued).
  (* no children *)
  assert (Hch1 : c1 !! QChildren ch = Some []).
  { unfold c1, spec_remove. rewrite lookup_alter_ne; [done|]. intros [= ?]. done. }
  eapply returns_bind; [apply (orphan_children_ok s1 c1 ch [] Hk1 Hch1)|].
  intros ? s2 (h2 & -> & Hk2). rewrite insert_id in Hk2 by done. unfold orphaned in *. simpl in Hk2 |- *.
  set (s2 := with_sched (pcbs s) h2 s1) in *. assert (Hp2 : pcbs s2 !! ch = Some pcb) by done.
  (* in no other queue *)
  eapply wp_step; [by apply (entry_linked_run s2 c1 ch (EReady ch) Hk2); [eauto|]|].
  rewrite bool_decide_false by (by intros [? _]%Hsub). eapply wp_step; [reflexivity|]. run_step.
  eapply (wp_step _ _ _ _ _ _ tt s2).
  { destruct (block_queue pcb) as [q|]; [|done].
    rewrite (bind_ok _ _ _ _ _ (entry_linked_run s2 c1 ch (EBlock ch) Hk2 ltac:(eauto) eq_refl)).
    by rewrite bool_decide_false by (by intros [? _]%Hsub). }
  eapply wp_step; [by apply unregister_run|]. set (s3 := set_process_table _ s2).
  assert (Hk3 : kq_ok s3 c1) by (by apply (kq_ok_same s2)).
  eapply returns_mono; [apply (destroy_memory_ok s3 c1 ch pcb ext f0 f1); try done|].
  { intros e He Hq. destruct (Hsub e Hq) as [Hqe Hnc]. destruct e; simpl in He; simplify_eq; done. }
  intros ? s' (h & m' & Hk' & Hrel & ->). by exists h, m'.
Qed.

(** ** Waiting *)

Lemma word_bytes_ok v : length (word_bytes v) = 4%nat /\ Forall (fun b => 0 <= b < 256) (word_bytes v).
Proof.
  split; [done|]. unfold word_bytes. apply Forall_fmap, Forall_forall. intros k _. simpl.
  change 255 with (Z.ones 8). rewrite Z.land_ones by lia. by apply Z.mod_pos_bound.
Qed.

(** User memory does not change when another process is destroyed. *)
Lemma user_bytes_released m m' ch pcb ext a n :
  memory_released m m' ch pcb ext -> region1_pt pcb <> ptbr1 m -> VMEM_1_BASE <= a ->
  user_bytes m' a n = user_bytes m a n.
Proof.
  intros [_ _ _ Ht Hc (_ & H1 & _) Hr] Hne Ha. unfold user_bytes. apply list_fmap_ext. intros k i Hi.
  apply list_elem_of_lookup_2, elem_of_seqZ in Hi. unfold user_byte.
  assert (Hw : walk m' (a + i) = walk m (a + i)); [|by rewrite Hw, Hr].
  destruct (decide (a + i < VMEM_1_LIMIT)); [|by rewrite !walk_above by lia].
  rewrite !walk_region1 by lia. unfold table_entry. by rewrite H1, Ht.
Qed.

Lemma reapable_ram r s c ch pcb ext :
  reapable s c ch pcb ext -> reapable (set_k_mem (set_ram r (k_mem s)) s) c ch pcb ext.
Proof.
  intros [? ? ? ? ? ? ? ? Hacc ? ?]. split; try done; [by apply (kq_ok_same s)|].
  by apply (accounted_transfer (k_mem s)).
Qed.

(** The status is stored through [ptr], unless that is null. *)
Definition status_stored (m : mem) (ptr status : Z) : Prop :=
  ptr = 0 \/ user_bytes m ptr 4 = word_bytes status.

Definition can_store (s : kst) (ptr pt : Z) : Prop :=
  ptr = 0 \/ user_buffer s true ptr 4 /\ pt <> ptbr1 (k_mem s) /\ exists ext, accounted (k_mem s) (ptbr1 (k_mem s)) ext.

Lemma store_status_ok s ptr status pt :
  can_store s ptr pt ->
  exists r, (if negb (ptr =? 0) then in_mem (user_store_word ptr status) else skip : K unit) s =
    Ok tt (set_k_mem (set_ram r (k_mem s)) s) /\ status_stored (set_ram r (k_mem s)) ptr status.
Proof.
  intros [->|([Hvm Hu Hmap] & _ & ext & Hacc)]; simpl.
  - exists (ram (k_mem s)). split; [by destruct s as [[] ? ? ? ? ? ? ? ? ? ? ? ?]|by left].
  - destruct (word_bytes_ok status) as [Hlen Hb].
    destruct (user_store_ok (k_mem s) ext ptr (word_bytes status) Hvm Hacc Hu Hb) as (r & Hr & Hub).
    { by rewrite Hlen. }
    exists r. rewrite Hlen in Hub. split; [|by right].
    pose proof region0_size. pose proof max_pt_len_pos. pose proof pagesize_pos.
    test_false (ptr =? 0). by apply in_mem_run.
Qed.

(** The PCB of a parent that waits for a child. *)
Definition awaiting (u : UserContext) (pcb : PCB) : PCB :=
  set_state PROC_BLOCKED (set_user_context u (set_waiting_for_child true pcb)).

Definition await (s : kst) (pcb : PCB) : kst :=
  set_pcbs (<[current_process s := awaiting (uctxt s) pcb]> (pcbs s)) s.

Definition wait_outcome (caller ptr : Z) (s : kst) (c : qlists) (pp : PCB) (l : list eid) (call : K Z) : Prop :=
  let p := current_process s in
  let z := first_zombie (pcbs s) l in
  if decide (z = 0) then
    if decide (l = []) then call s = Ok ERROR s
    else wp call (fun _ _ => False)
           (fun kc s' => proc_ok (await s pp) c /\ scheduled_from (await s pp) c (KCSys caller (InWait p ptr)) kc s')
           (fun _ _ => False) s
  else forall zp ext, reapable s c z zp ext -> parent zp = p -> can_store s ptr (region1_pt zp) ->
    returns call (fun rc s' => rc = pid zp /\ status_stored (k_mem s') ptr (exit_status zp) /\
      exists r, destroyed (set_k_mem (set_ram r (k_mem s)) s) s' c z zp ext) s.

Lemma reap_ok s c z zp ext ptr :
  reapable s c z zp ext -> can_store s ptr (region1_pt zp) ->
  returns (c ← get_pcb z;
    (if negb (ptr =? 0) then in_mem (user_store_word ptr (exit_status c)) else skip) ;;
    ProcessDestroy z ;;
    mret (pid c) : K Z)
    (fun rc s' => rc = pid zp /\ status_stored (k_mem s') ptr (exit_status zp) /\
      exists r, destroyed (set_k_mem (set_ram r (k_mem s)) s) s' c z zp ext) s.
Proof.
  intros Hre Hcan. pose proof (rp_pcb _ _ _ _ _ Hre) as Hz. run_step.
  destruct (store_status_ok s ptr (exit_status zp) (region1_pt zp) Hcan) as (r & Hst & Hss).
  eapply wp_step; [exact Hst|]. set (s1 := set_k_mem _ s) in *.
  eapply returns_bind; [apply (ProcessDestroy_ok s1 c z zp ext); by apply reapable_ram|].
  intros ? s2 Hd. eapply returns_ok; [reflexivity|]. split; [done|]. split; [|by exists r].
  destruct Hd as (h & m' & _ & Hrel & ->). simpl. destruct Hss as [?|Hub]; [by left|].
  destruct Hcan as [?|([_ Hu _] & Hne & _)]; [by left|right].
  by rewrite (user_bytes_released _ _ _ _ _ _ _ Hrel).
Qed.

Lemma wait_turn_ok caller ptr s c pp l :
  proc_ok s c -> pcbs s !! current_process s = Some pp -> c !! QChildren (current_process s) = Some l ->
  wait_outcome caller ptr s c pp l (wait_turn caller (current_process s) ptr).
Proof.
  intros Hpk Hp Hl. pose proof (pk_kq _ _ Hpk) as Hk. set (p := current_process s) in *. set (z := first_zombie (pcbs s) l).
  assert (Hlen : lengths (k_queues s) !! QChildren p = Some (Z.of_nat (length l))) by (by apply (qabs_length _ _ (kq_abs _ _ Hk))).
  destruct (ring_head_cell _ _ _ _ (kq_abs _ _ Hk) Hl) as [n Hn].
  assert (Hnext : next n = Some (ring_at (QChildren p) l)).
  { pose proof (linked_next _ _ _ _ _ (qabs_ring _ _ (kq_abs _ _ Hk) _ _ Hl)) as Hx. unfold nxt in Hx. rewrite Hn in Hx.
    simpl in Hx. rewrite Hx. by destruct l. }
  assert (Hfind : forall (rest : Z -> K Z), (len ← in_queues (load_length (QChildren p));
      head ← in_queues (load (QHead (QChildren p)));
      child ← find_zombie (Z.to_nat len) p (next head); rest child) s = rest z s).
  { intros rest. rewrite (bind_ok _ _ _ _ _ (in_queues_run (load_length _) s _ (k_queues s) ltac:(unfold load_length; by rewrite Hlen))), set_same_queues.
    rewrite (bind_ok _ _ _ _ _ (in_queues_run (load _) s n (k_queues s) ltac:(unfold load; by rewrite Hn))), set_same_queues, Hnext.
    by rewrite (bind_ok _ _ _ _ _ (find_zombie_ok (Z.to_nat (Z.of_nat (length l))) s c p [] l Hk Hl ltac:(lia))). }
  assert (Hempty : in_queues (QueueIsEmpty (QChildren p)) s = Ok (bool_decide (l = [])) s).
  { rewrite (in_queues_run _ _ _ _ (QueueIsEmpty_ok _ _ _ _ (kq_abs _ _ Hk) Hl)). by rewrite set_same_queues. }
  unfold wait_outcome, wait_turn. fold p z. case_decide as Hz.
  - case_decide as Hnil.
    + rewrite Hfind. test_true (z =? 0). simpl. rewrite (bind_ok _ _ _ _ _ Hempty). by rewrite bool_decide_true.
    + unfold wp. rewrite Hfind. test_true (z =? 0). simpl. rewrite (bind_ok _ _ _ _ _ Hempty).
      rewrite bool_decide_false, bind_gets, (bind_ok _ _ _ _ _ (upd_pcb_run s p pp _ Hp)) by done.
      change (set_pcbs _ s) with (await s pp).
      assert (Hpk1 : proc_ok (await s pp) c).
      { replace (await s pp) with (with_sched (<[p := awaiting (uctxt s) pp]> (pcbs s)) (k_queues s) s) by (by destruct s).
        apply (proc_ok_insert s c p pp); [done..|].
        replace (with_sched _ _ s) with (await s pp) by (by destruct s). by apply (kq_ok_pcb s c p pp). }
      eapply wp_mono; [by apply (ProcessSchedule_from (await s pp) c)|done| |done]. done.
  - intros zp ext Hre Hpar Hcan. unfold returns, wp. rewrite Hfind. test_false (z =? 0). simpl. by apply reap_ok.
Qed.

(** C11: [Wait] reaps a child and leaks nothing.  If a child of the caller is a zombie, the first
    in the list of children is taken: its status is stored (unless the pointer is null), its
    pid returned, and it is destroyed - off its parent's list, out of the process table, PCB
    and page table freed, and of all the frames in use exactly those of its page table and
    of its kernel stack given back.  Without children the call returns ERROR and changes
    nothing; with living children only, the caller is blocked, marked as waiting, and
    the scheduler runs.  The turn after the wait does the same. *)
Theorem wait_reaps_child caller ptr s c pp l :
  proc_ok s c -> current_process s <> idle_process s -> pcbs s !! current_process s = Some pp ->
  c !! QChildren (current_process s) = Some l ->
  Forall (wait_outcome caller ptr s c pp l) [SysWait caller ptr; wait_turn caller (current_process s) ptr].
Proof.
  intros Hpk Hidle Hp Hl. pose proof (wait_turn_ok caller ptr s c pp l Hpk Hp Hl) as Hw.
  assert (Hcur : current_process s <> 0).
  { intros H0. by rewrite H0, (kq_nonnull _ _ (pk_kq _ _ Hpk)) in Hp. }
  repeat constructor; [|exact Hw]. revert Hw. unfold wait_outcome, returns, wp.
  assert (Heq : SysWait caller ptr s = wait_turn caller (current_process s) ptr s).
  { unfold SysWait, ProcessCurrent. rewrite !bind_gets.
    by test_false ((current_process s =? 0) || (current_process s =? idle_process s)). }
  by rewrite Heq.
Qed.
End Reaping.

(** ** Witness: the child of init has exited, and init waits *)

Module ReapingWitness.
Import Booted.
#[local] Existing Instance tiny.
#[local] Existing Instance tiny_laws.
#[local] Existing Instance walking_mmu.
#[local] Existing Instance walking_mmu_laws.

Definition script : list action :=
  [ASyscall YALNIX_FORK []; ATrap TRAP_CLOCK 0 0; ASyscall YALNIX_EXIT [7]].
Definition mourning : kst := Eval vm_compute in state_of (run_script 10 script (Some (inl booted))).
Definition lists1 : qlists := lists_of (k_queues mourning).
Definition child : Z := Eval vm_compute in
  first_zombie (pcbs mourning) (default [] (lists1 !! QChildren init)).
Definition others (pt : Z) : list Z := frames_outside (k_mem mourning) pt.

Lemma mourning_proc : proc_ok mourning lists1.
Proof. apply proc_check_sound; by_computing. Qed.

Lemma child_reapable :
  reapable mourning lists1 child (pcb_of child mourning) (others (region1_pt (pcb_of child mourning))).
Proof.
  split.
  - apply mourning_proc.
  - by vm_compute.
  - by vm_compute.
  - by vm_compute.
  - by vm_compute.
  - exists [EChild child]. split; [by vm_compute|apply list_elem_of_here].
  - by vm_compute.
  - split; by_computing.
  - apply accounted_b_sound. by vm_compute.
  - eexists _, _. split; [by vm_compute|]. split_and!; by_computing.
  - split_and!; by_computing.
Qed.

Lemma wait_reaps_child_witness :
  returns (SysWait init 1152) (fun rc s' => rc = pid (pcb_of child mourning) /\
    status_stored (k_mem s') 1152 (exit_status (pcb_of child mourning)) /\
    exists r, destroyed (set_k_mem (set_ram r (k_mem mourning)) mourning) s' lists1 child
      (pcb_of child mourning) (others (region1_pt (pcb_of child mourning)))) mourning /\
  exit_status (pcb_of child mourning) = 7.
Proof.
  split; [|by vm_compute].
  assert (Hp : pcbs mourning !! current_process mourning = Some (pcb_of init mourning)) by by vm_compute.
  assert (Hl : lists1 !! QChildren (current_process mourning) = Some [EChild child]) by by vm_compute.
  assert (Hz : first_zombie (pcbs mourning) [EChild child] = child) by by vm_compute.
  assert (Hnz : child <> 0) by by vm_compute.
  pose proof (wait_reaps_child init 1152 mourning lists1 (pcb_of init mourning) [EChild child]
    mourning_proc ltac:(by vm_compute) Hp Hl) as Hw.
  apply Forall_cons in Hw as [Hw _]. unfold wait_outcome in Hw. rewrite Hz, decide_False in Hw by exact Hnz.
  apply (Hw _ _ child_reapable); [by vm_compute|]. right. split; [by apply user_buffer_sound; vm_compute|].
  split; [by vm_compute|]. exists (others (ptbr1 (k_mem mourning))). apply accounted_b_sound. by vm_compute.
Defined.
End ReapingWitness.
