(* ===== verification/ExecStack.v ===== *)
(** * The initial stack of a program ([LoadProgram] of [template.c])

    The arguments of an exec are saved in a kernel buffer, the old memory is replaced, and
    the new stack is built from the buffer at the top of Region 1: the argument count, the
    pointers to the argument strings, two null pointers, and the strings themselves up to
    the last byte of the region. *)

From S2P Require Import Prelude Framework Queue Memory Mmu UserBytes KernelBrk BootMemory State Process Ipc.
From S2P Require Import Exit Tty Loader Syscalls Trap KernelStart Machine Scheduler Waiting Locks Pipes Copying Reaping.

(** ** Overwriting part of a list *)



Section ExecStack.
Context {F : Framework} {T : Mmu} {FL : FrameworkLaws F} {TL : MmuLaws T}.

(** ** Stores inside a mapped region *)






(** ** Building the stack *)

















End ExecStack.

(** Two arguments for the first process of the tiny machine. *)
Module ExecStackWitness.
Import Booted.
#[local] Existing Instance tiny.
#[local] Existing Instance tiny_laws.
#[local] Existing Instance walking_mmu.
#[local] Existing Instance walking_mmu_laws.



End ExecStackWitness.
